(** * Signal detectors and trade reconciler of the tick-trading bot

    A shallow embedding of [src/utils/strategy.ts] (the four signal
    detectors and the fast rescaled-range estimator) and of the trade
    life cycle of the bot's entry file (tick window, settlement handler,
    status poll with its authorization retry), followed by the properties
    the specification states about them.

    JavaScript numbers are IEEE 754 binary64 values: they are modelled by
    Rocq's primitive floats, whose operations are the processor's, so NaN,
    the infinities, signed zeros and rounding behave as they do in the
    program.  Array lengths, indices and counters, which the program only
    ever uses as small non-negative integers, are [nat] and are converted
    where the program does arithmetic on them. *)

From Stdlib Require Import Floats ZArith List Bool Lia PeanoNat.
Import ListNotations.

Set Warnings "-inexact-float".
Set Implicit Arguments.

(* ================================================================== *)
(** * JavaScript numbers and the [Math] builtins the program uses      *)
(* ================================================================== *)

Module JS.

Local Open Scope float_scope.

Notation "x >? y" := (PrimFloat.ltb y x) (at level 70, no associativity) : float_scope.
Notation "x >=? y" := (PrimFloat.leb y x) (at level 70, no associativity) : float_scope.

(** [x === y] on numbers. *)
Definition strict_eq (x y : float) : bool := x =? y.

(** The global [isFinite] on a number. *)
Definition isFinite (x : float) : bool := is_finite x.

(** A number in a boolean position: [0], [-0] and [NaN] are falsy. *)
Definition truthy (x : float) : bool := negb (is_zero x || is_nan x).

(** [Math.min(a, b)]: NaN if either is NaN, and [-0] is below [+0]. *)
Definition Math_min (a b : float) : float :=
  if is_nan a || is_nan b then nan
  else if a <? b then a
  else if b <? a then b
  else if is_zero a && get_sign a then a else b.

(** [Math.max(a, b)]: NaN if either is NaN, and [+0] is above [-0]. *)
Definition Math_max (a b : float) : float :=
  if is_nan a || is_nan b then nan
  else if a <? b then b
  else if b <? a then a
  else if is_zero a && negb (get_sign a) then a else b.

(** [Math.max(...xs)] and [Math.min(...xs)]: the empty spread gives
    [-Infinity] and [Infinity]. *)
Definition Math_max_list (xs : list float) : float :=
  fold_left Math_max xs neg_infinity.

Definition Math_min_list (xs : list float) : float :=
  fold_left Math_min xs infinity.

Definition Math_abs (x : float) : float := abs x.

Definition Math_sqrt (x : float) : float := sqrt x.

(** [Math.pow(x, 2)] and [x ** 2].  ECMAScript leaves [Math.pow]
    implementation-approximated; for the exponent 2 the engines return the
    correctly rounded square, which is the product. *)
Definition Math_pow2 (x : float) : float := x * x.

Definition two52 : float := 4503599627370496.

(** [Math.floor]: every binary64 value of magnitude at least 2^52 is an
    integer; below, adding and removing 2^52 rounds to the nearest integer,
    which is then corrected downwards. *)
Definition Math_floor (x : float) : float :=
  if is_nan x || is_infinity x then x
  else if abs x >=? two52 then x
  else
    let r := (abs x + two52) - two52 in
    if x >=? 0 then (if r >? x then r - 1 else r)
    else (if r <? abs x then - (r + 1) else - r).

(** A length or a counter as a number (exact below 2^53). *)
Fixpoint float_of_nat (n : nat) : float :=
  match n with
  | O => 0
  | S k => float_of_nat k + 1
  end.

(** A non-negative number used as an index or a count: its integer part
    (NaN and negative numbers give no iteration and the index 0). *)
Definition nat_of_float (x : float) : nat :=
  match Prim2SF x with
  | S754_finite false m e => Z.to_nat (Z.shiftl (Zpos m) e)
  | _ => O
  end.

(** [xs.slice(-n)]. *)
Definition slice_last {A} (n : nat) (xs : list A) : list A :=
  skipn (length xs - n) xs.

(** [xs.slice(a, b)] for [0 <= a <= b]. *)
Definition slice {A} (a b : nat) (xs : list A) : list A :=
  firstn (b - a) (skipn a xs).

(** [xs[i]] on an array of numbers; a missing element is [undefined],
    which every arithmetic operation and comparison reads as NaN. *)
Definition at_index (xs : list float) (i : nat) : float := nth i xs nan.

(** [xs.reduce((a, b) => a + b, 0)]. *)
Definition soma (xs : list float) : float := fold_left add xs 0.

(** [xs.reduce((acc, x, i) => f(acc, x, i), init)]. *)
Fixpoint reduce_i {A} (f : A -> float -> nat -> A) (xs : list float) (i : nat) (acc : A) : A :=
  match xs with
  | [] => acc
  | x :: r => reduce_i f r (S i) (f acc x i)
  end.

(** The consecutive differences [xs[i] - xs[i-1]] for [i = 1 .. length-1]. *)
Fixpoint diferencas_desde (prev : float) (xs : list float) : list float :=
  match xs with
  | [] => []
  | x :: r => (x - prev) :: diferencas_desde x r
  end.

Definition diferencas (xs : list float) : list float :=
  match xs with
  | [] => []
  | x :: r => diferencas_desde x r
  end.

(** An approximation of the natural logarithm, used to evaluate the
    detectors on concrete inputs.  ECMAScript only requires [Math.log] to
    approximate the logarithm and fixes its value at NaN, negative numbers,
    [0], [1] and [Infinity]; the properties below are proved for every
    function in the place of [Math.log], and this one only serves to run
    examples.  The argument is split as [m * 2^e] with [m] in
    [[sqrt(1/2), sqrt 2)], and [ln m = 2 atanh ((m-1)/(m+1))] is summed as
    a series. *)
Definition ln2 : float := 0.6931471805599453.

Fixpoint atanh_series (n : nat) (k : float) (s2 p : float) : float :=
  match n with
  | O => 0
  | S n' => p / k + atanh_series n' (k + 2) s2 (p * s2)
  end.

Definition log_approx (x : float) : float :=
  if is_nan x then nan
  else if x <? 0 then nan
  else if is_zero x then neg_infinity
  else if is_infinity x then infinity
  else
    let (m, se) := frshiftexp x in
    let e := of_uint63 se - 2101 in
    let '(m, e) := if m <? 0.7071067811865476 then (m * 2, e - 1) else (m, e) in
    let s := (m - 1) / (m + 1) in
    e * ln2 + 2 * atanh_series 12 1 (s * s) s.

End JS.

(* ================================================================== *)
(** * The signal detectors ([src/utils/strategy.ts])                   *)
(* ================================================================== *)

Module Strategy.

Import JS.
Local Open Scope float_scope.

Inductive Sinal := CALL | PUT | HOLD.

Inductive Direcao := ALTA | BAIXA | LATERAL.

Inductive Persistencia := P_ALTA | P_MEDIA | P_BAIXA.

Inductive Comportamento := PERSISTENTE | ANTIPERSISTENTE | ALEATORIO.

(** The [razao] text of a result.  The program interpolates numbers into a
    fixed set of templates; the template is kept, the formatted numbers are
    the result's own fields. *)
Inductive Razao :=
  | DadosInsuficientes
  | VolatilidadeZero
  | DesviosAcimaDaMedia
  | DesviosAbaixoDaMedia
  | ZScoreFaixaNormal
  | ConsecutivosDeAlta
  | ConsecutivosDeBaixa
  | SequenciaLongaDeAltas
  | SequenciaLongaDeBaixas
  | AguardarConfirmacao
  | SemPadraoDeMomentum
  | SemVariacaoSignificativa
  | PersistenteAltaContinua
  | PersistenteBaixaContinua
  | AntipersistenteAltaReverte
  | AntipersistenteBaixaReverte
  | AjusteRuim
  | ProximoDeMeio
  | TendenciaAlta
  | TendenciaBaixa
  | ForcaAlta
  | ForcaBaixa
  | DirecoesNaoAlinhadas
  | NaoPersistente.

(** [interface EstrategiaResult]. *)
Record EstrategiaResult := {
  sinal : Sinal;
  confianca : float;
  razao : Razao
}.

Definition Direcao_eqb (a b : Direcao) : bool :=
  match a, b with
  | ALTA, ALTA | BAIXA, BAIXA | LATERAL, LATERAL => true
  | _, _ => false
  end.

(** [diff > 0 ? 1 : diff < 0 ? -1 : 0]. *)
Definition sinalDe (diff : float) : Z :=
  if diff >? 0 then 1%Z else if diff <? 0 then (-1)%Z else 0%Z.

(* ------------------------------------------------------------------ *)
(** ** Strategy 1: mean reversion                                      *)
(* ------------------------------------------------------------------ *)

Record MeanReversionResult := {
  mr_base :> EstrategiaResult;
  zScore : float;
  media : float;
  desvioPadrao : float;
  velocidade : float
}.

(** [xs.reduce((acc, t, i, arr) => i === 0 ? 0 : acc + (t - arr[i-1]), 0)]. *)
Definition somaVariacoes (xs : list float) : float :=
  fold_left add (diferencas xs) 0.

Definition estrategiaMeanReversion (ticks : list float) : MeanReversionResult :=
  let defaultResult :=
    {| mr_base := {| sinal := HOLD; confianca := 0; razao := DadosInsuficientes |};
       zScore := 0; media := 0; desvioPadrao := 0; velocidade := 0 |} in
  if Nat.ltb (length ticks) 20 then defaultResult
  else
    let ultimos20 := slice_last 20 ticks in
    let ultimos10 := slice_last 10 ticks in
    let atual := at_index ticks (length ticks - 1) in
    let media := soma ultimos20 / 20 in
    let desvioPadrao :=
      Math_sqrt (fold_left (fun acc t => acc + Math_pow2 (t - media)) ultimos20 0 / 20) in
    if strict_eq desvioPadrao 0 then
      {| mr_base := {| sinal := HOLD; confianca := 0; razao := VolatilidadeZero |};
         zScore := 0; media := media; desvioPadrao := desvioPadrao; velocidade := 0 |}
    else
      let zScore := (atual - media) / desvioPadrao in
      let ultimos5 := slice_last 5 ultimos10 in
      let velocidade := somaVariacoes ultimos5 in
      let velocidadeAnterior := somaVariacoes (slice 0 5 ultimos10) in
      let aceleracao := velocidade - velocidadeAnterior in
      if (zScore >? 1.5) && (velocidade >? 0) then
        let boost := if aceleracao <? 0 then 0.1 else 0 in
        let confianca := Math_min ((Math_abs zScore - 1) / 2 + boost) 0.85 in
        {| mr_base := {| sinal := PUT; confianca := confianca; razao := DesviosAcimaDaMedia |};
           zScore := zScore; media := media; desvioPadrao := desvioPadrao;
           velocidade := velocidade |}
      else if (zScore <? -1.5) && (velocidade <? 0) then
        let boost := if aceleracao >? 0 then 0.1 else 0 in
        let confianca := Math_min ((Math_abs zScore - 1) / 2 + boost) 0.85 in
        {| mr_base := {| sinal := CALL; confianca := confianca; razao := DesviosAbaixoDaMedia |};
           zScore := zScore; media := media; desvioPadrao := desvioPadrao;
           velocidade := velocidade |}
      else
        {| mr_base := {| sinal := HOLD; confianca := 0; razao := ZScoreFaixaNormal |};
           zScore := zScore; media := media; desvioPadrao := desvioPadrao;
           velocidade := velocidade |}.

(* ------------------------------------------------------------------ *)
(** ** Strategy 2: confirmed momentum                                  *)
(* ------------------------------------------------------------------ *)

Record MomentumConfirmadoResult := {
  mc_base :> EstrategiaResult;
  consecutivas : nat;
  direcao : Direcao;
  variacaoTotal : float;
  variacaoMedia : float;
  forcaMovimento : float
}.

(** The counting loop [for (i = length-1; i > 0; i--)], given the
    differences [ultimos5[i] - ultimos5[i-1]] from the most recent
    backwards; a [break] returns the counters as they stand. *)
Fixpoint contarConsecutivas (diffs : list float) (alta baixa : nat) : nat * nat :=
  match diffs with
  | [] => (alta, baixa)
  | diff :: rest =>
      if diff >? 0 then
        (if Nat.ltb 0 baixa then (alta, baixa) else contarConsecutivas rest (S alta) baixa)
      else if diff <? 0 then
        (if Nat.ltb 0 alta then (alta, baixa) else contarConsecutivas rest alta (S baixa))
      else (alta, baixa)
  end.

Definition estrategiaMomentumConfirmado (ticks : list float) : MomentumConfirmadoResult :=
  let defaultResult :=
    {| mc_base := {| sinal := HOLD; confianca := 0; razao := DadosInsuficientes |};
       consecutivas := 0; direcao := LATERAL; variacaoTotal := 0; variacaoMedia := 0;
       forcaMovimento := 0 |} in
  if Nat.ltb (length ticks) 15 then defaultResult
  else
    let ultimos5 := slice_last 5 ticks in
    let ultimos15 := slice_last 15 ticks in
    let '(consecutivasAlta, consecutivasBaixa) :=
      contarConsecutivas (rev (diferencas ultimos5)) 0 0 in
    let consecutivas := Nat.max consecutivasAlta consecutivasBaixa in
    let direcao :=
      if Nat.ltb consecutivasBaixa consecutivasAlta then ALTA
      else if Nat.ltb consecutivasAlta consecutivasBaixa then BAIXA else LATERAL in
    let variacaoTotal := at_index ultimos5 (length ultimos5 - 1) - at_index ultimos5 0 in
    let variacaoMedia :=
      fold_left (fun acc d => acc + Math_abs d) (diferencas ultimos15) 0 / 14 in
    let forcaMovimento :=
      if variacaoMedia >? 0 then Math_abs variacaoTotal / (variacaoMedia * 5) else 0 in
    let resultado s c r :=
      {| mc_base := {| sinal := s; confianca := c; razao := r |};
         consecutivas := consecutivas; direcao := direcao; variacaoTotal := variacaoTotal;
         variacaoMedia := variacaoMedia; forcaMovimento := forcaMovimento |} in
    let regraPrincipal :=
      Math_min (0.5 + (float_of_nat consecutivas - 3) * 0.1 + (forcaMovimento - 1.5) * 0.1) 0.8 in
    let regraAlternativa :=
      Math_min (0.45 + (float_of_nat consecutivas - 4) * 0.1) 0.7 in
    let semSinal :=
      resultado HOLD 0
        (if Nat.ltb 0 consecutivas then AguardarConfirmacao else SemPadraoDeMomentum) in
    let alternativa :=
      if Nat.leb 4 consecutivas then
        match direcao with
        | ALTA => resultado PUT regraAlternativa SequenciaLongaDeAltas
        | BAIXA => resultado CALL regraAlternativa SequenciaLongaDeBaixas
        | LATERAL => semSinal
        end
      else semSinal in
    if Nat.leb 3 consecutivas && (forcaMovimento >? 1.5) then
      match direcao with
      | ALTA => resultado PUT regraPrincipal ConsecutivosDeAlta
      | BAIXA => resultado CALL regraPrincipal ConsecutivosDeBaixa
      | LATERAL => alternativa
      end
    else alternativa.

(* ------------------------------------------------------------------ *)
(** ** Rescaled-range analysis, shared by strategies 3 and 4           *)
(* ------------------------------------------------------------------ *)

Section WithLog.

(** [Math.log], which ECMAScript leaves implementation-approximated. *)
Variable Math_log : float -> float.

(** [cumSum += dev; cumDevs.push(cumSum)] over the deviations. *)
Fixpoint acumulados (cumSum : float) (devs : list float) : list float :=
  match devs with
  | [] => []
  | dev :: r => let c := cumSum + dev in c :: acumulados c r
  end.

(** The logarithmic returns [Math.log(ticks[i] / ticks[i-1])], [i >= 1],
    of the regime detector. *)
Fixpoint retornosLog_desde (prev : float) (xs : list float) : list float :=
  match xs with
  | [] => []
  | x :: r => Math_log (x / prev) :: retornosLog_desde x r
  end.

Definition retornosLog (ticks : list float) : list float :=
  match ticks with
  | [] => []
  | x :: r => retornosLog_desde x r
  end.

(** The body of the window loop of the regime detector: the [R/S] value
    of one window, when it is pushed. *)
Definition rsJanela (scaleN : nat) (scale : float) (window : list float) : option float :=
  if Nat.ltb (length window) scaleN then None
  else
    let mean := soma window / scale in
    let deviations := map (fun x => x - mean) window in
    let cumDevs := acumulados 0 deviations in
    let R := Math_max_list cumDevs - Math_min_list cumDevs in
    let S := Math_sqrt (fold_left (fun acc val => acc + val * val) deviations 0 / scale) in
    if (S >? 0) && isFinite (R / S) then Some (R / S) else None.

(** [for (let w = 0; w < numWindows; w++)], collecting [rsValues]. *)
Definition rsValores (janela : nat -> float -> list float -> option float)
    (diffs : list float) (scale : float) : list float :=
  let scaleN := nat_of_float scale in
  let numWindows := nat_of_float (Math_floor (float_of_nat (length diffs) / scale)) in
  flat_map
    (fun w =>
       match janela scaleN scale (slice (w * scaleN) (w * scaleN + scaleN) diffs) with
       | Some rs => [rs]
       | None => []
       end)
    (seq 0 numWindows).

(** The end of the scale loop's body: the regression point of one scale,
    when it is pushed onto [ranges] and [scales]. *)
Definition pontoEscala (rsValues : list float) (scale : float)
    (ranges scales : list float) : list float * list float :=
  if Nat.ltb 0 (length rsValues) then
    let avgRS := soma rsValues / float_of_nat (length rsValues) in
    if (avgRS >? 0) && isFinite avgRS
    then (ranges ++ [Math_log avgRS], scales ++ [Math_log scale])
    else (ranges, scales)
  else (ranges, scales).

(** [Math.floor(scale * 1.4)], the step of the scale loop. *)
Definition proximaEscala (scale : float) : float := Math_floor (scale * 1.4).

(** [for (let scale = minScale; scale <= maxScale;
         scale = Math.floor(scale * 1.4))].
    The scales visited, 8, 11, 15, 21, 29, 40, 56, ..., do not depend on the
    input and grow until they exceed every finite [maxScale]; [fuel] bounds
    the number of iterations, and [combustivelEscalas] iterations are
    enough (see [lacoEscalas_combustivel]). *)
Fixpoint lacoEscalas (fuel : nat) (diffs : list float) (scale maxScale : float)
    (ranges scales : list float) : list float * list float :=
  match fuel with
  | O => (ranges, scales)
  | S fuel' =>
      if scale <=? maxScale then
        let '(ranges', scales') :=
          pontoEscala (rsValores rsJanela diffs scale) scale ranges scales in
        lacoEscalas fuel' diffs (proximaEscala scale) maxScale ranges' scales'
      else (ranges, scales)
  end.

Definition combustivelEscalas : nat := 2200.

(** [ranges] and [scales] as the regime detector collects them. *)
Definition pontosHurst_ate (fuel : nat) (diffs : list float) : list float * list float :=
  let minScale := 8 in
  let maxScale := Math_floor (float_of_nat (length diffs) / 3) in
  lacoEscalas fuel diffs minScale maxScale [] [].

Definition pontosHurst (diffs : list float) : list float * list float :=
  pontosHurst_ate combustivelEscalas diffs.

(** The sums of the least-squares fit, and its slope, intercept and the
    two sums of squares, as both estimators compute them. *)
Definition somaXY (ranges scales : list float) : float :=
  reduce_i (fun acc x i => acc + x * at_index ranges i) scales 0 0.

Definition somaX2 (scales : list float) : float :=
  fold_left (fun acc x => acc + x * x) scales 0.

Definition denominador (ranges scales : list float) : float :=
  float_of_nat (length ranges) * somaX2 scales - soma scales * soma scales.

Definition inclinacao (ranges scales : list float) : float :=
  (float_of_nat (length ranges) * somaXY ranges scales - soma scales * soma ranges)
  / denominador ranges scales.

Definition ssTotalDe (ranges : list float) : float :=
  let yMean := soma ranges / float_of_nat (length ranges) in
  fold_left (fun acc y => acc + Math_pow2 (y - yMean)) ranges 0.

Definition ssResDe (ranges scales : list float) (slope : float) : float :=
  let intercept := (soma ranges - slope * soma scales) / float_of_nat (length ranges) in
  reduce_i (fun acc y i => acc + Math_pow2 (y - (intercept + slope * at_index scales i)))
    ranges 0 0.

(** [expoente] and [r2] of the regime detector, from the collected points
    ("precisa de pelo menos 3 pontos"). *)
Definition ajusteHurst (ranges scales : list float) : float * float :=
  if Nat.leb 3 (length ranges) then
    if Math_abs (denominador ranges scales) >? 1e-10 then
      let slope := inclinacao ranges scales in
      let expoente := Math_max 0.1 (Math_min 0.9 (if isFinite slope then slope else 0.5)) in
      let ssTotal := ssTotalDe ranges in
      let ssRes := ssResDe ranges scales slope in
      (expoente, if ssTotal >? 0 then 1 - ssRes / ssTotal else 0)
    else (0.5, 0)
  else (0.5, 0).

(* ------------------------------------------------------------------ *)
(** ** Strategy 3: Hurst regime                                        *)
(* ------------------------------------------------------------------ *)

Record HurstEstrategiaResult := {
  he_base :> EstrategiaResult;
  expoente : float;
  persistencia : Persistencia;
  previsibilidade : float;
  comportamento : Comportamento;
  direcaoAtual : Direcao;
  he_r2 : float
}.

Definition hurstDefault (r : Razao) : HurstEstrategiaResult :=
  {| he_base := {| sinal := HOLD; confianca := 0; razao := r |};
     expoente := 0.5; persistencia := P_MEDIA; previsibilidade := 0;
     comportamento := ALEATORIO; direcaoAtual := LATERAL; he_r2 := 0 |}.

Definition estrategiaHurst (ticks : list float) : HurstEstrategiaResult :=
  if Nat.ltb (length ticks) 50 then hurstDefault DadosInsuficientes
  else
    let diffs := retornosLog ticks in
    let variance :=
      fold_left (fun acc d => acc + d * d) diffs 0 / float_of_nat (length diffs) in
    if variance <? 1e-12 then hurstDefault SemVariacaoSignificativa
    else
      let '(ranges, scales) := pontosHurst diffs in
      let '(expoente, r2) := ajusteHurst ranges scales in
      let persistencia :=
        if expoente >? 0.6 then P_ALTA else if expoente >? 0.4 then P_MEDIA else P_BAIXA in
      let desvioHurst := Math_abs (expoente - 0.5) * 2 in
      let previsibilidade := desvioHurst * Math_max r2 0.3 in
      let comportamento :=
        if expoente >? 0.58 then PERSISTENTE
        else if expoente <? 0.42 then ANTIPERSISTENTE else ALEATORIO in
      let ultimos5 := slice_last 5 ticks in
      let variacaoRecente := at_index ultimos5 (length ultimos5 - 1) - at_index ultimos5 0 in
      let direcaoAtual :=
        if variacaoRecente >? 0 then ALTA
        else if variacaoRecente <? 0 then BAIXA else LATERAL in
      let resultado s c r :=
        {| he_base := {| sinal := s; confianca := c; razao := r |};
           expoente := expoente; persistencia := persistencia;
           previsibilidade := previsibilidade; comportamento := comportamento;
           direcaoAtual := direcaoAtual; he_r2 := r2 |} in
      let confianca := Math_min (desvioHurst * r2 * 1.5) 0.7 in
      if (expoente >? 0.58) && (r2 >? 0.5) && negb (Direcao_eqb direcaoAtual LATERAL) then
        (if Direcao_eqb direcaoAtual ALTA
         then resultado CALL confianca PersistenteAltaContinua
         else resultado PUT confianca PersistenteBaixaContinua)
      else if (expoente <? 0.42) && (r2 >? 0.5) && negb (Direcao_eqb direcaoAtual LATERAL) then
        (if Direcao_eqb direcaoAtual ALTA
         then resultado PUT confianca AntipersistenteAltaReverte
         else resultado CALL confianca AntipersistenteBaixaReverte)
      else
        resultado HOLD 0 (if r2 <? 0.5 then AjusteRuim else ProximoDeMeio).

(* ------------------------------------------------------------------ *)
(** ** The fast estimator [calcularHurstRapido]                        *)
(* ------------------------------------------------------------------ *)

Record HurstRapido := { hurst_rapido : float; r2_rapido : float }.

Definition hurstNeutro : HurstRapido := {| hurst_rapido := 0.5; r2_rapido := 0 |}.

(** The returns kept by the fast estimator: the previous price must be
    positive and the logarithm finite. *)
Fixpoint retornosLogRapido_desde (prev : float) (xs : list float) : list float :=
  match xs with
  | [] => []
  | x :: r =>
      let resto := retornosLogRapido_desde x r in
      if prev >? 0 then
        let logReturn := Math_log (x / prev) in
        if isFinite logReturn then logReturn :: resto else resto
      else resto
  end.

Definition retornosLogRapido (ticks : list float) : list float :=
  match ticks with
  | [] => []
  | x :: r => retornosLogRapido_desde x r
  end.

(** The body of the fast estimator's window loop ([maxCum] and [minCum]
    start at [-Infinity] and [Infinity]). *)
Definition rsJanelaRapido (scaleN : nat) (scale : float) (window : list float) : option float :=
  let mean := soma window / scale in
  let deviations := map (fun x => x - mean) window in
  let cumDevs := acumulados 0 deviations in
  let maxCum := Math_max_list cumDevs in
  let minCum := Math_min_list cumDevs in
  let R := maxCum - minCum in
  let S := Math_sqrt (fold_left (fun acc val => acc + val * val) deviations 0 / scale) in
  if (S >? 0) && (R >? 0) && isFinite (R / S) then Some (R / S) else None.

(** [for (const scale of [8, 12, 16, 24, 32])]. *)
Fixpoint lacoEscalasRapido (escalas : list nat) (diffs : list float)
    (ranges scales : list float) : list float * list float :=
  match escalas with
  | [] => (ranges, scales)
  | scaleN :: resto =>
      if Nat.ltb (length diffs) (scaleN * 2) then lacoEscalasRapido resto diffs ranges scales
      else
        let scale := float_of_nat scaleN in
        let '(ranges', scales') :=
          pontoEscala (rsValores rsJanelaRapido diffs scale) scale ranges scales in
        lacoEscalasRapido resto diffs ranges' scales'
  end.

Definition pontosHurstRapido (diffs : list float) : list float * list float :=
  lacoEscalasRapido [8; 12; 16; 24; 32]%nat diffs [] [].

(** The regression of the fast estimator. *)
Definition ajusteHurstRapido (ranges scales : list float) : HurstRapido :=
  if Nat.ltb (length ranges) 2 then hurstNeutro
  else if Math_abs (denominador ranges scales) <? 1e-10 then hurstNeutro
  else
    let slope := inclinacao ranges scales in
    let hurst := Math_max 0.1 (Math_min 0.9 slope) in
    let ssTotal := ssTotalDe ranges in
    let ssRes := ssResDe ranges scales slope in
    {| hurst_rapido := hurst;
       r2_rapido := if ssTotal >? 0 then Math_max 0 (1 - ssRes / ssTotal) else 0 |}.

Definition calcularHurstRapido (ticks : list float) : HurstRapido :=
  let diffs := retornosLogRapido ticks in
  if Nat.ltb (length diffs) 30 then hurstNeutro
  else
    let '(ranges, scales) := pontosHurstRapido diffs in
    ajusteHurstRapido ranges scales.

(* ------------------------------------------------------------------ *)
(** ** Strategy 4: persistent momentum                                 *)
(* ------------------------------------------------------------------ *)

Record MomentumPersistenteResult := {
  mp_base :> EstrategiaResult;
  hurst : float;
  mp_r2 : float;
  direcaoCurta : Direcao;
  direcaoMedia : Direcao;
  direcaoLonga : Direcao;
  alinhamento : float;
  forca : float;
  isPersistente : bool;
  eficiencia : float;
  adx : float;
  isLateral : bool
}.

(** [v > threshold ? "ALTA" : v < -threshold ? "BAIXA" : "LATERAL"]. *)
Definition direcaoDe (v threshold : float) : Direcao :=
  if v >? threshold then ALTA else if v <? - threshold then BAIXA else LATERAL.

(** [direcoes.filter(d => d === x).length]. *)
Definition contar (x : Direcao) (direcoes : list Direcao) : nat :=
  length (filter (Direcao_eqb x) direcoes).

(** The loop counting the most recent moves in one direction, given the
    differences from the most recent backwards: zero moves are skipped,
    the first move of the other direction ends the loop. *)
Fixpoint consecutivosDe (diffs : list float) (direcaoAtual : option Z) (consecutivos : nat) : nat :=
  match diffs with
  | [] => consecutivos
  | diff :: rest =>
      let dir := sinalDe diff in
      if Z.eqb dir 0 then consecutivosDe rest direcaoAtual consecutivos
      else
        match direcaoAtual with
        | None => consecutivosDe rest (Some dir) 1
        | Some d =>
            if Z.eqb dir d then consecutivosDe rest direcaoAtual (S consecutivos)
            else consecutivos
        end
  end.

(** The loop counting the changes of direction. *)
Fixpoint mudancasDe (diffs : list float) (ultimaDirecao : Z) (mudancas : nat) : nat :=
  match diffs with
  | [] => mudancas
  | diff :: rest =>
      let dir := sinalDe diff in
      if negb (Z.eqb dir 0) && negb (Z.eqb dir ultimaDirecao) then
        mudancasDe rest dir (if negb (Z.eqb ultimaDirecao 0) then S mudancas else mudancas)
      else mudancasDe rest ultimaDirecao mudancas
  end.

(** [!hurstHistorico]: the argument is missing, [0] or [NaN]. *)
Definition semHurstHistorico (hurstHistorico : option float) : bool :=
  match hurstHistorico with
  | None => true
  | Some h => negb (truthy h)
  end.

Definition momentumPersistentStrategy (ticks : list float) (hurstHistorico : option float)
    : MomentumPersistenteResult :=
  let defaultResult :=
    {| mp_base := {| sinal := HOLD; confianca := 0; razao := DadosInsuficientes |};
       hurst := 0.5; mp_r2 := 0; direcaoCurta := LATERAL; direcaoMedia := LATERAL;
       direcaoLonga := LATERAL; alinhamento := 0; forca := 0; isPersistente := false;
       eficiencia := 0; adx := 0; isLateral := true |} in
  if Nat.ltb (length ticks) 20 then defaultResult
  else
    let '(hurst, r2) :=
      if semHurstHistorico hurstHistorico && Nat.leb 50 (length ticks) then
        let hurstResult := calcularHurstRapido ticks in
        (hurst_rapido hurstResult, r2_rapido hurstResult)
      else (match hurstHistorico with Some h => h | None => 0.5 end, 0.8) in
    let isPersistente := hurst >? 0.58 in
    let ultimos3 := slice_last 3 ticks in
    let ultimos7 := slice_last 7 ticks in
    let ultimos15 := slice_last 15 ticks in
    let varCurta := at_index ultimos3 (length ultimos3 - 1) - at_index ultimos3 0 in
    let varMedia := at_index ultimos7 (length ultimos7 - 1) - at_index ultimos7 0 in
    let varLonga := at_index ultimos15 (length ultimos15 - 1) - at_index ultimos15 0 in
    let avgTick := soma ticks / float_of_nat (length ticks) in
    let threshold := avgTick * 0.0001 in
    let direcaoCurta := direcaoDe varCurta threshold in
    let direcaoMedia := direcaoDe varMedia threshold in
    let direcaoLonga := direcaoDe varLonga threshold in
    let direcoes := [direcaoCurta; direcaoMedia; direcaoLonga] in
    let altaCount := contar ALTA direcoes in
    let baixaCount := contar BAIXA direcoes in
    let lateralCount := contar LATERAL direcoes in
    let maxCount := Nat.max altaCount baixaCount in
    let alinhamento := (float_of_nat maxCount - float_of_nat lateralCount * 0.5) / 3 in
    let ultimos20 := slice_last 20 ticks in
    let media20 := soma ultimos20 / 20 in
    let stdDev :=
      Math_sqrt (fold_left (fun acc t => acc + Math_pow2 (t - media20)) ultimos20 0 / 20) in
    let forca := if stdDev >? 0 then Math_abs varCurta / stdDev else 0 in
    let movimentoLiquido :=
      Math_abs (at_index ultimos15 (length ultimos15 - 1) - at_index ultimos15 0) in
    let movimentoTotal := fold_left (fun acc d => acc + Math_abs d) (diferencas ultimos15) 0 in
    let eficiencia := if movimentoTotal >? 0 then movimentoLiquido / movimentoTotal else 0 in
    let consecutivosMesmaDirecao := consecutivosDe (rev (diferencas ultimos15)) None 0 in
    let mudancasDirecao := mudancasDe (diferencas ultimos15) 0 0 in
    let eficienciaScore := eficiencia * 40 in
    let consecutivosScore := Math_min (float_of_nat consecutivosMesmaDirecao * 10) 30 in
    let mudancasScore := Math_max (30 - float_of_nat mudancasDirecao * 5) 0 in
    let adx := eficienciaScore + consecutivosScore + mudancasScore in
    let isLateral := (eficiencia <? 0.3) || (adx <? 25) || Nat.ltb 5 mudancasDirecao in
    let resultado s c r :=
      {| mp_base := {| sinal := s; confianca := c; razao := r |};
         hurst := hurst; mp_r2 := r2; direcaoCurta := direcaoCurta;
         direcaoMedia := direcaoMedia; direcaoLonga := direcaoLonga;
         alinhamento := alinhamento; forca := forca; isPersistente := isPersistente;
         eficiencia := eficiencia; adx := adx; isLateral := isLateral |} in
    if isPersistente && (alinhamento >=? 0.8) then
      let confiancaBase := (hurst - 0.5) * 2 in
      let confiancaR2 := r2 * 0.2 in
      let confiancaAlinhamento := alinhamento * 0.2 in
      let confiancaForca := Math_min (forca * 0.1) 0.2 in
      let confiancaEficiencia := eficiencia * 0.2 in
      let confianca :=
        Math_min (confiancaBase + confiancaR2 + confiancaAlinhamento + confiancaForca
                  + confiancaEficiencia) 0.80 in
      if Nat.ltb baixaCount altaCount
      then resultado CALL confianca TendenciaAlta
      else resultado PUT confianca TendenciaBaixa
    else if isPersistente && Nat.leb 2 maxCount && (forca >? 1.5) then
      let confianca := Math_min ((hurst - 0.5) * 1.5 + forca * 0.1) 0.55 in
      if Nat.ltb baixaCount altaCount
      then resultado CALL confianca ForcaAlta
      else resultado PUT confianca ForcaBaixa
    else
      resultado HOLD 0 (if isPersistente then DirecoesNaoAlinhadas else NaoPersistente).

End WithLog.

(** The decision of the persistent-momentum detector, as a function of the
    metrics it reports: the two signal rules and the final HOLD. *)
Definition decisaoMomentum (hurst r2 : float) (dC dM dL : Direcao)
    (alinhamento forca eficiencia : float) : Sinal * float :=
  let altaCount := contar ALTA [dC; dM; dL] in
  let baixaCount := contar BAIXA [dC; dM; dL] in
  if (hurst >? 0.58) && (alinhamento >=? 0.8) then
    (if Nat.ltb baixaCount altaCount then CALL else PUT,
     Math_min ((hurst - 0.5) * 2 + r2 * 0.2 + alinhamento * 0.2
               + Math_min (forca * 0.1) 0.2 + eficiencia * 0.2) 0.80)
  else if (hurst >? 0.58) && Nat.leb 2 (Nat.max altaCount baixaCount) && (forca >? 1.5) then
    (if Nat.ltb baixaCount altaCount then CALL else PUT,
     Math_min ((hurst - 0.5) * 1.5 + forca * 0.1) 0.55)
  else (HOLD, 0).

(** The number of direction reversals the detector counts over the last
    15 prices. *)
Definition mudancasDirecaoDe (ticks : list float) : nat :=
  mudancasDe (diferencas (slice_last 15 ticks)) 0 0.

(** [(maxCount - lateralCount * 0.5) / 3], the alignment of the three
    directions of the persistent-momentum detector. *)
Definition alinhamentoDe (direcoes : list Direcao) : float :=
  (float_of_nat (Nat.max (contar ALTA direcoes) (contar BAIXA direcoes))
   - float_of_nat (contar LATERAL direcoes) * 0.5) / 3.

End Strategy.

(* ================================================================== *)
(** * The trade life cycle (the bot's entry file)                      *)
(* ================================================================== *)

Module Bot.

Import JS.
Local Open Scope float_scope.

(** [ContractStatus] of the broker's API types. *)
Inductive ContractStatus := st_open | st_sold | st_won | st_lost | st_cancelled.

Definition ContractStatus_eqb (a b : ContractStatus) : bool :=
  match a, b with
  | st_open, st_open | st_sold, st_sold | st_won, st_won
  | st_lost, st_lost | st_cancelled, st_cancelled => true
  | _, _ => false
  end.

(** The fields of [proposal_open_contract] that the handlers read; each
    may be missing. *)
Record Contract := {
  status : option ContractStatus;
  profit : option float;
  buy_price : option float
}.

(** The argument of [tradeService.saveTrade]. *)
Record TradeRecord := {
  isWin : bool;
  stake : float;
  tr_profit : float;
  balanceAfter : float
}.

Inductive Subscricao := SubTicks | SubContracts.

Definition Subscricao_eqb (a b : Subscricao) : bool :=
  match a, b with
  | SubTicks, SubTicks | SubContracts, SubContracts => true
  | _, _ => false
  end.

(** The texts handed to [telegramManager.sendMessage], by template. *)
Inductive Mensagem :=
  | MsgTradeGanho (lucro saldo : float)
  | MsgTradePerdido (prejuizo saldo : float)
  | MsgAutorizado
  | MsgErroAoAutorizar
  | MsgBotParado.

(** The calls the handlers make on their collaborators (the chat bot, the
    trade ledger, the broker connection and the timers), in order. *)
Inductive Efeito :=
  | SendMessage (m : Mensagem)
  | UpdateTradeResult (isWin : bool) (saldo : float)
  | SaveTrade (t : TradeRecord)
  | Unsubscribe (sub : Subscricao)
  | SetInterval (id : nat)
  | ClearInterval (id : nat)
  | ApiAuthorize
  | ApiOpenContract (contractId : Z).

(** The money manager, whose class is not part of the sources: the two
    methods the settlement handler calls. *)
Class MoneyManager (MM : Type) := {
  getCurrentBalance : MM -> float;
  updateLastTrade : MM -> bool -> MM
}.

(** What the broker answers: to the [n]-th [proposal_open_contract]
    request and to the [n]-th [authorize] request. *)
Inductive RespostaContrato :=
  | Resposta (contract : option Contract)
  | AuthorizationRequired
  | OutroErro.

Record Corretora := {
  respostaContrato : nat -> RespostaContrato;
  respostaAuthorize : nat -> bool
}.

(** A message of the tick stream. *)
Inductive MensagemTicks :=
  | History (prices : option (list float))
  | Tick (quote : option float)
  | OutraMensagem.

Section Handlers.

Context {MM : Type} `{MoneyManager MM}.

(** The module-level variables of the entry file, the state of the two
    collaborators the handlers read ([moneyManager], and the running flag
    of [telegramManager]), and the calls made so far. *)
Record Estado := {
  isAuthorized : bool;
  isTrading : bool;
  consecutiveWins : nat;
  lastContractId : option Z;
  lastContractIntervalId : option nat;
  tickCount : nat;
  retryToGetLastTradeCount : nat;
  ticksMap : option (list float);
  activeSubscriptions : list Subscricao;
  lastActivityTimestamp : Z;
  moneyManager : MM;
  botRunning : bool;
  efeitos : list Efeito
}.

Definition set_isAuthorized (v : bool) (s : Estado) : Estado :=
  {| isAuthorized := v; isTrading := isTrading s; consecutiveWins := consecutiveWins s;
     lastContractId := lastContractId s; lastContractIntervalId := lastContractIntervalId s;
     tickCount := tickCount s; retryToGetLastTradeCount := retryToGetLastTradeCount s;
     ticksMap := ticksMap s; activeSubscriptions := activeSubscriptions s;
     lastActivityTimestamp := lastActivityTimestamp s; moneyManager := moneyManager s;
     botRunning := botRunning s; efeitos := efeitos s |}.

Definition set_isTrading (v : bool) (s : Estado) : Estado :=
  {| isAuthorized := isAuthorized s; isTrading := v; consecutiveWins := consecutiveWins s;
     lastContractId := lastContractId s; lastContractIntervalId := lastContractIntervalId s;
     tickCount := tickCount s; retryToGetLastTradeCount := retryToGetLastTradeCount s;
     ticksMap := ticksMap s; activeSubscriptions := activeSubscriptions s;
     lastActivityTimestamp := lastActivityTimestamp s; moneyManager := moneyManager s;
     botRunning := botRunning s; efeitos := efeitos s |}.

Definition set_consecutiveWins (v : nat) (s : Estado) : Estado :=
  {| isAuthorized := isAuthorized s; isTrading := isTrading s; consecutiveWins := v;
     lastContractId := lastContractId s; lastContractIntervalId := lastContractIntervalId s;
     tickCount := tickCount s; retryToGetLastTradeCount := retryToGetLastTradeCount s;
     ticksMap := ticksMap s; activeSubscriptions := activeSubscriptions s;
     lastActivityTimestamp := lastActivityTimestamp s; moneyManager := moneyManager s;
     botRunning := botRunning s; efeitos := efeitos s |}.

Definition set_lastContractId (v : option Z) (s : Estado) : Estado :=
  {| isAuthorized := isAuthorized s; isTrading := isTrading s;
     consecutiveWins := consecutiveWins s;
     lastContractId := v; lastContractIntervalId := lastContractIntervalId s;
     tickCount := tickCount s; retryToGetLastTradeCount := retryToGetLastTradeCount s;
     ticksMap := ticksMap s; activeSubscriptions := activeSubscriptions s;
     lastActivityTimestamp := lastActivityTimestamp s; moneyManager := moneyManager s;
     botRunning := botRunning s; efeitos := efeitos s |}.

Definition set_lastContractIntervalId (v : option nat) (s : Estado) : Estado :=
  {| isAuthorized := isAuthorized s; isTrading := isTrading s;
     consecutiveWins := consecutiveWins s;
     lastContractId := lastContractId s; lastContractIntervalId := v;
     tickCount := tickCount s; retryToGetLastTradeCount := retryToGetLastTradeCount s;
     ticksMap := ticksMap s; activeSubscriptions := activeSubscriptions s;
     lastActivityTimestamp := lastActivityTimestamp s; moneyManager := moneyManager s;
     botRunning := botRunning s; efeitos := efeitos s |}.

Definition set_tickCount (v : nat) (s : Estado) : Estado :=
  {| isAuthorized := isAuthorized s; isTrading := isTrading s;
     consecutiveWins := consecutiveWins s;
     lastContractId := lastContractId s; lastContractIntervalId := lastContractIntervalId s;
     tickCount := v; retryToGetLastTradeCount := retryToGetLastTradeCount s;
     ticksMap := ticksMap s; activeSubscriptions := activeSubscriptions s;
     lastActivityTimestamp := lastActivityTimestamp s; moneyManager := moneyManager s;
     botRunning := botRunning s; efeitos := efeitos s |}.

Definition set_retryToGetLastTradeCount (v : nat) (s : Estado) : Estado :=
  {| isAuthorized := isAuthorized s; isTrading := isTrading s;
     consecutiveWins := consecutiveWins s;
     lastContractId := lastContractId s; lastContractIntervalId := lastContractIntervalId s;
     tickCount := tickCount s; retryToGetLastTradeCount := v;
     ticksMap := ticksMap s; activeSubscriptions := activeSubscriptions s;
     lastActivityTimestamp := lastActivityTimestamp s; moneyManager := moneyManager s;
     botRunning := botRunning s; efeitos := efeitos s |}.

Definition set_ticksMap (v : option (list float)) (s : Estado) : Estado :=
  {| isAuthorized := isAuthorized s; isTrading := isTrading s;
     consecutiveWins := consecutiveWins s;
     lastContractId := lastContractId s; lastContractIntervalId := lastContractIntervalId s;
     tickCount := tickCount s; retryToGetLastTradeCount := retryToGetLastTradeCount s;
     ticksMap := v; activeSubscriptions := activeSubscriptions s;
     lastActivityTimestamp := lastActivityTimestamp s; moneyManager := moneyManager s;
     botRunning := botRunning s; efeitos := efeitos s |}.

Definition set_activeSubscriptions (v : list Subscricao) (s : Estado) : Estado :=
  {| isAuthorized := isAuthorized s; isTrading := isTrading s;
     consecutiveWins := consecutiveWins s;
     lastContractId := lastContractId s; lastContractIntervalId := lastContractIntervalId s;
     tickCount := tickCount s; retryToGetLastTradeCount := retryToGetLastTradeCount s;
     ticksMap := ticksMap s; activeSubscriptions := v;
     lastActivityTimestamp := lastActivityTimestamp s; moneyManager := moneyManager s;
     botRunning := botRunning s; efeitos := efeitos s |}.

Definition set_lastActivityTimestamp (v : Z) (s : Estado) : Estado :=
  {| isAuthorized := isAuthorized s; isTrading := isTrading s;
     consecutiveWins := consecutiveWins s;
     lastContractId := lastContractId s; lastContractIntervalId := lastContractIntervalId s;
     tickCount := tickCount s; retryToGetLastTradeCount := retryToGetLastTradeCount s;
     ticksMap := ticksMap s; activeSubscriptions := activeSubscriptions s;
     lastActivityTimestamp := v; moneyManager := moneyManager s;
     botRunning := botRunning s; efeitos := efeitos s |}.

Definition set_moneyManager (v : MM) (s : Estado) : Estado :=
  {| isAuthorized := isAuthorized s; isTrading := isTrading s;
     consecutiveWins := consecutiveWins s;
     lastContractId := lastContractId s; lastContractIntervalId := lastContractIntervalId s;
     tickCount := tickCount s; retryToGetLastTradeCount := retryToGetLastTradeCount s;
     ticksMap := ticksMap s; activeSubscriptions := activeSubscriptions s;
     lastActivityTimestamp := lastActivityTimestamp s; moneyManager := v;
     botRunning := botRunning s; efeitos := efeitos s |}.

(** One more call on a collaborator. *)
Definition efeito (e : Efeito) (s : Estado) : Estado :=
  {| isAuthorized := isAuthorized s; isTrading := isTrading s;
     consecutiveWins := consecutiveWins s;
     lastContractId := lastContractId s; lastContractIntervalId := lastContractIntervalId s;
     tickCount := tickCount s; retryToGetLastTradeCount := retryToGetLastTradeCount s;
     ticksMap := ticksMap s; activeSubscriptions := activeSubscriptions s;
     lastActivityTimestamp := lastActivityTimestamp s; moneyManager := moneyManager s;
     botRunning := botRunning s; efeitos := efeitos s ++ [e] |}.

(** A contract id in a boolean position: [undefined] and [0] are falsy. *)
Definition idPresente (contractId : option Z) : bool :=
  match contractId with
  | Some id => negb (Z.eqb id 0)
  | None => false
  end.

Definition eApiAuthorize (e : Efeito) : bool :=
  match e with ApiAuthorize => true | _ => false end.

Definition eApiOpenContract (e : Efeito) : bool :=
  match e with ApiOpenContract _ => true | _ => false end.

Definition eSetInterval (e : Efeito) : bool :=
  match e with SetInterval _ => true | _ => false end.

Definition quantos (p : Efeito -> bool) (s : Estado) : nat :=
  length (filter p (efeitos s)).

(** The records handed to the trade ledger so far. *)
Definition tradesSalvos (s : Estado) : list TradeRecord :=
  flat_map (fun e => match e with SaveTrade t => [t] | _ => [] end) (efeitos s).

(** [updateActivityTimestamp], with the value [Date.now()] returns. *)
Definition updateActivityTimestamp (agora : Z) (s : Estado) : Estado :=
  set_lastActivityTimestamp agora s.

Definition clearTradeTimeout (s : Estado) : Estado :=
  match lastContractIntervalId s with
  | Some id => set_lastContractIntervalId None (efeito (ClearInterval id) s)
  | None => s
  end.

(** [createTradeTimeout]: the handle [setInterval] returns is numbered by
    the intervals created before it. *)
Definition createTradeTimeout (s : Estado) : Estado :=
  let s := clearTradeTimeout s in
  let id := quantos eSetInterval s in
  set_lastContractIntervalId (Some id) (efeito (SetInterval id) s).

(** [handleTradeResult({profit, stake, status, ...})]; the two remaining
    fields of its argument are not read. *)
Definition handleTradeResult (agora : Z) (profit stake : float) (status : ContractStatus)
    (s : Estado) : Estado :=
  if ContractStatus_eqb status st_open then s
  else
    let s := updateActivityTimestamp agora s in
    let isWin := ContractStatus_eqb status st_won in
    let currentBalance := getCurrentBalance (moneyManager s) in
    let s := set_isTrading false s in
    let s := set_lastContractId None s in
    let newBalance := if isWin then currentBalance + profit else currentBalance - stake in
    let s := set_consecutiveWins (if isWin then S (consecutiveWins s) else O) s in
    let s := set_moneyManager (updateLastTrade (moneyManager s) isWin) s in
    let s := efeito (UpdateTradeResult isWin (getCurrentBalance (moneyManager s))) s in
    let s :=
      efeito
        (SendMessage
           (if isWin then MsgTradeGanho profit (getCurrentBalance (moneyManager s))
            else MsgTradePerdido stake (getCurrentBalance (moneyManager s)))) s in
    let s :=
      efeito
        (SaveTrade {| isWin := isWin; stake := stake;
                      tr_profit := if isWin then profit else - stake;
                      balanceAfter := newBalance |}) s in
    clearTradeTimeout s.

(** [authorize]: it catches its own failure, so the promise it returns is
    always fulfilled. *)
Definition authorize (env : Corretora) (s : Estado) : Estado :=
  let n := quantos eApiAuthorize s in
  let s := efeito ApiAuthorize s in
  if respostaAuthorize env n
  then efeito (SendMessage MsgAutorizado) (set_isAuthorized true s)
  else efeito (SendMessage MsgErroAoAutorizar) (set_isAuthorized false s).

(** [x ?? 0] and [x || 0] on an optional number. *)
Definition ouZeroSeAusente (x : option float) : float :=
  match x with Some v => v | None => 0 end.

Definition ouZeroSeFalso (x : option float) : float :=
  match x with Some v => if truthy v then v else 0 | None => 0 end.

Definition statusDe (contract : option Contract) : ContractStatus :=
  match contract with
  | Some c => match status c with Some st => st | None => st_open end
  | None => st_open
  end.

(** [getLastTradeResult(contractId)].  The function calls itself after a
    re-authorization; every such call finds the retry counter one higher,
    and the guard on the counter ends the chain, so three levels of calls
    are always enough (see [getLastTradeResult_combustivel]).  The two
    [await]s are taken as uninterrupted, as the specification's serialised
    handling of events has it. *)
Fixpoint getLastTradeResult_ate (fuel : nat) (env : Corretora) (agora : Z)
    (contractId : option Z) (s : Estado) : Estado :=
  match fuel with
  | O => s
  | S fuel' =>
      match contractId with
      | None => s
      | Some id =>
          if negb (idPresente contractId) then s
          else if Nat.leb 2 (retryToGetLastTradeCount s) then s
          else
            let n := quantos eApiOpenContract s in
            let s := efeito (ApiOpenContract id) s in
            match respostaContrato env n with
            | Resposta contract =>
                let profit := ouZeroSeAusente (match contract with Some c => profit c | None => None end) in
                let stake := ouZeroSeAusente (match contract with Some c => buy_price c | None => None end) in
                let s := set_retryToGetLastTradeCount 0 s in
                let s := handleTradeResult agora profit stake (statusDe contract) s in
                let s := set_isTrading false s in
                let s := set_lastContractId None s in
                set_tickCount 0 s
            | AuthorizationRequired =>
                let s := set_retryToGetLastTradeCount (S (retryToGetLastTradeCount s)) s in
                let s := authorize env s in
                getLastTradeResult_ate fuel' env agora contractId s
            | OutroErro => s
            end
      end
  end.

Definition getLastTradeResult (env : Corretora) (agora : Z) (contractId : option Z)
    (s : Estado) : Estado :=
  getLastTradeResult_ate 3 env agora contractId s.

(** The callback of the interval [createTradeTimeout] starts (the
    watchdog): it runs while the interval has not been cleared. *)
Definition aoDispararWatchdog (env : Corretora) (agora : Z) (s : Estado) : Estado :=
  match lastContractIntervalId s with
  | None => s
  | Some _ =>
      if idPresente (lastContractId s)
      then getLastTradeResult env agora (lastContractId s) s
      else s
  end.

Fixpoint removerPrimeira (sub : Subscricao) (subs : list Subscricao) : list Subscricao :=
  match subs with
  | [] => []
  | x :: r => if Subscricao_eqb x sub then r else x :: removerPrimeira sub r
  end.

(** The subscriber of [subscribeToOpenOrders]: a pushed contract update. *)
Definition aoAtualizarContrato (agora : Z) (contract : option Contract) (s : Estado) : Estado :=
  let s := updateActivityTimestamp agora s in
  if negb (botRunning s) then
    let s := efeito (Unsubscribe SubContracts) s in
    set_activeSubscriptions (removerPrimeira SubContracts (activeSubscriptions s)) s
  else
    let profit := ouZeroSeAusente (match contract with Some c => profit c | None => None end) in
    let stake := ouZeroSeFalso (match contract with Some c => buy_price c | None => None end) in
    handleTradeResult agora profit stake (statusDe contract) s.

(** The part of the subscriber of [subscribeToTicks] that maintains the
    tick window of the (single) symbol: the two [if]s on [data.msg_type]. *)
Definition atualizarTicksMap (msg : MensagemTicks) (s : Estado) : Estado :=
  match msg with
  | History prices =>
      set_ticksMap (Some (match prices with Some p => p | None => [] end)) s
  | Tick quote =>
      let currentPrice := ouZeroSeFalso quote in
      let prevTicks := match ticksMap s with Some p => p | None => [] end in
      if Nat.leb 50 (length prevTicks)
      then set_ticksMap (Some (tl prevTicks ++ [currentPrice])) s
      else s
  | OutraMensagem => s
  end.

(** The subscriber of [subscribeToTicks] up to the point where the window
    is read ([currentTicks]); the trading decision that follows it reads
    the window and is not part of this model. *)
Definition aoReceberTicks (agora : Z) (msg : MensagemTicks) (s : Estado) : Estado :=
  let s := updateActivityTimestamp agora s in
  if negb (botRunning s) then
    let s := efeito (Unsubscribe SubTicks) s in
    let s := set_isTrading false s in
    let s := set_tickCount 0 s in
    set_activeSubscriptions (removerPrimeira SubTicks (activeSubscriptions s)) s
  else atualizarTicksMap msg s.

(** The statements that follow a successful [buy] request. *)
Definition registrarCompra (contract_id : option Z) (s : Estado) : Estado :=
  let s := set_lastContractId contract_id s in
  let s := createTradeTimeout s in
  set_isTrading true s.

Definition clearSubscriptions (s : Estado) : Estado :=
  let s := fold_left (fun s sub => efeito (Unsubscribe sub) s) (activeSubscriptions s) s in
  let s := set_activeSubscriptions [] s in
  let s := set_isTrading false s in
  let s := set_isAuthorized false s in
  set_ticksMap None s.

Definition stopBot (agora : Z) (s : Estado) : Estado :=
  let s := updateActivityTimestamp agora s in
  let s := clearSubscriptions s in
  let s := set_isTrading false s in
  let s := set_retryToGetLastTradeCount 0 s in
  efeito (SendMessage MsgBotParado) s.

(** [n] firings of the watchdog, the broker answering as [env] says. *)
Definition vigiar (env : Corretora) (agora : Z) (n : nat) (s : Estado) : Estado :=
  Nat.iter n (aoDispararWatchdog env agora) s.

(** The tick window as the handlers read it: [ticksMap.get(symbol) || []]. *)
Definition janela (s : Estado) : list float :=
  match ticksMap s with Some p => p | None => [] end.

(** The fields of a state that an interval handle does not touch. *)
Definition mesmoSalvoTimer (s s' : Estado) : Prop :=
  isTrading s' = isTrading s /\ lastContractId s' = lastContractId s
  /\ consecutiveWins s' = consecutiveWins s /\ moneyManager s' = moneyManager s
  /\ retryToGetLastTradeCount s' = retryToGetLastTradeCount s
  /\ tickCount s' = tickCount s /\ ticksMap s' = ticksMap s
  /\ botRunning s' = botRunning s
  /\ lastActivityTimestamp s' = lastActivityTimestamp s
  /\ tradesSalvos s' = tradesSalvos s
  /\ quantos eApiAuthorize s' = quantos eApiAuthorize s
  /\ quantos eApiOpenContract s' = quantos eApiOpenContract s.

End Handlers.

Arguments Estado MM : clear implicits.

(** Modelled from the spec: the money manager (the StakeSizer of section
    4.3) under the fixed policy, whose class is not among the sources: the
    stake is always the initial stake, and the balance changes only in
    [updateLastTrade], by the payout of the stake on a win and by the stake
    on a loss.  It is used to run the handlers on concrete states. *)
Record GestorFixo := {
  saldo : float;
  initialStake : float;
  profitPercent : float
}.

#[export] Instance GestorFixo_MoneyManager : MoneyManager GestorFixo := {
  getCurrentBalance g := saldo g;
  updateLastTrade g isWin :=
    {| saldo := if isWin then saldo g + initialStake g * profitPercent g / 100
                else saldo g - initialStake g;
       initialStake := initialStake g;
       profitPercent := profitPercent g |}
}.

(** [calculateNextStake] of that manager, from the same description: the
    fixed policy always stakes the initial stake and leaves the manager as
    it is. *)
Definition stakeFixo (g : GestorFixo) : float * GestorFixo := (initialStake g, g).

(* ------------------------------------------------------------------ *)
(** ** The watchdog intervals and the stream of events                 *)
(* ------------------------------------------------------------------ *)

(** The intervals started by [setInterval] and not yet cleared by
    [clearInterval], after the calls [es], given those active before. *)
Fixpoint intervalosAtivosDe (es : list Efeito) (ativos : list nat) : list nat :=
  match es with
  | [] => ativos
  | SetInterval id :: r => intervalosAtivosDe r (ativos ++ [id])
  | ClearInterval id :: r => intervalosAtivosDe r (remove Nat.eq_dec id ativos)
  | _ :: r => intervalosAtivosDe r ativos
  end.

Definition eBotParado (e : Efeito) : bool :=
  match e with SendMessage MsgBotParado => true | _ => false end.

(** What reaches the handlers: a message of the tick stream (with what
    [telegramManager.getUseFilters()] returns at that time), a pushed
    contract update, a firing of the watchdog, the answer to a [buy]
    request (the contract id it carries), and a [stopBot]. *)
Inductive Evento :=
  | EvTicks (agora : Z) (useFilters : bool) (msg : MensagemTicks)
  | EvContrato (agora : Z) (contract : option Contract)
  | EvWatchdog (agora : Z)
  | EvCompra (contract_id : option Z)
  | EvStop (agora : Z).

(* ------------------------------------------------------------------ *)
(** ** The trading part of the tick subscriber                         *)
(* ------------------------------------------------------------------ *)

(** [tradeConfig.ticksCount]. *)
Definition ticksCount : nat := 10.

(** The calls of the trading part of the tick subscriber that the handlers
    above do not make: the alert of [checkStakeAndBalance], the message
    announcing an entry, and the [buy] request with the stake it is
    computed from and the signal that decides its contract type (CALLE for
    CALL, PUTE otherwise). *)
Inductive Chamada :=
  | AlertaCritico (saldo : float)
  | SinalIdentificado (amount : float)
  | ApiBuy (amount : float) (sinal : Strategy.Sinal).

(** The counting loop of the lateral-market filter, over [lastTicks[i]]
    for [i >= 1], [prev] being [lastTicks[i-1]]; the counters are
    [touchesHigh], [touchesLow], [upMoves] and [downMoves]. *)
Fixpoint contarToques (topZone bottomZone max min prev : float) (xs : list float)
    (tH tL up down : nat) : nat * nat * nat * nat :=
  match xs with
  | [] => (tH, tL, up, down)
  | x :: r =>
      let up := if x >? prev then S up else up in
      let down := if x <? prev then S down else down in
      let tH := if (x >=? topZone) && (x <? max + 1e-8) then S tH else tH in
      let tL := if (x <=? bottomZone) && (x >? min - 1e-8) then S tL else tL in
      contarToques topZone bottomZone max min x r tH tL up down
  end.

(** [superLateral], for a window [lastTicks] of 20 prices. *)
Definition superLateral (lastTicks : list float) : bool :=
  let zonePerc := 0.007 in
  let max := Math_max_list lastTicks in
  let min := Math_min_list lastTicks in
  let avg := soma lastTicks / float_of_nat (length lastTicks) in
  let priceRange := max - min in
  let percRange := priceRange / avg in
  let topZone := max - priceRange * 0.10 in
  let bottomZone := min + priceRange * 0.10 in
  let '(touchesHigh, touchesLow, upMoves, downMoves) :=
    match lastTicks with
    | [] => (0, 0, 0, 0)%nat
    | x :: r => contarToques topZone bottomZone max min x r 0 0 0 0
    end in
  let zigzag := Nat.ltb 4 upMoves && Nat.ltb 4 downMoves in
  let manyTouches := Nat.leb 2 touchesHigh && Nat.leb 2 touchesLow in
  let ultimo := at_index lastTicks (length lastTicks - 1) in
  (percRange <? zonePerc) && manyTouches && zigzag
  && ((ultimo <=? max) && (ultimo >=? min)).

(** [hasStrongMovement]: some difference between consecutive prices of
    the last 8 exceeds 0.30 in magnitude. *)
Definition hasStrongMovement (currentTicks : list float) : bool :=
  existsb (fun diff => Math_abs diff >? 0.30) (diferencas (slice_last 8 currentTicks)).

(** The block under [telegramManager.getUseFilters()]: whether it
    returns before an entry is made. *)
Definition filtrosBloqueiam (currentTicks : list float) : bool :=
  let lastTicks := slice_last 20 currentTicks in
  if Nat.ltb (length lastTicks) 20 then true
  else if superLateral lastTicks then true
  else hasStrongMovement currentTicks.

Section Decisao.

Context {MM : Type} `{MoneyManager MM}.

(** [Math.log], and [moneyManager.calculateNextStake()], a method of the
    class that is not among the sources: the stake it returns and the
    manager it leaves. *)
Variable Math_log : float -> float.
Variable calculateNextStake : MM -> float * MM.

Definition intervalosAtivos (s : Estado MM) : list nat :=
  intervalosAtivosDe (efeitos s) [].

(** The handle [lastContractIntervalId] names the only interval that is
    active, if any. *)
Definition umSoIntervalo (s : Estado MM) : Prop :=
  intervalosAtivos s
  = match lastContractIntervalId s with Some id => [id] | None => [] end.

(** [checkStakeAndBalance(stake)]: what it returns, the state it leaves
    and the alert it sends.  Its [stopBot()] is not awaited, and neither is
    the one its caller makes next: each runs up to the end of
    [clearSubscriptions] at once and sets [isTrading] and the retry counter
    and sends its message only after the subscriber has returned; the second
    finds no subscription left, so the calls made and the state reached are
    those of two calls in a row. *)
Definition checkStakeAndBalance (agora : Z) (stake : float) (s : Estado MM)
    : bool * Estado MM * list Chamada :=
  if (stake <? 0.35) || (getCurrentBalance (moneyManager s) <? 0.35)
  then (false, stopBot agora s, [AlertaCritico (getCurrentBalance (moneyManager s))])
  else (true, s, []).

(** The tick subscriber from [const currentTicks = ...] up to the [buy]
    request: the state it leaves and the calls it makes besides those of
    [stopBot].  [useFilters] is what [telegramManager.getUseFilters()]
    returns; [agora] stands for every [Date.now()] of the invocation. *)
Definition faseDeTrade (agora : Z) (useFilters : bool) (s : Estado MM)
    : Estado MM * list Chamada :=
  let currentTicks := janela s in
  if negb (isAuthorized s) || negb (botRunning s) then (s, [])
  else if isTrading s then
    let s := set_tickCount (S (tickCount s)) s in
    if Nat.leb (ticksCount + 1) (tickCount s)
    then (set_tickCount 0 (set_isTrading false s), [])
    else (s, [])
  else
    let momentumPersistent := Strategy.momentumPersistentStrategy Math_log currentTicks None in
    match Strategy.sinal (Strategy.mp_base momentumPersistent) with
    | Strategy.HOLD => (s, [])
    | sinal =>
        if useFilters && filtrosBloqueiam currentTicks then (s, [])
        else
          let '(amount, mm) := calculateNextStake (moneyManager s) in
          let s := set_moneyManager mm s in
          let '(ok, s, chamadas) := checkStakeAndBalance agora amount s in
          if ok then (s, chamadas ++ [SinalIdentificado amount; ApiBuy amount sinal])
          else (stopBot agora s, chamadas)
    end.

(** The whole tick subscriber on one message, up to the [buy] request. *)
Definition aoTick (agora : Z) (useFilters : bool) (msg : MensagemTicks) (s : Estado MM)
    : Estado MM * list Chamada :=
  faseDeTrade agora useFilters (aoReceberTicks agora msg s).

(** The messages of the tick stream handled one after the other, nothing
    else happening in between: the state reached and the calls made. *)
Fixpoint aoTicks (useFilters : bool) (msgs : list (Z * MensagemTicks)) (s : Estado MM)
    : Estado MM * list Chamada :=
  match msgs with
  | [] => (s, [])
  | (agora, msg) :: r =>
      let '(s1, c1) := aoTick agora useFilters msg s in
      let '(s2, c2) := aoTicks useFilters r s1 in
      (s2, c1 ++ c2)
  end.

(** One event handled, the broker answering as [env] says; of the tick
    subscriber, the state it leaves. *)
Definition passo (env : Corretora) (ev : Evento) (s : Estado MM) : Estado MM :=
  match ev with
  | EvTicks agora useFilters msg => fst (aoTick agora useFilters msg s)
  | EvContrato agora contract => aoAtualizarContrato agora contract s
  | EvWatchdog agora => aoDispararWatchdog env agora s
  | EvCompra contract_id => registrarCompra contract_id s
  | EvStop agora => stopBot agora s
  end.

Definition executar (env : Corretora) (evs : list Evento) (s : Estado MM) : Estado MM :=
  fold_left (fun s ev => passo env ev s) evs s.

End Decisao.

End Bot.

(* ================================================================== *)
(** * Concrete inputs and states                                       *)
(* ================================================================== *)

Module Exemplos.

Import JS Strategy Bot.
Local Open Scope float_scope.

(** The money manager as the entry file configures it: fixed policy,
    stake 0.35, payout 88%, balance 100. *)
Definition gestorInicial : GestorFixo :=
  {| saldo := 100; initialStake := 0.35; profitPercent := 88 |}.

(** The bot running and authorized, subscribed, with no contract placed. *)
Definition estadoInicial : Estado GestorFixo :=
  {| isAuthorized := true; isTrading := false; consecutiveWins := 0;
     lastContractId := None; lastContractIntervalId := None; tickCount := 0;
     retryToGetLastTradeCount := 0; ticksMap := None;
     activeSubscriptions := [SubTicks; SubContracts]; lastActivityTimestamp := 0;
     moneyManager := gestorInicial; botRunning := true; efeitos := [] |}.

(** The contract 42 has just been bought: the reconciler is in PLACED. *)
Definition estadoComContrato : Estado GestorFixo :=
  registrarCompra (Some 42%Z) estadoInicial.

Definition contratoAberto : Contract :=
  {| status := Some st_open; profit := Some 0; buy_price := Some 0.35 |}.

Definition contratoGanho : Contract :=
  {| status := Some st_won; profit := Some 0.31; buy_price := Some 0.35 |}.

(** A broker that answers every status request with the open contract. *)
Definition corretoraAberto : Corretora :=
  {| respostaContrato := fun _ => Resposta (Some contratoAberto);
     respostaAuthorize := fun _ => true |}.

(** A broker that refuses every status request for want of authorization
    and accepts every authorization. *)
Definition corretoraSemAutorizacao : Corretora :=
  {| respostaContrato := fun _ => AuthorizationRequired;
     respostaAuthorize := fun _ => true |}.

(** The contract 42 settled by a first push of its won status. *)
Definition estadoLiquidado : Estado GestorFixo :=
  aoAtualizarContrato 6 (Some contratoGanho) estadoComContrato.

(** A window of 49 prices, as a short history delivers it. *)
Definition estadoJanela49 : Estado GestorFixo :=
  aoReceberTicks 0 (History (Some (repeat 100 49))) estadoInicial.

Definition estadoJanela50 : Estado GestorFixo :=
  aoReceberTicks 0 (History (Some (repeat 100 50))) estadoInicial.

(** Prices [100 + k] for the offsets [k]. *)
Definition precosDe (ks : list nat) : list float :=
  map (fun k => 100 + float_of_nat k) ks.

(** 30 prices rising by 1 at every tick. *)
Definition precosSubindo : list float := precosDe (seq 0 30).

(** Two lists of 20 prices that rise by 6 over the last 15 prices, with 4
    falls of 1 on the way: the falls come one at a time in the first list
    (8 reversals) and two at a time in the second (4 reversals).  The 5
    prices before are chosen so that both lists hold the same 20 prices in
    another order. *)
Definition precosOitoReversoes : list float :=
  precosDe [0; 0; 2; 2; 3; 0; 1; 2; 1; 2; 1; 2; 1; 2; 1; 2; 3; 4; 5; 6]%nat.

Definition precosQuatroReversoes : list float :=
  precosDe [2; 2; 2; 2; 3; 0; 1; 2; 1; 0; 1; 2; 1; 0; 1; 2; 3; 4; 5; 6]%nat.

(** 20 prices whose differences overflow: [-1e308] at the start of the
    last 15 prices and [1e308] at their end, [0] elsewhere. *)
Definition precosExtremos : list float :=
  repeat 0 5 ++ [-1e308] ++ repeat 0 13 ++ [1e308].

(** 50 prices that stay at 100 until the last four: the returns differ
    from 0 from the 46th on only, where no window of the scales 11 and 15 of
    the Hurst-regime detector reaches. *)
Definition precosFinalAgitado : list float := repeat 100 46 ++ [101; 100; 102; 100].

(** 50 prices [100, 101, 102, 100, ...] in which every fifth price, from
    the sixth on, is replaced by [0]: each of the 9 zeros costs the fast
    estimator 2 of the 49 returns, which leaves 31, enough for the scales 8
    and 12 only. *)
Definition precosComZeros : list float :=
  map (fun i => if Nat.eqb (i mod 5) 0 && Nat.ltb 0 i then 0
                else 100 + float_of_nat (i mod 3))
      (seq 0 50).

(** 30 prices falling by 1 at every tick. *)
Definition precosDescendo : list float :=
  map (fun k => 130 - float_of_nat k) (seq 0 30).

(** A full window: 50 prices rising by 1 at every tick, and 50 falling. *)
Definition janelaSubindo : list float := precosDe (seq 0 50).

Definition janelaDescendo : list float :=
  map (fun k => 150 - float_of_nat k) (seq 0 50).

Definition contratoPerdido : Contract :=
  {| status := Some st_lost; profit := Some (-0.35); buy_price := Some 0.35 |}.

(** A broker that answers every status request with the lost contract. *)
Definition corretoraPerdido : Corretora :=
  {| respostaContrato := fun _ => Resposta (Some contratoPerdido);
     respostaAuthorize := fun _ => true |}.

(** A broker whose status requests fail for another reason than a missing
    authorization. *)
Definition corretoraComErro : Corretora :=
  {| respostaContrato := fun _ => OutroErro;
     respostaAuthorize := fun _ => true |}.

(** A window of 19 prices, as a short history delivers it. *)
Definition estadoJanela19 : Estado GestorFixo :=
  aoReceberTicks 0 (History (Some (repeat 100 19))) estadoInicial.

(** The balance has fallen to 0.20, below the stake. *)
Definition estadoSaldoBaixo : Estado GestorFixo :=
  set_ticksMap (Some janelaSubindo)
    (set_moneyManager {| saldo := 0.2; initialStake := 0.35; profitPercent := 88 |}
       estadoInicial).

(** The contract 42 is pending and the bot has been marked as stopped. *)
Definition estadoParado : Estado GestorFixo :=
  {| isAuthorized := true; isTrading := true; consecutiveWins := 0;
     lastContractId := Some 42%Z; lastContractIntervalId := Some 0%nat; tickCount := 3;
     retryToGetLastTradeCount := 0; ticksMap := Some janelaSubindo;
     activeSubscriptions := [SubTicks; SubContracts]; lastActivityTimestamp := 0;
     moneyManager := gestorInicial; botRunning := false;
     efeitos := [SetInterval 0] |}.

(** [n] ticks quoted at 100, arriving at the times 1, 2, ... *)
Definition ticksA100 (n : nat) : list (Z * MensagemTicks) :=
  map (fun k => (Z.of_nat k, Tick (Some 100))) (seq 1 n).

(** A full window rising by 0.1 at every tick: no move exceeds 0.30. *)
Definition janelaSuave : list float :=
  map (fun k => 100 + float_of_nat k / 10) (seq 0 50).

(** 30 prices that rise by 1 at every tick with every second price lifted
    by 6: the price turns at every tick but drifts upwards. *)
Definition precosZigueZague : list float :=
  precosDe (map (fun k => (k + (if Nat.even k then 0 else 6))%nat) (seq 0 30)).

(** A logarithm for the examples that is bounded by construction:
    [log_approx], with a result above 1024 in magnitude replaced by [0]. *)
Definition log_limitado (x : float) : float :=
  let y := log_approx x in
  if Math_abs y <=? 1024 then y else 0.

End Exemplos.

(* ================================================================== *)
(** * The vocabulary of the statements                                 *)
(* ================================================================== *)

(** Classes of binary64 values, on the specification [SpecFloat] of the
    operations and on the primitive numbers, and the intervals the
    properties below speak of. *)
Module Predicados.

Import JS.

(** Zero of either sign, a positive finite number or [+Infinity]. *)
Definition sf_nonneg (x : spec_float) : bool :=
  match x with
  | S754_zero _ => true
  | S754_infinity s | S754_finite s _ _ => negb s
  | S754_nan => false
  end.

(** The same, or NaN. *)
Definition sf_nonneg_nan (x : spec_float) : bool :=
  match x with
  | S754_nan => true
  | _ => sf_nonneg x
  end.

(** A positive finite number or [+Infinity]. *)
Definition sf_pos (x : spec_float) : bool :=
  match x with
  | S754_infinity s | S754_finite s _ _ => negb s
  | _ => false
  end.

(** A positive finite number. *)
Definition sf_posfin (x : spec_float) : bool :=
  match x with
  | S754_finite s _ _ => negb s
  | _ => false
  end.

(** Not NaN, and of the sign [sx] (a zero included). *)
Definition sf_signed (sx : bool) (x : spec_float) : Prop :=
  match x with
  | S754_nan => False
  | S754_zero s | S754_infinity s | S754_finite s _ _ => s = sx
  end.

(** An infinity or a finite number other than zero, of the sign [sx]. *)
Definition sf_nonzero (sx : bool) (x : spec_float) : Prop :=
  match x with
  | S754_infinity s | S754_finite s _ _ => s = sx
  | _ => False
  end.

(** Positive finite numbers in canonical form are ordered by exponent,
    then by mantissa. *)
Definition lex_lt (e1 : Z) (m1 : positive) (e2 : Z) (m2 : positive) : Prop :=
  (e1 < e2)%Z \/ (e1 = e2 /\ (m1 < m2)%positive).

Local Open Scope float_scope.

Definition naoNegativo (x : float) : Prop := sf_nonneg (Prim2SF x) = true.

Definition naoNegativoOuNaN (x : float) : Prop := sf_nonneg_nan (Prim2SF x) = true.

Definition positivo (x : float) : Prop := sf_pos (Prim2SF x) = true.

Definition positivoFinito (x : float) : Prop := sf_posfin (Prim2SF x) = true.

(** A number of the closed interval from 0 to 1. *)
Definition emUnidade (r : float) : Prop := (0 <=? r) = true /\ (r <=? 1) = true.

(** A confidence that is NaN or lies in the unit interval. *)
Definition emUnidadeOuNaN (c : float) : Prop := is_nan c = true \/ emUnidade c.

(** A zero of either sign, or NaN: what the statistics of an all-zero
    window can be, whatever the scale they are divided by. *)
Definition zeroOuNaN (x : float) : Prop :=
  match Prim2SF x with S754_zero _ | S754_nan => True | _ => False end.

(** A list of returns that are all [0]. *)
Definition todosZero (xs : list float) : Prop := Forall (fun v => v = 0) xs.

(** Magnitudes.  [sf_lim k x]: [x] is zero, or finite and below [2^k] in
    magnitude; [sf_min k x]: [x] is finite and at least [2^(k-1)] in
    magnitude. *)
Definition sf_lim (k : Z) (x : spec_float) : Prop :=
  match x with
  | S754_zero _ => True
  | S754_finite _ m e => (Zpos (digits2_pos m) + e <= k)%Z
  | _ => False
  end.

Definition sf_min (k : Z) (x : spec_float) : Prop :=
  match x with
  | S754_finite _ m e => (k <= Zpos (digits2_pos m) + e)%Z
  | _ => False
  end.

(** Zero or a finite number. *)
Definition sf_fin (x : spec_float) : Prop :=
  match x with
  | S754_zero _ | S754_finite _ _ _ => True
  | _ => False
  end.

Definition limitado (k : Z) (x : float) : Prop := sf_lim k (Prim2SF x).

Definition afastado (k : Z) (x : float) : Prop := sf_min k (Prim2SF x).

Definition finito (x : float) : Prop := sf_fin (Prim2SF x).

(** A price: a finite number that is not negative. *)
Definition precoValido (p : float) : Prop :=
  (0 <=? p)%float = true /\ JS.isFinite p = true.

(** What the detectors need of [Math.log]: on a positive finite number its
    value is at most 1024 in magnitude (the natural logarithm of a binary64
    number lies between -745 and 710). *)
Definition logLimitado (Math_log : float -> float) : Prop :=
  forall x, (0 <? x)%float = true -> JS.isFinite x = true ->
            (JS.Math_abs (Math_log x) <=? 1024)%float = true.

(** The regression points collected by the fast estimator: as many ranges
    as scales, at most [n] of them, all of them below [2^11] in
    magnitude. *)
Definition pontosLimitados (n : nat) (p : list float * list float) : Prop :=
  length (fst p) = length (snd p) /\ (length (fst p) <= n)%nat
  /\ Forall (limitado 11) (fst p) /\ Forall (limitado 11) (snd p).

End Predicados.

(* ================================================================== *)
(** * Facts about binary64 arithmetic                                  *)
(* ================================================================== *)

(** The theorems about the detectors need little of floating-point
    arithmetic: which results of an operation can be negative or NaN, that
    a number above a constant stays non-negative, and does not round to
    zero, when a smaller constant is subtracted, and that a finite non-zero
    number divided by itself is 1.  They are proved on the specification
    [SpecFloat] of the operations, to which [FloatAxioms] relates the
    primitive ones. *)

Module FloatFacts.

Import JS Predicados.
Local Open Scope Z_scope.

Lemma sf_nonneg_weaken x : sf_nonneg x = true -> sf_nonneg_nan x = true.
Proof. destruct x; cbn; auto. Qed.

Lemma sf_pos_nonneg x : sf_pos x = true -> sf_nonneg x = true.
Proof. destruct x; cbn; auto; discriminate. Qed.

Lemma sf_posfin_pos x : sf_posfin x = true -> sf_pos x = true.
Proof. destruct x; cbn; auto; discriminate. Qed.

Lemma sf_signed_nonneg x : sf_signed false x -> sf_nonneg x = true.
Proof. destruct x; cbn; intros H; subst; auto; contradiction. Qed.

(** ** Rounding keeps the sign *)

Lemma shr_1_nonneg mrs : 0 <= shr_m mrs -> 0 <= shr_m (shr_1 mrs).
Proof.
  destruct mrs as [m r s]. cbn.
  destruct m as [|p|p]; cbn; intros Hm; try lia; destruct p; cbn; lia.
Qed.

Lemma iter_shr_1_nonneg p :
  forall mrs, 0 <= shr_m mrs -> 0 <= shr_m (SpecFloat.iter_pos shr_1 p mrs).
Proof.
  induction p as [p IH|p IH|]; intros mrs Hm; cbn.
  - apply IH, IH, shr_1_nonneg, Hm.
  - apply IH, IH, Hm.
  - apply shr_1_nonneg, Hm.
Qed.

Lemma shr_fexp_nonneg m e l :
  0 <= m -> 0 <= shr_m (fst (shr_fexp prec emax m e l)).
Proof.
  intros Hm. unfold shr_fexp, shr.
  assert (H0 : 0 <= shr_m (shr_record_of_loc m l))
    by (destruct l as [|[| |]]; exact Hm).
  destruct (fexp prec emax (Zdigits2 m + e) - e); cbn [fst]; auto.
  apply iter_shr_1_nonneg, H0.
Qed.

Lemma round_nearest_even_nonneg m l : 0 <= m -> 0 <= round_nearest_even m l.
Proof.
  intros Hm. unfold round_nearest_even.
  destruct l as [|[| |]]; try lia. destruct (Z.even m); lia.
Qed.

Lemma binary_round_aux_signed sx mx ex lx :
  0 <= mx -> sf_signed sx (binary_round_aux prec emax sx mx ex lx).
Proof.
  intros Hm. unfold binary_round_aux.
  pose proof (shr_fexp_nonneg ex lx Hm) as H1.
  destruct (shr_fexp prec emax mx ex lx) as [mrs' e']. cbn [fst] in H1.
  pose proof (shr_fexp_nonneg e' loc_Exact
                (round_nearest_even_nonneg (loc_of_shr_record mrs') H1)) as H2.
  destruct (shr_fexp prec emax _ e' loc_Exact) as [mrs'' e'']. cbn [fst] in H2.
  destruct (shr_m mrs'') as [|p|p]; cbn.
  - reflexivity.
  - destruct (e'' <=? _); reflexivity.
  - lia.
Qed.

Lemma binary_round_signed sx mx ex :
  sf_signed sx (binary_round prec emax sx mx ex).
Proof.
  unfold binary_round.
  destruct (shl_align mx ex _) as [mz ez].
  apply binary_round_aux_signed. lia.
Qed.

Lemma binary_normalize_nonneg m e :
  0 <= m -> sf_signed false (binary_normalize prec emax m e false).
Proof.
  intros Hm. unfold binary_normalize. destruct m as [|p|p]; try lia.
  - reflexivity.
  - apply binary_round_signed.
Qed.

(** ** Sums, products and quotients of non-negative numbers *)

Lemma SFadd_nonneg x y :
  sf_nonneg x = true -> sf_nonneg y = true -> sf_nonneg (SF64add x y) = true.
Proof.
  destruct x as [sx|sx| |sx mx ex], y as [sy|sy| |sy my ey]; cbn;
    try discriminate; try (destruct sx, sy; cbn; auto; discriminate).
  intros Hx Hy. destruct sx, sy; try discriminate. cbn.
  apply sf_signed_nonneg, binary_round_signed.
Qed.

Lemma SFadd_nonneg_nan x y :
  sf_nonneg_nan x = true -> sf_nonneg_nan y = true -> sf_nonneg_nan (SF64add x y) = true.
Proof.
  destruct x as [sx|sx| |sx mx ex] eqn:Ex; try (intros; reflexivity);
    destruct y as [sy|sy| |sy my ey] eqn:Ey; try (intros; reflexivity);
    intros Hx Hy; apply sf_nonneg_weaken;
    rewrite <- Ex, <- Ey; apply SFadd_nonneg; subst; assumption.
Qed.

Lemma SFmul_nonneg_nan x y :
  sf_nonneg_nan x = true -> sf_nonneg_nan y = true -> sf_nonneg_nan (SF64mul x y) = true.
Proof.
  destruct x as [sx|sx| |sx mx ex], y as [sy|sy| |sy my ey]; cbn;
    try discriminate; try reflexivity;
    try (destruct sx, sy; cbn; auto; discriminate).
  intros Hx Hy. destruct sx, sy; try discriminate. cbn.
  apply sf_nonneg_weaken, sf_signed_nonneg, binary_round_aux_signed. lia.
Qed.

Lemma SFmul_nonneg_posfin x y :
  sf_nonneg x = true -> sf_posfin y = true -> sf_nonneg (SF64mul x y) = true.
Proof.
  destruct x as [sx|sx| |sx mx ex], y as [sy|sy| |sy my ey]; cbn;
    try discriminate; try (destruct sx, sy; cbn; auto; discriminate).
  intros Hx Hy. destruct sx, sy; try discriminate. cbn.
  apply sf_signed_nonneg, binary_round_aux_signed. lia.
Qed.

Lemma SFdiv_core_nonneg m1 e1 m2 e2 :
  0 <= fst (fst (SFdiv_core_binary prec emax (Zpos m1) e1 (Zpos m2) e2)).
Proof.
  unfold SFdiv_core_binary.
  set (s := _ - _ - Z.min _ _).
  set (m' := match s with Z0 => Zpos m1 | Zpos _ => Z.shiftl (Zpos m1) s | Zneg _ => 0 end).
  assert (Hm' : 0 <= m').
  { subst m'. destruct s; try lia. apply Z.shiftl_nonneg. lia. }
  pose proof (Z_div_mod m' (Zpos m2) eq_refl) as Hdm.
  destruct (Z.div_eucl m' (Zpos m2)) as [q r]. cbn [fst].
  destruct Hdm as (Heq & Hr). nia.
Qed.

Lemma SFdiv_finite_signed sx mx ex my ey :
  sf_signed sx
    (let '(mz, ez, lz) := SFdiv_core_binary prec emax (Zpos mx) ex (Zpos my) ey in
     binary_round_aux prec emax sx mz ez lz).
Proof.
  pose proof (SFdiv_core_nonneg mx ex my ey) as Hq.
  destruct (SFdiv_core_binary prec emax (Zpos mx) ex (Zpos my) ey) as [[mz ez] lz].
  cbn [fst] in Hq. apply binary_round_aux_signed. exact Hq.
Qed.

Lemma SFdiv_nonneg_nan_pos x y :
  sf_nonneg_nan x = true -> sf_pos y = true -> sf_nonneg_nan (SF64div x y) = true.
Proof.
  destruct x as [sx|sx| |sx mx ex], y as [sy|sy| |sy my ey];
    try discriminate; try reflexivity;
    try (cbn; destruct sx, sy; cbn; auto; discriminate).
  intros Hx Hy. cbn in Hx, Hy. destruct sx, sy; try discriminate.
  apply sf_nonneg_weaken, sf_signed_nonneg.
  exact (SFdiv_finite_signed false mx ex my ey).
Qed.

Lemma SFdiv_nonneg_posfin x y :
  sf_nonneg x = true -> sf_posfin y = true -> sf_nonneg (SF64div x y) = true.
Proof.
  destruct x as [sx|sx| |sx mx ex], y as [sy|sy| |sy my ey];
    try discriminate; try reflexivity;
    try (cbn; destruct sx, sy; cbn; auto; discriminate).
  intros Hx Hy. cbn in Hx, Hy. destruct sx, sy; try discriminate.
  apply sf_signed_nonneg.
  exact (SFdiv_finite_signed false mx ex my ey).
Qed.

Lemma SFabs_nonneg_nan x : sf_nonneg_nan (SFabs x) = true.
Proof. destruct x; reflexivity. Qed.

(** ** The order on positive finite numbers *)

Lemma SFltb_posfin m1 e1 m2 e2 :
  SFltb (S754_finite false m1 e1) (S754_finite false m2 e2) = true
  <-> lex_lt e1 m1 e2 m2.
Proof.
  unfold SFltb, SFcompare, lex_lt. rewrite Pos.compare_cont_spec. cbn [Pos.switch_Eq].
  destruct (Z.compare_spec e1 e2); destruct (Pos.compare_spec m1 m2);
    split; intros Hx; try discriminate; try reflexivity; try lia.
Qed.

Lemma SFleb_posfin m1 e1 m2 e2 :
  SFleb (S754_finite false m1 e1) (S754_finite false m2 e2) = true
  <-> lex_lt e1 m1 e2 m2 \/ (e1 = e2 /\ m1 = m2).
Proof.
  unfold SFleb, SFcompare, lex_lt. rewrite Pos.compare_cont_spec. cbn [Pos.switch_Eq].
  destruct (Z.compare_spec e1 e2); destruct (Pos.compare_spec m1 m2);
    split; intros Hx; try discriminate; try reflexivity; try lia.
Qed.

Lemma SFltb_posfin_pos k x :
  sf_posfin k = true -> SFltb k x = true -> sf_pos x = true.
Proof.
  destruct k as [| | |[|] mk ek]; try discriminate. intros _.
  destruct x as [s|[|]| |[|] m e]; cbn; try discriminate; reflexivity.
Qed.

Lemma SFleb_posfin_pos k x :
  sf_posfin k = true -> SFleb k x = true -> sf_pos x = true.
Proof.
  destruct k as [| | |[|] mk ek]; try discriminate. intros _.
  destruct x as [s|[|]| |[|] m e]; cbn; try discriminate; reflexivity.
Qed.

Lemma SFltb_zero_pos s x : SFltb (S754_zero s) x = true -> sf_pos x = true.
Proof. destruct x as [s'|[|]| |[|] m e]; cbn; try discriminate; reflexivity. Qed.

(** From [k < x] and [c <= k] to [c <= x], for positive finite [c], [k]. *)
Lemma SFleb_trans_const c k x :
  sf_posfin c = true -> sf_posfin k = true ->
  SFleb c k = true -> SFltb k x = true -> SFleb c x = true.
Proof.
  destruct c as [| | |[|] mc ec]; try discriminate.
  destruct k as [| | |[|] mk ek]; try discriminate. intros _ _ Hck Hkx.
  destruct x as [s|[|]| |[|] m e]; try discriminate; try reflexivity.
  apply SFleb_posfin in Hck. apply SFltb_posfin in Hkx. apply SFleb_posfin.
  unfold lex_lt in *. lia.
Qed.

(** ** A number minus a constant it is not below *)

Lemma digits2_pos_bounds m :
  2 ^ (Zpos (digits2_pos m) - 1) <= Zpos m < 2 ^ Zpos (digits2_pos m).
Proof.
  induction m as [m IH|m IH|]; cbn [digits2_pos].
  - rewrite Pos2Z.inj_succ.
    replace (Z.succ (Zpos (digits2_pos m)) - 1) with (Z.succ (Zpos (digits2_pos m) - 1)) by lia.
    rewrite !Z.pow_succ_r by lia. lia.
  - rewrite Pos2Z.inj_succ.
    replace (Z.succ (Zpos (digits2_pos m)) - 1) with (Z.succ (Zpos (digits2_pos m) - 1)) by lia.
    rewrite !Z.pow_succ_r by lia. lia.
  - cbn. lia.
Qed.

Lemma iter_xO_value m d : Zpos (Pos.iter xO m d) = Zpos m * 2 ^ Zpos d.
Proof.
  revert m. induction d as [|d IH] using Pos.peano_ind; intros m.
  - cbn. lia.
  - rewrite Pos.iter_succ, Pos2Z.inj_succ, Z.pow_succ_r by lia.
    rewrite Pos2Z.inj_xO, IH. lia.
Qed.

(** The mantissa aligned to a lower exponent. *)
Lemma shl_align_value m e ez :
  ez <= e -> Zpos (fst (shl_align m e ez)) = Zpos m * 2 ^ (e - ez).
Proof.
  intros Hle. unfold shl_align.
  destruct (ez - e) as [|d|d] eqn:Ed; cbn [fst]; try lia.
  - replace (e - ez) with 0 by lia. lia.
  - rewrite iter_xO_value. f_equal. f_equal. lia.
Qed.

Lemma bounded_facts m e :
  bounded prec emax m e = true ->
  emin <= e /\ Zpos (digits2_pos m) <= 53 /\ (emin < e -> Zpos (digits2_pos m) = 53).
Proof.
  unfold bounded, canonical_mantissa, fexp, SpecFloat.emin, prec, emax.
  intros Hb. apply andb_prop in Hb. destruct Hb as (Hc & _).
  apply Z.eqb_eq in Hc. lia.
Qed.

Lemma aligned_ge m e mc ec :
  bounded prec emax m e = true -> bounded prec emax mc ec = true ->
  lex_lt ec mc e m \/ (ec = e /\ mc = m) ->
  Zpos (fst (shl_align mc ec (Z.min e ec))) <= Zpos (fst (shl_align m e (Z.min e ec))).
Proof.
  intros Hb Hbc Hle.
  rewrite !shl_align_value by lia.
  destruct (bounded_facts _ _ Hb) as (He & Hd & Hd').
  destruct (bounded_facts _ _ Hbc) as (Hec & Hdc & _).
  pose proof (digits2_pos_bounds m) as Bm.
  pose proof (digits2_pos_bounds mc) as Bmc.
  destruct Hle as [[Hlt|(Heq & Hlt)]|(Heq & Hm)].
  - rewrite Z.min_r by lia. replace (ec - ec) with 0 by lia.
    rewrite Hd' in Bm by lia.
    assert (Hp : 2 ^ 1 <= 2 ^ (e - ec)) by (apply Z.pow_le_mono_r; lia).
    assert (Hc53 : 2 ^ Zpos (digits2_pos mc) <= 2 ^ 53) by (apply Z.pow_le_mono_r; lia).
    change (2 ^ 1) with 2 in Hp. change (2 ^ (53 - 1)) with 4503599627370496 in Bm.
    change (2 ^ 53) with 9007199254740992 in Hc53. nia.
  - subst ec. rewrite Z.min_id. replace (e - e) with 0 by lia. cbn. lia.
  - subst ec mc. lia.
Qed.

Lemma SFsub_ge_nonneg x c :
  valid_binary x = true -> valid_binary c = true ->
  sf_pos x = true -> sf_posfin c = true ->
  SFleb c x = true ->
  sf_nonneg (SF64sub x c) = true.
Proof.
  destruct c as [| | |[|] mc ec]; try discriminate.
  destruct x as [s|[|]| |[|] m e]; try discriminate; try reflexivity.
  intros Hv Hvc _ _ Hle. apply SFleb_posfin in Hle.
  unfold SF64sub, SFsub, cond_Zopp.
  apply sf_signed_nonneg, binary_normalize_nonneg.
  pose proof (aligned_ge Hv Hvc Hle). lia.
Qed.

(** ** A finite non-zero number divided by itself is 1 *)

Lemma SFdiv_self s m e :
  SF64div (S754_finite s m e) (S754_finite s m e) = S754_finite false 4503599627370496 (-52).
Proof.
  unfold SF64div, SFdiv, SFdiv_core_binary.
  replace (Zdigits2 (Zpos m) + e - (Zdigits2 (Zpos m) + e)) with 0 by lia.
  replace (e - e) with 0 by lia.
  change (Z.min (fexp prec emax 0) 0) with (-53).
  change (0 - -53) with 53.
  cbv beta iota zeta.
  rewrite Z.shiftl_mul_pow2 by lia.
  assert (Hdiv : Z.div_eucl (Zpos m * 2 ^ 53) (Zpos m) = (2 ^ 53, 0)).
  { pose proof (Z_div_mod (Zpos m * 2 ^ 53) (Zpos m) eq_refl) as Hdm.
    destruct (Z.div_eucl (Zpos m * 2 ^ 53) (Zpos m)) as [q r].
    destruct Hdm as (Heq & Hr).
    revert Heq. generalize (2 ^ 53). intros P Heq.
    assert (Hq : q = P) by nia. subst q. f_equal. lia. }
  rewrite Hdiv.
  assert (Hloc : new_location (Zpos m) 0 = loc_Exact).
  { unfold new_location, new_location_even, new_location_odd.
    destruct (Z.even (Zpos m)); reflexivity. }
  rewrite Hloc. destruct s; reflexivity.
Qed.

(** ** Zero divided by anything, and its square root *)

Lemma SFdiv_zero_class s y :
  match SF64div (S754_zero s) y with
  | S754_zero _ | S754_nan => True
  | _ => False
  end.
Proof. destruct y; exact I. Qed.

Lemma SFsqrt_zero_class x :
  match x with S754_zero _ | S754_nan => True | _ => False end ->
  SFltb (S754_zero false) (SF64sqrt x) = false.
Proof. destruct x as [s| | |]; try contradiction; reflexivity. Qed.

(** ** Comparisons are asymmetric *)

Lemma SFcompare_antisym x y :
  SFcompare y x = option_map CompOpp (SFcompare x y).
Proof.
  destruct x as [sx|sx| |sx mx ex], y as [sy|sy| |sy my ey];
    try reflexivity; try (destruct sx; reflexivity); try (destruct sy; reflexivity);
    try (destruct sx, sy; reflexivity).
  unfold SFcompare.
  rewrite (Z.compare_antisym ex ey).
  replace (Pos.compare_cont Eq my mx) with (CompOpp (Pos.compare_cont Eq mx my))
    by (rewrite Pos.compare_cont_antisym; reflexivity).
  destruct sx, sy; cbn [option_map CompOpp]; try reflexivity;
    destruct (ex ?= ey); cbn [CompOpp]; try reflexivity;
    destruct (Pos.compare_cont Eq mx my); reflexivity.
Qed.

Lemma SFltb_asym x y : SFltb x y = true -> SFltb y x = false.
Proof.
  unfold SFltb. rewrite (SFcompare_antisym x y).
  destruct (SFcompare x y) as [[| |]|]; cbn; try discriminate; reflexivity.
Qed.

(** ** The same facts on the primitive numbers *)

Local Open Scope float_scope.

Lemma naoNegativo_weaken x : naoNegativo x -> naoNegativoOuNaN x.
Proof. apply sf_nonneg_weaken. Qed.

Lemma positivo_naoNegativo x : positivo x -> naoNegativo x.
Proof. apply sf_pos_nonneg. Qed.

Lemma positivoFinito_positivo x : positivoFinito x -> positivo x.
Proof. apply sf_posfin_pos. Qed.

Lemma is_nan_spec x :
  is_nan x = match Prim2SF x with S754_nan => true | _ => false end.
Proof.
  unfold is_nan. rewrite FloatAxioms.eqb_spec. unfold SFeqb.
  destruct (Prim2SF x) as [s|s| |s m e]; cbn; try reflexivity.
  - destruct s; reflexivity.
  - rewrite Z.compare_refl, Pos.compare_cont_refl. destruct s; reflexivity.
Qed.

Lemma naoNegativo_nao_nan x : naoNegativo x -> is_nan x = false.
Proof.
  unfold naoNegativo. rewrite is_nan_spec. destruct (Prim2SF x); try reflexivity; discriminate.
Qed.

Lemma naoNegativoOuNaN_cases x :
  naoNegativoOuNaN x -> is_nan x = true \/ naoNegativo x.
Proof.
  unfold naoNegativoOuNaN, naoNegativo. rewrite is_nan_spec.
  destruct (Prim2SF x); cbn; auto.
Qed.

Lemma add_naoNegativo x y : naoNegativo x -> naoNegativo y -> naoNegativo (x + y).
Proof. unfold naoNegativo. rewrite FloatAxioms.add_spec. apply SFadd_nonneg. Qed.

Lemma add_naoNegativoOuNaN x y :
  naoNegativoOuNaN x -> naoNegativoOuNaN y -> naoNegativoOuNaN (x + y).
Proof. unfold naoNegativoOuNaN. rewrite FloatAxioms.add_spec. apply SFadd_nonneg_nan. Qed.

Lemma mul_naoNegativoOuNaN x y :
  naoNegativoOuNaN x -> naoNegativoOuNaN y -> naoNegativoOuNaN (x * y).
Proof. unfold naoNegativoOuNaN. rewrite FloatAxioms.mul_spec. apply SFmul_nonneg_nan. Qed.

Lemma mul_naoNegativo x y : naoNegativo x -> positivoFinito y -> naoNegativo (x * y).
Proof. unfold naoNegativo, positivoFinito. rewrite FloatAxioms.mul_spec. apply SFmul_nonneg_posfin. Qed.

Lemma div_naoNegativoOuNaN x y :
  naoNegativoOuNaN x -> positivo y -> naoNegativoOuNaN (x / y).
Proof. unfold naoNegativoOuNaN, positivo. rewrite FloatAxioms.div_spec. apply SFdiv_nonneg_nan_pos. Qed.

Lemma div_naoNegativo x y : naoNegativo x -> positivoFinito y -> naoNegativo (x / y).
Proof. unfold naoNegativo, positivoFinito. rewrite FloatAxioms.div_spec. apply SFdiv_nonneg_posfin. Qed.

Lemma abs_naoNegativoOuNaN x : naoNegativoOuNaN (abs x).
Proof. unfold naoNegativoOuNaN. rewrite FloatAxioms.abs_spec. apply SFabs_nonneg_nan. Qed.

Lemma quadrado_naoNegativoOuNaN x : naoNegativoOuNaN (x * x).
Proof.
  unfold naoNegativoOuNaN. rewrite FloatAxioms.mul_spec.
  destruct (Prim2SF x) as [s|s| |s m e]; cbn; try reflexivity; try (destruct s; reflexivity).
  apply sf_nonneg_weaken, sf_signed_nonneg.
  replace (xorb s s) with false by (destruct s; reflexivity).
  apply binary_round_aux_signed. lia.
Qed.

Lemma ltb_positivo k x : naoNegativo k -> (k <? x) = true -> positivo x.
Proof.
  unfold naoNegativo, positivo. rewrite FloatAxioms.ltb_spec.
  destruct (Prim2SF k) as [s|[|]| |[|] mk ek]; try discriminate; intros _.
  - apply SFltb_zero_pos.
  - destruct (Prim2SF x) as [s'|[|]| |[|] m e]; cbn; discriminate.
  - apply SFltb_posfin_pos. reflexivity.
Qed.

Lemma leb_positivo k x : positivoFinito k -> (k <=? x) = true -> positivo x.
Proof.
  unfold positivoFinito, positivo. rewrite FloatAxioms.leb_spec. apply SFleb_posfin_pos.
Qed.

(** [x - c] is not negative when [x] is above a constant [k >= c]. *)
Lemma sub_naoNegativo c k x :
  positivoFinito c -> positivoFinito k -> (c <=? k) = true -> (k <? x) = true ->
  naoNegativo (x - c).
Proof.
  unfold positivoFinito, naoNegativo. rewrite FloatAxioms.leb_spec, FloatAxioms.ltb_spec, FloatAxioms.sub_spec.
  intros Hc Hk Hck Hkx.
  apply SFsub_ge_nonneg; try apply Prim2SF_valid; try assumption.
  - apply (SFltb_posfin_pos _ _ Hk Hkx).
  - apply (SFleb_trans_const _ _ _ Hc Hk Hck Hkx).
Qed.

(** The magnitude of a number above [k], or below [-k], is above [k]. *)
Lemma abs_acima k z : positivoFinito k -> (k <? z) = true -> (k <? abs z) = true.
Proof.
  unfold positivoFinito. rewrite !FloatAxioms.ltb_spec, FloatAxioms.abs_spec. intros Hk Hz.
  pose proof (SFltb_posfin_pos _ _ Hk Hz) as Hp.
  destruct (Prim2SF z) as [s|[|]| |[|] m e]; try discriminate; exact Hz.
Qed.

Lemma abs_abaixo k z : positivoFinito k -> (z <? - k) = true -> (k <? abs z) = true.
Proof.
  unfold positivoFinito. rewrite !FloatAxioms.ltb_spec, FloatAxioms.abs_spec, FloatAxioms.opp_spec. intros Hk Hz.
  destruct (Prim2SF k) as [| | |[|] mk ek]; try discriminate.
  destruct (Prim2SF z) as [s|[|]| |[|] m e]; try discriminate; try reflexivity.
  cbn in Hz |- *. unfold SFltb, SFcompare in *.
  rewrite (Z.compare_antisym e ek).
  replace (Pos.compare_cont Eq mk m) with (CompOpp (Pos.compare_cont Eq m mk))
    by (rewrite Pos.compare_cont_antisym; reflexivity).
  destruct (e ?= ek)%Z; cbn [CompOpp] in *; try discriminate; try reflexivity.
  destruct (Pos.compare_cont Eq m mk); cbn [CompOpp] in *; try discriminate; reflexivity.
Qed.

Lemma ltb_asym x y : (x <? y) = true -> (y <? x) = false.
Proof. rewrite !FloatAxioms.ltb_spec. apply SFltb_asym. Qed.

(** [Math.min] and [Math.max] return NaN or one of their arguments. *)
Lemma Math_min_sel a b :
  Math_min a b = nan
  \/ (Math_min a b = a /\ (b <? a) = false /\ is_nan a = false)
  \/ (Math_min a b = b /\ is_nan b = false).
Proof.
  unfold Math_min.
  destruct (is_nan a) eqn:Ea; [left; reflexivity|].
  destruct (is_nan b) eqn:Eb; [left; reflexivity|]. cbn [orb].
  destruct (a <? b) eqn:E1.
  - right. left. repeat split. apply ltb_asym. exact E1.
  - destruct (b <? a) eqn:E2.
    + right. right. split; reflexivity.
    + destruct (is_zero a && get_sign a).
      * right. left. repeat split.
      * right. right. split; reflexivity.
Qed.

Lemma Math_max_sel a b :
  Math_max a b = nan
  \/ Math_max a b = a
  \/ (Math_max a b = b /\ (b <? a) = false /\ is_nan b = false).
Proof.
  unfold Math_max.
  destruct (is_nan a) eqn:Ea; [left; reflexivity|].
  destruct (is_nan b) eqn:Eb; [left; reflexivity|]. cbn [orb].
  destruct (a <? b) eqn:E1.
  - right. right. repeat split. apply ltb_asym. exact E1.
  - destruct (b <? a) eqn:E2.
    + right. left. reflexivity.
    + destruct (is_zero a && negb (get_sign a)).
      * right. left. reflexivity.
      * right. right. repeat split.
Qed.

(** A non-negative number that a constant below 1 is not below lies in
    the unit interval, and so does the constant. *)
Lemma emUnidade_abaixo a c mc ec :
  Prim2SF c = S754_finite false mc ec -> (ec < -52)%Z ->
  naoNegativo a -> (c <? a) = false -> emUnidade a.
Proof.
  unfold naoNegativo, emUnidade. rewrite FloatAxioms.ltb_spec, !FloatAxioms.leb_spec. intros Hc Hec Ha Hca.
  rewrite Hc in Hca.
  change (Prim2SF 0) with (S754_zero false).
  change (Prim2SF 1) with (S754_finite false 4503599627370496 (-52)).
  destruct (Prim2SF a) as [s|[|]| |[|] m e]; try discriminate; try (split; reflexivity).
  split; [reflexivity|].
  apply SFleb_posfin. left. left.
  destruct (Z_lt_le_dec ec e) as [Hlt|Hle]; [|lia].
  exfalso. assert (Ht : SFltb (S754_finite false mc ec) (S754_finite false m e) = true)
    by (apply SFltb_posfin; left; exact Hlt).
  rewrite Ht in Hca. discriminate.
Qed.

Lemma emUnidade_const c mc ec :
  Prim2SF c = S754_finite false mc ec -> (ec < -52)%Z -> emUnidade c.
Proof.
  unfold emUnidade. rewrite !FloatAxioms.leb_spec. intros Hc Hec. rewrite Hc.
  change (Prim2SF 0) with (S754_zero false).
  change (Prim2SF 1) with (S754_finite false 4503599627370496 (-52)).
  split; [reflexivity|]. apply SFleb_posfin. left. left. exact Hec.
Qed.

(** [Math.min(a, c)] for a constant [c] below 1. *)
Lemma Math_min_emUnidade a c mc ec :
  Prim2SF c = S754_finite false mc ec -> (ec < -52)%Z ->
  naoNegativo a -> emUnidade (Math_min a c).
Proof.
  intros Hc Hec Ha.
  pose proof (naoNegativo_nao_nan Ha) as Hn.
  assert (Hnc : is_nan c = false) by (rewrite is_nan_spec, Hc; reflexivity).
  destruct (Math_min_sel a c) as [E|[(E & Hlt & _)|(E & _)]].
  - unfold Math_min in E. rewrite Hn, Hnc in E. cbn [orb] in E.
    unfold Math_min. rewrite Hn, Hnc. cbn [orb].
    destruct (a <? c) eqn:E1.
    + apply (@emUnidade_abaixo a c mc ec Hc Hec Ha). apply ltb_asym. exact E1.
    + destruct (c <? a) eqn:E2.
      * apply (@emUnidade_const c mc ec Hc Hec).
      * destruct (is_zero a && get_sign a).
        -- apply (@emUnidade_abaixo a c mc ec Hc Hec Ha E2).
        -- apply (@emUnidade_const c mc ec Hc Hec).
  - rewrite E. apply (@emUnidade_abaixo a c mc ec Hc Hec Ha Hlt).
  - rewrite E. apply (@emUnidade_const c mc ec Hc Hec).
Qed.

Lemma Math_min_emUnidadeOuNaN a c mc ec :
  Prim2SF c = S754_finite false mc ec -> (ec < -52)%Z ->
  naoNegativoOuNaN a -> is_nan (Math_min a c) = true \/ emUnidade (Math_min a c).
Proof.
  intros Hc Hec Ha.
  destruct (naoNegativoOuNaN_cases Ha) as [Hn|Hp].
  - left. unfold Math_min. rewrite Hn. reflexivity.
  - right. apply (@Math_min_emUnidade a c mc ec Hc Hec Hp).
Qed.

Lemma Math_min_naoNegativoOuNaN a c :
  naoNegativoOuNaN a -> naoNegativoOuNaN c -> naoNegativoOuNaN (Math_min a c).
Proof.
  intros Ha Hc.
  destruct (Math_min_sel a c) as [E|[(E & _)|(E & _)]]; rewrite E; auto. reflexivity.
Qed.

Lemma Math_max_zero_naoNegativoOuNaN y : naoNegativoOuNaN (Math_max 0 y).
Proof.
  destruct (Math_max_sel 0 y) as [E|[E|(E & Hlt & Hn)]]; rewrite E; try reflexivity.
  unfold naoNegativoOuNaN. rewrite FloatAxioms.ltb_spec in Hlt. rewrite is_nan_spec in Hn.
  change (Prim2SF 0) with (S754_zero false) in Hlt.
  destruct (Prim2SF y) as [s|[|]| |[|] m e]; try discriminate; reflexivity.
Qed.

(** A finite non-zero number divided by itself. *)
Lemma div_self x s m e : Prim2SF x = S754_finite s m e -> x / x = 1.
Proof.
  intros Hx. apply Prim2SF_inj. rewrite FloatAxioms.div_spec, Hx, SFdiv_self. reflexivity.
Qed.

(** The standard deviation of constant data is never positive, whatever
    the divisor. *)
Lemma sqrt_zero_div y : (sqrt (0 / y) >? 0) = false.
Proof.
  rewrite FloatAxioms.ltb_spec, FloatAxioms.sqrt_spec, FloatAxioms.div_spec.
  change (Prim2SF 0) with (S754_zero false).
  apply SFsqrt_zero_class. apply SFdiv_zero_class.
Qed.

(** ** Operations that cannot round to zero *)

Local Open Scope Z_scope.

Lemma shr_1_div2 mrs : 0 <= shr_m mrs -> shr_m (shr_1 mrs) = Z.div2 (shr_m mrs).
Proof.
  destruct mrs as [m r s]. cbn [shr_m].
  destruct m as [|p|p]; intros Hm; try lia; [reflexivity|].
  destruct p; reflexivity.
Qed.

Lemma iter_shr_1_value q :
  forall mrs, 0 <= shr_m mrs ->
    shr_m (SpecFloat.iter_pos shr_1 q mrs) = shr_m mrs / 2 ^ Zpos q.
Proof.
  induction q as [q IH|q IH|]; intros mrs Hm; cbn [SpecFloat.iter_pos];
    try (assert (Hq : 0 < 2 ^ Zpos q) by (apply Z.pow_pos_nonneg; lia)).
  - rewrite IH by (apply iter_shr_1_nonneg, shr_1_nonneg, Hm).
    rewrite IH by (apply shr_1_nonneg, Hm).
    rewrite shr_1_div2, Z.div2_div by exact Hm.
    rewrite !Z.div_div by lia.
    f_equal. replace (Zpos q~1) with (1 + Zpos q + Zpos q) by lia.
    rewrite !Z.pow_add_r by lia. change (2 ^ 1) with 2. ring.
  - rewrite IH by (apply iter_shr_1_nonneg, Hm).
    rewrite IH by exact Hm.
    rewrite Z.div_div by lia.
    f_equal. replace (Zpos q~0) with (Zpos q + Zpos q) by lia.
    rewrite Z.pow_add_r by lia. reflexivity.
  - rewrite shr_1_div2, Z.div2_div by exact Hm. reflexivity.
Qed.

(** A right shift by fewer bits than the mantissa has leaves it positive. *)
Lemma iter_shr_1_positive q p l :
  Zpos q < Zpos (digits2_pos p) ->
  1 <= shr_m (SpecFloat.iter_pos shr_1 q (shr_record_of_loc (Zpos p) l)).
Proof.
  intros Hq.
  assert (H0 : shr_m (shr_record_of_loc (Zpos p) l) = Zpos p)
    by (destruct l as [|[| |]]; reflexivity).
  rewrite iter_shr_1_value by (rewrite H0; lia). rewrite H0.
  pose proof (digits2_pos_bounds p) as (Hlo & _).
  assert (Hp : 2 ^ Zpos q <= 2 ^ (Zpos (digits2_pos p) - 1))
    by (apply Z.pow_le_mono_r; lia).
  assert (H2 : 0 < 2 ^ Zpos q) by (apply Z.pow_pos_nonneg; lia).
  apply Z.div_le_lower_bound; lia.
Qed.

(** The first rounding step on a mantissa whose value is above the least
    subnormal: the mantissa stays positive, and either nothing was shifted
    or the new exponent is at least [emin]. *)
Lemma shr_fexp_positive p e l :
  SpecFloat.emin prec emax < Zpos (digits2_pos p) + e ->
  1 <= shr_m (fst (shr_fexp prec emax (Zpos p) e l))
  /\ (shr_fexp prec emax (Zpos p) e l = (shr_record_of_loc (Zpos p) l, e)
      \/ SpecFloat.emin prec emax <= snd (shr_fexp prec emax (Zpos p) e l)).
Proof.
  intros He. unfold shr_fexp, shr. cbn [Zdigits2].
  destruct (fexp prec emax (Zpos (digits2_pos p) + e) - e) as [|q|q] eqn:En; cbn [fst snd].
  - split; [|left; reflexivity]. destruct l as [|[| |]]; cbn; lia.
  - split.
    + apply iter_shr_1_positive. unfold fexp in En. rewrite <- En.
      unfold SpecFloat.emin, prec, emax in *. lia.
    + right. unfold fexp in En. unfold SpecFloat.emin, prec, emax in *. lia.
  - split; [|left; reflexivity]. destruct l as [|[| |]]; cbn; lia.
Qed.

Lemma binary_round_aux_nonzero sx p e :
  SpecFloat.emin prec emax < Zpos (digits2_pos p) + e ->
  sf_nonzero sx (binary_round_aux prec emax sx (Zpos p) e loc_Exact).
Proof.
  intros He. unfold binary_round_aux.
  destruct (@shr_fexp_positive p e loc_Exact He) as (H1 & H1').
  destruct (shr_fexp prec emax (Zpos p) e loc_Exact) as [mrs' e'] eqn:E1.
  cbn [fst snd] in H1, H1'.
  set (m1 := round_nearest_even (shr_m mrs') (loc_of_shr_record mrs')).
  assert (Hm1 : 1 <= m1).
  { subst m1. unfold round_nearest_even.
    destruct (loc_of_shr_record mrs') as [|[| |]]; try lia.
    destruct (Z.even (shr_m mrs')); lia. }
  destruct m1 as [|p1|p1] eqn:Em1; try lia.
  assert (He' : SpecFloat.emin prec emax < Zpos (digits2_pos p1) + e').
  { destruct H1' as [Hsame|Hmin]; [|lia].
    injection Hsame as Hmrs Hee. subst mrs' e'. cbn in Em1.
    injection Em1 as Em1. subst p1. exact He. }
  destruct (@shr_fexp_positive p1 e' loc_Exact He') as (H2 & _).
  destruct (shr_fexp prec emax (Zpos p1) e' loc_Exact) as [mrs'' e''].
  cbn [fst] in H2.
  destruct (shr_m mrs'') as [|p2|p2]; try lia.
  destruct (e'' <=? emax - prec); reflexivity.
Qed.

Lemma digits2_pos_iter_xO m d :
  Zpos (digits2_pos (Pos.iter xO m d)) = Zpos (digits2_pos m) + Zpos d.
Proof.
  induction d as [|d IH] using Pos.peano_ind.
  - cbn. lia.
  - rewrite Pos.iter_succ. cbn [digits2_pos]. lia.
Qed.

Lemma binary_round_nonzero sx p e :
  SpecFloat.emin prec emax < Zpos (digits2_pos p) + e ->
  sf_nonzero sx (binary_round prec emax sx p e).
Proof.
  intros He. unfold binary_round, shl_align.
  destruct (fexp prec emax (Zpos (digits2_pos p) + e) - e) as [|d|d] eqn:Ed.
  - apply binary_round_aux_nonzero, He.
  - apply binary_round_aux_nonzero, He.
  - apply binary_round_aux_nonzero. rewrite digits2_pos_iter_xO. lia.
Qed.

Lemma binary_normalize_nonzero z e :
  z <> 0 -> SpecFloat.emin prec emax <= e ->
  sf_nonzero (z <? 0) (binary_normalize prec emax z e false).
Proof.
  intros Hz He. unfold binary_normalize.
  destruct z as [|p|p]; [contradiction| |]; cbn [Z.ltb Z.compare];
    apply binary_round_nonzero; lia.
Qed.

Lemma sf_nonzero_pos x : sf_nonzero false x -> sf_pos x = true.
Proof. destruct x as [s|s| |s m e]; cbn; intros H; try contradiction; subst; reflexivity. Qed.

Lemma SFabs_nonzero sx x : sf_nonzero sx x -> sf_pos (SFabs x) = true.
Proof. destruct x as [s|s| |s m e]; cbn; intros H; try contradiction; reflexivity. Qed.

(** A strictly smaller positive number has a strictly smaller aligned
    mantissa. *)
Lemma aligned_lt m e mc ec :
  bounded prec emax m e = true -> bounded prec emax mc ec = true ->
  lex_lt ec mc e m ->
  Zpos (fst (shl_align mc ec (Z.min e ec))) < Zpos (fst (shl_align m e (Z.min e ec))).
Proof.
  intros Hb Hbc Hlt.
  rewrite !shl_align_value by lia.
  destruct (bounded_facts _ _ Hb) as (He & Hd & Hd').
  destruct (bounded_facts _ _ Hbc) as (Hec & Hdc & _).
  pose proof (digits2_pos_bounds m) as Bm.
  pose proof (digits2_pos_bounds mc) as Bmc.
  destruct Hlt as [Hlt|(Heq & Hlt)].
  - rewrite Z.min_r by lia. replace (ec - ec) with 0 by lia.
    rewrite Hd' in Bm by lia.
    assert (Hp : 2 ^ 1 <= 2 ^ (e - ec)) by (apply Z.pow_le_mono_r; lia).
    assert (Hc53 : 2 ^ Zpos (digits2_pos mc) <= 2 ^ 53) by (apply Z.pow_le_mono_r; lia).
    change (2 ^ 1) with 2 in Hp. change (2 ^ (53 - 1)) with 4503599627370496 in Bm.
    change (2 ^ 53) with 9007199254740992 in Hc53. nia.
  - subst ec. rewrite Z.min_id. replace (e - e) with 0 by lia. cbn. lia.
Qed.

(** [x - c] is positive when [x] is above the positive finite [c]. *)
Lemma SFsub_above_pos x c :
  valid_binary x = true -> valid_binary c = true ->
  sf_posfin c = true -> SFltb c x = true ->
  sf_pos (SF64sub x c) = true.
Proof.
  destruct c as [| | |[|] mc ec]; try discriminate.
  destruct x as [s|[|]| |[|] m e]; try discriminate; try reflexivity.
  intros Hv Hvc _ Hlt. apply SFltb_posfin in Hlt.
  unfold SF64sub, SFsub, cond_Zopp.
  pose proof (aligned_lt Hv Hvc Hlt) as Ha.
  destruct (bounded_facts _ _ Hv) as (He & _).
  destruct (bounded_facts _ _ Hvc) as (Hec & _).
  apply sf_nonzero_pos.
  match goal with
  | |- sf_nonzero _ (binary_normalize _ _ ?z ?ez _) =>
      replace false with (z <? 0) at 1 by (apply Z.ltb_ge; lia);
      apply binary_normalize_nonzero; lia
  end.
Qed.

(** [x - c] is negative when [x] is below the positive finite [c]. *)
Lemma SFsub_below_neg x c :
  valid_binary x = true -> valid_binary c = true ->
  sf_posfin c = true -> SFltb x c = true ->
  sf_nonzero true (SF64sub x c).
Proof.
  destruct c as [| | |[|] mc ec]; try discriminate.
  destruct x as [s|[|]| |[|] m e]; try discriminate; try reflexivity;
    intros Hv Hvc _ Hlt.
  - unfold SF64sub, SFsub, cond_Zopp.
    destruct (bounded_facts _ _ Hv) as (He & _).
    destruct (bounded_facts _ _ Hvc) as (Hec & _).
    match goal with
    | |- sf_nonzero _ (binary_normalize _ _ ?z ?ez _) =>
        replace true with (z <? 0) at 1 by (apply Z.ltb_lt; lia);
        apply binary_normalize_nonzero; lia
    end.
  - apply SFltb_posfin in Hlt.
    unfold SF64sub, SFsub, cond_Zopp.
    pose proof (aligned_lt Hvc Hv Hlt) as Ha. rewrite Z.min_comm in Ha.
    destruct (bounded_facts _ _ Hv) as (He & _).
    destruct (bounded_facts _ _ Hvc) as (Hec & _).
    match goal with
    | |- sf_nonzero _ (binary_normalize _ _ ?z ?ez _) =>
        replace true with (z <? 0) at 1 by (apply Z.ltb_lt; lia);
        apply binary_normalize_nonzero; lia
    end.
Qed.

Lemma SFmul_pos x y :
  sf_pos x = true -> sf_pos y = true -> sf_nonneg (SF64mul x y) = true.
Proof.
  destruct x as [sx|[|]| |[|] mx ex], y as [sy|[|]| |[|] my ey];
    try discriminate; try reflexivity.
  intros _ _. apply sf_signed_nonneg.
  unfold SF64mul, SFmul. cbn [xorb]. apply binary_round_aux_signed. lia.
Qed.

(** Doubling a positive number does not underflow. *)
Lemma SFmul_two_pos x :
  valid_binary x = true -> sf_pos x = true ->
  sf_pos (SF64mul x (S754_finite false 4503599627370496 (-51))) = true.
Proof.
  destruct x as [sx|[|]| |[|] m e]; try discriminate; try reflexivity.
  intros Hv _. apply sf_nonzero_pos.
  unfold SF64mul, SFmul. cbn [xorb]. apply binary_round_aux_nonzero.
  destruct (bounded_facts _ _ Hv) as (He & _).
  pose proof (digits2_pos_bounds (m * 4503599627370496)) as (_ & Hhi).
  rewrite Pos2Z.inj_mul in Hhi.
  assert (Hd : 52 < Zpos (digits2_pos (m * 4503599627370496))).
  { apply (Z.pow_lt_mono_r_iff 2); [lia|lia|].
    change (2 ^ 52) with 4503599627370496. lia. }
  unfold SpecFloat.emin, prec, emax in *. lia.
Qed.

Lemma SFltb_trans_const c k x :
  sf_posfin c = true -> sf_posfin k = true ->
  SFleb c k = true -> SFltb k x = true -> SFltb c x = true.
Proof.
  destruct c as [| | |[|] mc ec]; try discriminate.
  destruct k as [| | |[|] mk ek]; try discriminate. intros _ _ Hck Hkx.
  destruct x as [s|[|]| |[|] m e]; try discriminate; try reflexivity.
  apply SFleb_posfin in Hck. apply SFltb_posfin in Hkx. apply SFltb_posfin.
  unfold lex_lt in *. lia.
Qed.

Lemma SFltb_trans_const_below c k x :
  sf_posfin c = true -> sf_posfin k = true ->
  SFleb k c = true -> SFltb x k = true -> SFltb x c = true.
Proof.
  destruct c as [| | |[|] mc ec]; try discriminate.
  destruct k as [| | |[|] mk ek]; try discriminate. intros _ _ Hkc Hxk.
  destruct x as [s|[|]| |[|] m e]; try discriminate; try reflexivity.
  apply SFleb_posfin in Hkc. apply SFltb_posfin in Hxk. apply SFltb_posfin.
  unfold lex_lt in *. lia.
Qed.

Local Open Scope float_scope.

Lemma nao_nan_naoNegativo x : naoNegativoOuNaN x -> is_nan x = false -> naoNegativo x.
Proof.
  intros Hx Hn. destruct (naoNegativoOuNaN_cases Hx) as [E|E]; [congruence|exact E].
Qed.

(** A number above the constant [k] minus a constant [c <= k]. *)
Lemma sub_positivo c k x :
  positivoFinito c -> positivoFinito k -> (c <=? k) = true -> (k <? x) = true ->
  positivo (x - c).
Proof.
  unfold positivoFinito, positivo.
  rewrite FloatAxioms.leb_spec, FloatAxioms.ltb_spec, FloatAxioms.sub_spec.
  intros Hc Hk Hck Hkx.
  apply SFsub_above_pos; try apply Prim2SF_valid; try assumption.
  apply (SFltb_trans_const _ _ _ Hc Hk Hck Hkx).
Qed.

(** The distance from a number below the constant [k] to a constant
    [c >= k]. *)
Lemma abs_sub_positivo c k x :
  positivoFinito c -> positivoFinito k -> (k <=? c) = true -> (x <? k) = true ->
  positivo (abs (x - c)).
Proof.
  unfold positivoFinito, positivo.
  rewrite FloatAxioms.leb_spec, FloatAxioms.ltb_spec, FloatAxioms.abs_spec,
    FloatAxioms.sub_spec.
  intros Hc Hk Hkc Hxk.
  apply (@SFabs_nonzero true).
  apply SFsub_below_neg; try apply Prim2SF_valid; try assumption.
  apply (SFltb_trans_const_below _ _ _ Hc Hk Hkc Hxk).
Qed.

Lemma abs_positivo x : positivo x -> positivo (abs x).
Proof.
  unfold positivo. rewrite FloatAxioms.abs_spec.
  destruct (Prim2SF x) as [s|s| |s m e]; cbn; try discriminate; reflexivity.
Qed.

Lemma dobro_positivo x : positivo x -> positivo (x * 2).
Proof.
  unfold positivo. rewrite FloatAxioms.mul_spec. intros Hx.
  change (Prim2SF 2) with (S754_finite false 4503599627370496 (-51)).
  apply SFmul_two_pos; [apply Prim2SF_valid|exact Hx].
Qed.

Lemma mul_positivo x y : positivo x -> positivo y -> naoNegativo (x * y).
Proof. unfold positivo, naoNegativo. rewrite FloatAxioms.mul_spec. apply SFmul_pos. Qed.

Lemma Math_min_naoNegativo a c : naoNegativo a -> naoNegativo c -> naoNegativo (Math_min a c).
Proof.
  intros Ha Hc. unfold Math_min.
  rewrite (naoNegativo_nao_nan Ha), (naoNegativo_nao_nan Hc). cbn [orb].
  destruct (a <? c); [exact Ha|].
  destruct (c <? a); [exact Hc|].
  destruct (is_zero a && get_sign a); assumption.
Qed.

End FloatFacts.

(* ================================================================== *)
(** * Properties of the trade life cycle                               *)
(* ================================================================== *)

Section ReconcilerFacts.

Import Bot.

Context {MM : Type} `{MoneyManager MM}.

Implicit Types s : Estado MM.

Lemma quantos_efeito (p : Efeito -> bool) (e : Efeito) s :
  quantos p (efeito e s) = quantos p s + (if p e then 1 else 0).
Proof.
  unfold quantos, efeito; simpl.
  rewrite filter_app, length_app; simpl.
  destruct (p e); reflexivity.
Qed.

Lemma tradesSalvos_efeito (e : Efeito) s :
  tradesSalvos (efeito e s)
  = tradesSalvos s ++ match e with SaveTrade t => [t] | _ => [] end.
Proof.
  unfold tradesSalvos, efeito; simpl.
  rewrite flat_map_app; simpl. rewrite app_nil_r. reflexivity.
Qed.

Lemma clearTradeTimeout_frame s :
  lastContractIntervalId (clearTradeTimeout s) = None
  /\ mesmoSalvoTimer s (clearTradeTimeout s).
Proof.
  unfold clearTradeTimeout, mesmoSalvoTimer.
  destruct (lastContractIntervalId s) as [id|] eqn:E.
  - assert (Ht : tradesSalvos (set_lastContractIntervalId None (efeito (ClearInterval id) s))
                 = tradesSalvos s).
    { change (tradesSalvos (efeito (ClearInterval id) s) = tradesSalvos s).
      rewrite tradesSalvos_efeito. apply app_nil_r. }
    assert (Hq : forall p, p (ClearInterval id) = false ->
                 quantos p (set_lastContractIntervalId None (efeito (ClearInterval id) s))
                 = quantos p s).
    { intros p Hp. change (quantos p (efeito (ClearInterval id) s) = quantos p s).
      rewrite quantos_efeito, Hp. lia. }
    rewrite Ht, !Hq by reflexivity. repeat split.
  - repeat split. exact E.
Qed.

(** An open status leaves [handleTradeResult] without effect. *)
Lemma handleTradeResult_open agora p k s :
  handleTradeResult agora p k st_open s = s.
Proof. reflexivity. Qed.

(** What [handleTradeResult] does on a settled status. *)
Lemma handleTradeResult_settled agora p k st s :
  st <> st_open ->
  let w := ContractStatus_eqb st st_won in
  let s' := handleTradeResult agora p k st s in
  isTrading s' = false /\ lastContractId s' = None
  /\ lastContractIntervalId s' = None
  /\ consecutiveWins s' = (if w then S (consecutiveWins s) else O)
  /\ moneyManager s' = updateLastTrade (moneyManager s) w
  /\ tradesSalvos s'
     = tradesSalvos s
       ++ [{| isWin := w; stake := k;
              tr_profit := if w then p else (- k)%float;
              balanceAfter :=
                if w then (getCurrentBalance (moneyManager s) + p)%float
                else (getCurrentBalance (moneyManager s) - k)%float |}]
  /\ retryToGetLastTradeCount s' = retryToGetLastTradeCount s
  /\ tickCount s' = tickCount s /\ ticksMap s' = ticksMap s
  /\ botRunning s' = botRunning s
  /\ lastActivityTimestamp s' = agora
  /\ quantos eApiAuthorize s' = quantos eApiAuthorize s
  /\ quantos eApiOpenContract s' = quantos eApiOpenContract s.
Proof.
  intros Hst w s'. subst s'. unfold handleTradeResult.
  replace (ContractStatus_eqb st st_open) with false
    by (destruct st; try reflexivity; contradiction Hst; reflexivity).
  fold w.
  match goal with |- context [clearTradeTimeout ?x] => set (t := x) end.
  destruct (clearTradeTimeout_frame t)
    as (H1 & H2 & H3 & H4 & H5 & H6 & H7 & H8 & H9 & H10 & H11 & H12 & H13).
  rewrite H1, H2, H3, H4, H5, H6, H7, H8, H9, H10, H11, H12, H13.
  subst t. unfold updateActivityTimestamp.
  match goal with |- context [efeito (SaveTrade ?r) ?x] => set (u := x); set (r0 := r) end.
  assert (Ht : tradesSalvos (efeito (SaveTrade r0) u) = tradesSalvos s ++ [r0]).
  { rewrite tradesSalvos_efeito. subst u.
    rewrite !tradesSalvos_efeito. rewrite !app_nil_r. reflexivity. }
  assert (Hq : forall q, q (SaveTrade r0) = false ->
              (forall m, q (SendMessage m) = false) ->
              (forall b x, q (UpdateTradeResult b x) = false) ->
              quantos q (efeito (SaveTrade r0) u) = quantos q s).
  { intros q Q1 Q2 Q3. subst u. rewrite !quantos_efeito, Q1, Q2, Q3.
    unfold quantos. simpl. lia. }
  rewrite Ht, !Hq by reflexivity.
  subst r0. simpl.
  repeat split; reflexivity.
Qed.

Lemma authorize_frame env s :
  let s' := authorize env s in
  retryToGetLastTradeCount s' = retryToGetLastTradeCount s
  /\ lastContractId s' = lastContractId s
  /\ lastContractIntervalId s' = lastContractIntervalId s
  /\ isTrading s' = isTrading s
  /\ moneyManager s' = moneyManager s
  /\ tradesSalvos s' = tradesSalvos s
  /\ quantos eApiAuthorize s' = S (quantos eApiAuthorize s)
  /\ quantos eApiOpenContract s' = quantos eApiOpenContract s.
Proof.
  unfold authorize.
  destruct (respostaAuthorize env (quantos eApiAuthorize s)).
  - change (tradesSalvos (efeito (SendMessage MsgAutorizado) (set_isAuthorized true (efeito ApiAuthorize s))))
      with (tradesSalvos (efeito (SendMessage MsgAutorizado) (efeito ApiAuthorize s))).
    change (quantos eApiAuthorize (efeito (SendMessage MsgAutorizado) (set_isAuthorized true (efeito ApiAuthorize s))))
      with (quantos eApiAuthorize (efeito (SendMessage MsgAutorizado) (efeito ApiAuthorize s))).
    change (quantos eApiOpenContract (efeito (SendMessage MsgAutorizado) (set_isAuthorized true (efeito ApiAuthorize s))))
      with (quantos eApiOpenContract (efeito (SendMessage MsgAutorizado) (efeito ApiAuthorize s))).
    rewrite !tradesSalvos_efeito, !quantos_efeito, !app_nil_r. simpl.
    repeat split; try reflexivity; lia.
  - change (tradesSalvos (efeito (SendMessage MsgErroAoAutorizar) (set_isAuthorized false (efeito ApiAuthorize s))))
      with (tradesSalvos (efeito (SendMessage MsgErroAoAutorizar) (efeito ApiAuthorize s))).
    change (quantos eApiAuthorize (efeito (SendMessage MsgErroAoAutorizar) (set_isAuthorized false (efeito ApiAuthorize s))))
      with (quantos eApiAuthorize (efeito (SendMessage MsgErroAoAutorizar) (efeito ApiAuthorize s))).
    change (quantos eApiOpenContract (efeito (SendMessage MsgErroAoAutorizar) (set_isAuthorized false (efeito ApiAuthorize s))))
      with (quantos eApiOpenContract (efeito (SendMessage MsgErroAoAutorizar) (efeito ApiAuthorize s))).
    rewrite !tradesSalvos_efeito, !quantos_efeito, !app_nil_r. simpl.
    repeat split; try reflexivity; lia.
Qed.

(** [handleTradeResult] requests nothing from the broker and leaves the
    retry counter alone, whatever the status. *)
Lemma handleTradeResult_contadores agora p k st s :
  let s' := handleTradeResult agora p k st s in
  retryToGetLastTradeCount s' = retryToGetLastTradeCount s
  /\ quantos eApiAuthorize s' = quantos eApiAuthorize s
  /\ quantos eApiOpenContract s' = quantos eApiOpenContract s.
Proof.
  destruct (ContractStatus_eqb st st_open) eqn:Eo.
  - destruct st; try discriminate Eo. rewrite handleTradeResult_open. repeat split.
  - assert (Hne : st <> st_open) by (intro Hx; rewrite Hx in Eo; discriminate Eo).
    destruct (handleTradeResult_settled agora p k s Hne)
      as (_ & _ & _ & _ & _ & _ & Hr & _ & _ & _ & _ & Ha & Ho).
    repeat split; assumption.
Qed.

(** The recursion of [getLastTradeResult] is bounded by the retry counter:
    any fuel that covers the retries left gives the same result. *)
Lemma getLastTradeResult_combustivel env agora cid :
  forall f1 f2 s,
    1 <= f1 -> 1 <= f2 ->
    3 <= f1 + retryToGetLastTradeCount s -> 3 <= f2 + retryToGetLastTradeCount s ->
    getLastTradeResult_ate f1 env agora cid s = getLastTradeResult_ate f2 env agora cid s.
Proof.
  induction f1 as [|f1 IH]; intros f2 s H1 H2 H3 H4; [lia|].
  destruct f2 as [|f2]; [lia|].
  cbn [getLastTradeResult_ate]. destruct cid as [id|]; [|reflexivity].
  destruct (negb (idPresente (Some id))); [reflexivity|].
  destruct (Nat.leb 2 (retryToGetLastTradeCount s)) eqn:E; [reflexivity|].
  apply Nat.leb_gt in E.
  destruct (respostaContrato env _); try reflexivity.
  match goal with |- context [authorize env ?x] => set (t := x) end.
  destruct (authorize_frame env t) as (Hr & _).
  assert (Ht : retryToGetLastTradeCount (authorize env t) = S (retryToGetLastTradeCount s))
    by (rewrite Hr; reflexivity).
  apply IH; rewrite ?Ht; lia.
Qed.

(** One call of [getLastTradeResult] from a state whose retry counter is at
    most 2: the counter stays at most 2, and either it has grown by the
    number of authorizations requested, or the pending contract id is
    cleared and at most [2 - counter] authorizations were requested. *)
Lemma getLastTradeResult_ate_bound env agora cid :
  forall fuel s,
    retryToGetLastTradeCount s <= 2 ->
    let s' := getLastTradeResult_ate fuel env agora cid s in
    retryToGetLastTradeCount s' <= 2
    /\ ((retryToGetLastTradeCount s <= retryToGetLastTradeCount s'
         /\ lastContractId s' = lastContractId s
         /\ lastContractIntervalId s' = lastContractIntervalId s
         /\ quantos eApiAuthorize s' + retryToGetLastTradeCount s
            = quantos eApiAuthorize s + retryToGetLastTradeCount s')
        \/ (lastContractId s' = None
            /\ quantos eApiAuthorize s' + retryToGetLastTradeCount s
               <= quantos eApiAuthorize s + 2)).
Proof.
  induction fuel as [|fuel IH]; intros s Hs; cbn [getLastTradeResult_ate].
  - split; [lia|]. left; repeat split; lia.
  - destruct cid as [id|]; [|split; [lia|left; repeat split; lia]].
    destruct (negb (idPresente (Some id))); [split; [lia|left; repeat split; lia]|].
    destruct (Nat.leb 2 (retryToGetLastTradeCount s)) eqn:E;
      [split; [lia|left; repeat split; lia]|].
    apply Nat.leb_gt in E.
    destruct (respostaContrato env _) as [contract| |].
    + match goal with |- context [handleTradeResult ?a ?p ?k ?st ?x] =>
        set (t := x); set (st0 := st); set (p0 := p); set (k0 := k) end.
      destruct (handleTradeResult_contadores agora p0 k0 st0 t) as (Hr & Hq & _).
      assert (Hts : quantos eApiAuthorize t = quantos eApiAuthorize s).
      { subst t.
        change (quantos eApiAuthorize (efeito (ApiOpenContract id) s) = quantos eApiAuthorize s).
        rewrite quantos_efeito. simpl. lia. }
      change (retryToGetLastTradeCount (handleTradeResult agora p0 k0 st0 t) <= 2
              /\ ((retryToGetLastTradeCount s
                   <= retryToGetLastTradeCount (handleTradeResult agora p0 k0 st0 t)
                   /\ @None Z = lastContractId s
                   /\ lastContractIntervalId (handleTradeResult agora p0 k0 st0 t)
                      = lastContractIntervalId s
                   /\ quantos eApiAuthorize (handleTradeResult agora p0 k0 st0 t)
                      + retryToGetLastTradeCount s
                      = quantos eApiAuthorize s
                        + retryToGetLastTradeCount (handleTradeResult agora p0 k0 st0 t))
                  \/ (@None Z = None
                      /\ quantos eApiAuthorize (handleTradeResult agora p0 k0 st0 t)
                         + retryToGetLastTradeCount s
                         <= quantos eApiAuthorize s + 2))).
      rewrite Hr, Hq, Hts. subst t. simpl.
      split; [lia|]. right. split; [reflexivity|lia].
    + match goal with |- context [authorize env ?x] => set (t := x) end.
      destruct (authorize_frame env t) as (Hr & Hc & Hi & _ & _ & _ & Ha & _).
      assert (Ht : retryToGetLastTradeCount (authorize env t)
                   = S (retryToGetLastTradeCount s)) by (rewrite Hr; reflexivity).
      assert (Hc' : lastContractId (authorize env t) = lastContractId s)
        by (rewrite Hc; reflexivity).
      assert (Hi' : lastContractIntervalId (authorize env t) = lastContractIntervalId s)
        by (rewrite Hi; reflexivity).
      assert (Ha' : quantos eApiAuthorize (authorize env t) = S (quantos eApiAuthorize s)).
      { rewrite Ha. subst t.
        change (S (quantos eApiAuthorize (efeito (ApiOpenContract id) s))
                = S (quantos eApiAuthorize s)).
        rewrite quantos_efeito. simpl. lia. }
      destruct (IH (authorize env t)) as (Hle & Hcases); [lia|].
      split; [exact Hle|].
      destruct Hcases as [(Hge & Hid & Hint & Heq)|(Hnone & Hlt)].
      * left. rewrite Hid, Hc', Hint, Hi'. repeat split; lia.
      * right. split; [exact Hnone|lia].
    + split; [simpl; lia|]. left. repeat split; try (simpl; lia).
      change (quantos eApiAuthorize (efeito (ApiOpenContract id) s)
              + retryToGetLastTradeCount s
              = quantos eApiAuthorize s + retryToGetLastTradeCount s).
      rewrite quantos_efeito. simpl. lia.
Qed.

(** C1 (amended).  When the watchdog polls the pending contract and the
    broker answers with an open (or missing) status, no settlement is
    applied: the stake sizer, the win streak, the ledger, the watchdog
    interval and the activity timestamp are as before, and the only call
    made is the status request.  The poll itself, however, resets the
    reconciler: the pending contract id, the in-trading flag, the tick
    counter and the retry counter are cleared. *)
Theorem poll_open_clears_pending env agora id timer contract s :
  lastContractIntervalId s = Some timer ->
  lastContractId s = Some id ->
  id <> 0%Z ->
  retryToGetLastTradeCount s < 2 ->
  respostaContrato env (quantos eApiOpenContract s) = Resposta contract ->
  statusDe contract = st_open ->
  let s' := aoDispararWatchdog env agora s in
  (moneyManager s' = moneyManager s
   /\ consecutiveWins s' = consecutiveWins s
   /\ tradesSalvos s' = tradesSalvos s
   /\ lastContractIntervalId s' = lastContractIntervalId s
   /\ lastActivityTimestamp s' = lastActivityTimestamp s
   /\ efeitos s' = efeitos s ++ [ApiOpenContract id])
  /\ lastContractId s' = None
  /\ isTrading s' = false
  /\ tickCount s' = 0
  /\ retryToGetLastTradeCount s' = 0.
Proof.
  intros Ht Hc Hid Hr Hresp Hst s'. subst s'.
  unfold aoDispararWatchdog, getLastTradeResult. rewrite Ht, Hc.
  assert (Hp : idPresente (Some id) = true).
  { unfold idPresente. destruct (Z.eqb_spec id 0); [contradiction|reflexivity]. }
  rewrite Hp. cbn [getLastTradeResult_ate]. rewrite Hp. cbn [negb].
  apply Nat.leb_gt in Hr. rewrite Hr, Hresp, Hst, handleTradeResult_open.
  cbn. rewrite Ht.
  repeat split.
  unfold tradesSalvos. cbn. rewrite flat_map_app. cbn. apply app_nil_r.
Qed.

(** C2 (amended).  The settlement handler never looks at a contract id, so
    a settled status pushed while the bot runs and the reconciler is
    already idle (a second settlement of the contract just settled, for
    instance) is processed like the first one: the stake sizer receives
    another [updateLastTrade], the win streak is updated again and one more
    record is handed to the ledger; the pending contract id and the
    in-trading flag, already cleared, stay cleared.  A watchdog poll, in
    that state, does nothing. *)
Theorem settlement_when_idle_is_processed agora contract st s :
  botRunning s = true ->
  lastContractId s = None ->
  isTrading s = false ->
  statusDe contract = st ->
  st <> st_open ->
  let w := ContractStatus_eqb st st_won in
  let p := ouZeroSeAusente (match contract with Some c => profit c | None => None end) in
  let k := ouZeroSeFalso (match contract with Some c => buy_price c | None => None end) in
  let s' := aoAtualizarContrato agora contract s in
  moneyManager s' = updateLastTrade (moneyManager s) w
  /\ consecutiveWins s' = (if w then S (consecutiveWins s) else O)
  /\ tradesSalvos s'
     = tradesSalvos s
       ++ [{| isWin := w; stake := k;
              tr_profit := if w then p else (- k)%float;
              balanceAfter :=
                if w then (getCurrentBalance (moneyManager s) + p)%float
                else (getCurrentBalance (moneyManager s) - k)%float |}]
  /\ lastContractId s' = None
  /\ isTrading s' = false
  /\ (forall env, aoDispararWatchdog env agora s = s).
Proof.
  intros Hrun Hid _ Hst Hne w p k s'. subst s'.
  assert (Hpoll : forall env, aoDispararWatchdog env agora s = s).
  { intros env. unfold aoDispararWatchdog. rewrite Hid.
    destruct (lastContractIntervalId s); reflexivity. }
  unfold aoAtualizarContrato.
  change (botRunning (updateActivityTimestamp agora s)) with (botRunning s).
  rewrite Hrun. cbn [negb]. rewrite Hst. fold p k.
  destruct (handleTradeResult_settled agora p k (updateActivityTimestamp agora s) Hne)
    as (H1 & H2 & _ & H4 & H5 & H6 & _).
  fold w in H4, H5, H6.
  rewrite H1, H2, H4, H5, H6. repeat split. exact Hpoll.
Qed.

Lemma vigiar_bound env agora :
  forall n s0,
    retryToGetLastTradeCount s0 <= 2 ->
    let s := vigiar env agora n s0 in
    retryToGetLastTradeCount s <= 2
    /\ ((retryToGetLastTradeCount s0 <= retryToGetLastTradeCount s
         /\ quantos eApiAuthorize s + retryToGetLastTradeCount s0
            = quantos eApiAuthorize s0 + retryToGetLastTradeCount s)
        \/ (lastContractId s = None
            /\ quantos eApiAuthorize s + retryToGetLastTradeCount s0
               <= quantos eApiAuthorize s0 + 2)).
Proof.
  induction n as [|n IH]; intros s0 H0.
  - cbn. split; [exact H0|]. left. split; lia.
  - specialize (IH s0 H0). cbn zeta in IH |- *.
    change (vigiar env agora (S n) s0)
      with (aoDispararWatchdog env agora (vigiar env agora n s0)).
    set (s := vigiar env agora n s0) in *.
    destruct IH as (Hle & Hcases).
    unfold aoDispararWatchdog.
    destruct (lastContractIntervalId s); [|split; assumption].
    destruct (idPresente (lastContractId s)) eqn:Hp; [|split; assumption].
    destruct (getLastTradeResult_ate_bound env agora (lastContractId s) 3 s Hle)
      as (Hle' & Hcases').
    fold (getLastTradeResult env agora (lastContractId s) s) in Hle', Hcases'.
    split; [exact Hle'|].
    destruct Hcases as [(Ha & Hb)|(Hnone & Hb)].
    + destruct Hcases' as [(Hc & _ & _ & Hd)|(Hnone' & Hd)].
      * left. split; lia.
      * right. split; [exact Hnone'|lia].
    + rewrite Hnone in Hp. discriminate Hp.
Qed.

Lemma getLastTradeResult_ate_auth fuel env agora id s :
  idPresente (Some id) = true ->
  retryToGetLastTradeCount s < 2 ->
  respostaContrato env (quantos eApiOpenContract s) = AuthorizationRequired ->
  getLastTradeResult_ate (S fuel) env agora (Some id) s
  = getLastTradeResult_ate fuel env agora (Some id)
      (authorize env
         (set_retryToGetLastTradeCount (S (retryToGetLastTradeCount s))
            (efeito (ApiOpenContract id) s))).
Proof.
  intros Hp Hr Hresp. cbn [getLastTradeResult_ate].
  rewrite Hp. cbn [negb]. apply Nat.leb_gt in Hr. rewrite Hr, Hresp. reflexivity.
Qed.

Lemma atualizarTicksMap_tick_length quote s :
  length (janela (atualizarTicksMap (Tick quote) s)) = length (janela s).
Proof.
  unfold atualizarTicksMap. fold (janela s).
  destruct (Nat.leb 50 (length (janela s))) eqn:E; [|reflexivity].
  apply Nat.leb_le in E. unfold janela at 1. cbn.
  destruct (janela s) as [|x r]; [cbn in E; lia|].
  cbn. rewrite length_app. cbn. lia.
Qed.

Lemma aoReceberTicks_bound agora msg s :
  length (janela s) <= 50 ->
  (forall p, msg = History (Some p) -> length p <= 50) ->
  length (janela (aoReceberTicks agora msg s)) <= 50.
Proof.
  intros Hs Hm. unfold aoReceberTicks.
  change (botRunning (updateActivityTimestamp agora s)) with (botRunning s).
  destruct (botRunning s); cbn [negb].
  - destruct msg as [[p|]|q|].
    + cbn. apply Hm. reflexivity.
    + cbn. lia.
    + rewrite atualizarTicksMap_tick_length. exact Hs.
    + exact Hs.
  - exact Hs.
Qed.

End ReconcilerFacts.

(* ================================================================== *)
(** * The trade life cycle on concrete states                          *)
(* ================================================================== *)

Section ReconcilerExamples.

Import Bot Exemplos.
Local Open Scope float_scope.

Lemma poll_open_clears_pending_witness :
  let s := estadoComContrato in
  let s' := aoDispararWatchdog corretoraAberto 5 s in
  (lastContractIntervalId s = Some 0%nat /\ lastContractId s = Some 42%Z
   /\ retryToGetLastTradeCount s < 2)
  /\ (moneyManager s' = moneyManager s
      /\ consecutiveWins s' = consecutiveWins s
      /\ tradesSalvos s' = tradesSalvos s
      /\ lastContractIntervalId s' = lastContractIntervalId s
      /\ lastActivityTimestamp s' = lastActivityTimestamp s
      /\ efeitos s' = efeitos s ++ [ApiOpenContract 42])
  /\ lastContractId s' = None
  /\ isTrading s' = false
  /\ tickCount s' = 0%nat
  /\ retryToGetLastTradeCount s' = 0%nat.
Proof.
  intros s s'.
  assert (H1 : lastContractIntervalId s = Some 0%nat) by reflexivity.
  assert (H2 : lastContractId s = Some 42%Z) by reflexivity.
  assert (H3 : 42%Z <> 0%Z) by discriminate.
  assert (H4 : retryToGetLastTradeCount s < 2) by (vm_compute; lia).
  split; [repeat split; assumption|].
  exact (@poll_open_clears_pending _ _ corretoraAberto 5%Z 42%Z 0%nat (Some contratoAberto) s
           H1 H2 H3 H4 eq_refl eq_refl).
Defined.

(** C1, as stated, fails: with the contract 42 pending and in trading, a
    watchdog poll answered with an open status clears the pending contract
    id and the in-trading flag. *)
Lemma poll_open_changes_state :
  lastContractId estadoComContrato = Some 42%Z
  /\ isTrading estadoComContrato = true
  /\ respostaContrato corretoraAberto 0 = Resposta (Some contratoAberto)
  /\ status contratoAberto = Some st_open
  /\ lastContractId (aoDispararWatchdog corretoraAberto 5 estadoComContrato) = None
  /\ isTrading (aoDispararWatchdog corretoraAberto 5 estadoComContrato) = false.
Proof. repeat split. Qed.

Lemma settlement_when_idle_is_processed_witness :
  let s := estadoLiquidado in
  let s' := aoAtualizarContrato 7 (Some contratoGanho) s in
  (botRunning s = true /\ lastContractId s = None /\ isTrading s = false
   /\ statusDe (Some contratoGanho) = st_won)
  /\ moneyManager s' = updateLastTrade (moneyManager s) true
  /\ consecutiveWins s' = S (consecutiveWins s)
  /\ tradesSalvos s'
     = tradesSalvos s
       ++ [{| isWin := true; stake := 0.35; tr_profit := 0.31;
              balanceAfter := getCurrentBalance (moneyManager s) + 0.31 |}]
  /\ lastContractId s' = None
  /\ isTrading s' = false
  /\ aoDispararWatchdog corretoraAberto 7 s = s.
Proof.
  intros s s'.
  assert (H1 : botRunning s = true) by reflexivity.
  assert (H2 : lastContractId s = None) by reflexivity.
  assert (H3 : isTrading s = false) by reflexivity.
  assert (H4 : statusDe (Some contratoGanho) = st_won) by reflexivity.
  assert (H5 : st_won <> st_open) by discriminate.
  split; [repeat split; assumption|].
  destruct (@settlement_when_idle_is_processed _ _ 7%Z (Some contratoGanho) st_won s
              H1 H2 H3 H4 H5) as (T1 & T2 & T3 & T4 & T5 & T6).
  split; [exact T1|]. split; [exact T2|]. split; [exact T3|].
  split; [exact T4|]. split; [exact T5|]. exact (T6 corretoraAberto).
Defined.

(** C2, as stated, fails: after the won contract 42 has been settled and
    the reconciler is idle again, a second push of the same settled
    contract adds a second record to the ledger, hands the stake sizer a
    second [updateLastTrade] of a win and counts a second win. *)
Lemma second_settlement_changes_state :
  let s1 := estadoLiquidado in
  let s2 := aoAtualizarContrato 7 (Some contratoGanho) s1 in
  (lastContractId s1 = None /\ isTrading s1 = false)
  /\ (length (tradesSalvos s1) = 1%nat /\ length (tradesSalvos s2) = 2%nat)
  /\ (moneyManager s1 = updateLastTrade gestorInicial true
      /\ moneyManager s2 = updateLastTrade (updateLastTrade gestorInicial true) true)
  /\ (consecutiveWins s1 = 1%nat /\ consecutiveWins s2 = 2%nat).
Proof. vm_compute. repeat split. Qed.

End ReconcilerExamples.

(* ================================================================== *)
(** * Properties of the signal detectors                               *)
(* ================================================================== *)

Section DetectorFacts.

Import JS Strategy Predicados FloatFacts.
Local Open Scope float_scope.

Variable Math_log : float -> float.

(** C4.  Each detector answers an input shorter than its minimum length
    (20 prices for mean reversion, 15 for confirmed momentum, 50 for the
    Hurst regime, 20 for persistent momentum, whatever Hurst value the
    caller supplies) with the signal HOLD and the confidence 0. *)
Theorem short_input_gives_hold (ticks : list float) :
  (length ticks < 20 ->
   sinal (estrategiaMeanReversion ticks) = HOLD
   /\ confianca (estrategiaMeanReversion ticks) = 0)
  /\ (length ticks < 15 ->
      sinal (estrategiaMomentumConfirmado ticks) = HOLD
      /\ confianca (estrategiaMomentumConfirmado ticks) = 0)
  /\ (length ticks < 50 ->
      sinal (estrategiaHurst Math_log ticks) = HOLD
      /\ confianca (estrategiaHurst Math_log ticks) = 0)
  /\ (forall hurstHistorico,
      length ticks < 20 ->
      sinal (momentumPersistentStrategy Math_log ticks hurstHistorico) = HOLD
      /\ confianca (momentumPersistentStrategy Math_log ticks hurstHistorico) = 0).
Proof.
  repeat split; intros;
    match goal with Hlt : length ticks < _ |- _ => apply Nat.ltb_lt in Hlt end.
  - unfold estrategiaMeanReversion. rewrite H. reflexivity.
  - unfold estrategiaMeanReversion. rewrite H. reflexivity.
  - unfold estrategiaMomentumConfirmado. rewrite H. reflexivity.
  - unfold estrategiaMomentumConfirmado. rewrite H. reflexivity.
  - unfold estrategiaHurst. rewrite H. reflexivity.
  - unfold estrategiaHurst. rewrite H. reflexivity.
  - unfold momentumPersistentStrategy. rewrite H. reflexivity.
  - unfold momentumPersistentStrategy. rewrite H. reflexivity.
Qed.

(** The result of the persistent-momentum detector in terms of its own
    fields. *)
Lemma momentumPersistent_decisao ticks h :
  let r := momentumPersistentStrategy Math_log ticks h in
  (sinal r, confianca r)
  = decisaoMomentum (hurst r) (mp_r2 r) (direcaoCurta r) (direcaoMedia r) (direcaoLonga r)
      (alinhamento r) (forca r) (eficiencia r)
  /\ isPersistente r = (hurst r >? 0.58)
  /\ isLateral r
     = (eficiencia r <? 0.3) || (adx r <? 25) || Nat.ltb 5 (mudancasDirecaoDe ticks)
  /\ (20 <= length ticks -> length ticks < 50 -> h = None -> hurst r = 0.5).
Proof.
  unfold momentumPersistentStrategy.
  destruct (Nat.ltb (length ticks) 20) eqn:E20.
  - apply Nat.ltb_lt in E20. cbn zeta.
    repeat split; try reflexivity; intros; lia.
  - match goal with
    | |- context [if ?c then (hurst_rapido ?x, r2_rapido ?x) else ?e] =>
        set (par := if c then (hurst_rapido x, r2_rapido x) else e)
    end.
    assert (Hpar : 20 <= length ticks -> length ticks < 50 -> h = None -> fst par = 0.5).
    { intros _ H50 Hn. subst par. rewrite Hn.
      replace (Nat.leb 50 (length ticks)) with false
        by (symmetry; apply Nat.leb_gt; exact H50).
      reflexivity. }
    destruct par as [hu r2]. cbn [fst] in Hpar. cbv zeta.
    unfold decisaoMomentum, mudancasDirecaoDe.
    match goal with
    | |- context [if ?c then _ else if ?d then _ else _] =>
        destruct c eqn:Ec; [|destruct d eqn:Ed]
    end;
    [ match goal with |- context [if ?c then _ else _] => destruct c eqn:Ei end
    | match goal with |- context [if ?c then _ else _] => destruct c eqn:Ei end
    | ];
    cbn [sinal confianca razao mp_base hurst mp_r2 direcaoCurta direcaoMedia direcaoLonga
         alinhamento forca eficiencia adx isLateral isPersistente];
    rewrite ?Ec, ?Ed, ?Ei; repeat split; auto.
Qed.

(** C10.  With at least 20 and fewer than 50 prices and no Hurst value
    supplied by the caller, the persistent-momentum detector takes the
    Hurst exponent to be 0.5, which is not persistent, and returns the
    signal HOLD with the confidence 0. *)
Theorem momentum_persistent_default_hurst_holds (ticks : list float) :
  20 <= length ticks ->
  length ticks < 50 ->
  let r := momentumPersistentStrategy Math_log ticks None in
  sinal r = HOLD /\ confianca r = 0 /\ hurst r = 0.5 /\ isPersistente r = false.
Proof.
  intros H20 H50 r.
  destruct (momentumPersistent_decisao ticks None) as (Hd & Hp & _ & Hh).
  fold r in Hd, Hp, Hh. specialize (Hh H20 H50 eq_refl).
  rewrite Hh in Hd, Hp.
  assert (Hcmp : (0.5 >? 0.58) = false) by reflexivity.
  unfold decisaoMomentum in Hd. rewrite Hcmp in Hd, Hp. cbn [andb] in Hd.
  injection Hd as Hs Hc. repeat split; assumption.
Qed.

(** The signal of the persistent-momentum detector, as the two rules give
    it from the Hurst value, the three directions, the alignment and the
    force; the efficiency, the ADX score, the reversal count and the
    lateral flag are not among its arguments. *)
Lemma momentumPersistent_sinal ticks h :
  let r := momentumPersistentStrategy Math_log ticks h in
  let altaCount := contar ALTA [direcaoCurta r; direcaoMedia r; direcaoLonga r] in
  let baixaCount := contar BAIXA [direcaoCurta r; direcaoMedia r; direcaoLonga r] in
  let principal := (hurst r >? 0.58) && (alinhamento r >=? 0.8) in
  let secundaria :=
    (hurst r >? 0.58) && Nat.leb 2 (Nat.max altaCount baixaCount) && (forca r >? 1.5) in
  sinal r
  = (if principal || secundaria
     then (if Nat.ltb baixaCount altaCount then CALL else PUT) else HOLD)
  /\ confianca r
     = (if principal
        then Math_min ((hurst r - 0.5) * 2 + mp_r2 r * 0.2 + alinhamento r * 0.2
                       + Math_min (forca r * 0.1) 0.2 + eficiencia r * 0.2) 0.80
        else if secundaria then Math_min ((hurst r - 0.5) * 1.5 + forca r * 0.1) 0.55
        else 0).
Proof.
  intros r altaCount baixaCount principal secundaria.
  destruct (momentumPersistent_decisao ticks h) as (D & _). fold r in D.
  unfold decisaoMomentum in D. fold altaCount baixaCount principal secundaria in D.
  destruct principal, secundaria; cbn [orb]; injection D as Hs Hc; split; assumption.
Qed.

(** C7.  The lateral-market flag of the persistent-momentum detector is
    set exactly when the efficiency is below 0.3, or the trend-strength
    score (ADX) is below 25, or more than 5 direction reversals were
    counted.  The flag gates nothing.  For every input the signal is CALL
    or PUT exactly when the Hurst value is above 0.58 and either the
    alignment is at least 0.8 or two of the three directions agree and
    the force is above 1.5, and it is CALL exactly when, in addition,
    more directions rise than fall: neither the flag nor any of the three
    quantities that set it (efficiency, ADX, reversal count) takes part.
    The confidence is the value of the rule that fired; the efficiency
    enters it only as the addend [eficiencia * 0.2] of the main rule.
    Hence two results that agree on the Hurst value, the three directions,
    the alignment and the force carry the same signal, and if they agree
    on R2 and on the efficiency as well the same confidence, whatever
    their flags, ADX scores and reversal counts are. *)
Theorem lateral_flag_is_informational :
  (forall ticks h,
      let r := momentumPersistentStrategy Math_log ticks h in
      isLateral r
      = (eficiencia r <? 0.3) || (adx r <? 25) || Nat.ltb 5 (mudancasDirecaoDe ticks))
  /\ (forall ticks h,
         let r := momentumPersistentStrategy Math_log ticks h in
         let altaCount := contar ALTA [direcaoCurta r; direcaoMedia r; direcaoLonga r] in
         let baixaCount := contar BAIXA [direcaoCurta r; direcaoMedia r; direcaoLonga r] in
         let principal := (hurst r >? 0.58) && (alinhamento r >=? 0.8) in
         let secundaria :=
           (hurst r >? 0.58) && Nat.leb 2 (Nat.max altaCount baixaCount)
           && (forca r >? 1.5) in
         (sinal r <> HOLD <-> principal || secundaria = true)
         /\ (sinal r = CALL <-> principal || secundaria = true /\ baixaCount < altaCount)
         /\ (sinal r = PUT <-> principal || secundaria = true /\ altaCount <= baixaCount)
         /\ confianca r
            = (if principal
               then Math_min ((hurst r - 0.5) * 2 + mp_r2 r * 0.2 + alinhamento r * 0.2
                              + Math_min (forca r * 0.1) 0.2 + eficiencia r * 0.2) 0.80
               else if secundaria
                    then Math_min ((hurst r - 0.5) * 1.5 + forca r * 0.1) 0.55
                    else 0))
  /\ (forall ticks1 h1 ticks2 h2,
         let r1 := momentumPersistentStrategy Math_log ticks1 h1 in
         let r2 := momentumPersistentStrategy Math_log ticks2 h2 in
         hurst r1 = hurst r2 ->
         direcaoCurta r1 = direcaoCurta r2 -> direcaoMedia r1 = direcaoMedia r2 ->
         direcaoLonga r1 = direcaoLonga r2 ->
         alinhamento r1 = alinhamento r2 -> forca r1 = forca r2 ->
         sinal r1 = sinal r2
         /\ (mp_r2 r1 = mp_r2 r2 -> eficiencia r1 = eficiencia r2 ->
             confianca r1 = confianca r2)).
Proof.
  split; [|split].
  - intros ticks h r.
    destruct (momentumPersistent_decisao ticks h) as (_ & _ & Hl & _). exact Hl.
  - intros ticks h r altaCount baixaCount principal secundaria.
    destruct (momentumPersistent_sinal ticks h) as (Hs & Hc).
    fold r altaCount baixaCount principal secundaria in Hs, Hc.
    split; [|split; [|split; [|exact Hc]]]; rewrite Hs; clear Hs Hc;
      destruct (principal || secundaria);
      (destruct (Nat.ltb baixaCount altaCount) eqn:El;
       [apply Nat.ltb_lt in El | apply Nat.ltb_ge in El]);
      (split; intros E);
      first [ reflexivity
            | discriminate E
            | exfalso; apply E; reflexivity
            | split; [reflexivity | exact El]
            | destruct E as (E1 & E2); first [discriminate E1 | exfalso; lia]
            | intros E'; discriminate E' ].
  - intros ticks1 h1 ticks2 h2 r1 r2 E1 E3 E4 E5 E6 E7.
    destruct (momentumPersistent_sinal ticks1 h1) as (S1 & C1).
    destruct (momentumPersistent_sinal ticks2 h2) as (S2 & C2).
    fold r1 in S1, C1. fold r2 in S2, C2.
    split.
    + rewrite S1, S2, E1, E3, E4, E5, E6, E7. reflexivity.
    + intros E2 E8. rewrite C1, C2, E1, E2, E3, E4, E5, E6, E7, E8. reflexivity.
Qed.

Lemma ajusteHurst_poucos ranges scales :
  length ranges < 3 -> ajusteHurst ranges scales = (0.5, 0).
Proof.
  intros Hlt. unfold ajusteHurst.
  replace (Nat.leb 3 (length ranges)) with false
    by (symmetry; apply Nat.leb_gt; exact Hlt).
  reflexivity.
Qed.

Lemma ajusteHurstRapido_poucos ranges scales :
  length ranges < 2 -> ajusteHurstRapido ranges scales = hurstNeutro.
Proof.
  intros Hlt. unfold ajusteHurstRapido. apply Nat.ltb_lt in Hlt. rewrite Hlt. reflexivity.
Qed.

(** C5 (amended).  The estimator of the Hurst-regime detector returns the
    neutral result (Hurst 0.5, R2 0) whenever fewer than 3 regression
    points were collected, and so does the detector.  The fast estimator
    of the persistent-momentum detector returns the neutral result whenever
    fewer than 2 points were collected; from 2 points on, unless the
    denominator of the fit is below 1e-10 in magnitude, it returns the
    slope of the fit, clamped to [0.1, 0.9]. *)
Theorem regression_needs_enough_points :
  (forall ranges scales, length ranges < 3 -> ajusteHurst ranges scales = (0.5, 0))
  /\ (forall ticks,
         length (fst (pontosHurst Math_log (retornosLog Math_log ticks))) < 3 ->
         expoente (estrategiaHurst Math_log ticks) = 0.5
         /\ he_r2 (estrategiaHurst Math_log ticks) = 0)
  /\ (forall ranges scales,
         length ranges < 2 -> ajusteHurstRapido ranges scales = hurstNeutro)
  /\ (forall ticks,
         length (fst (pontosHurstRapido Math_log (retornosLogRapido Math_log ticks))) < 2 ->
         calcularHurstRapido Math_log ticks = hurstNeutro)
  /\ (forall ranges scales,
         2 <= length ranges ->
         (Math_abs (denominador ranges scales) <? 1e-10) = false ->
         hurst_rapido (ajusteHurstRapido ranges scales)
         = Math_max 0.1 (Math_min 0.9 (inclinacao ranges scales))).
Proof.
  split; [exact ajusteHurst_poucos|].
  split.
  { intros ticks Hlt. unfold estrategiaHurst.
    destruct (Nat.ltb (length ticks) 50); [split; reflexivity|].
    match goal with |- context [if ?c then hurstDefault _ else _] => destruct c end;
      [split; reflexivity|].
    destruct (pontosHurst Math_log (retornosLog Math_log ticks)) as [ranges scales].
    cbn [fst] in Hlt. rewrite (ajusteHurst_poucos ranges scales Hlt). cbv zeta.
    repeat match goal with
           | |- context [if ?c then {| he_base := _ |} else _] => destruct c
           end; split; reflexivity. }
  split; [exact ajusteHurstRapido_poucos|].
  split.
  { intros ticks Hlt. unfold calcularHurstRapido.
    destruct (Nat.ltb (length (retornosLogRapido Math_log ticks)) 30); [reflexivity|].
    destruct (pontosHurstRapido Math_log (retornosLogRapido Math_log ticks))
      as [ranges scales].
    cbn [fst] in Hlt. apply ajusteHurstRapido_poucos. exact Hlt. }
  intros ranges scales Hge Hden. unfold ajusteHurstRapido.
  replace (Nat.ltb (length ranges) 2) with false
    by (symmetry; apply Nat.ltb_ge; exact Hge).
  rewrite Hden. reflexivity.
Qed.

Lemma emUnidade_zero : emUnidade 0.
Proof. split; reflexivity. Qed.

Lemma meanReversion_confianca ticks :
  emUnidade (confianca (estrategiaMeanReversion ticks)).
Proof.
  unfold estrategiaMeanReversion.
  destruct (Nat.ltb (length ticks) 20); [exact emUnidade_zero|].
  cbv zeta.
  destruct (strict_eq _ 0); [exact emUnidade_zero|].
  match goal with
  | |- context [if (?z >? 1.5) && ?v then _ else _] =>
      set (zs := z); destruct ((zs >? 1.5) && v) eqn:E1
  end.
  - apply andb_prop in E1. destruct E1 as (E1 & _).
    cbn [confianca mr_base].
    apply (@Math_min_emUnidade _ 0.85 7656119366529843 (-53)%Z); [reflexivity|lia|].
    apply add_naoNegativo.
    + apply div_naoNegativo; [|reflexivity].
      apply (@sub_naoNegativo 1 1.5); try reflexivity.
      apply abs_acima; [reflexivity|exact E1].
    + match goal with |- context [if ?c then _ else _] => destruct c end; reflexivity.
  - match goal with
    | |- context [if (zs <? ?k) && ?v then _ else _] => destruct ((zs <? k) && v) eqn:E2
    end; [|exact emUnidade_zero].
    apply andb_prop in E2. destruct E2 as (E2 & _).
    cbn [confianca mr_base].
    apply (@Math_min_emUnidade _ 0.85 7656119366529843 (-53)%Z); [reflexivity|lia|].
    apply add_naoNegativo.
    + apply div_naoNegativo; [|reflexivity].
      apply (@sub_naoNegativo 1 1.5); try reflexivity.
      apply (@abs_abaixo 1.5); [reflexivity|exact E2].
    + match goal with |- context [if ?c then _ else _] => destruct c end; reflexivity.
Qed.

Lemma length_diferencas_desde prev xs : length (diferencas_desde prev xs) = length xs.
Proof. revert prev. induction xs as [|x r IH]; intros prev; cbn; auto. Qed.

Lemma length_diferencas xs : length (diferencas xs) = (length xs - 1)%nat.
Proof.
  destruct xs as [|x r]; [reflexivity|]. cbn [diferencas length].
  rewrite length_diferencas_desde. lia.
Qed.

Lemma length_slice_last {A} n (xs : list A) : (length (slice_last n xs) <= n)%nat.
Proof. unfold slice_last. rewrite length_skipn. lia. Qed.

Lemma contarConsecutivas_bound diffs :
  forall alta baixa,
    (fst (contarConsecutivas diffs alta baixa) <= alta + length diffs)%nat
    /\ (snd (contarConsecutivas diffs alta baixa) <= baixa + length diffs)%nat.
Proof.
  induction diffs as [|d r IH]; intros alta baixa; cbn [contarConsecutivas length fst snd].
  - lia.
  - destruct (d >? 0).
    + destruct (Nat.ltb 0 baixa); cbn [fst snd]; [lia|].
      destruct (IH (S alta) baixa). lia.
    + destruct (d <? 0); cbn [fst snd]; [|lia].
      destruct (Nat.ltb 0 alta); cbn [fst snd]; [lia|].
      destruct (IH alta (S baixa)). lia.
Qed.

Lemma momentumConfirmado_confianca ticks :
  emUnidade (confianca (estrategiaMomentumConfirmado ticks)).
Proof.
  unfold estrategiaMomentumConfirmado.
  destruct (Nat.ltb (length ticks) 15); [exact emUnidade_zero|].
  pose proof (contarConsecutivas_bound (rev (diferencas (slice_last 5 ticks))) 0 0) as Hb.
  rewrite length_rev, length_diferencas in Hb.
  pose proof (length_slice_last 5 ticks) as H5.
  destruct (contarConsecutivas (rev (diferencas (slice_last 5 ticks))) 0 0) as [alta baixa].
  cbn [fst snd] in Hb. cbv zeta.
  set (n := Nat.max alta baixa).
  assert (Hn : (n <= 4)%nat) by (subst n; lia).
  match goal with
  | |- context [if Nat.leb 3 n && (?f >? 1.5) then _ else _] => set (fm := f)
  end.
  match goal with
  | |- context [if Nat.leb 4 n then ?A else ?B] =>
      set (alt := if Nat.leb 4 n then A else B)
  end.
  assert (Halt : emUnidade (confianca alt)).
  { subst alt. destruct (Nat.leb 4 n) eqn:E4; [|exact emUnidade_zero].
    apply Nat.leb_le in E4. assert (E : n = 4%nat) by lia.
    match goal with |- context [match ?d with ALTA => _ | BAIXA => _ | LATERAL => _ end] =>
      destruct d end;
      cbn [confianca mc_base]; try exact emUnidade_zero; rewrite E; split; reflexivity. }
  clearbody alt.
  destruct (Nat.leb 3 n && (fm >? 1.5)) eqn:E3; [|exact Halt].
  apply andb_prop in E3. destruct E3 as (E3 & Ef). apply Nat.leb_le in E3.
  assert (Hk : naoNegativo (0.5 + (float_of_nat n - 3) * 0.1)).
  { assert (E : n = 3%nat \/ n = 4%nat) by lia. destruct E as [E|E]; rewrite E; reflexivity. }
  assert (Hx : naoNegativo (0.5 + (float_of_nat n - 3) * 0.1 + (fm - 1.5) * 0.1)).
  { apply add_naoNegativo; [exact Hk|].
    apply mul_naoNegativo; [|reflexivity].
    apply (@sub_naoNegativo 1.5 1.5); try reflexivity. exact Ef. }
  match goal with |- context [match ?d with ALTA => _ | BAIXA => _ | LATERAL => _ end] =>
    destruct d end;
    cbn [confianca mc_base]; try exact Halt;
    apply (@Math_min_emUnidade _ 0.8 7205759403792794 (-53)%Z); try reflexivity; try lia;
    exact Hx.
Qed.

Lemma emUnidadeOuNaN_zero : emUnidadeOuNaN 0.
Proof. right. exact emUnidade_zero. Qed.

Lemma hurst_confianca ticks :
  emUnidade (confianca (estrategiaHurst Math_log ticks)).
Proof.
  unfold estrategiaHurst.
  destruct (Nat.ltb (length ticks) 50); [exact emUnidade_zero|].
  match goal with |- context [if ?c then hurstDefault _ else _] => destruct c end;
    [exact emUnidade_zero|].
  destruct (pontosHurst Math_log (retornosLog Math_log ticks)) as [ranges scales].
  destruct (ajusteHurst ranges scales) as [ex r2]. cbv zeta.
  assert (Hc : positivo (Math_abs (ex - 0.5)) -> (r2 >? 0.5) = true ->
               emUnidade (Math_min (Math_abs (ex - 0.5) * 2 * r2 * 1.5) 0.7)).
  { intros Hd Hr.
    apply (@Math_min_emUnidade _ 0.7 6305039478318694 (-53)%Z); [reflexivity|lia|].
    apply mul_naoNegativo; [|reflexivity].
    apply mul_positivo; [apply dobro_positivo, Hd|].
    apply (@ltb_positivo 0.5); [reflexivity|exact Hr]. }
  match goal with
  | |- context [if ?c1 then _ else if ?c2 then _ else _] =>
      destruct c1 eqn:E1; [|destruct c2 eqn:E2]
  end.
  - apply andb_prop in E1. destruct E1 as (E1 & _).
    apply andb_prop in E1. destruct E1 as (He & Hr).
    assert (Hd : positivo (Math_abs (ex - 0.5))).
    { unfold Math_abs. apply abs_positivo.
      apply (@sub_positivo 0.5 0.58); try reflexivity. exact He. }
    match goal with |- context [if ?c then _ else _] => destruct c end;
      cbn [confianca he_base]; exact (Hc Hd Hr).
  - apply andb_prop in E2. destruct E2 as (E2 & _).
    apply andb_prop in E2. destruct E2 as (He & Hr).
    assert (Hd : positivo (Math_abs (ex - 0.5))).
    { unfold Math_abs. apply (@abs_sub_positivo 0.5 0.42); try reflexivity. exact He. }
    match goal with |- context [if ?c then _ else _] => destruct c end;
      cbn [confianca he_base]; exact (Hc Hd Hr).
  - exact emUnidade_zero.
Qed.

Lemma r2_rapido_naoNegativoOuNaN ticks :
  naoNegativoOuNaN (r2_rapido (calcularHurstRapido Math_log ticks)).
Proof.
  unfold calcularHurstRapido.
  destruct (Nat.ltb (length (retornosLogRapido Math_log ticks)) 30); [reflexivity|].
  destruct (pontosHurstRapido Math_log (retornosLogRapido Math_log ticks)) as [ranges scales].
  unfold ajusteHurstRapido.
  destruct (Nat.ltb (length ranges) 2); [reflexivity|].
  match goal with |- context [if ?c then hurstNeutro else _] => destruct c end;
    [reflexivity|].
  cbn [r2_rapido].
  match goal with |- context [if ?c then _ else _] => destruct c end; [|reflexivity].
  apply Math_max_zero_naoNegativoOuNaN.
Qed.

(** The R2, the force and the efficiency the detector reports are
    non-negative numbers or NaN. *)
Lemma momentumPersistent_metricas ticks h :
  let r := momentumPersistentStrategy Math_log ticks h in
  naoNegativoOuNaN (mp_r2 r) /\ naoNegativoOuNaN (forca r)
  /\ naoNegativoOuNaN (eficiencia r).
Proof.
  cbv zeta.
  assert (Hx : forall v sd : float,
             naoNegativoOuNaN (if sd >? 0 then Math_abs v / sd else 0)).
  { intros v sd. destruct (sd >? 0) eqn:E; [|reflexivity].
    apply div_naoNegativoOuNaN; [apply abs_naoNegativoOuNaN|].
    apply (@ltb_positivo 0); [reflexivity|exact E]. }
  split; [|split].
  - unfold momentumPersistentStrategy.
    destruct (Nat.ltb (length ticks) 20); [reflexivity|].
    match goal with
    | |- context [if ?c then (hurst_rapido ?x, r2_rapido ?x) else ?e] =>
        destruct c; [pose proof (r2_rapido_naoNegativoOuNaN ticks) as Hr|]
    end; cbv zeta.
    + repeat match goal with
             | |- context [if ?c then {| mp_base := _ |} else _] => destruct c
             end; exact Hr.
    + repeat match goal with
             | |- context [if ?c then {| mp_base := _ |} else _] => destruct c
             end; reflexivity.
  - unfold momentumPersistentStrategy.
    destruct (Nat.ltb (length ticks) 20); [reflexivity|].
    match goal with
    | |- context [let '(hurst, r2) := ?p in _] => destruct p
    end. cbv zeta.
    repeat match goal with
           | |- context [if ?c then {| mp_base := _ |} else _] => destruct c
           end; apply Hx.
  - unfold momentumPersistentStrategy.
    destruct (Nat.ltb (length ticks) 20); [reflexivity|].
    match goal with
    | |- context [let '(hurst, r2) := ?p in _] => destruct p
    end. cbv zeta.
    repeat match goal with
           | |- context [if ?c then {| mp_base := _ |} else _] => destruct c
           end; apply Hx.
Qed.

Lemma momentumPersistent_confianca ticks h :
  emUnidadeOuNaN (confianca (momentumPersistentStrategy Math_log ticks h)).
Proof.
  destruct (momentumPersistent_decisao ticks h) as (Hd & _).
  destruct (momentumPersistent_metricas ticks h) as (Hr2 & Hfo & Hef).
  cbv zeta in Hd, Hr2, Hfo, Hef.
  set (r := momentumPersistentStrategy Math_log ticks h) in *.
  assert (Hc : confianca r
               = snd (decisaoMomentum (hurst r) (mp_r2 r) (direcaoCurta r) (direcaoMedia r)
                        (direcaoLonga r) (alinhamento r) (forca r) (eficiencia r)))
    by (rewrite <- Hd; reflexivity).
  rewrite Hc. unfold decisaoMomentum.
  destruct ((hurst r >? 0.58) && (alinhamento r >=? 0.8)) eqn:E1.
  - apply andb_prop in E1. destruct E1 as (Eh & Ea). cbn [snd].
    apply (@Math_min_emUnidadeOuNaN _ 0.8 7205759403792794 (-53)%Z); [reflexivity|lia|].
    repeat apply add_naoNegativoOuNaN.
    + apply naoNegativo_weaken, mul_naoNegativo; [|reflexivity].
      apply (@sub_naoNegativo 0.5 0.58); try reflexivity. exact Eh.
    + apply mul_naoNegativoOuNaN; [exact Hr2|reflexivity].
    + apply mul_naoNegativoOuNaN; [|reflexivity].
      apply naoNegativo_weaken, positivo_naoNegativo.
      apply (@leb_positivo 0.8); [reflexivity|exact Ea].
    + apply Math_min_naoNegativoOuNaN; [|reflexivity].
      apply mul_naoNegativoOuNaN; [exact Hfo|reflexivity].
    + apply mul_naoNegativoOuNaN; [exact Hef|reflexivity].
  - match goal with |- context [if ?c then _ else _] => destruct c eqn:E2 end;
      [|exact emUnidadeOuNaN_zero].
    apply andb_prop in E2. destruct E2 as (E2 & Ef).
    apply andb_prop in E2. destruct E2 as (Eh & _). cbn [snd].
    apply (@Math_min_emUnidadeOuNaN _ 0.55 4953959590107546 (-53)%Z); [reflexivity|lia|].
    apply add_naoNegativoOuNaN.
    + apply naoNegativo_weaken, mul_naoNegativo; [|reflexivity].
      apply (@sub_naoNegativo 0.5 0.58); try reflexivity. exact Eh.
    + apply mul_naoNegativoOuNaN; [exact Hfo|reflexivity].
Qed.

(** When the R2, the force and the efficiency are numbers, so is the
    confidence, and it lies in the unit interval. *)
Lemma momentumPersistent_confianca_numeros ticks h :
  let r := momentumPersistentStrategy Math_log ticks h in
  is_nan (mp_r2 r) = false -> is_nan (forca r) = false -> is_nan (eficiencia r) = false ->
  emUnidade (confianca r).
Proof.
  destruct (momentumPersistent_decisao ticks h) as (Hd & _).
  destruct (momentumPersistent_metricas ticks h) as (Hr2 & Hfo & Hef).
  cbv zeta in Hd, Hr2, Hfo, Hef. cbv zeta.
  set (r := momentumPersistentStrategy Math_log ticks h) in *.
  intros Nr2 Nfo Nef.
  pose proof (nao_nan_naoNegativo Hr2 Nr2) as Pr2.
  pose proof (nao_nan_naoNegativo Hfo Nfo) as Pfo.
  pose proof (nao_nan_naoNegativo Hef Nef) as Pef.
  assert (Hc : confianca r
               = snd (decisaoMomentum (hurst r) (mp_r2 r) (direcaoCurta r) (direcaoMedia r)
                        (direcaoLonga r) (alinhamento r) (forca r) (eficiencia r)))
    by (rewrite <- Hd; reflexivity).
  rewrite Hc. unfold decisaoMomentum.
  destruct ((hurst r >? 0.58) && (alinhamento r >=? 0.8)) eqn:E1.
  - apply andb_prop in E1. destruct E1 as (Eh & Ea). cbn [snd].
    apply (@Math_min_emUnidade _ 0.8 7205759403792794 (-53)%Z); [reflexivity|lia|].
    repeat apply add_naoNegativo.
    + apply mul_naoNegativo; [|reflexivity].
      apply (@sub_naoNegativo 0.5 0.58); try reflexivity. exact Eh.
    + apply mul_naoNegativo; [exact Pr2|reflexivity].
    + apply mul_naoNegativo; [|reflexivity].
      apply positivo_naoNegativo.
      apply (@leb_positivo 0.8); [reflexivity|exact Ea].
    + apply Math_min_naoNegativo; [|reflexivity].
      apply mul_naoNegativo; [exact Pfo|reflexivity].
    + apply mul_naoNegativo; [exact Pef|reflexivity].
  - match goal with |- context [if ?c then _ else _] => destruct c eqn:E2 end;
      [|exact emUnidade_zero].
    apply andb_prop in E2. destruct E2 as (E2 & Ef).
    apply andb_prop in E2. destruct E2 as (Eh & _). cbn [snd].
    apply (@Math_min_emUnidade _ 0.55 4953959590107546 (-53)%Z); [reflexivity|lia|].
    apply add_naoNegativo.
    + apply mul_naoNegativo; [|reflexivity].
      apply (@sub_naoNegativo 0.5 0.58); try reflexivity. exact Eh.
    + apply mul_naoNegativo; [exact Pfo|reflexivity].
Qed.

(** ** The estimators on constant data *)

Lemma zeroOuNaN_zero : zeroOuNaN 0.
Proof. exact I. Qed.

Lemma zeroOuNaN_div x y : zeroOuNaN x -> zeroOuNaN (x / y).
Proof.
  unfold zeroOuNaN. rewrite FloatAxioms.div_spec.
  destruct (Prim2SF x); try contradiction; destruct (Prim2SF y); intros; exact I.
Qed.

Lemma zeroOuNaN_sub x y : zeroOuNaN x -> zeroOuNaN y -> zeroOuNaN (x - y).
Proof.
  unfold zeroOuNaN. rewrite FloatAxioms.sub_spec.
  destruct (Prim2SF x) as [[|]| | |]; try contradiction;
    destruct (Prim2SF y) as [[|]| | |]; try contradiction; intros; exact I.
Qed.

Lemma zeroOuNaN_add x y : zeroOuNaN x -> zeroOuNaN y -> zeroOuNaN (x + y).
Proof.
  unfold zeroOuNaN. rewrite FloatAxioms.add_spec.
  destruct (Prim2SF x) as [[|]| | |]; try contradiction;
    destruct (Prim2SF y) as [[|]| | |]; try contradiction; intros; exact I.
Qed.

Lemma zeroOuNaN_mul x y : zeroOuNaN x -> zeroOuNaN y -> zeroOuNaN (x * y).
Proof.
  unfold zeroOuNaN. rewrite FloatAxioms.mul_spec.
  destruct (Prim2SF x) as [[|]| | |]; try contradiction;
    destruct (Prim2SF y) as [[|]| | |]; try contradiction; intros; exact I.
Qed.

Lemma zeroOuNaN_sqrt_nao_positivo x : zeroOuNaN x -> (Math_sqrt x >? 0) = false.
Proof.
  unfold zeroOuNaN, Math_sqrt. rewrite FloatAxioms.ltb_spec, FloatAxioms.sqrt_spec.
  change (Prim2SF 0) with (S754_zero false).
  destruct (Prim2SF x) as [[|]| | |]; try contradiction; intros; reflexivity.
Qed.

Lemma fold_zeroOuNaN (f : float -> float -> float) xs :
  (forall acc v, zeroOuNaN acc -> zeroOuNaN v -> zeroOuNaN (f acc v)) ->
  Forall zeroOuNaN xs ->
  forall acc, zeroOuNaN acc -> zeroOuNaN (fold_left f xs acc).
Proof.
  intros Hf Hxs. induction Hxs as [|x r Hx Hr IH]; intros acc Ha; cbn [fold_left].
  - exact Ha.
  - apply IH, Hf; assumption.
Qed.

Lemma todosZero_zeroOuNaN xs : todosZero xs -> Forall zeroOuNaN xs.
Proof.
  intros H. eapply Forall_impl; [|exact H]. intros v Hv. cbv beta in Hv. rewrite Hv. exact zeroOuNaN_zero.
Qed.

Lemma todosZero_firstn n xs : todosZero xs -> todosZero (firstn n xs).
Proof.
  intros H. revert n. induction H as [|v r Hv Hr IH]; intros [|n]; cbn [firstn];
    constructor; [exact Hv|apply IH].
Qed.

Lemma todosZero_skipn n xs : todosZero xs -> todosZero (skipn n xs).
Proof.
  intros H. revert n. induction H as [|v r Hv Hr IH]; intros [|n]; cbn [skipn].
  - constructor.
  - constructor.
  - constructor; assumption.
  - apply IH.
Qed.

Lemma todosZero_slice a b xs : todosZero xs -> todosZero (slice a b xs).
Proof.
  intros H. unfold slice. apply todosZero_firstn, todosZero_skipn, H.
Qed.

(** The standard deviation of an all-zero window is not positive. *)
Lemma desvio_janela_zero scale window :
  todosZero window ->
  (Math_sqrt
     (fold_left (fun acc val => acc + val * val)
        (map (fun x => x - soma window / scale) window) 0 / scale) >? 0) = false.
Proof.
  intros Hz. apply zeroOuNaN_sqrt_nao_positivo, zeroOuNaN_div.
  assert (Hm : zeroOuNaN (soma window / scale)).
  { apply zeroOuNaN_div. unfold soma.
    apply fold_zeroOuNaN; [apply zeroOuNaN_add|apply todosZero_zeroOuNaN, Hz
                          |exact zeroOuNaN_zero]. }
  apply fold_zeroOuNaN; [| |exact zeroOuNaN_zero].
  - intros acc v Ha Hv. apply zeroOuNaN_add; [exact Ha|apply zeroOuNaN_mul; exact Hv].
  - apply Forall_map. eapply Forall_impl; [|exact Hz].
    intros v Hv. cbv beta in Hv. rewrite Hv. apply zeroOuNaN_sub; [exact zeroOuNaN_zero|exact Hm].
Qed.

Lemma rsJanela_zero scaleN scale window :
  todosZero window -> rsJanela scaleN scale window = None.
Proof.
  intros Hz. unfold rsJanela.
  destruct (Nat.ltb (length window) scaleN); [reflexivity|]. cbv zeta.
  rewrite (desvio_janela_zero scale Hz). reflexivity.
Qed.

Lemma rsJanelaRapido_zero scaleN scale window :
  todosZero window -> rsJanelaRapido scaleN scale window = None.
Proof.
  intros Hz. unfold rsJanelaRapido. cbv zeta.
  rewrite (desvio_janela_zero scale Hz). reflexivity.
Qed.

Lemma rsValores_zero janela diffs scale :
  (forall n s w, todosZero w -> janela n s w = None) ->
  todosZero diffs -> rsValores janela diffs scale = [].
Proof.
  intros Hj Hz. unfold rsValores. cbv zeta.
  induction (seq 0 _) as [|w ws IH]; cbn [flat_map]; [reflexivity|].
  rewrite Hj by (apply todosZero_slice, Hz). exact IH.
Qed.

Lemma lacoEscalas_zero diffs maxScale :
  todosZero diffs ->
  forall fuel scale, lacoEscalas Math_log fuel diffs scale maxScale [] [] = ([], []).
Proof.
  intros Hz. induction fuel as [|fuel IH]; intros scale; cbn [lacoEscalas]; [reflexivity|].
  destruct (scale <=? maxScale); [|reflexivity].
  rewrite (rsValores_zero rsJanela scale rsJanela_zero Hz). cbn. apply IH.
Qed.

(** The scale loop stops by itself: once the scale has passed [maxScale],
    more fuel changes nothing. *)
Lemma lacoEscalas_parado diffs maxScale extra :
  forall fuel scale ranges scales,
    (Nat.iter fuel proximaEscala scale <=? maxScale) = false ->
    lacoEscalas Math_log (fuel + extra) diffs scale maxScale ranges scales
    = lacoEscalas Math_log fuel diffs scale maxScale ranges scales.
Proof.
  induction fuel as [|fuel IH]; intros scale ranges scales Hpass.
  - change (Nat.iter 0 proximaEscala scale) with scale in Hpass. cbn [Nat.add lacoEscalas].
    destruct extra as [|extra]; cbn [lacoEscalas]; [reflexivity|].
    rewrite Hpass. reflexivity.
  - rewrite Nat.iter_succ_r in Hpass. cbn [Nat.add lacoEscalas].
    destruct (scale <=? maxScale); [|reflexivity].
    destruct (pontoEscala Math_log (rsValores rsJanela diffs scale) scale ranges scales)
      as [ranges' scales'].
    apply IH. exact Hpass.
Qed.

(** The scales 8, 11, 15, 21, ... overflow to [Infinity] within
    [combustivelEscalas] steps, so the loop has stopped by then for every
    finite [maxScale] (and it does not start when [maxScale] is NaN). *)
Lemma lacoEscalas_combustivel diffs maxScale extra :
  (maxScale <? infinity) = true \/ is_nan maxScale = true ->
  lacoEscalas Math_log (combustivelEscalas + extra) diffs 8 maxScale [] []
  = lacoEscalas Math_log combustivelEscalas diffs 8 maxScale [] [].
Proof.
  intros Hfin.
  assert (E : Nat.iter combustivelEscalas proximaEscala 8 = infinity)
    by (vm_compute; reflexivity).
  refine (@lacoEscalas_parado diffs maxScale extra combustivelEscalas 8 [] [] _).
  rewrite E. clear E. rewrite FloatAxioms.leb_spec.
  change (Prim2SF infinity) with (S754_infinity false).
  destruct Hfin as [Hfin|Hnan].
  - rewrite FloatAxioms.ltb_spec in Hfin.
    change (Prim2SF infinity) with (S754_infinity false) in Hfin.
    destruct (Prim2SF maxScale) as [s|[|]| |[|] m e]; try discriminate; reflexivity.
  - rewrite is_nan_spec in Hnan.
    destruct (Prim2SF maxScale); try discriminate; reflexivity.
Qed.

Lemma lacoEscalasRapido_zero diffs :
  todosZero diffs ->
  forall escalas, lacoEscalasRapido Math_log escalas diffs [] [] = ([], []).
Proof.
  intros Hz. induction escalas as [|n r IH]; cbn [lacoEscalasRapido]; [reflexivity|].
  destruct (Nat.ltb (length diffs) (n * 2)); [exact IH|].
  rewrite (rsValores_zero rsJanelaRapido (float_of_nat n) rsJanelaRapido_zero Hz).
  cbn. exact IH.
Qed.

(** A positive finite number, in the terms of [SpecFloat]. *)
Lemma positivo_finito_spec x :
  (x >? 0) = true -> (x <? infinity) = true ->
  exists m e, Prim2SF x = S754_finite false m e.
Proof.
  rewrite !FloatAxioms.ltb_spec.
  change (Prim2SF 0) with (S754_zero false).
  change (Prim2SF infinity) with (S754_infinity false).
  destruct (Prim2SF x) as [s|[|]| |[|] m e]; try discriminate. intros _ _. eauto.
Qed.

Section ConstantSeries.

Variable x : float.
Hypothesis x_positive : (x >? 0) = true.
Hypothesis x_finite : (x <? infinity) = true.
Hypothesis log_one : Math_log 1 = 0.

Lemma razao_constante : x / x = 1.
Proof.
  destruct (positivo_finito_spec x_positive x_finite) as (m & e & Hx).
  eapply div_self. exact Hx.
Qed.

Lemma retornosLog_constante n : todosZero (retornosLog Math_log (repeat x n)).
Proof.
  destruct n as [|n]; [constructor|]. cbn [repeat retornosLog].
  induction n as [|n IH]; cbn [repeat retornosLog_desde]; [constructor|].
  constructor; [|exact IH]. rewrite razao_constante. exact log_one.
Qed.

Lemma retornosLogRapido_constante n : todosZero (retornosLogRapido Math_log (repeat x n)).
Proof.
  destruct n as [|n]; [constructor|]. cbn [repeat retornosLogRapido].
  induction n as [|n IH]; cbn [repeat retornosLogRapido_desde]; [constructor|].
  rewrite x_positive, razao_constante, log_one.
  change (isFinite 0) with true. cbv iota.
  constructor; [reflexivity|exact IH].
Qed.

Lemma calcularHurstRapido_constante n :
  calcularHurstRapido Math_log (repeat x n) = hurstNeutro.
Proof.
  unfold calcularHurstRapido.
  destruct (Nat.ltb _ 30); [reflexivity|].
  unfold pontosHurstRapido.
  rewrite (lacoEscalasRapido_zero (retornosLogRapido_constante n)). reflexivity.
Qed.

Lemma pontosHurst_constante fuel n :
  pontosHurst_ate Math_log fuel (retornosLog Math_log (repeat x n)) = ([], []).
Proof.
  unfold pontosHurst_ate. cbv zeta. apply lacoEscalas_zero, retornosLog_constante.
Qed.

Lemma estrategiaHurst_constante n :
  let r := estrategiaHurst Math_log (repeat x n) in
  sinal r = HOLD /\ confianca r = 0 /\ expoente r = 0.5 /\ he_r2 r = 0
  /\ previsibilidade r = 0.
Proof.
  unfold estrategiaHurst.
  destruct (Nat.ltb _ 50); [repeat split|].
  match goal with |- context [if ?c then hurstDefault _ else _] => destruct c end;
    [repeat split|].
  unfold pontosHurst, pontosHurst_ate. cbv zeta.
  rewrite (lacoEscalas_zero _ (retornosLog_constante n)).
  change (ajusteHurst [] []) with (0.5, 0). cbv beta iota zeta.
  change (0.5 >? 0.58) with false. change (0.5 <? 0.42) with false.
  cbn [andb]. repeat split.
Qed.

(** C6.  On a constant series of a positive (finite) price, of any length,
    both estimators return the neutral result, Hurst 0.5 and R2 0: the fast
    estimator as a whole, and the estimator of the Hurst-regime detector in
    the result of the detector, whose every numeric field is a finite number
    (confidence 0, exponent 0.5, predictability 0, R2 0) and whose signal is
    HOLD.  The scale loop of the detector collects no regression point
    whatever number of iterations it is allowed, so the result does not
    depend on the bound put on the loop.  [Math.log] enters only through
    its value at 1, which ECMAScript fixes at 0. *)
Theorem constant_series_is_neutral (n : nat) :
  calcularHurstRapido Math_log (repeat x n) = hurstNeutro
  /\ (let r := estrategiaHurst Math_log (repeat x n) in
      sinal r = HOLD /\ confianca r = 0 /\ expoente r = 0.5 /\ he_r2 r = 0
      /\ previsibilidade r = 0
      /\ Forall (fun v => isFinite v = true)
           [confianca r; expoente r; he_r2 r; previsibilidade r])
  /\ (forall fuel,
         pontosHurst_ate Math_log fuel (retornosLog Math_log (repeat x n)) = ([], []))
  /\ Forall (fun v => isFinite v = true)
       [hurst_rapido (calcularHurstRapido Math_log (repeat x n));
        r2_rapido (calcularHurstRapido Math_log (repeat x n))].
Proof.
  split; [exact (calcularHurstRapido_constante n)|].
  split.
  { destruct (estrategiaHurst_constante n) as (Hs & Hc & He & Hr & Hp).
    cbv zeta. rewrite Hc, He, Hr, Hp.
    repeat split; try assumption.
    repeat constructor. }
  split; [intros fuel; apply pontosHurst_constante|].
  rewrite (calcularHurstRapido_constante n). repeat constructor.
Qed.

End ConstantSeries.

End DetectorFacts.

(* ================================================================== *)
(** * The detectors on concrete price lists                            *)
(* ================================================================== *)

Section DetectorExamples.

Import JS Strategy Predicados Exemplos.
Local Open Scope float_scope.

Lemma short_input_gives_hold_witness :
  (sinal (estrategiaMeanReversion (repeat 100 14)) = HOLD
   /\ confianca (estrategiaMeanReversion (repeat 100 14)) = 0)
  /\ (sinal (estrategiaMomentumConfirmado (repeat 100 14)) = HOLD
      /\ confianca (estrategiaMomentumConfirmado (repeat 100 14)) = 0)
  /\ (sinal (estrategiaHurst log_approx (repeat 100 14)) = HOLD
      /\ confianca (estrategiaHurst log_approx (repeat 100 14)) = 0)
  /\ (sinal (momentumPersistentStrategy log_approx (repeat 100 14) (Some 0.7)) = HOLD
      /\ confianca (momentumPersistentStrategy log_approx (repeat 100 14) (Some 0.7)) = 0).
Proof.
  destruct (@short_input_gives_hold log_approx (repeat 100 14)) as (H1 & H2 & H3 & H4).
  split; [apply H1; cbn [length repeat]; lia|].
  split; [apply H2; cbn [length repeat]; lia|].
  split; [apply H3; cbn [length repeat]; lia|].
  apply H4; cbn [length repeat]; lia.
Defined.

Lemma momentum_persistent_default_hurst_holds_witness :
  sinal (momentumPersistentStrategy log_approx precosSubindo None) = HOLD
  /\ confianca (momentumPersistentStrategy log_approx precosSubindo None) = 0
  /\ hurst (momentumPersistentStrategy log_approx precosSubindo None) = 0.5
  /\ isPersistente (momentumPersistentStrategy log_approx precosSubindo None) = false.
Proof.
  refine (@momentum_persistent_default_hurst_holds log_approx precosSubindo _ _);
    vm_compute; lia.
Defined.

(** Both lists get the signal CALL with the same confidence, the first
    with the lateral flag set (8 reversals), the second without.  The
    zigzag has all three conditions of the flag (efficiency 1/6, ADX 16.7,
    13 reversals) and gets CALL with the confidence 0.8. *)
Lemma lateral_flag_is_informational_witness :
  (isLateral (momentumPersistentStrategy log_approx precosOitoReversoes (Some 0.7)) = true
   /\ isLateral (momentumPersistentStrategy log_approx precosQuatroReversoes (Some 0.7))
      = false)
  /\ (sinal (momentumPersistentStrategy log_approx precosOitoReversoes (Some 0.7))
      = sinal (momentumPersistentStrategy log_approx precosQuatroReversoes (Some 0.7))
      /\ confianca (momentumPersistentStrategy log_approx precosOitoReversoes (Some 0.7))
         = confianca (momentumPersistentStrategy log_approx precosQuatroReversoes (Some 0.7)))
  /\ sinal (momentumPersistentStrategy log_approx precosOitoReversoes (Some 0.7)) = CALL
  /\ (let r := momentumPersistentStrategy log_approx precosZigueZague (Some 0.7) in
      (eficiencia r <? 0.3) = true /\ (adx r <? 25) = true
      /\ Nat.ltb 5 (mudancasDirecaoDe precosZigueZague) = true
      /\ isLateral r = true /\ sinal r = CALL /\ confianca r = 0.8).
Proof.
  split; [split; vm_compute; reflexivity|].
  split; [|split; [vm_compute; reflexivity|]].
  2:{ cbv zeta. split; [|split; [|split; [|split; [|split]]]]; vm_compute; reflexivity. }
  assert (H := proj2 (proj2 (lateral_flag_is_informational log_approx))
                 precosOitoReversoes (Some 0.7) precosQuatroReversoes (Some 0.7)).
  cbv zeta in H.
  destruct H as [Hs Hc]; [vm_compute; reflexivity ..|].
  split; [exact Hs | apply Hc; vm_compute; reflexivity].
Defined.

Lemma regression_needs_enough_points_witness :
  (length (fst (pontosHurst log_approx (retornosLog log_approx precosFinalAgitado))) = 1%nat
   /\ expoente (estrategiaHurst log_approx precosFinalAgitado) = 0.5
   /\ he_r2 (estrategiaHurst log_approx precosFinalAgitado) = 0)
  /\ calcularHurstRapido log_approx (repeat 100 49 ++ [101]) = hurstNeutro
  /\ (let pontos :=
        pontosHurstRapido log_approx (retornosLogRapido log_approx precosComZeros) in
      hurst_rapido (ajusteHurstRapido (fst pontos) (snd pontos))
      = Math_max 0.1 (Math_min 0.9 (inclinacao (fst pontos) (snd pontos)))).
Proof.
  destruct (regression_needs_enough_points log_approx) as (_ & H2 & _ & H4 & H5).
  split; [split; [vm_compute; reflexivity|apply H2; vm_compute; lia]|].
  split; [apply H4; vm_compute; lia|].
  apply H5; [vm_compute; lia|vm_compute; reflexivity].
Defined.

(** C5, as stated, fails for the fast estimator: on these 50 prices it
    collects 2 regression points, for the scales 8 and 12, and fits them;
    the slope, about 1.1, is returned clamped to 0.9 with an R2 of 1, and
    the persistent-momentum detector reports this Hurst value. *)
Lemma fast_estimator_fits_two_points :
  length precosComZeros = 50%nat
  /\ length (fst (pontosHurstRapido log_approx (retornosLogRapido log_approx precosComZeros)))
     = 2%nat
  /\ calcularHurstRapido log_approx precosComZeros
     = {| hurst_rapido := 0.9; r2_rapido := 1 |}
  /\ hurst (momentumPersistentStrategy log_approx precosComZeros None) = 0.9.
Proof. repeat split; vm_compute; reflexivity. Qed.

Lemma constant_series_is_neutral_witness :
  calcularHurstRapido log_approx (repeat 100 60) = hurstNeutro
  /\ expoente (estrategiaHurst log_approx (repeat 100 60)) = 0.5
  /\ he_r2 (estrategiaHurst log_approx (repeat 100 60)) = 0
  /\ confianca (estrategiaHurst log_approx (repeat 100 60)) = 0.
Proof.
  destruct (@constant_series_is_neutral log_approx 100 eq_refl eq_refl eq_refl 60)
    as (Hr & (_ & Hc & He & Hr2 & _) & _).
  repeat split; assumption.
Defined.

End DetectorExamples.

(* ================================================================== *)
(** * More facts about comparisons, [Math.min] and [Math.max]          *)
(* ================================================================== *)

Module FloatOrderFacts.

Import JS Predicados FloatFacts.
Local Open Scope float_scope.

Lemma SFcompare_some x y :
  x <> S754_nan -> y <> S754_nan -> exists c, SFcompare x y = Some c.
Proof.
  destruct x as [sx|sx| |sx mx ex], y as [sy|sy| |sy my ey];
    intros Hx Hy; try congruence; cbn; eauto.
Qed.

(** Two numbers that are not NaN are comparable. *)
Lemma nao_ltb_leb x y :
  is_nan x = false -> is_nan y = false -> (x <? y) = false -> (y <=? x) = true.
Proof.
  rewrite !is_nan_spec, FloatAxioms.ltb_spec, FloatAxioms.leb_spec.
  unfold SFltb, SFleb. rewrite (SFcompare_antisym (Prim2SF x) (Prim2SF y)).
  intros Hx Hy.
  destruct (@SFcompare_some (Prim2SF x) (Prim2SF y)) as [c Hc].
  - intros E. rewrite E in Hx. discriminate.
  - intros E. rewrite E in Hy. discriminate.
  - rewrite Hc. destruct c; cbn; intros E; try discriminate; reflexivity.
Qed.

Lemma ltb_leb x y : (x <? y) = true -> (x <=? y) = true.
Proof.
  rewrite FloatAxioms.ltb_spec, FloatAxioms.leb_spec. unfold SFltb, SFleb.
  destruct (SFcompare _ _) as [[| |]|]; try discriminate; reflexivity.
Qed.

Lemma leb_refl x : is_nan x = false -> (x <=? x) = true.
Proof.
  intros Hx. apply nao_ltb_leb; try assumption.
  destruct (x <? x) eqn:E; [|reflexivity].
  rewrite (ltb_asym E) in E. discriminate.
Qed.

Lemma leb_nao_nan x y : (x <=? y) = true -> is_nan x = false /\ is_nan y = false.
Proof.
  rewrite !is_nan_spec, FloatAxioms.leb_spec. unfold SFleb.
  destruct (Prim2SF x) as [sx|sx| |sx mx ex], (Prim2SF y) as [sy|sy| |sy my ey];
    cbn [SFcompare]; intros E; try discriminate E; split; reflexivity.
Qed.

Lemma ltb_nao_nan x y : (x <? y) = true -> is_nan x = false /\ is_nan y = false.
Proof. intros H. apply leb_nao_nan, ltb_leb, H. Qed.

(** [Math.min(a, c)], when it is a number, is at most [c] and at most [a]. *)
Lemma Math_min_le_r a c : is_nan (Math_min a c) = false -> (Math_min a c <=? c) = true.
Proof.
  unfold Math_min.
  destruct (is_nan a) eqn:Ea; [discriminate|].
  destruct (is_nan c) eqn:Ec; [discriminate|]. cbn [orb]. intros _.
  destruct (a <? c) eqn:E1; [apply ltb_leb, E1|].
  destruct (c <? a) eqn:E2; [apply leb_refl, Ec|].
  destruct (is_zero a && get_sign a); [|apply leb_refl, Ec].
  apply nao_ltb_leb; assumption.
Qed.

Lemma Math_min_le_l a c : is_nan (Math_min a c) = false -> (Math_min a c <=? a) = true.
Proof.
  unfold Math_min.
  destruct (is_nan a) eqn:Ea; [discriminate|].
  destruct (is_nan c) eqn:Ec; [discriminate|]. cbn [orb]. intros _.
  destruct (a <? c) eqn:E1; [apply leb_refl, Ea|].
  destruct (c <? a) eqn:E2; [apply ltb_leb, E2|].
  destruct (is_zero a && get_sign a); [apply leb_refl, Ea|].
  apply nao_ltb_leb; assumption.
Qed.

(** [Math.max(a, c)], when it is a number, is at least [a]. *)
Lemma Math_max_ge_l a c : is_nan (Math_max a c) = false -> (a <=? Math_max a c) = true.
Proof.
  unfold Math_max.
  destruct (is_nan a) eqn:Ea; [discriminate|].
  destruct (is_nan c) eqn:Ec; [discriminate|]. cbn [orb]. intros _.
  destruct (a <? c) eqn:E1; [apply ltb_leb, E1|].
  destruct (c <? a) eqn:E2; [apply leb_refl, Ea|].
  destruct (is_zero a && negb (get_sign a)); [apply leb_refl, Ea|].
  apply nao_ltb_leb; assumption.
Qed.

Lemma Math_min_nao_nan a c :
  is_nan a = false -> is_nan c = false -> is_nan (Math_min a c) = false.
Proof.
  intros Ea Ec. unfold Math_min. rewrite Ea, Ec. cbn [orb].
  destruct (a <? c); [exact Ea|]. destruct (c <? a); [exact Ec|].
  destruct (is_zero a && get_sign a); assumption.
Qed.

Lemma Math_max_nao_nan a c :
  is_nan a = false -> is_nan c = false -> is_nan (Math_max a c) = false.
Proof.
  intros Ea Ec. unfold Math_max. rewrite Ea, Ec. cbn [orb].
  destruct (a <? c); [exact Ec|]. destruct (c <? a); [exact Ea|].
  destruct (is_zero a && negb (get_sign a)); assumption.
Qed.

(** [Math.max(lo, Math.min(hi, x))] for constants [lo <= hi]: NaN when
    [x] is NaN, a number from [lo] to [hi] otherwise. *)
Lemma clamp_entre lo hi x :
  (lo <=? hi) = true -> is_nan x = false ->
  (lo <=? Math_max lo (Math_min hi x)) = true
  /\ (Math_max lo (Math_min hi x) <=? hi) = true.
Proof.
  intros Hlh Hx. destruct (leb_nao_nan Hlh) as (Hlo & Hhi).
  pose proof (@Math_min_nao_nan hi x Hhi Hx) as Hm.
  pose proof (@Math_max_nao_nan lo (Math_min hi x) Hlo Hm) as HM.
  split; [apply Math_max_ge_l, HM|].
  pose proof (@Math_min_le_l hi x Hm) as Hle.
  unfold Math_max. rewrite Hlo, Hm. cbn [orb].
  destruct (lo <? Math_min hi x); [exact Hle|].
  destruct (Math_min hi x <? lo); [exact Hlh|].
  destruct (is_zero lo && negb (get_sign lo)); [exact Hlh|exact Hle].
Qed.

Lemma is_finite_nao_nan x : is_finite x = true -> is_nan x = false.
Proof.
  unfold is_finite. intros H. apply negb_true_iff, orb_false_iff in H. apply H.
Qed.

(** From [x <= k] to [x <= c] for positive finite constants [k <= c]. *)
Lemma leb_trans_const x k c :
  positivoFinito k -> positivoFinito c -> (k <=? c) = true -> (x <=? k) = true ->
  (x <=? c) = true.
Proof.
  unfold positivoFinito. rewrite !FloatAxioms.leb_spec.
  destruct (Prim2SF k) as [| | |[|] mk ek]; try discriminate.
  destruct (Prim2SF c) as [| | |[|] mc ec]; try discriminate. intros _ _ Hkc Hxk.
  destruct (Prim2SF x) as [s|[|]| |[|] m e]; try discriminate; try reflexivity.
  apply SFleb_posfin in Hkc. apply SFleb_posfin in Hxk. apply SFleb_posfin.
  unfold lex_lt in *.
  destruct Hkc as [Hkc|(Hkc1 & Hkc2)], Hxk as [Hxk|(Hxk1 & Hxk2)]; subst.
  - left. destruct Hkc as [?|(? & ?)], Hxk as [?|(? & ?)]; subst; [left|left|left|right; split]; lia.
  - left. exact Hkc.
  - left. exact Hxk.
  - right. split; reflexivity.
Qed.

(** A value that is [0] or [Math.min(x, cap)], if a number, is at most
    [cap]. *)
Lemma limitado_por_teto c cap :
  c = 0 \/ (exists x, c = Math_min x cap) ->
  is_nan c = false -> (0 <=? cap) = true -> (c <=? cap) = true.
Proof.
  intros [E|(x & E)] Hn Hcap; subst c; [exact Hcap|].
  apply Math_min_le_r, Hn.
Qed.

Lemma emUnidade_nao_nan c : emUnidade c -> is_nan c = false.
Proof. intros (H0 & _). apply (leb_nao_nan H0). Qed.

(** From [x < k] to [x < c] for positive finite constants [k <= c]. *)
Lemma ltb_trans_const_below c k x :
  positivoFinito c -> positivoFinito k -> (k <=? c) = true -> (x <? k) = true ->
  (x <? c) = true.
Proof.
  unfold positivoFinito. rewrite FloatAxioms.leb_spec, !FloatAxioms.ltb_spec.
  apply SFltb_trans_const_below.
Qed.

End FloatOrderFacts.

(* ================================================================== *)
(** * Further properties of the signal detectors                       *)
(* ================================================================== *)

Section DetectorWindows.

Import JS Strategy.
Local Open Scope float_scope.

Lemma slice_last_app {A} n (pre w : list A) :
  n <= length w -> slice_last n (pre ++ w) = slice_last n w.
Proof.
  intros Hn. unfold slice_last. rewrite length_app, skipn_app.
  rewrite skipn_all2 by lia. cbn [app]. f_equal. lia.
Qed.

Lemma at_index_ultimo_app pre w :
  1 <= length w ->
  at_index (pre ++ w) (length (pre ++ w) - 1) = at_index w (length w - 1).
Proof.
  intros Hw. unfold at_index. rewrite length_app, app_nth2 by lia. f_equal. lia.
Qed.

Lemma slice_last_split {A} n (xs : list A) :
  xs = firstn (length xs - n) xs ++ slice_last n xs.
Proof. unfold slice_last. symmetry. apply firstn_skipn. Qed.

Lemma length_slice_last_eq {A} n (xs : list A) :
  n <= length xs -> length (slice_last n xs) = n.
Proof. intros Hn. unfold slice_last. rewrite length_skipn. lia. Qed.

Lemma meanReversion_app pre w :
  20 <= length w -> estrategiaMeanReversion (pre ++ w) = estrategiaMeanReversion w.
Proof.
  intros Hw. unfold estrategiaMeanReversion.
  rewrite !slice_last_app by lia. rewrite at_index_ultimo_app by lia.
  replace (Nat.ltb (length (pre ++ w)) 20) with false
    by (symmetry; apply Nat.ltb_ge; rewrite length_app; lia).
  replace (Nat.ltb (length w) 20) with false by (symmetry; apply Nat.ltb_ge; lia).
  reflexivity.
Qed.

Lemma momentumConfirmado_app pre w :
  15 <= length w ->
  estrategiaMomentumConfirmado (pre ++ w) = estrategiaMomentumConfirmado w.
Proof.
  intros Hw. unfold estrategiaMomentumConfirmado.
  rewrite !slice_last_app by lia.
  replace (Nat.ltb (length (pre ++ w)) 15) with false
    by (symmetry; apply Nat.ltb_ge; rewrite length_app; lia).
  replace (Nat.ltb (length w) 15) with false by (symmetry; apply Nat.ltb_ge; lia).
  reflexivity.
Qed.

(** X1.  The mean-reversion detector is a function of the last 20 prices
    and the confirmed-momentum detector of the last 15: on a longer list
    each returns what it returns on that tail alone, whatever came
    before. *)
Theorem detectors_read_only_their_window (ticks : list float) :
  (20 <= length ticks ->
   estrategiaMeanReversion ticks = estrategiaMeanReversion (slice_last 20 ticks))
  /\ (15 <= length ticks ->
      estrategiaMomentumConfirmado ticks
      = estrategiaMomentumConfirmado (slice_last 15 ticks)).
Proof.
  split; intros Hn.
  - rewrite (slice_last_split 20 ticks) at 1.
    apply meanReversion_app. rewrite length_slice_last_eq; lia.
  - rewrite (slice_last_split 15 ticks) at 1.
    apply momentumConfirmado_app. rewrite length_slice_last_eq; lia.
Qed.

End DetectorWindows.

Section MomentumRuns.

Import JS Strategy.
Local Open Scope float_scope.

(** Once a rise has been counted, the loop goes on counting rises. *)
Lemma contarConsecutivas_altas diffs :
  forall a, 1 <= a ->
    exists j, contarConsecutivas diffs a 0 = (a + j, 0)%nat
              /\ Forall (fun d => (d >? 0) = true) (firstn j diffs).
Proof.
  induction diffs as [|d r IH]; intros a Ha; cbn [contarConsecutivas].
  - exists 0%nat. rewrite Nat.add_0_r. split; [reflexivity|constructor].
  - destruct (d >? 0) eqn:Ed.
    + cbn [Nat.ltb Nat.leb]. destruct (IH (S a)) as (j & Hj & Hf); [lia|].
      exists (S j). rewrite Hj. split; [f_equal; lia|].
      cbn [firstn]. constructor; assumption.
    + exists 0%nat. rewrite Nat.add_0_r. split; [|constructor].
      destruct (d <? 0); [|reflexivity].
      replace (Nat.ltb 0 a) with true by (symmetry; apply Nat.ltb_lt; lia). reflexivity.
Qed.

Lemma contarConsecutivas_baixas diffs :
  forall b, 1 <= b ->
    exists j, contarConsecutivas diffs 0 b = (0, b + j)%nat
              /\ Forall (fun d => (d <? 0) = true) (firstn j diffs).
Proof.
  induction diffs as [|d r IH]; intros b Hb; cbn [contarConsecutivas].
  - exists 0%nat. rewrite Nat.add_0_r. split; [reflexivity|constructor].
  - destruct (d >? 0) eqn:Ed.
    + exists 0%nat. rewrite Nat.add_0_r. split; [|constructor].
      replace (Nat.ltb 0 b) with true by (symmetry; apply Nat.ltb_lt; lia). reflexivity.
    + destruct (d <? 0) eqn:Ed'.
      * cbn [Nat.ltb Nat.leb]. destruct (IH (S b)) as (j & Hj & Hf); [lia|].
        exists (S j). rewrite Hj. split; [f_equal; lia|].
        cbn [firstn]. constructor; assumption.
      * exists 0%nat. rewrite Nat.add_0_r. split; [reflexivity|constructor].
Qed.

(** The loop counts a run of rises or a run of falls, never both. *)
Lemma contarConsecutivas_inicio diffs :
  (snd (contarConsecutivas diffs 0 0) = 0%nat
   /\ Forall (fun d => (d >? 0) = true) (firstn (fst (contarConsecutivas diffs 0 0)) diffs))
  \/ (fst (contarConsecutivas diffs 0 0) = 0%nat
      /\ Forall (fun d => (d <? 0) = true)
           (firstn (snd (contarConsecutivas diffs 0 0)) diffs)).
Proof.
  destruct diffs as [|d r]; cbn [contarConsecutivas].
  - left. split; [reflexivity|constructor].
  - destruct (d >? 0) eqn:Ed.
    + cbn [Nat.ltb Nat.leb]. destruct (contarConsecutivas_altas r (a:=1)) as (j & Hj & Hf); [lia|].
      rewrite Hj. left. split; [reflexivity|]. cbn [fst Nat.add firstn].
      constructor; assumption.
    + destruct (d <? 0) eqn:Ed'.
      * cbn [Nat.ltb Nat.leb].
        destruct (contarConsecutivas_baixas r (b:=1)) as (j & Hj & Hf); [lia|].
        rewrite Hj. right. split; [reflexivity|]. cbn [snd Nat.add firstn].
        constructor; assumption.
      * left. split; [reflexivity|constructor].
Qed.

(** The last five prices and their differences, most recent first. *)
Lemma slice_last_5 ticks :
  5 <= length ticks ->
  let n := length ticks in
  slice_last 5 ticks
  = [at_index ticks (n - 5); at_index ticks (n - 4); at_index ticks (n - 3);
     at_index ticks (n - 2); at_index ticks (n - 1)].
Proof.
  intros Hn n. apply (nth_ext _ _ nan nan).
  - unfold slice_last. rewrite length_skipn. cbn [length]. lia.
  - unfold slice_last. rewrite length_skipn. intros i Hi.
    rewrite nth_skipn. unfold at_index. fold n.
    destruct i as [|[|[|[|[|i]]]]]; cbn [nth]; try (f_equal; lia).
Qed.

Lemma diferencas_recentes ticks :
  5 <= length ticks ->
  let n := length ticks in
  rev (diferencas (slice_last 5 ticks))
  = [at_index ticks (n - 1) - at_index ticks (n - 2);
     at_index ticks (n - 2) - at_index ticks (n - 3);
     at_index ticks (n - 3) - at_index ticks (n - 4);
     at_index ticks (n - 4) - at_index ticks (n - 5)].
Proof. intros Hn n. rewrite (slice_last_5 ticks Hn). reflexivity. Qed.

(** X2.  The confirmed-momentum detector counts at most 4 consecutive
    moves.  It signals PUT only after at least 3 rises in a row, and CALL
    only after at least 3 falls in a row: each of the last [consecutivas]
    price differences is then positive (negative).  Its alternative rule,
    which needs 4 moves in a row, can only see exactly 4, so the confidence
    it returns is always 0.45. *)
Theorem momentum_confirmado_signals_after_a_run (ticks : list float) :
  let r := estrategiaMomentumConfirmado ticks in
  let recentes := rev (diferencas (slice_last 5 ticks)) in
  consecutivas r <= 4
  /\ (sinal r = PUT ->
      3 <= consecutivas r /\ direcao r = ALTA
      /\ Forall (fun d => (d >? 0) = true) (firstn (consecutivas r) recentes))
  /\ (sinal r = CALL ->
      3 <= consecutivas r /\ direcao r = BAIXA
      /\ Forall (fun d => (d <? 0) = true) (firstn (consecutivas r) recentes))
  /\ (razao r = SequenciaLongaDeAltas \/ razao r = SequenciaLongaDeBaixas ->
      consecutivas r = 4%nat /\ confianca r = 0.45).
Proof.
  cbv zeta. unfold estrategiaMomentumConfirmado.
  destruct (Nat.ltb (length ticks) 15).
  { cbn. split; [lia|]. split; [discriminate|]. split; [discriminate|].
    intros [E|E]; discriminate. }
  pose proof (contarConsecutivas_bound (rev (diferencas (slice_last 5 ticks))) 0 0) as Hb.
  rewrite length_rev, length_diferencas in Hb.
  pose proof (length_slice_last 5 ticks) as H5.
  pose proof (contarConsecutivas_inicio (rev (diferencas (slice_last 5 ticks)))) as Hrun.
  destruct (contarConsecutivas (rev (diferencas (slice_last 5 ticks))) 0 0) as [a b].
  cbn [fst snd] in Hb, Hrun. destruct Hb as (Ha & Hb). cbv zeta.
  match goal with
  | |- context [if ?c then Math_abs ?v / ?w else 0] =>
      generalize (if c then Math_abs v / w else 0)
  end.
  intros forca.
  destruct Hrun as [(E & Hpos)|(E & Hneg)]; subst.
  - rewrite Nat.max_0_r.
    destruct a as [|[|[|[|[|a]]]]]; try lia;
      cbn [Nat.ltb Nat.leb andb]; destruct (forca >? 1.5);
      cbn [consecutivas direcao sinal razao confianca mc_base];
      (split; [lia|]);
      (split; [first [discriminate|intros _; split; [lia|split; [reflexivity|exact Hpos]]]|]);
      (split; [discriminate|]);
      first [intros [E|E]; discriminate|intros _; split; reflexivity].
  - rewrite Nat.max_0_l.
    destruct b as [|[|[|[|[|b]]]]]; try lia;
      cbn [Nat.ltb Nat.leb andb]; destruct (forca >? 1.5);
      cbn [consecutivas direcao sinal razao confianca mc_base];
      (split; [lia|]);
      (split; [discriminate|]);
      (split; [first [discriminate|intros _; split; [lia|split; [reflexivity|exact Hneg]]]|]);
      first [intros [E|E]; discriminate|intros _; split; reflexivity].
Qed.

End MomentumRuns.

Section DetectorBounds.

Import JS Strategy Predicados FloatFacts FloatOrderFacts.
Local Open Scope float_scope.

Variable Math_log : float -> float.

Lemma meanReversion_teto ticks :
  confianca (estrategiaMeanReversion ticks) = 0
  \/ exists x, confianca (estrategiaMeanReversion ticks) = Math_min x 0.85.
Proof.
  unfold estrategiaMeanReversion.
  destruct (Nat.ltb (length ticks) 20); [left; reflexivity|]. cbv zeta.
  destruct (strict_eq _ 0); [left; reflexivity|].
  repeat match goal with
         | |- context [if ?c then {| mr_base := _ |} else _] => destruct c
         end; cbn [confianca mr_base]; eauto.
Qed.

Lemma hurst_teto ticks :
  confianca (estrategiaHurst Math_log ticks) = 0
  \/ exists x, confianca (estrategiaHurst Math_log ticks) = Math_min x 0.7.
Proof.
  unfold estrategiaHurst.
  destruct (Nat.ltb (length ticks) 50); [left; reflexivity|]. cbv zeta.
  match goal with |- context [if ?c then hurstDefault _ else _] => destruct c end;
    [left; reflexivity|].
  destruct (pontosHurst Math_log (retornosLog Math_log ticks)) as [ranges scales].
  destruct (ajusteHurst ranges scales) as [ex r2].
  repeat match goal with
         | |- context [if ?c then {| he_base := _ |} else _] => destruct c
         end; cbn [confianca he_base]; eauto.
Qed.

Lemma momentumConfirmado_teto ticks :
  confianca (estrategiaMomentumConfirmado ticks) = 0
  \/ (exists x, confianca (estrategiaMomentumConfirmado ticks) = Math_min x 0.8)
  \/ (exists x, confianca (estrategiaMomentumConfirmado ticks) = Math_min x 0.7).
Proof.
  unfold estrategiaMomentumConfirmado.
  destruct (Nat.ltb (length ticks) 15); [left; reflexivity|].
  destruct (contarConsecutivas _ 0 0) as [a b]. cbv zeta.
  destruct (Nat.leb 3 (Nat.max a b) && _);
    destruct (if Nat.ltb b a then ALTA else if Nat.ltb a b then BAIXA else LATERAL);
    destruct (Nat.leb 4 (Nat.max a b));
    cbn [confianca mc_base]; eauto.
Qed.

Lemma momentumPersistent_teto ticks h :
  confianca (momentumPersistentStrategy Math_log ticks h) = 0
  \/ (exists x, confianca (momentumPersistentStrategy Math_log ticks h) = Math_min x 0.80)
  \/ (exists x, confianca (momentumPersistentStrategy Math_log ticks h) = Math_min x 0.55).
Proof.
  destruct (momentumPersistent_decisao Math_log ticks h) as (Hd & _). cbv zeta in Hd.
  set (r := momentumPersistentStrategy Math_log ticks h) in *.
  assert (Hc : confianca r
               = snd (decisaoMomentum (hurst r) (mp_r2 r) (direcaoCurta r) (direcaoMedia r)
                        (direcaoLonga r) (alinhamento r) (forca r) (eficiencia r)))
    by (rewrite <- Hd; reflexivity).
  rewrite Hc. unfold decisaoMomentum.
  repeat match goal with
         | |- context [if ?c then (_, _) else _] => destruct c
         end; cbn [snd]; eauto.
Qed.

(** X3.  Each detector caps its confidence below 1: the mean-reversion
    detector at 0.85, the confirmed-momentum detector at 0.8, the
    Hurst-regime detector at 0.7, and the persistent-momentum detector, when
    its confidence is a number, at 0.8. *)
Theorem confidence_is_capped :
  (forall ticks, (confianca (estrategiaMeanReversion ticks) <=? 0.85) = true)
  /\ (forall ticks, (confianca (estrategiaMomentumConfirmado ticks) <=? 0.8) = true)
  /\ (forall ticks, (confianca (estrategiaHurst Math_log ticks) <=? 0.7) = true)
  /\ (forall ticks hurstHistorico,
         let c := confianca (momentumPersistentStrategy Math_log ticks hurstHistorico) in
         is_nan c = true \/ (c <=? 0.8) = true).
Proof.
  split; [|split; [|split]].
  - intros ticks. apply limitado_por_teto; [apply meanReversion_teto| |reflexivity].
    apply emUnidade_nao_nan, meanReversion_confianca.
  - intros ticks.
    pose proof (emUnidade_nao_nan (momentumConfirmado_confianca ticks)) as Hn.
    destruct (momentumConfirmado_teto ticks) as [E|[E|(x & E)]].
    + apply limitado_por_teto; [left; exact E|exact Hn|reflexivity].
    + apply limitado_por_teto; [right; exact E|exact Hn|reflexivity].
    + apply (@leb_trans_const _ 0.7 0.8); try reflexivity.
      apply limitado_por_teto; [right; exists x; exact E|exact Hn|reflexivity].
  - intros ticks. apply limitado_por_teto; [apply hurst_teto| |reflexivity].
    apply emUnidade_nao_nan, hurst_confianca.
  - intros ticks h c. subst c.
    destruct (is_nan (confianca (momentumPersistentStrategy Math_log ticks h))) eqn:Hn;
      [left; reflexivity|right].
    destruct (momentumPersistent_teto ticks h) as [E|[E|(x & E)]].
    + apply limitado_por_teto; [left; exact E|exact Hn|reflexivity].
    + apply limitado_por_teto; [right; exact E|exact Hn|reflexivity].
    + apply (@leb_trans_const _ 0.55 0.8); try reflexivity.
      apply limitado_por_teto; [right; exists x; exact E|exact Hn|reflexivity].
Qed.

Lemma ajusteHurst_entre ranges scales :
  (0.1 <=? fst (ajusteHurst ranges scales)) = true
  /\ (fst (ajusteHurst ranges scales) <=? 0.9) = true.
Proof.
  unfold ajusteHurst.
  destruct (Nat.leb 3 (length ranges)); [|split; reflexivity].
  destruct (Math_abs _ >? 1e-10); [|split; reflexivity]. cbn [fst].
  apply clamp_entre; [reflexivity|].
  destruct (isFinite (inclinacao ranges scales)) eqn:E; [|reflexivity].
  apply is_finite_nao_nan, E.
Qed.

(** X4.  The Hurst exponent the regime detector reports is always a number
    from 0.1 to 0.9.  The exponent the fast estimator returns is a number
    from 0.1 to 0.9 or NaN, and its R2 is never negative. *)
Theorem hurst_exponent_is_clamped :
  (forall ticks,
      (0.1 <=? expoente (estrategiaHurst Math_log ticks)) = true
      /\ (expoente (estrategiaHurst Math_log ticks) <=? 0.9) = true)
  /\ (forall ticks,
         let e := calcularHurstRapido Math_log ticks in
         (is_nan (hurst_rapido e) = true
          \/ ((0.1 <=? hurst_rapido e) = true /\ (hurst_rapido e <=? 0.9) = true))
         /\ (is_nan (r2_rapido e) = true \/ (0 <=? r2_rapido e) = true)).
Proof.
  split.
  - intros ticks. unfold estrategiaHurst.
    destruct (Nat.ltb (length ticks) 50); [split; reflexivity|]. cbv zeta.
    match goal with |- context [if ?c then hurstDefault _ else _] => destruct c end;
      [split; reflexivity|].
    destruct (pontosHurst Math_log (retornosLog Math_log ticks)) as [ranges scales].
    pose proof (ajusteHurst_entre ranges scales) as He.
    destruct (ajusteHurst ranges scales) as [ex r2]. cbn [fst] in He.
    repeat match goal with
           | |- context [if ?c then {| he_base := _ |} else _] => destruct c
           end; cbn [expoente]; exact He.
  - intros ticks e. subst e. split.
    + unfold calcularHurstRapido.
      destruct (Nat.ltb _ 30); [right; split; reflexivity|].
      destruct (pontosHurstRapido Math_log _) as [ranges scales].
      unfold ajusteHurstRapido.
      destruct (Nat.ltb (length ranges) 2); [right; split; reflexivity|].
      destruct (Math_abs _ <? 1e-10); [right; split; reflexivity|]. cbn [hurst_rapido].
      destruct (is_nan (inclinacao ranges scales)) eqn:En.
      * left. unfold Math_max, Math_min. rewrite En.
        rewrite orb_true_r. cbn. reflexivity.
      * right. apply clamp_entre; [reflexivity|exact En].
    + destruct (naoNegativoOuNaN_cases (r2_rapido_naoNegativoOuNaN Math_log ticks)) as [E|E];
        [left; exact E|right].
      unfold naoNegativo in E. rewrite FloatAxioms.leb_spec.
      change (Prim2SF 0) with (S754_zero false).
      destruct (Prim2SF _) as [s|[|]| |[|] m e]; try discriminate; reflexivity.
Qed.

End DetectorBounds.

Section PersistentMomentumRules.

Import JS Strategy Predicados FloatFacts FloatOrderFacts.
Local Open Scope float_scope.

Variable Math_log : float -> float.

(** The alignment reaches 0.8 only when the three directions are the same
    and not LATERAL. *)
Lemma alinhamentoDe_alto d1 d2 d3 :
  (alinhamentoDe [d1; d2; d3] >=? 0.8)
  = Direcao_eqb d1 d2 && Direcao_eqb d2 d3 && negb (Direcao_eqb d1 LATERAL).
Proof. destruct d1, d2, d3; reflexivity. Qed.

(** The alignment and the rule behind the rationale, in terms of the
    result's own fields. *)
Lemma momentumPersistent_regra ticks h :
  let r := momentumPersistentStrategy Math_log ticks h in
  (razao r = DadosInsuficientes /\ sinal r = HOLD)
  \/ (alinhamento r = alinhamentoDe [direcaoCurta r; direcaoMedia r; direcaoLonga r]
      /\ (razao r = TendenciaAlta \/ razao r = TendenciaBaixa ->
          (hurst r >? 0.58) && (alinhamento r >=? 0.8) = true)
      /\ (razao r = TendenciaAlta -> sinal r = CALL)
      /\ (razao r = TendenciaBaixa -> sinal r = PUT)).
Proof.
  unfold momentumPersistentStrategy.
  destruct (Nat.ltb (length ticks) 20); [left; split; reflexivity|right].
  match goal with
  | |- context [let '(hurst, r2) := ?p in _] => destruct p as [hu r2]
  end. cbv zeta.
  match goal with
  | |- context [if ?c then _ else if ?d then _ else _] =>
      destruct c eqn:Ec; [|destruct d eqn:Ed]
  end;
  [ match goal with |- context [if ?c then _ else _] => destruct c eqn:Ei end
  | match goal with |- context [if ?c then _ else _] => destruct c eqn:Ei end
  | ];
  cbn [sinal confianca razao mp_base hurst mp_r2 direcaoCurta direcaoMedia direcaoLonga
       alinhamento forca eficiencia adx isLateral isPersistente];
  (split; [reflexivity|]);
  (split; [first [ intros _; exact Ec
                 | intros [E|E]; try discriminate E;
                   destruct (hu >? 0.58); discriminate E ]|]);
  (split; intros E; first [reflexivity|discriminate E
                          |destruct (hu >? 0.58); discriminate E]).
Qed.

(** X5.  The persistent-momentum detector signals only on a persistent
    series and only with the majority of its three directions: CALL needs a
    Hurst value above 0.58 and at least two directions up, PUT a Hurst value
    above 0.58 and at least two directions down.  Its main rule, the one
    behind the rationales "tendencia de alta" and "tendencia de baixa",
    fires only when the three directions are all up or all down. *)
Theorem persistent_momentum_follows_majority (ticks : list float)
    (hurstHistorico : option float) :
  let r := momentumPersistentStrategy Math_log ticks hurstHistorico in
  let direcoes := [direcaoCurta r; direcaoMedia r; direcaoLonga r] in
  (sinal r = CALL -> (hurst r >? 0.58) = true /\ 2 <= contar ALTA direcoes)
  /\ (sinal r = PUT -> (hurst r >? 0.58) = true /\ 2 <= contar BAIXA direcoes)
  /\ (razao r = TendenciaAlta -> sinal r = CALL /\ direcoes = [ALTA; ALTA; ALTA])
  /\ (razao r = TendenciaBaixa -> sinal r = PUT /\ direcoes = [BAIXA; BAIXA; BAIXA]).
Proof.
  intros r direcoes.
  destruct (momentumPersistent_decisao Math_log ticks hurstHistorico) as (Hd & _).
  fold r in Hd.
  assert (Hs : sinal r
               = fst (decisaoMomentum (hurst r) (mp_r2 r) (direcaoCurta r) (direcaoMedia r)
                        (direcaoLonga r) (alinhamento r) (forca r) (eficiencia r)))
    by (rewrite <- Hd; reflexivity).
  destruct (momentumPersistent_regra ticks hurstHistorico)
    as [(Hr & Hh)|(Ha & Hr & Hra & Hrb)];
    fold r in Hr; [fold r in Hh|fold r in Ha, Hra, Hrb].
  { rewrite Hr, Hh. repeat split; discriminate. }
  unfold decisaoMomentum in Hs. subst direcoes.
  rewrite Ha, alinhamentoDe_alto in Hs, Hr.
  destruct (hurst r >? 0.58) eqn:Eh; cbn [andb] in Hs, Hr.
  - destruct (direcaoCurta r), (direcaoMedia r), (direcaoLonga r);
      cbn [Direcao_eqb andb negb contar filter length Nat.ltb Nat.leb Nat.max fst] in Hs, Hr;
      cbn [contar filter length Direcao_eqb];
      try (destruct (forca r >? 1.5); cbn [fst] in Hs);
      (split; [rewrite Hs; first [discriminate|intros _; split; [reflexivity|lia]]|]);
      (split; [rewrite Hs; first [discriminate|intros _; split; [reflexivity|lia]]|]);
      (split; intros E;
       [ first [ specialize (Hr (or_introl E)); discriminate Hr
               | specialize (Hra E); rewrite Hs in Hra; discriminate Hra
               | split; [exact (Hra E)|reflexivity] ]
       | first [ specialize (Hr (or_intror E)); discriminate Hr
               | specialize (Hrb E); rewrite Hs in Hrb; discriminate Hrb
               | split; [exact (Hrb E)|reflexivity] ] ]).
  - cbn [fst] in Hs.
    split; [rewrite Hs; discriminate|]. split; [rewrite Hs; discriminate|].
    split; intros E; [specialize (Hr (or_introl E))|specialize (Hr (or_intror E))];
      discriminate Hr.
Qed.

End PersistentMomentumRules.

Section HurstRegimeRules.

Import JS Strategy Predicados FloatFacts FloatOrderFacts.
Local Open Scope float_scope.

Variable Math_log : float -> float.

Lemma abaixo_de_042_nao_acima_de_058 x : (x <? 0.42) = true -> (x >? 0.58) = false.
Proof.
  intros H. apply ltb_asym.
  apply (@ltb_trans_const_below 0.58 0.42); try reflexivity. exact H.
Qed.

(** X6.  The Hurst-regime detector signals with the recent direction on a
    persistent series and against it on an antipersistent one, and only
    when the fit is good: CALL means R2 above 0.5 and either a persistent
    series going up or an antipersistent series going down, PUT the two
    opposite cases.  A series it classifies as random, or a flat recent
    direction, gives HOLD. *)
Theorem hurst_regime_signal_is_consistent (ticks : list float) :
  let r := estrategiaHurst Math_log ticks in
  (sinal r = CALL ->
   (he_r2 r >? 0.5) = true
   /\ ((comportamento r = PERSISTENTE /\ direcaoAtual r = ALTA)
       \/ (comportamento r = ANTIPERSISTENTE /\ direcaoAtual r = BAIXA)))
  /\ (sinal r = PUT ->
      (he_r2 r >? 0.5) = true
      /\ ((comportamento r = PERSISTENTE /\ direcaoAtual r = BAIXA)
          \/ (comportamento r = ANTIPERSISTENTE /\ direcaoAtual r = ALTA)))
  /\ (comportamento r = ALEATORIO \/ direcaoAtual r = LATERAL -> sinal r = HOLD).
Proof.
  cbv zeta. unfold estrategiaHurst.
  destruct (Nat.ltb (length ticks) 50).
  { cbn. split; [discriminate|]. split; [discriminate|]. reflexivity. }
  cbv zeta.
  match goal with |- context [if ?c then hurstDefault _ else _] => destruct c end.
  { cbn. split; [discriminate|]. split; [discriminate|]. reflexivity. }
  destruct (pontosHurst Math_log (retornosLog Math_log ticks)) as [ranges scales].
  destruct (ajusteHurst ranges scales) as [ex r2].
  match goal with
  | |- context [if ?v >? 0 then ALTA else if ?v <? 0 then BAIXA else LATERAL] =>
      generalize (if v >? 0 then ALTA else if v <? 0 then BAIXA else LATERAL)
  end.
  intros dir.
  pose proof (@abaixo_de_042_nao_acima_de_058 ex) as Hx.
  destruct (ex <? 0.42); [rewrite (Hx eq_refl)|destruct (ex >? 0.58)];
    destruct (r2 >? 0.5) eqn:Er, dir;
    cbn [andb negb Direcao_eqb sinal razao he_base comportamento direcaoAtual he_r2];
    rewrite ?Er;
    (split; [first [discriminate|intros _; split; [reflexivity|auto]]|]);
    (split; [first [discriminate|intros _; split; [reflexivity|auto]]|]);
    first [intros _; reflexivity|intros [E|E]; discriminate E].
Qed.

End HurstRegimeRules.

Section PersistentMomentumHurst.

Import JS Strategy.
Local Open Scope float_scope.

Variable Math_log : float -> float.

Lemma momentumPersistent_hurst ticks h :
  20 <= length ticks ->
  let r := momentumPersistentStrategy Math_log ticks h in
  (hurst r, mp_r2 r)
  = if semHurstHistorico h && Nat.leb 50 (length ticks)
    then (hurst_rapido (calcularHurstRapido Math_log ticks),
          r2_rapido (calcularHurstRapido Math_log ticks))
    else (match h with Some v => v | None => 0.5 end, 0.8).
Proof.
  intros Hn. cbv zeta. unfold momentumPersistentStrategy.
  replace (Nat.ltb (length ticks) 20) with false by (symmetry; apply Nat.ltb_ge; lia).
  destruct (semHurstHistorico h && Nat.leb 50 (length ticks)); cbv zeta;
    repeat match goal with
           | |- context [if ?c then {| mp_base := _ |} else _] => destruct c
           end; reflexivity.
Qed.

(** X7.  Where the persistent-momentum detector takes its Hurst value from,
    on at least 20 prices.  A value supplied by the caller that is neither
    0 nor NaN is used as it is, with R2 taken to be 0.8.  With fewer than
    50 prices the fast estimator is never run: the supplied value is used
    even when it is 0 or NaN, and 0.5 when none is supplied, again with R2
    0.8.  With 50 prices or more and no value supplied, or 0 or NaN
    supplied, the Hurst value and R2 are those of the fast estimator. *)
Theorem persistent_momentum_hurst_source (ticks : list float)
    (hurstHistorico : option float) :
  20 <= length ticks ->
  let r := momentumPersistentStrategy Math_log ticks hurstHistorico in
  (forall v, hurstHistorico = Some v -> truthy v = true ->
             hurst r = v /\ mp_r2 r = 0.8)
  /\ (length ticks < 50 ->
      hurst r = match hurstHistorico with Some v => v | None => 0.5 end
      /\ mp_r2 r = 0.8)
  /\ (50 <= length ticks -> semHurstHistorico hurstHistorico = true ->
      hurst r = hurst_rapido (calcularHurstRapido Math_log ticks)
      /\ mp_r2 r = r2_rapido (calcularHurstRapido Math_log ticks)).
Proof.
  intros Hn r. pose proof (@momentumPersistent_hurst ticks hurstHistorico Hn) as Hp.
  fold r in Hp. split; [|split].
  - intros v Hv Ht. subst hurstHistorico. cbn [semHurstHistorico] in Hp.
    rewrite Ht in Hp. cbn [negb andb] in Hp. injection Hp as H1 H2. split; assumption.
  - intros H50.
    replace (Nat.leb 50 (length ticks)) with false in Hp
      by (symmetry; apply Nat.leb_gt; exact H50).
    rewrite andb_false_r in Hp. injection Hp as H1 H2. split; assumption.
  - intros H50 Hs.
    replace (Nat.leb 50 (length ticks)) with true in Hp
      by (symmetry; apply Nat.leb_le; exact H50).
    rewrite Hs in Hp. cbn [andb] in Hp. injection Hp as H1 H2. split; assumption.
Qed.

End PersistentMomentumHurst.

Section MeanReversionRules.

Import JS Strategy.
Local Open Scope float_scope.



End MeanReversionRules.

(* ================================================================== *)
(** * The watchdog interval over any run of events                     *)
(* ================================================================== *)

Section WatchdogInterval.

Import JS Bot.

Context {MM : Type} `{MoneyManager MM}.

Implicit Types s : Estado MM.

Variable Math_log : float -> float.
Variable calculateNextStake : MM -> float * MM.

Lemma intervalosAtivosDe_app (es : list Efeito) (e : Efeito) (a : list nat) :
  intervalosAtivosDe (es ++ [e]) a = intervalosAtivosDe [e] (intervalosAtivosDe es a).
Proof.
  revert a. induction es as [|x r IH]; intros a.
  - reflexivity.
  - destruct x; simpl; apply IH.
Qed.

Lemma umSoIntervalo_mesmo s s' :
  efeitos s' = efeitos s -> lastContractIntervalId s' = lastContractIntervalId s ->
  umSoIntervalo s -> umSoIntervalo s'.
Proof.
  unfold umSoIntervalo, intervalosAtivos. intros -> ->. exact (fun x => x).
Qed.

Lemma umSoIntervalo_efeito (e : Efeito) s :
  eSetInterval e = false -> (forall id, e <> ClearInterval id) ->
  umSoIntervalo s -> umSoIntervalo (efeito e s).
Proof.
  unfold umSoIntervalo, intervalosAtivos. intros He Hc Hs.
  change (efeitos (efeito e s)) with (efeitos s ++ [e]).
  change (lastContractIntervalId (efeito e s)) with (lastContractIntervalId s).
  rewrite intervalosAtivosDe_app, Hs.
  destruct e; try reflexivity; try discriminate He.
  exfalso. eapply Hc. reflexivity.
Qed.

Lemma umSoIntervalo_clearTradeTimeout s :
  umSoIntervalo s -> umSoIntervalo (clearTradeTimeout s).
Proof.
  unfold clearTradeTimeout, umSoIntervalo, intervalosAtivos. intros Hs.
  destruct (lastContractIntervalId s) as [id|] eqn:E.
  - change (intervalosAtivosDe (efeitos s ++ [ClearInterval id]) [] = []).
    rewrite intervalosAtivosDe_app, Hs. simpl.
    destruct (Nat.eq_dec id id) as [_|N]; [reflexivity | contradiction].
  - rewrite E. exact Hs.
Qed.

Lemma umSoIntervalo_createTradeTimeout s :
  umSoIntervalo s -> umSoIntervalo (createTradeTimeout s).
Proof.
  intros Hs. apply umSoIntervalo_clearTradeTimeout in Hs.
  unfold createTradeTimeout. cbv zeta.
  set (t := clearTradeTimeout s) in *.
  assert (Hn : lastContractIntervalId t = None).
  { subst t. unfold clearTradeTimeout.
    destruct (lastContractIntervalId s) eqn:E; [reflexivity | exact E]. }
  unfold umSoIntervalo, intervalosAtivos in *.
  change (intervalosAtivosDe (efeitos t ++ [SetInterval (quantos eSetInterval t)]) []
          = [quantos eSetInterval t]).
  rewrite intervalosAtivosDe_app, Hs, Hn. reflexivity.
Qed.

Ltac um_so :=
  repeat first
    [ assumption
    | apply umSoIntervalo_clearTradeTimeout
    | apply umSoIntervalo_createTradeTimeout
    | apply umSoIntervalo_efeito; [reflexivity | intros ? ?; discriminate |]
    | match goal with
      | |- umSoIntervalo (?f ?v ?s) =>
          apply (@umSoIntervalo_mesmo s (f v s)); [reflexivity | reflexivity |]
      end ].

Lemma umSoIntervalo_handleTradeResult agora p k st s :
  umSoIntervalo s -> umSoIntervalo (handleTradeResult agora p k st s).
Proof.
  intros Hs. unfold handleTradeResult.
  destruct (ContractStatus_eqb st st_open); [exact Hs|].
  cbv zeta. unfold updateActivityTimestamp. um_so.
Qed.

Lemma umSoIntervalo_authorize env s :
  umSoIntervalo s -> umSoIntervalo (authorize env s).
Proof.
  intros Hs. unfold authorize. cbv zeta.
  destruct (respostaAuthorize env _); um_so.
Qed.

Lemma umSoIntervalo_getLastTradeResult_ate fuel env agora cid s :
  umSoIntervalo s -> umSoIntervalo (getLastTradeResult_ate fuel env agora cid s).
Proof.
  revert s. induction fuel as [|fuel IH]; intros s Hs; [exact Hs|].
  simpl. destruct cid as [id|]; [|exact Hs].
  do 2 (match goal with
        | |- umSoIntervalo (if ?c then _ else _) => destruct c; [exact Hs|]
        end).
  destruct (respostaContrato env (quantos eApiOpenContract s)) as [contract| |].
  - um_so. apply umSoIntervalo_handleTradeResult. um_so.
  - apply IH. apply umSoIntervalo_authorize. um_so.
  - um_so.
Qed.

Lemma umSoIntervalo_unsubscribe (subs : list Subscricao) s :
  umSoIntervalo s ->
  umSoIntervalo (fold_left (fun s sub => efeito (Unsubscribe sub) s) subs s).
Proof.
  revert s. induction subs as [|x r IH]; intros s Hs; [exact Hs|].
  simpl. apply IH. um_so.
Qed.

Lemma umSoIntervalo_stopBot agora s :
  umSoIntervalo s -> umSoIntervalo (stopBot agora s).
Proof.
  intros Hs. unfold stopBot, clearSubscriptions, updateActivityTimestamp. cbv zeta.
  um_so. apply umSoIntervalo_unsubscribe. um_so.
Qed.

Lemma umSoIntervalo_aoReceberTicks agora msg s :
  umSoIntervalo s -> umSoIntervalo (aoReceberTicks agora msg s).
Proof.
  intros Hs. unfold aoReceberTicks, updateActivityTimestamp. cbv zeta.
  destruct (negb (botRunning (set_lastActivityTimestamp agora s))).
  - um_so.
  - unfold atualizarTicksMap. destruct msg as [prices|quote|].
    + um_so.
    + cbv zeta. destruct (Nat.leb 50 _); um_so.
    + um_so.
Qed.

Lemma umSoIntervalo_faseDeTrade agora uf s :
  umSoIntervalo s ->
  umSoIntervalo (fst (faseDeTrade Math_log calculateNextStake agora uf s)).
Proof.
  intros Hs. unfold faseDeTrade. cbv zeta.
  destruct (negb (isAuthorized s) || negb (botRunning s)); [exact Hs|].
  destruct (isTrading s).
  - destruct (Nat.leb _ _); simpl; um_so.
  - destruct (Strategy.sinal _); [| | exact Hs];
      (destruct (uf && filtrosBloqueiam (janela s)); [exact Hs|];
       destruct (calculateNextStake (moneyManager s)) as [amount mm];
       unfold checkStakeAndBalance;
       destruct (_ || _); simpl;
       [ do 2 apply umSoIntervalo_stopBot; um_so | um_so ]).
Qed.

Lemma umSoIntervalo_passo env ev s :
  umSoIntervalo s -> umSoIntervalo (passo Math_log calculateNextStake env ev s).
Proof.
  intros Hs. destruct ev as [agora uf msg|agora contract|agora|cid|agora]; simpl.
  - unfold aoTick. apply umSoIntervalo_faseDeTrade.
    apply umSoIntervalo_aoReceberTicks. exact Hs.
  - unfold aoAtualizarContrato, updateActivityTimestamp. cbv zeta.
    destruct (negb (botRunning (set_lastActivityTimestamp agora s))).
    + um_so.
    + apply umSoIntervalo_handleTradeResult. um_so.
  - unfold aoDispararWatchdog. destruct (lastContractIntervalId s); [|exact Hs].
    destruct (idPresente (lastContractId s)); [|exact Hs].
    apply umSoIntervalo_getLastTradeResult_ate. exact Hs.
  - unfold registrarCompra. cbv zeta. um_so.
  - apply umSoIntervalo_stopBot. exact Hs.
Qed.

(** X8. Over any run of events (tick messages, pushed contract updates,
    watchdog firings, buy answers and stops, in any order and with any
    broker), the bot never has two watchdog intervals running: if the
    handle [lastContractIntervalId] names the only active interval before
    the run, it does so after it, so every interval started was cleared
    before the next one. *)
Theorem watchdog_interval_is_unique (env : Corretora) (evs : list Evento) s :
  umSoIntervalo s ->
  umSoIntervalo (executar Math_log calculateNextStake env evs s)
  /\ length (intervalosAtivos (executar Math_log calculateNextStake env evs s)) <= 1.
Proof.
  intros Hs.
  assert (Hr : umSoIntervalo (executar Math_log calculateNextStake env evs s)).
  { revert s Hs. unfold executar.
    induction evs as [|ev r IH]; intros s Hs; [exact Hs|].
    simpl. apply IH. apply umSoIntervalo_passo. exact Hs. }
  split; [exact Hr|].
  rewrite Hr. destruct (lastContractIntervalId _); simpl; lia.
Qed.

End WatchdogInterval.

(* ================================================================== *)
(** * Watchdog polls and stops                                         *)
(* ================================================================== *)

Section PollAndStop.

Import JS Bot.
Local Open Scope float_scope.

Context {MM : Type} `{MoneyManager MM}.

Implicit Types s : Estado MM.

Variable Math_log : float -> float.
Variable calculateNextStake : MM -> float * MM.

Lemma idPresente_some (id : Z) : id <> 0%Z -> idPresente (Some id) = true.
Proof.
  intros Hid. unfold idPresente. destruct (Z.eqb_spec id 0); [contradiction|reflexivity].
Qed.

(** The poll of a pending contract, by the answer of the broker. *)
Lemma aoDispararWatchdog_pendente env agora id t s :
  lastContractIntervalId s = Some t ->
  lastContractId s = Some id ->
  id <> 0%Z ->
  retryToGetLastTradeCount s < 2 ->
  aoDispararWatchdog env agora s
  = match respostaContrato env (quantos eApiOpenContract s) with
    | Resposta contract =>
        set_tickCount 0
          (set_lastContractId None
             (set_isTrading false
                (handleTradeResult agora
                   (ouZeroSeAusente (match contract with Some c => profit c | None => None end))
                   (ouZeroSeAusente (match contract with Some c => buy_price c | None => None end))
                   (statusDe contract)
                   (set_retryToGetLastTradeCount 0 (efeito (ApiOpenContract id) s)))))
    | AuthorizationRequired =>
        getLastTradeResult_ate 2 env agora (Some id)
          (authorize env
             (set_retryToGetLastTradeCount (S (retryToGetLastTradeCount s))
                (efeito (ApiOpenContract id) s)))
    | OutroErro => efeito (ApiOpenContract id) s
    end.
Proof.
  intros Ht Hc Hid Hr.
  unfold aoDispararWatchdog, getLastTradeResult. rewrite Ht, Hc.
  rewrite (idPresente_some Hid). cbn [getLastTradeResult_ate].
  rewrite (idPresente_some Hid). cbn [negb].
  apply Nat.leb_gt in Hr. rewrite Hr.
  destruct (respostaContrato env (quantos eApiOpenContract s)); reflexivity.
Qed.

Lemma vigiar_ocioso env agora n s :
  lastContractIntervalId s = None -> vigiar env agora n s = s.
Proof.
  intros Hn. unfold vigiar. induction n as [|n IH]; [reflexivity|].
  simpl. rewrite IH. unfold aoDispararWatchdog. rewrite Hn. reflexivity.
Qed.

Lemma status_nao_aberto (st : ContractStatus) :
  ContractStatus_eqb st st_open = false -> st <> st_open.
Proof. intros E ->. discriminate E. Qed.

Lemma intervalosAtivos_efeito (e : Efeito) s :
  intervalosAtivos (efeito e s) = intervalosAtivosDe [e] (intervalosAtivos s).
Proof.
  unfold intervalosAtivos.
  change (efeitos (efeito e s)) with (efeitos s ++ [e]).
  apply intervalosAtivosDe_app.
Qed.

Lemma intervalosAtivos_clearTradeTimeout t s :
  lastContractIntervalId s = Some t ->
  intervalosAtivos (clearTradeTimeout s) = remove Nat.eq_dec t (intervalosAtivos s).
Proof.
  intros Ht. unfold clearTradeTimeout. rewrite Ht.
  transitivity (intervalosAtivos (efeito (ClearInterval t) s)); [reflexivity|].
  rewrite intervalosAtivos_efeito. reflexivity.
Qed.

Lemma intervalosAtivos_handleTradeResult agora p k st t s :
  ContractStatus_eqb st st_open = false ->
  lastContractIntervalId s = Some t ->
  intervalosAtivos (handleTradeResult agora p k st s)
  = remove Nat.eq_dec t (intervalosAtivos s).
Proof.
  intros Hopen Ht. unfold handleTradeResult. rewrite Hopen.
  match goal with |- context [clearTradeTimeout ?x] => set (u := x) end.
  assert (Hu : lastContractIntervalId u = Some t) by exact Ht.
  rewrite (@intervalosAtivos_clearTradeTimeout t u Hu).
  f_equal. subst u. rewrite !intervalosAtivos_efeito. reflexivity.
Qed.

(** The state after a poll that the broker answers with a settled status. *)
Lemma poll_liquidado agora p k st id t s :
  ContractStatus_eqb st st_open = false ->
  lastContractIntervalId s = Some t ->
  let w := ContractStatus_eqb st st_won in
  let s' :=
    set_tickCount 0
      (set_lastContractId None
         (set_isTrading false
            (handleTradeResult agora p k st
               (set_retryToGetLastTradeCount 0 (efeito (ApiOpenContract id) s))))) in
  tradesSalvos s'
  = tradesSalvos s
    ++ [{| isWin := w; stake := k;
           tr_profit := if w then p else - k;
           balanceAfter := if w then getCurrentBalance (moneyManager s) + p
                           else getCurrentBalance (moneyManager s) - k |}]
  /\ moneyManager s' = updateLastTrade (moneyManager s) w
  /\ consecutiveWins s' = (if w then S (consecutiveWins s) else O)
  /\ lastContractId s' = None /\ lastContractIntervalId s' = None
  /\ isTrading s' = false /\ tickCount s' = O /\ retryToGetLastTradeCount s' = O
  /\ intervalosAtivos s' = remove Nat.eq_dec t (intervalosAtivos s).
Proof.
  intros Hopen Ht w. cbv zeta.
  remember (set_retryToGetLastTradeCount 0 (efeito (ApiOpenContract id) s)) as s0 eqn:Es0.
  pose proof (@handleTradeResult_settled _ _ agora p k st s0 (status_nao_aberto Hopen))
    as Hh. cbv zeta in Hh. fold w in Hh.
  destruct Hh as (_ & _ & Hi & Hcw & Hmm & Hts & Hrt & _).
  assert (Hint : intervalosAtivos (handleTradeResult agora p k st s0)
                 = remove Nat.eq_dec t (intervalosAtivos s0)).
  { apply intervalosAtivos_handleTradeResult; [exact Hopen|].
    rewrite Es0. exact Ht. }
  remember (handleTradeResult agora p k st s0) as s1 eqn:Es1.
  assert (Hts0 : tradesSalvos s0 = tradesSalvos s).
  { rewrite Es0. change (tradesSalvos (efeito (ApiOpenContract id) s) = tradesSalvos s).
    rewrite tradesSalvos_efeito. apply app_nil_r. }
  assert (Hmm0 : moneyManager s0 = moneyManager s) by (rewrite Es0; reflexivity).
  assert (Hcw0 : consecutiveWins s0 = consecutiveWins s) by (rewrite Es0; reflexivity).
  assert (Hrt0 : retryToGetLastTradeCount s0 = O) by (rewrite Es0; reflexivity).
  assert (Hint0 : intervalosAtivos s0 = intervalosAtivos s).
  { rewrite Es0. unfold intervalosAtivos.
    change (intervalosAtivosDe (efeitos s ++ [ApiOpenContract id]) []
            = intervalosAtivosDe (efeitos s) []).
    rewrite intervalosAtivosDe_app. reflexivity. }
  clear Es0 Es1.
  split; [|split; [|split; [|split; [|split; [|split; [|split; [|split]]]]]]].
  - transitivity (tradesSalvos s1); [reflexivity|]. rewrite Hts, Hts0, Hmm0. reflexivity.
  - transitivity (moneyManager s1); [reflexivity|]. rewrite Hmm, Hmm0. reflexivity.
  - transitivity (consecutiveWins s1); [reflexivity|]. rewrite Hcw, Hcw0. reflexivity.
  - reflexivity.
  - exact Hi.
  - reflexivity.
  - reflexivity.
  - transitivity (retryToGetLastTradeCount s1); [reflexivity|]. rewrite Hrt. exact Hrt0.
  - transitivity (intervalosAtivos s1); [reflexivity|]. rewrite Hint, Hint0. reflexivity.
Qed.

(** X9. When the watchdog polls the pending contract and the broker
    answers with a settled status, the settlement is applied once, with the
    stake [buy_price ?? 0] and the profit [profit ?? 0] of the answer: one
    record goes to the ledger, the stake sizer and the win streak are
    updated, the pending id, the in-trading flag and both counters are
    cleared and the interval is stopped, so that later firings do nothing.
    When the request fails for a reason other than a missing
    authorization, the poll changes nothing and the contract stays
    pending. *)
Theorem poll_settled_is_applied_once env agora id t s :
  lastContractIntervalId s = Some t ->
  lastContractId s = Some id ->
  id <> 0%Z ->
  retryToGetLastTradeCount s < 2 ->
  (forall contract st,
      respostaContrato env (quantos eApiOpenContract s) = Resposta (Some contract) ->
      status contract = Some st ->
      ContractStatus_eqb st st_open = false ->
      let w := ContractStatus_eqb st st_won in
      let p := ouZeroSeAusente (profit contract) in
      let k := ouZeroSeAusente (buy_price contract) in
      let s' := aoDispararWatchdog env agora s in
      tradesSalvos s'
      = tradesSalvos s
        ++ [{| isWin := w; stake := k;
               tr_profit := if w then p else - k;
               balanceAfter := if w then getCurrentBalance (moneyManager s) + p
                               else getCurrentBalance (moneyManager s) - k |}]
      /\ moneyManager s' = updateLastTrade (moneyManager s) w
      /\ consecutiveWins s' = (if w then S (consecutiveWins s) else O)
      /\ lastContractId s' = None /\ lastContractIntervalId s' = None
      /\ isTrading s' = false /\ tickCount s' = O /\ retryToGetLastTradeCount s' = O
      /\ intervalosAtivos s' = remove Nat.eq_dec t (intervalosAtivos s)
      /\ forall env' agora' n, vigiar env' agora' n s' = s')
  /\ (respostaContrato env (quantos eApiOpenContract s) = OutroErro ->
      aoDispararWatchdog env agora s = efeito (ApiOpenContract id) s).
Proof.
  intros Ht Hc Hid Hr.
  pose proof (@aoDispararWatchdog_pendente env agora id t s Ht Hc Hid Hr) as Hw.
  split.
  - intros contract st Hresp Hst Hopen w p k s'. subst s'.
    rewrite Hw, Hresp. unfold statusDe. rewrite Hst.
    pose proof (@poll_liquidado agora p k st id t s Hopen Ht) as Hp.
    cbv zeta in Hp. fold w in Hp.
    destruct Hp as (P1 & P2 & P3 & P4 & P5 & P6 & P7 & P8 & P9).
    split; [exact P1|]. split; [exact P2|]. split; [exact P3|]. split; [exact P4|].
    split; [exact P5|]. split; [exact P6|]. split; [exact P7|]. split; [exact P8|].
    split; [exact P9|].
    intros env' agora' n. apply vigiar_ocioso. exact P5.
  - intros Hresp. rewrite Hw, Hresp. reflexivity.
Qed.

Lemma unsubscribe_frame (A : Type) (f : Estado MM -> A) :
  (forall e s, f (efeito e s) = f s) ->
  forall (subs : list Subscricao) s,
    f (fold_left (fun s sub => efeito (Unsubscribe sub) s) subs s) = f s.
Proof.
  intros Hf subs. induction subs as [|x r IH]; intros s; [reflexivity|].
  simpl. rewrite IH. apply Hf.
Qed.

Lemma unsubscribe_efeitos (subs : list Subscricao) s :
  efeitos (fold_left (fun s sub => efeito (Unsubscribe sub) s) subs s)
  = efeitos s ++ map Unsubscribe subs.
Proof.
  revert s. induction subs as [|x r IH]; intros s.
  - simpl. symmetry. apply app_nil_r.
  - simpl. rewrite IH. unfold efeito at 1. simpl. rewrite <- app_assoc. reflexivity.
Qed.

Lemma intervalosAtivosDe_outros (es : list Efeito) (a : list nat) :
  Forall (fun e => eSetInterval e = false /\ forall id, e <> ClearInterval id) es ->
  forall antes, intervalosAtivosDe (antes ++ es) a = intervalosAtivosDe antes a.
Proof.
  intros Hes antes. revert a.
  induction antes as [|x r IH]; intros a.
  - simpl. revert a. induction Hes as [|e l [He Hc] _ IHl]; intros a; [reflexivity|].
    destruct e; simpl; try apply IHl; try discriminate He.
    exfalso. eapply Hc. reflexivity.
  - destruct x; simpl; apply IH.
Qed.

(** What [stopBot] sets, what it calls and what it leaves. *)
Lemma stopBot_campos agora s :
  let s' := stopBot agora s in
  (activeSubscriptions s' = [] /\ isAuthorized s' = false /\ isTrading s' = false
   /\ ticksMap s' = None /\ retryToGetLastTradeCount s' = O
   /\ efeitos s'
      = efeitos s ++ map Unsubscribe (activeSubscriptions s) ++ [SendMessage MsgBotParado])
  /\ (lastContractId s' = lastContractId s
      /\ lastContractIntervalId s' = lastContractIntervalId s
      /\ botRunning s' = botRunning s
      /\ consecutiveWins s' = consecutiveWins s
      /\ moneyManager s' = moneyManager s
      /\ tickCount s' = tickCount s).
Proof.
  cbv zeta. unfold stopBot, clearSubscriptions, updateActivityTimestamp. cbv zeta.
  set (f := fold_left _ _ _).
  assert (Hf : forall (A : Type) (g : Estado MM -> A),
             (forall e s, g (efeito e s) = g s) ->
             g f = g (set_lastActivityTimestamp agora s)).
  { intros A g Hg. apply (@unsubscribe_frame A g Hg). }
  split.
  - split; [reflexivity|]. split; [reflexivity|]. split; [reflexivity|].
    split; [reflexivity|]. split; [reflexivity|].
    change (efeitos f ++ [SendMessage MsgBotParado]
            = efeitos s ++ map Unsubscribe (activeSubscriptions s) ++ [SendMessage MsgBotParado]).
    subst f. rewrite unsubscribe_efeitos. rewrite <- app_assoc. reflexivity.
  - split; [exact (Hf _ (@lastContractId MM) (fun _ _ => eq_refl))|].
    split; [exact (Hf _ (@lastContractIntervalId MM) (fun _ _ => eq_refl))|].
    split; [exact (Hf _ (@botRunning MM) (fun _ _ => eq_refl))|].
    split; [exact (Hf _ (@consecutiveWins MM) (fun _ _ => eq_refl))|].
    split; [exact (Hf _ (@moneyManager MM) (fun _ _ => eq_refl))|].
    exact (Hf _ (@tickCount MM) (fun _ _ => eq_refl)).
Qed.

Lemma stopBot_timestamp agora s : lastActivityTimestamp (stopBot agora s) = agora.
Proof.
  unfold stopBot, clearSubscriptions, updateActivityTimestamp. cbv zeta.
  transitivity (lastActivityTimestamp
                  (fold_left (fun s sub => efeito (Unsubscribe sub) s)
                     (activeSubscriptions (set_lastActivityTimestamp agora s))
                     (set_lastActivityTimestamp agora s))); [reflexivity|].
  rewrite (@unsubscribe_frame Z (@lastActivityTimestamp MM) (fun _ _ => eq_refl)).
  reflexivity.
Qed.

(** [stopBot] on a state that a [stopBot] at the same time has left. *)
Lemma stopBot_parado agora s :
  activeSubscriptions s = [] -> isAuthorized s = false -> isTrading s = false ->
  ticksMap s = None -> retryToGetLastTradeCount s = O ->
  lastActivityTimestamp s = agora ->
  stopBot agora s = efeito (SendMessage MsgBotParado) s.
Proof.
  destruct s as [au tr cw ci ti tc rt tm subs ts mm br es]. simpl.
  intros -> -> -> -> -> ->. reflexivity.
Qed.

Lemma stopBot_intervalos agora s :
  intervalosAtivos (stopBot agora s) = intervalosAtivos s.
Proof.
  destruct (stopBot_campos agora s) as ((_ & _ & _ & _ & _ & He) & _).
  unfold intervalosAtivos. rewrite He. apply intervalosAtivosDe_outros.
  apply Forall_app. split.
  - apply Forall_forall. intros e He'. apply in_map_iff in He'.
    destruct He' as (sub & <- & _). split; [reflexivity | intros id; discriminate].
  - constructor; [|constructor]. split; [reflexivity | intros id; discriminate].
Qed.

Lemma stopBot_quantos_pedidos agora s :
  quantos eApiOpenContract (stopBot agora s) = quantos eApiOpenContract s.
Proof.
  destruct (stopBot_campos agora s) as ((_ & _ & _ & _ & _ & He) & _).
  unfold quantos. rewrite He, filter_app, length_app.
  replace (filter eApiOpenContract
             (map Unsubscribe (activeSubscriptions s) ++ [SendMessage MsgBotParado]))
    with (@nil Efeito); [simpl; lia|].
  clear He. induction (activeSubscriptions s) as [|x r IH]; [reflexivity | exact IH].
Qed.

(** X10. [stopBot] ends the streams and nothing else: it unsubscribes
    every active subscription, in order, sends the stopped message, and
    clears the authorization, the in-trading flag, the tick window and the
    retry counter; the pending contract id, the watchdog interval, the
    running flag, the win streak, the stake sizer and the tick counter are
    as before.  A second call only repeats the message. *)
Theorem stop_ends_streams_only agora s :
  let s' := stopBot agora s in
  (activeSubscriptions s' = [] /\ isAuthorized s' = false /\ isTrading s' = false
   /\ janela s' = [] /\ retryToGetLastTradeCount s' = O
   /\ efeitos s'
      = efeitos s ++ map Unsubscribe (activeSubscriptions s) ++ [SendMessage MsgBotParado])
  /\ (lastContractId s' = lastContractId s
      /\ lastContractIntervalId s' = lastContractIntervalId s
      /\ intervalosAtivos s' = intervalosAtivos s
      /\ botRunning s' = botRunning s
      /\ consecutiveWins s' = consecutiveWins s
      /\ moneyManager s' = moneyManager s
      /\ tickCount s' = tickCount s)
  /\ stopBot agora s' = efeito (SendMessage MsgBotParado) s'.
Proof.
  cbv zeta.
  destruct (stopBot_campos agora s)
    as ((H1 & H2 & H3 & H4 & H5 & H6) & (H7 & H8 & H9 & H10 & H11 & H12)).
  split; [|split].
  - split; [exact H1|]. split; [exact H2|]. split; [exact H3|].
    split; [unfold janela; rewrite H4; reflexivity|]. split; [exact H5 | exact H6].
  - split; [exact H7|]. split; [exact H8|]. split; [apply stopBot_intervalos|].
    split; [exact H9|]. split; [exact H10|]. split; [exact H11 | exact H12].
  - apply stopBot_parado; try assumption. apply stopBot_timestamp.
Qed.

(** X11. Stopping the bot does not abandon a contract that is pending:
    the watchdog keeps running, and its next poll that the broker answers
    with a settled status records the trade, whatever the retry counter was
    before the stop. *)
Theorem stop_keeps_pending_contract_watched env a1 a2 id t contract st s :
  lastContractIntervalId s = Some t ->
  lastContractId s = Some id ->
  id <> 0%Z ->
  respostaContrato env (quantos eApiOpenContract s) = Resposta (Some contract) ->
  status contract = Some st ->
  ContractStatus_eqb st st_open = false ->
  let w := ContractStatus_eqb st st_won in
  let p := ouZeroSeAusente (profit contract) in
  let k := ouZeroSeAusente (buy_price contract) in
  let s' := aoDispararWatchdog env a2 (stopBot a1 s) in
  tradesSalvos s'
  = tradesSalvos s
    ++ [{| isWin := w; stake := k;
           tr_profit := if w then p else - k;
           balanceAfter := if w then getCurrentBalance (moneyManager s) + p
                           else getCurrentBalance (moneyManager s) - k |}]
  /\ moneyManager s' = updateLastTrade (moneyManager s) w
  /\ lastContractId s' = None /\ lastContractIntervalId s' = None
  /\ intervalosAtivos s' = remove Nat.eq_dec t (intervalosAtivos s).
Proof.
  intros Ht Hc Hid Hresp Hst Hopen w p k s'. subst s'.
  destruct (stopBot_campos a1 s)
    as ((_ & _ & _ & _ & H5 & H6) & (H7 & H8 & _ & _ & H11 & _)).
  pose proof (stopBot_quantos_pedidos a1 s) as Hq.
  pose proof (stopBot_intervalos a1 s) as Hint.
  assert (Hts1 : tradesSalvos (stopBot a1 s) = tradesSalvos s).
  { unfold tradesSalvos. rewrite H6.
    rewrite !flat_map_app. simpl. rewrite app_nil_r.
    replace (flat_map _ (map Unsubscribe (activeSubscriptions s))) with (@nil TradeRecord);
      [apply app_nil_r|].
    clear. induction (activeSubscriptions s) as [|x r IH]; [reflexivity | exact IH]. }
  remember (stopBot a1 s) as s1 eqn:Es1. clear Es1 H6.
  assert (Ht1 : lastContractIntervalId s1 = Some t) by (rewrite H8; exact Ht).
  assert (Hc1 : lastContractId s1 = Some id) by (rewrite H7; exact Hc).
  assert (Hr1 : retryToGetLastTradeCount s1 < 2) by (rewrite H5; lia).
  rewrite (@aoDispararWatchdog_pendente env a2 id t s1 Ht1 Hc1 Hid Hr1).
  rewrite Hq, Hresp. unfold statusDe. rewrite Hst.
  pose proof (@poll_liquidado a2 p k st id t s1 Hopen Ht1) as Hp.
  cbv zeta in Hp. fold w in Hp.
  destruct Hp as (P1 & P2 & _ & P4 & P5 & _ & _ & _ & P9).
  rewrite Hts1, H11 in P1. rewrite H11 in P2. rewrite Hint in P9.
  split; [exact P1|]. split; [exact P2|]. split; [exact P4|]. split; [exact P5 | exact P9].
Qed.

End PollAndStop.

(* ================================================================== *)
(** * The trading part of the tick subscriber                          *)
(* ================================================================== *)

Section TradingPhase.

Import JS Bot.
Local Open Scope float_scope.

Context {MM : Type} `{MoneyManager MM}.

Implicit Types s : Estado MM.

Variable Math_log : float -> float.
Variable calculateNextStake : MM -> float * MM.

Lemma momentumPersistent_curto (ticks : list float) :
  length ticks < 20 ->
  Strategy.sinal (Strategy.mp_base (Strategy.momentumPersistentStrategy Math_log ticks None))
  = Strategy.HOLD.
Proof.
  intros Hlt. apply Nat.ltb_lt in Hlt.
  unfold Strategy.momentumPersistentStrategy. rewrite Hlt. reflexivity.
Qed.

(** The first part of the tick subscriber while the bot runs. *)
Lemma aoReceberTicks_rodando agora msg s :
  botRunning s = true ->
  aoReceberTicks agora msg s = atualizarTicksMap msg (updateActivityTimestamp agora s).
Proof.
  intros Hb. unfold aoReceberTicks.
  change (botRunning (updateActivityTimestamp agora s)) with (botRunning s).
  rewrite Hb. reflexivity.
Qed.

Lemma atualizarTicksMap_frame msg s :
  let s' := atualizarTicksMap msg s in
  isAuthorized s' = isAuthorized s /\ botRunning s' = botRunning s
  /\ isTrading s' = isTrading s /\ tickCount s' = tickCount s
  /\ efeitos s' = efeitos s /\ lastContractId s' = lastContractId s
  /\ lastContractIntervalId s' = lastContractIntervalId s
  /\ moneyManager s' = moneyManager s /\ activeSubscriptions s' = activeSubscriptions s.
Proof.
  cbv zeta. unfold atualizarTicksMap. destruct msg as [prices|quote|].
  - repeat split.
  - cbv zeta. destruct (Nat.leb 50 _); repeat split.
  - repeat split.
Qed.

Lemma aoReceberTicks_frame agora msg s :
  let s' := aoReceberTicks agora msg s in
  isAuthorized s' = isAuthorized s /\ botRunning s' = botRunning s
  /\ lastContractId s' = lastContractId s
  /\ lastContractIntervalId s' = lastContractIntervalId s
  /\ moneyManager s' = moneyManager s
  /\ (botRunning s = true ->
      isTrading s' = isTrading s /\ tickCount s' = tickCount s
      /\ efeitos s' = efeitos s /\ activeSubscriptions s' = activeSubscriptions s).
Proof.
  cbv zeta. destruct (botRunning s) eqn:Hb.
  - rewrite (@aoReceberTicks_rodando agora msg s Hb).
    destruct (atualizarTicksMap_frame msg (updateActivityTimestamp agora s))
      as (F1 & F2 & F3 & F4 & F5 & F6 & F7 & F8 & F9).
    rewrite F1, F2, F3, F4, F5, F6, F7, F8, F9.
    split; [reflexivity|]. split; [exact Hb|]. split; [reflexivity|].
    split; [reflexivity|]. split; [reflexivity|]. intros _.
    split; [reflexivity|]. split; [reflexivity|]. split; reflexivity.
  - unfold aoReceberTicks.
    change (botRunning (updateActivityTimestamp agora s)) with (botRunning s).
    rewrite Hb. cbn [negb]. cbv zeta.
    split; [reflexivity|]. split; [exact Hb|]. split; [reflexivity|].
    split; [reflexivity|]. split; [reflexivity|]. intros E. discriminate E.
Qed.

(** A message of the tick stream other than a history leaves a window of
    fewer than 50 prices as it is. *)
Lemma aoReceberTicks_janela_curta agora msg s :
  (forall prices, msg <> History prices) ->
  length (janela s) < 50 ->
  janela (aoReceberTicks agora msg s) = janela s.
Proof.
  intros Hm Hlt. unfold aoReceberTicks.
  change (botRunning (updateActivityTimestamp agora s)) with (botRunning s).
  destruct (botRunning s); cbn [negb]; [|reflexivity].
  destruct msg as [prices|quote|].
  - exfalso. exact (Hm prices eq_refl).
  - unfold atualizarTicksMap. cbv zeta.
    change (match ticksMap (updateActivityTimestamp agora s) with
            | Some p => p | None => [] end) with (janela s).
    apply Nat.leb_gt in Hlt. rewrite Hlt. reflexivity.
  - reflexivity.
Qed.

(** The trading part, case by case. *)
Lemma faseDeTrade_inativo agora uf s :
  isAuthorized s = false \/ botRunning s = false ->
  faseDeTrade Math_log calculateNextStake agora uf s = (s, []).
Proof.
  intros Hi. unfold faseDeTrade. cbv zeta.
  replace (negb (isAuthorized s) || negb (botRunning s)) with true; [reflexivity|].
  destruct Hi as [-> | ->]; [reflexivity|]. destruct (isAuthorized s); reflexivity.
Qed.

Lemma faseDeTrade_em_trade agora uf s :
  isAuthorized s = true -> botRunning s = true -> isTrading s = true ->
  faseDeTrade Math_log calculateNextStake agora uf s
  = (if Nat.leb 11 (S (tickCount s))
     then set_tickCount 0 (set_isTrading false (set_tickCount (S (tickCount s)) s))
     else set_tickCount (S (tickCount s)) s, []).
Proof.
  intros Ha Hb Ht. unfold faseDeTrade. cbv zeta. rewrite Ha, Hb, Ht. cbn [negb orb].
  change (tickCount (set_tickCount (S (tickCount s)) s)) with (S (tickCount s)).
  change (ticksCount + 1)%nat with 11%nat.
  destruct (Nat.leb 11 (S (tickCount s))); reflexivity.
Qed.

Lemma faseDeTrade_hold agora uf s :
  Strategy.sinal (Strategy.mp_base
    (Strategy.momentumPersistentStrategy Math_log (janela s) None)) = Strategy.HOLD ->
  snd (faseDeTrade Math_log calculateNextStake agora uf s) = []
  /\ janela (fst (faseDeTrade Math_log calculateNextStake agora uf s)) = janela s.
Proof.
  intros Hh. unfold faseDeTrade. cbv zeta. rewrite Hh.
  destruct (negb (isAuthorized s) || negb (botRunning s)); [split; reflexivity|].
  destruct (isTrading s); [|split; reflexivity].
  destruct (Nat.leb _ _); split; reflexivity.
Qed.

Lemma faseDeTrade_livre agora uf s :
  isAuthorized s = true -> botRunning s = true -> isTrading s = false ->
  Strategy.sinal (Strategy.mp_base
    (Strategy.momentumPersistentStrategy Math_log (janela s) None)) <> Strategy.HOLD ->
  faseDeTrade Math_log calculateNextStake agora uf s
  = if uf && filtrosBloqueiam (janela s) then (s, [])
    else
      let amount := fst (calculateNextStake (moneyManager s)) in
      let mm := snd (calculateNextStake (moneyManager s)) in
      if (amount <? 0.35) || (getCurrentBalance mm <? 0.35)
      then (stopBot agora (stopBot agora (set_moneyManager mm s)),
            [AlertaCritico (getCurrentBalance mm)])
      else (set_moneyManager mm s,
            [SinalIdentificado amount;
             ApiBuy amount
               (Strategy.sinal (Strategy.mp_base
                  (Strategy.momentumPersistentStrategy Math_log (janela s) None)))]).
Proof.
  intros Ha Hb Ht Hs. unfold faseDeTrade. cbv zeta. rewrite Ha, Hb, Ht. cbn [negb orb].
  destruct (calculateNextStake (moneyManager s)) as [amount mm]. cbn [fst snd].
  unfold checkStakeAndBalance.
  change (moneyManager (set_moneyManager mm s)) with mm.
  destruct (Strategy.sinal _);
    [ destruct (uf && _); [reflexivity|]; destruct (_ || _); reflexivity
    | destruct (uf && _); [reflexivity|]; destruct (_ || _); reflexivity
    | contradiction Hs; reflexivity ].
Qed.

(** X12. Every [buy] request of the tick subscriber is guarded: the bot is
    authorized and running and no trade is in progress, the signal sent is
    the one the persistent-momentum detector gives on the window and is not
    HOLD, the window holds at least 20 prices, the filters (when on) do not
    block, and neither the stake the stake sizer returns nor the balance is
    below 0.35.  The request comes with the announcement of the entry and
    nothing else; the in-trading flag is still clear and the pending
    contract and the watchdog are untouched until the answer arrives. *)
Theorem buy_request_is_guarded agora uf msg s amount sinal :
  In (ApiBuy amount sinal) (snd (aoTick Math_log calculateNextStake agora uf msg s)) ->
  let s1 := aoReceberTicks agora msg s in
  let r := aoTick Math_log calculateNextStake agora uf msg s in
  (isAuthorized s = true /\ botRunning s = true /\ isTrading s = false)
  /\ (sinal = Strategy.sinal (Strategy.mp_base
                (Strategy.momentumPersistentStrategy Math_log (janela s1) None))
      /\ sinal <> Strategy.HOLD /\ 20 <= length (janela s1)
      /\ (uf = true -> filtrosBloqueiam (janela s1) = false))
  /\ (calculateNextStake (moneyManager s) = (amount, moneyManager (fst r))
      /\ (amount <? 0.35) = false
      /\ (getCurrentBalance (moneyManager (fst r)) <? 0.35) = false)
  /\ snd r = [SinalIdentificado amount; ApiBuy amount sinal]
  /\ (isTrading (fst r) = false /\ lastContractId (fst r) = lastContractId s
      /\ lastContractIntervalId (fst r) = lastContractIntervalId s
      /\ efeitos (fst r) = efeitos s).
Proof.
  intros Hin s1 r. subst r. unfold aoTick in *. fold s1 in Hin. fold s1.
  destruct (aoReceberTicks_frame agora msg s) as (F1 & F2 & F3 & F4 & F5 & F6).
  fold s1 in F1, F2, F3, F4, F5, F6.
  destruct (isAuthorized s1) eqn:Ha;
    [|rewrite (@faseDeTrade_inativo agora uf s1 (or_introl Ha)) in Hin; contradiction Hin].
  destruct (botRunning s1) eqn:Hb;
    [|rewrite (@faseDeTrade_inativo agora uf s1 (or_intror Hb)) in Hin; contradiction Hin].
  symmetry in F2. destruct (F6 F2) as (F7 & F8 & F9 & _).
  destruct (isTrading s1) eqn:Ht.
  { rewrite (@faseDeTrade_em_trade agora uf s1 Ha Hb Ht) in Hin. contradiction Hin. }
  destruct (Strategy.sinal (Strategy.mp_base
              (Strategy.momentumPersistentStrategy Math_log (janela s1) None)))
    eqn:Es.
  3:{ rewrite (proj1 (@faseDeTrade_hold agora uf s1 Es)) in Hin. contradiction Hin. }
  all: (assert (Hs : Strategy.sinal (Strategy.mp_base
              (Strategy.momentumPersistentStrategy Math_log (janela s1) None))
              <> Strategy.HOLD) by (rewrite Es; discriminate);
    assert (Hlen : 20 <= length (janela s1))
      by (destruct (Nat.lt_ge_cases (length (janela s1)) 20) as [Hlt|Hge];
          [exfalso; apply Hs; apply momentumPersistent_curto; exact Hlt | exact Hge]);
    rewrite (@faseDeTrade_livre agora uf s1 Ha Hb Ht Hs) in Hin |- *;
    rewrite Es in Hin |- *;
    destruct (uf && filtrosBloqueiam (janela s1)) eqn:Ef; [contradiction Hin|];
    cbv zeta in Hin |- *; rewrite F5 in Hin |- *;
    destruct (calculateNextStake (moneyManager s)) as [amt mm] eqn:Ec;
    cbn [fst snd] in Hin |- *;
    destruct ((amt <? 0.35) || (getCurrentBalance mm <? 0.35)) eqn:Ek;
    [ destruct Hin as [Hin|[]]; discriminate Hin |];
    cbn [fst snd] in Hin |- *;
    destruct Hin as [Hin|[Hin|[]]]; [discriminate Hin|];
    injection Hin as Hamt Hsin; subst amt;
    apply orb_false_iff in Ek; destruct Ek as [Ek1 Ek2];
    (split; [split; [rewrite <- F1; reflexivity | split; [exact F2 | rewrite <- F7; reflexivity]]|]);
    (split; [split; [symmetry; exact Hsin | split; [rewrite <- Hsin; discriminate |
       split; [exact Hlen | intros ->; exact Ef]]]|]);
    (split; [split; [reflexivity | split; [exact Ek1 | exact Ek2]]|]);
    (split; [rewrite Hsin; reflexivity|]);
    (split; [exact Ht | split; [exact F3 | split; [exact F4 | exact F9]]])).
Qed.

Local Close Scope float_scope.

(** What the trading part can do to the fields the other handlers rely
    on: nothing, unless it takes the way of the failed stake check, which
    stops the bot twice. *)
Lemma faseDeTrade_casos agora uf s :
  let r := faseDeTrade Math_log calculateNextStake agora uf s in
  ((forall saldo, ~ In (AlertaCritico saldo) (snd r))
   /\ ticksMap (fst r) = ticksMap s /\ efeitos (fst r) = efeitos s
   /\ botRunning (fst r) = botRunning s
   /\ retryToGetLastTradeCount (fst r) = retryToGetLastTradeCount s)
  \/ (exists mm,
         snd r = [AlertaCritico (getCurrentBalance mm)]
         /\ fst r = stopBot agora (stopBot agora (set_moneyManager mm s))
         /\ botRunning s = true).
Proof.
  cbv zeta.
  destruct (isAuthorized s) eqn:Ha;
    [|left; rewrite (@faseDeTrade_inativo agora uf s (or_introl Ha)); cbn [fst snd];
      split; [intros saldo []|]; repeat split].
  destruct (botRunning s) eqn:Hb;
    [|left; rewrite (@faseDeTrade_inativo agora uf s (or_intror Hb)); cbn [fst snd];
      split; [intros saldo []|]; split; [reflexivity|]; split; [reflexivity|];
      split; [exact Hb | reflexivity]].
  destruct (isTrading s) eqn:Ht.
  { left. rewrite (@faseDeTrade_em_trade agora uf s Ha Hb Ht).
    destruct (Nat.leb 11 (S (tickCount s))); cbn [fst snd];
      (split; [intros saldo []|]; split; [reflexivity|]; split; [reflexivity|];
       split; [exact Hb | reflexivity]). }
  destruct (Strategy.sinal (Strategy.mp_base
              (Strategy.momentumPersistentStrategy Math_log (janela s) None)))
    eqn:Es.
  3:{ left. unfold faseDeTrade. cbv zeta. rewrite Ha, Hb, Ht, Es. cbn [negb orb fst snd].
      split; [intros saldo []|]. split; [reflexivity|]. split; [reflexivity|].
      split; [exact Hb | reflexivity]. }
  all: (assert (Hs : Strategy.sinal (Strategy.mp_base
              (Strategy.momentumPersistentStrategy Math_log (janela s) None))
              <> Strategy.HOLD) by (rewrite Es; discriminate);
    rewrite (@faseDeTrade_livre agora uf s Ha Hb Ht Hs);
    destruct (uf && filtrosBloqueiam (janela s));
    [ left; cbn [fst snd]; split; [intros saldo []|]; split; [reflexivity|];
      split; [reflexivity|]; split; [exact Hb | reflexivity] |];
    cbv zeta;
    destruct (calculateNextStake (moneyManager s)) as [amt mm]; cbn [fst snd];
    destruct (_ || _); cbn [fst snd];
    [ right; exists mm; split; [reflexivity|]; split; reflexivity
    | left; split;
      [ intros saldo [E|[E|[]]]; discriminate E
      | split; [reflexivity|]; split; [reflexivity|]; split; [exact Hb | reflexivity] ] ]).
Qed.

Lemma stopBot_duas_janela agora s :
  janela (stopBot agora (stopBot agora s)) = []
  /\ botRunning (stopBot agora (stopBot agora s)) = botRunning s.
Proof.
  destruct (stopBot_campos agora (stopBot agora s)) as ((_ & _ & _ & P4 & _) & (_ & _ & P9 & _)).
  destruct (stopBot_campos agora s) as (_ & (_ & _ & Q9 & _)).
  split.
  - unfold janela. rewrite P4. reflexivity.
  - rewrite P9. exact Q9.
Qed.

(** The whole subscriber on one message: the window is the one its first
    part leaves, unless the stake check fails, which empties it. *)
Lemma aoTick_casos agora uf msg s :
  let r := aoTick Math_log calculateNextStake agora uf msg s in
  let s1 := aoReceberTicks agora msg s in
  botRunning (fst r) = botRunning s
  /\ (((forall saldo, ~ In (AlertaCritico saldo) (snd r))
       /\ janela (fst r) = janela s1 /\ efeitos (fst r) = efeitos s1
       /\ retryToGetLastTradeCount (fst r) = retryToGetLastTradeCount s)
      \/ ((exists saldo, snd r = [AlertaCritico saldo])
          /\ janela (fst r) = [] /\ botRunning s = true)).
Proof.
  cbv zeta. unfold aoTick.
  destruct (aoReceberTicks_frame agora msg s) as (_ & F2 & _ & _ & _ & F6).
  assert (Fr : retryToGetLastTradeCount (aoReceberTicks agora msg s)
               = retryToGetLastTradeCount s).
  { unfold aoReceberTicks, updateActivityTimestamp. cbv zeta.
    destruct (negb (botRunning (set_lastActivityTimestamp agora s))); [reflexivity|].
    unfold atualizarTicksMap. destruct msg as [prices|quote|]; [reflexivity| |reflexivity].
    cbv zeta. destruct (Nat.leb 50 _); reflexivity. }
  remember (aoReceberTicks agora msg s) as s1 eqn:Es1. clear Es1 F6.
  pose proof (faseDeTrade_casos agora uf s1) as Hc. cbv zeta in Hc.
  destruct Hc as [(C1 & C2 & C3 & C4 & C5)|(mm & C1 & C2 & C3)].
  - split; [rewrite C4; exact F2|]. left.
    split; [exact C1|]. split; [unfold janela; rewrite C2; reflexivity|].
    split; [exact C3 | rewrite C5; exact Fr].
  - destruct (stopBot_duas_janela agora (set_moneyManager mm s1)) as [J1 J2].
    rewrite C2. split; [rewrite J2; exact F2|]. right.
    split; [exists (getCurrentBalance mm); exact C1|].
    split; [exact J1 | rewrite <- F2; exact C3].
Qed.

Local Close Scope float_scope.

(** One message of the tick stream while a trade is in progress. *)
Lemma aoTick_em_trade agora uf msg s :
  isAuthorized s = true -> botRunning s = true -> isTrading s = true ->
  let r := aoTick Math_log calculateNextStake agora uf msg s in
  snd r = [] /\ isAuthorized (fst r) = true /\ botRunning (fst r) = true
  /\ (if Nat.leb 11 (S (tickCount s))
      then isTrading (fst r) = false /\ tickCount (fst r) = O
      else isTrading (fst r) = true /\ tickCount (fst r) = S (tickCount s))
  /\ lastContractId (fst r) = lastContractId s
  /\ lastContractIntervalId (fst r) = lastContractIntervalId s
  /\ efeitos (fst r) = efeitos s /\ moneyManager (fst r) = moneyManager s.
Proof.
  intros Ha Hb Ht. cbv zeta. unfold aoTick.
  destruct (aoReceberTicks_frame agora msg s) as (F1 & F2 & F3 & F4 & F5 & F6).
  destruct (F6 Hb) as (F7 & F8 & F9 & _).
  remember (aoReceberTicks agora msg s) as s1 eqn:Es1. clear Es1 F6.
  rewrite Ha in F1. rewrite Hb in F2. rewrite Ht in F7.
  rewrite (@faseDeTrade_em_trade agora uf s1 F1 F2 F7). rewrite F8.
  destruct (Nat.leb 11 (S (tickCount s))); cbn [fst snd].
  - split; [reflexivity|]. split; [exact F1|]. split; [exact F2|].
    split; [split; reflexivity|]. split; [exact F3|]. split; [exact F4|].
    split; [exact F9 | exact F5].
  - split; [reflexivity|]. split; [exact F1|]. split; [exact F2|].
    split; [split; [exact F7 | reflexivity]|]. split; [exact F3|]. split; [exact F4|].
    split; [exact F9 | exact F5].
Qed.

Lemma aoTicks_em_trade uf (msgs : list (Z * MensagemTicks)) :
  forall s,
    isAuthorized s = true -> botRunning s = true -> isTrading s = true ->
    tickCount s + length msgs < 11 ->
    let r := aoTicks Math_log calculateNextStake uf msgs s in
    snd r = [] /\ isAuthorized (fst r) = true /\ botRunning (fst r) = true
    /\ isTrading (fst r) = true /\ tickCount (fst r) = tickCount s + length msgs
    /\ lastContractId (fst r) = lastContractId s
    /\ lastContractIntervalId (fst r) = lastContractIntervalId s
    /\ efeitos (fst r) = efeitos s /\ moneyManager (fst r) = moneyManager s.
Proof.
  induction msgs as [|[agora msg] rest IH]; intros s Ha Hb Ht Hn; cbv zeta.
  - simpl. rewrite Nat.add_0_r. repeat split; assumption.
  - simpl in Hn. simpl aoTicks.
    destruct (@aoTick_em_trade agora uf msg s Ha Hb Ht)
      as (T1 & T2 & T3 & T4 & T5 & T6 & T7 & T8).
    destruct (aoTick Math_log calculateNextStake agora uf msg s) as [s1 c1].
    cbn [fst snd] in T1, T2, T3, T4, T5, T6, T7, T8.
    replace (Nat.leb 11 (S (tickCount s))) with false in T4
      by (symmetry; apply Nat.leb_gt; lia).
    destruct T4 as [T4 T4'].
    assert (Hn1 : tickCount s1 + length rest < 11) by (rewrite T4'; lia).
    destruct (IH s1 T2 T3 T4 Hn1) as (R1 & R2 & R3 & R4 & R5 & R6 & R7 & R8 & R9).
    destruct (aoTicks Math_log calculateNextStake uf rest s1) as [s2 c2].
    cbn [fst snd] in *. subst c1 c2.
    split; [reflexivity|]. split; [exact R2|]. split; [exact R3|]. split; [exact R4|].
    split; [rewrite R5, T4'; simpl; lia|].
    split; [rewrite R6; exact T5|]. split; [rewrite R7; exact T6|].
    split; [rewrite R8; exact T7 | rewrite R9; exact T8].
Qed.

(** X13. While a trade is in progress the tick subscriber only counts the
    messages of the stream: it makes no call, and leaves the pending
    contract, the watchdog, the stake sizer and the calls made as they are.
    The in-trading flag stays set as long as the counter is below 11, and
    the message that brings the counter to 11 clears the flag and resets
    the counter, whether or not the contract has been settled. *)
Theorem in_trade_ticks_are_counted uf (msgs : list (Z * MensagemTicks)) s :
  isAuthorized s = true -> botRunning s = true -> isTrading s = true ->
  let r := aoTicks Math_log calculateNextStake uf msgs s in
  (tickCount s + length msgs < 11 ->
   isTrading (fst r) = true /\ tickCount (fst r) = tickCount s + length msgs)
  /\ (msgs <> [] -> tickCount s + length msgs = 11 ->
      isTrading (fst r) = false /\ tickCount (fst r) = O)
  /\ (tickCount s + length msgs <= 11 ->
      snd r = [] /\ lastContractId (fst r) = lastContractId s
      /\ lastContractIntervalId (fst r) = lastContractIntervalId s
      /\ efeitos (fst r) = efeitos s /\ moneyManager (fst r) = moneyManager s).
Proof.
  intros Ha Hb Ht. cbv zeta.
  assert (Hfim : msgs <> [] -> tickCount s + length msgs = 11 ->
                 let r := aoTicks Math_log calculateNextStake uf msgs s in
                 (isTrading (fst r) = false /\ tickCount (fst r) = O)
                 /\ snd r = [] /\ lastContractId (fst r) = lastContractId s
                 /\ lastContractIntervalId (fst r) = lastContractIntervalId s
                 /\ efeitos (fst r) = efeitos s /\ moneyManager (fst r) = moneyManager s).
  { intros Hne Hn. cbv zeta.
    destruct (exists_last Hne) as (ini & [agora msg] & ->).
    rewrite length_app in Hn. simpl in Hn.
    assert (Hini : tickCount s + length ini < 11) by lia.
    pose proof (@aoTicks_em_trade uf ini s Ha Hb Ht Hini) as Hi. cbv zeta in Hi.
    destruct Hi as (R1 & R2 & R3 & R4 & R5 & R6 & R7 & R8 & R9).
    assert (Happ : forall l1 l2 s0,
              aoTicks Math_log calculateNextStake uf (l1 ++ l2) s0
              = (fst (aoTicks Math_log calculateNextStake uf l2
                        (fst (aoTicks Math_log calculateNextStake uf l1 s0))),
                 snd (aoTicks Math_log calculateNextStake uf l1 s0)
                 ++ snd (aoTicks Math_log calculateNextStake uf l2
                           (fst (aoTicks Math_log calculateNextStake uf l1 s0))))).
    { clear. induction l1 as [|[a m] l1 IH]; intros l2 s0.
      - simpl. destruct (aoTicks _ _ _ l2 s0); reflexivity.
      - simpl. destruct (aoTick _ _ a _ m s0) as [s1 c1].
        rewrite IH.
        destruct (aoTicks _ _ _ l1 s1) as [s2 c2]. cbn [fst snd].
        destruct (aoTicks _ _ _ l2 s2) as [s3 c3]. cbn [fst snd].
        rewrite app_assoc. reflexivity. }
    rewrite Happ. cbn [fst snd].
    destruct (aoTicks Math_log calculateNextStake uf ini s) as [s1 c1].
    cbn [fst snd] in *. subst c1.
    simpl aoTicks.
    destruct (@aoTick_em_trade agora uf msg s1 R2 R3 R4)
      as (T1 & T2 & T3 & T4 & T5 & T6 & T7 & T8).
    destruct (aoTick Math_log calculateNextStake agora uf msg s1) as [s2 c2].
    cbn [fst snd] in *. subst c2.
    replace (Nat.leb 11 (S (tickCount s1))) with true in T4
      by (symmetry; apply Nat.leb_le; lia).
    split; [exact T4|]. split; [reflexivity|].
    split; [rewrite T5; exact R6|]. split; [rewrite T6; exact R7|].
    split; [rewrite T7; exact R8 | rewrite T8; exact R9]. }
  split; [|split].
  - intros Hn.
    pose proof (@aoTicks_em_trade uf msgs s Ha Hb Ht Hn) as Hi. cbv zeta in Hi.
    destruct Hi as (_ & _ & _ & R4 & R5 & _). split; [exact R4 | exact R5].
  - intros Hne Hn. exact (proj1 (Hfim Hne Hn)).
  - intros Hle. destruct (Nat.eq_dec (tickCount s + length msgs) 11) as [He|Hd].
    + destruct msgs as [|m rest].
      * simpl. repeat split.
      * assert (Hne : m :: rest <> []) by discriminate.
        exact (proj2 (Hfim Hne He)).
    + assert (Hn : tickCount s + length msgs < 11) by lia.
      pose proof (@aoTicks_em_trade uf msgs s Ha Hb Ht Hn) as Hi. cbv zeta in Hi.
      destruct Hi as (R1 & _ & _ & _ & _ & R6 & R7 & R8 & R9).
      split; [exact R1|]. split; [exact R6|]. split; [exact R7|].
      split; [exact R8 | exact R9].
Qed.

Lemma aoReceberTicks_efeitos agora msg s :
  efeitos (aoReceberTicks agora msg s)
  = efeitos s ++ (if botRunning s then [] else [Unsubscribe SubTicks]).
Proof.
  destruct (botRunning s) eqn:Hb.
  - destruct (aoReceberTicks_frame agora msg s) as (_ & _ & _ & _ & _ & F6).
    destruct (F6 Hb) as (_ & _ & F9 & _). rewrite F9. symmetry. apply app_nil_r.
  - unfold aoReceberTicks.
    change (botRunning (updateActivityTimestamp agora s)) with (botRunning s).
    rewrite Hb. reflexivity.
Qed.

(** One message other than a history, on a window of fewer than 20 prices. *)
Lemma aoTick_janela_curta agora uf msg s :
  (forall prices, msg <> History prices) ->
  length (janela s) < 20 ->
  let r := aoTick Math_log calculateNextStake agora uf msg s in
  snd r = [] /\ janela (fst r) = janela s
  /\ botRunning (fst r) = botRunning s
  /\ efeitos (fst r)
     = efeitos s ++ (if botRunning s then [] else [Unsubscribe SubTicks]).
Proof.
  intros Hm Hlt. cbv zeta.
  pose proof (aoTick_casos agora uf msg s) as Hc. cbv zeta in Hc.
  pose proof (aoReceberTicks_efeitos agora msg s) as He.
  unfold aoTick in *.
  assert (Hj : janela (aoReceberTicks agora msg s) = janela s)
    by (apply aoReceberTicks_janela_curta; [exact Hm | lia]).
  remember (aoReceberTicks agora msg s) as s1 eqn:Es1. clear Es1.
  assert (Hh : Strategy.sinal (Strategy.mp_base
                 (Strategy.momentumPersistentStrategy Math_log (janela s1) None))
               = Strategy.HOLD)
    by (apply momentumPersistent_curto; rewrite Hj; exact Hlt).
  destruct (@faseDeTrade_hold agora uf s1 Hh) as [H1 H2].
  destruct Hc as (Hb & [(_ & _ & C3 & _)|((saldo & C1) & _)]).
  - split; [exact H1|]. split; [rewrite H2; exact Hj|].
    split; [exact Hb | rewrite C3; exact He].
  - rewrite H1 in C1. discriminate C1.
Qed.

(** X14. A window of fewer than 20 prices is never traded on: as long as
    no new history arrives, the messages of the stream leave the window as
    it is and the subscriber sends no alert, no announcement and no [buy]
    request, however many ticks are received.  While the bot runs it makes
    no call at all; when the bot is not running, each message makes the one
    call that removes the tick subscription. *)
Theorem short_window_never_trades uf (msgs : list (Z * MensagemTicks)) s :
  length (janela s) < 20 ->
  Forall (fun m => forall prices, snd m <> History prices) msgs ->
  let r := aoTicks Math_log calculateNextStake uf msgs s in
  snd r = [] /\ janela (fst r) = janela s
  /\ botRunning (fst r) = botRunning s
  /\ efeitos (fst r)
     = efeitos s
       ++ (if botRunning s then [] else repeat (Unsubscribe SubTicks) (length msgs)).
Proof.
  intros Hlt Hms. cbv zeta. revert s Hlt.
  induction Hms as [|[agora msg] rest Hm _ IH]; intros s Hlt.
  - simpl. split; [reflexivity|]. split; [reflexivity|]. split; [reflexivity|].
    destruct (botRunning s); symmetry; apply app_nil_r.
  - simpl aoTicks. cbn [snd] in Hm.
    pose proof (@aoTick_janela_curta agora uf msg s Hm Hlt) as Ht. cbv zeta in Ht.
    destruct Ht as (T1 & T2 & T3 & T4).
    destruct (aoTick Math_log calculateNextStake agora uf msg s) as [s1 c1].
    cbn [fst snd] in T1, T2, T3, T4. subst c1.
    assert (Hlt1 : length (janela s1) < 20) by (rewrite T2; exact Hlt).
    destruct (IH s1 Hlt1) as (R1 & R2 & R3 & R4).
    destruct (aoTicks Math_log calculateNextStake uf rest s1) as [s2 c2].
    cbn [fst snd] in *. subst c2.
    split; [reflexivity|]. split; [rewrite R2; exact T2|].
    split; [rewrite R3; exact T3|].
    rewrite R4, T4, T3. destruct (botRunning s).
    + rewrite !app_nil_r. reflexivity.
    + rewrite <- app_assoc. reflexivity.
Qed.

Lemma faseDeTrade_stake_baixo agora uf s amount mm :
  isAuthorized s = true -> botRunning s = true -> isTrading s = false ->
  Strategy.sinal (Strategy.mp_base
    (Strategy.momentumPersistentStrategy Math_log (janela s) None)) <> Strategy.HOLD ->
  uf && filtrosBloqueiam (janela s) = false ->
  calculateNextStake (moneyManager s) = (amount, mm) ->
  (amount <? 0.35)%float = true \/ (getCurrentBalance mm <? 0.35)%float = true ->
  faseDeTrade Math_log calculateNextStake agora uf s
  = (stopBot agora (stopBot agora (set_moneyManager mm s)),
     [AlertaCritico (getCurrentBalance mm)]).
Proof.
  intros Ha Hb Ht Hs Hf Hc Hk.
  assert (Hor : (amount <? 0.35)%float || (getCurrentBalance mm <? 0.35)%float = true)
    by (destruct Hk as [-> | ->]; [reflexivity | apply orb_true_r]).
  unfold faseDeTrade. cbv zeta. rewrite Ha, Hb, Ht, Hf, Hc. cbn [negb orb].
  unfold checkStakeAndBalance.
  change (moneyManager (set_moneyManager mm s)) with mm.
  rewrite Hor.
  destruct (Strategy.sinal _); [reflexivity | reflexivity | contradiction Hs; reflexivity].
Qed.

Lemma stopBot_duas_vezes agora s :
  efeitos (stopBot agora (stopBot agora s))
  = efeitos s ++ map Unsubscribe (activeSubscriptions s)
    ++ [SendMessage MsgBotParado; SendMessage MsgBotParado]
  /\ (activeSubscriptions (stopBot agora (stopBot agora s)) = []
      /\ isAuthorized (stopBot agora (stopBot agora s)) = false
      /\ isTrading (stopBot agora (stopBot agora s)) = false
      /\ janela (stopBot agora (stopBot agora s)) = [])
  /\ (botRunning (stopBot agora (stopBot agora s)) = botRunning s
      /\ moneyManager (stopBot agora (stopBot agora s)) = moneyManager s
      /\ lastContractId (stopBot agora (stopBot agora s)) = lastContractId s
      /\ lastContractIntervalId (stopBot agora (stopBot agora s)) = lastContractIntervalId s
      /\ intervalosAtivos (stopBot agora (stopBot agora s)) = intervalosAtivos s).
Proof.
  destruct (stopBot_campos agora s)
    as ((P1 & P2 & P3 & P4 & P5 & P6) & (P7 & P8 & P9 & _ & P11 & _)).
  pose proof (stopBot_timestamp agora s) as Pt.
  pose proof (stopBot_intervalos agora s) as Pi.
  remember (stopBot agora s) as s1 eqn:Es1. clear Es1.
  rewrite (@stopBot_parado MM agora s1 P1 P2 P3 P4 P5 Pt).
  split; [|split].
  - transitivity (efeitos s1 ++ [SendMessage MsgBotParado]); [reflexivity|].
    rewrite P6, <- !app_assoc. reflexivity.
  - split; [transitivity (activeSubscriptions s1); [reflexivity | exact P1]|].
    split; [transitivity (isAuthorized s1); [reflexivity | exact P2]|].
    split; [transitivity (isTrading s1); [reflexivity | exact P3]|].
    transitivity (match ticksMap s1 with Some p => p | None => [] end); [reflexivity|].
    rewrite P4. reflexivity.
  - split; [transitivity (botRunning s1); [reflexivity | exact P9]|].
    split; [transitivity (moneyManager s1); [reflexivity | exact P11]|].
    split; [transitivity (lastContractId s1); [reflexivity | exact P7]|].
    split; [transitivity (lastContractIntervalId s1); [reflexivity | exact P8]|].
    rewrite intervalosAtivos_efeito, Pi. reflexivity.
Qed.

(** X15. When a signal is to be traded and the stake the stake sizer
    returns, or the balance, is below 0.35, no [buy] request is sent: the
    subscriber sends the alert with the balance and stops the streams, the
    stopped message going out twice.  The running flag is not cleared, and
    the pending contract and the watchdog are left as they are. *)
Theorem low_stake_stops_without_buying agora uf s amount mm :
  isAuthorized s = true -> botRunning s = true -> isTrading s = false ->
  Strategy.sinal (Strategy.mp_base
    (Strategy.momentumPersistentStrategy Math_log (janela s) None)) <> Strategy.HOLD ->
  uf && filtrosBloqueiam (janela s) = false ->
  calculateNextStake (moneyManager s) = (amount, mm) ->
  (amount <? 0.35)%float = true \/ (getCurrentBalance mm <? 0.35)%float = true ->
  let r := faseDeTrade Math_log calculateNextStake agora uf s in
  snd r = [AlertaCritico (getCurrentBalance mm)]
  /\ efeitos (fst r)
     = efeitos s ++ map Unsubscribe (activeSubscriptions s)
       ++ [SendMessage MsgBotParado; SendMessage MsgBotParado]
  /\ (activeSubscriptions (fst r) = [] /\ isAuthorized (fst r) = false
      /\ isTrading (fst r) = false /\ janela (fst r) = [])
  /\ (botRunning (fst r) = true /\ moneyManager (fst r) = mm
      /\ lastContractId (fst r) = lastContractId s
      /\ lastContractIntervalId (fst r) = lastContractIntervalId s
      /\ intervalosAtivos (fst r) = intervalosAtivos s).
Proof.
  intros Ha Hb Ht Hs Hf Hc Hk. cbv zeta.
  rewrite (@faseDeTrade_stake_baixo agora uf s amount mm Ha Hb Ht Hs Hf Hc Hk).
  clear Hs Hf Hc Hk. cbn [fst snd].
  destruct (stopBot_duas_vezes agora (set_moneyManager mm s))
    as (Q1 & Q2 & (Q3 & Q4 & Q5 & Q6 & Q7)).
  split; [reflexivity|]. split; [exact Q1|]. split; [exact Q2|].
  split; [rewrite Q3; exact Hb|]. split; [exact Q4|]. split; [exact Q5|].
  split; [exact Q6 | exact Q7].
Qed.

(** One stream event while the bot is not running. *)
Lemma passo_parado env (ev : Evento) s :
  botRunning s = false ->
  match ev with EvTicks _ _ _ | EvContrato _ _ => True | _ => False end ->
  let s' := passo Math_log calculateNextStake env ev s in
  botRunning s' = false
  /\ efeitos s'
     = efeitos s ++ [Unsubscribe (match ev with EvContrato _ _ => SubContracts
                                  | _ => SubTicks end)]
  /\ moneyManager s' = moneyManager s /\ consecutiveWins s' = consecutiveWins s
  /\ lastContractId s' = lastContractId s
  /\ lastContractIntervalId s' = lastContractIntervalId s
  /\ ticksMap s' = ticksMap s.
Proof.
  intros Hb Hev. cbv zeta.
  destruct ev as [agora uf msg|agora contract|agora|cid|agora]; try contradiction Hev.
  - unfold passo, aoTick.
    assert (Hr : aoReceberTicks agora msg s
                 = set_activeSubscriptions (removerPrimeira SubTicks (activeSubscriptions s))
                     (set_tickCount 0 (set_isTrading false
                        (efeito (Unsubscribe SubTicks) (updateActivityTimestamp agora s))))).
    { unfold aoReceberTicks.
      change (botRunning (updateActivityTimestamp agora s)) with (botRunning s).
      rewrite Hb. reflexivity. }
    rewrite Hr.
    rewrite faseDeTrade_inativo by (right; exact Hb).
    cbn [fst]. repeat split. exact Hb.
  - unfold passo, aoAtualizarContrato. cbv zeta.
    change (botRunning (updateActivityTimestamp agora s)) with (botRunning s).
    rewrite Hb. cbn [negb]. repeat split. exact Hb.
Qed.

(** X16. While the bot is not running, what the two streams deliver is
    dropped: whatever the messages and the pushed contract updates carry
    (a settled status included), each of them only removes the
    subscription it arrived on; no settlement is applied, and the stake
    sizer, the win streak, the pending contract, the watchdog and the tick
    window are as before. *)
Theorem stopped_bot_drops_stream_events env (evs : list Evento) s :
  botRunning s = false ->
  Forall (fun ev => match ev with EvTicks _ _ _ | EvContrato _ _ => True | _ => False end)
    evs ->
  let s' := executar Math_log calculateNextStake env evs s in
  efeitos s'
  = efeitos s
    ++ map (fun ev => Unsubscribe (match ev with EvContrato _ _ => SubContracts
                                   | _ => SubTicks end)) evs
  /\ tradesSalvos s' = tradesSalvos s
  /\ moneyManager s' = moneyManager s /\ consecutiveWins s' = consecutiveWins s
  /\ lastContractId s' = lastContractId s
  /\ lastContractIntervalId s' = lastContractIntervalId s
  /\ ticksMap s' = ticksMap s /\ botRunning s' = false.
Proof.
  intros Hb Hevs. cbv zeta.
  assert (Hr : efeitos (executar Math_log calculateNextStake env evs s)
    = efeitos s
      ++ map (fun ev => Unsubscribe (match ev with EvContrato _ _ => SubContracts
                                     | _ => SubTicks end)) evs
    /\ moneyManager (executar Math_log calculateNextStake env evs s) = moneyManager s
    /\ consecutiveWins (executar Math_log calculateNextStake env evs s) = consecutiveWins s
    /\ lastContractId (executar Math_log calculateNextStake env evs s) = lastContractId s
    /\ lastContractIntervalId (executar Math_log calculateNextStake env evs s)
       = lastContractIntervalId s
    /\ ticksMap (executar Math_log calculateNextStake env evs s) = ticksMap s
    /\ botRunning (executar Math_log calculateNextStake env evs s) = false).
  { revert s Hb. unfold executar.
    induction Hevs as [|ev rest Hev _ IH]; intros s Hb.
    - simpl. rewrite app_nil_r. repeat split. exact Hb.
    - simpl fold_left.
      pose proof (@passo_parado env ev s Hb Hev) as Hp. cbv zeta in Hp.
      destruct Hp as (Q1 & Q2 & Q3 & Q4 & Q5 & Q6 & Q7).
      remember (passo Math_log calculateNextStake env ev s) as s1 eqn:Es1. clear Es1.
      destruct (IH s1 Q1) as (R1 & R2 & R3 & R4 & R5 & R6 & R7).
      split; [rewrite R1, Q2, <- app_assoc; reflexivity|].
      split; [rewrite R2; exact Q3|]. split; [rewrite R3; exact Q4|].
      split; [rewrite R4; exact Q5|]. split; [rewrite R5; exact Q6|].
      split; [rewrite R6; exact Q7 | exact R7]. }
  destruct Hr as (R1 & R2 & R3 & R4 & R5 & R6 & R7).
  split; [exact R1|]. split; [|split; [exact R2|]; split; [exact R3|]; split; [exact R4|];
    split; [exact R5|]; split; [exact R6 | exact R7]].
  unfold tradesSalvos. rewrite R1, flat_map_app.
  replace (flat_map _ (map _ evs)) with (@nil TradeRecord); [apply app_nil_r|].
  clear. induction evs as [|ev rest IH]; [reflexivity | exact IH].
Qed.

Lemma aoTicks_ticks uf (quotes : list (Z * option float)) :
  forall s,
    botRunning s = true -> 50 <= length (janela s) ->
    let r := aoTicks Math_log calculateNextStake uf
               (map (fun q => (fst q, Tick (snd q))) quotes) s in
    (forall saldo, ~ In (AlertaCritico saldo) (snd r)) ->
    janela (fst r)
    = skipn (length quotes) (janela s ++ map (fun q => ouZeroSeFalso (snd q)) quotes).
Proof.
  induction quotes as [|[agora quote] rest IH]; intros s Hb Hlen; cbv zeta.
  - intros _. simpl. rewrite app_nil_r. reflexivity.
  - simpl map. simpl aoTicks.
    pose proof (aoTick_casos agora uf (Tick quote) s) as Hc. cbv zeta in Hc.
    assert (Hs1 : janela (aoReceberTicks agora (Tick quote) s)
                  = tl (janela s) ++ [ouZeroSeFalso quote]).
    { rewrite (@aoReceberTicks_rodando agora (Tick quote) s Hb).
      unfold atualizarTicksMap. cbv zeta.
      change (match ticksMap (updateActivityTimestamp agora s) with
              | Some p => p | None => [] end) with (janela s).
      apply Nat.leb_le in Hlen. rewrite Hlen. reflexivity. }
    rewrite Hs1 in Hc.
    destruct (aoTick Math_log calculateNextStake agora uf (Tick quote) s) as [s1 c1].
    cbn [fst snd] in Hc.
    specialize (IH s1). cbv zeta in IH.
    destruct (aoTicks Math_log calculateNextStake uf
                (map (fun q => (fst q, Tick (snd q))) rest) s1) as [s2 c2].
    cbn [fst snd] in *. intros Hno.
    destruct Hc as (Hb1 & [(_ & Hj1 & _)|((saldo & C1) & _)]).
    + assert (Hlen1 : 50 <= length (janela s1)).
      { rewrite Hj1, length_app. simpl.
        destruct (janela s) as [|x w]; simpl in *; lia. }
      rewrite IH; [|rewrite Hb1; exact Hb|exact Hlen1|].
      * rewrite Hj1. destruct (janela s) as [|x w]; [simpl in Hlen; lia|].
        simpl. rewrite <- app_assoc. reflexivity.
      * intros saldo Hin. apply (Hno saldo). apply in_or_app. right. exact Hin.
    + exfalso. apply (Hno saldo). rewrite C1. left. reflexivity.
Qed.

(** Once the window is empty, the ticks of the stream leave it empty. *)
Lemma aoTicks_janela_vazia uf (quotes : list (Z * option float)) :
  forall s,
    janela s = [] ->
    janela (fst (aoTicks Math_log calculateNextStake uf
                   (map (fun q => (fst q, Tick (snd q))) quotes) s)) = [].
Proof.
  induction quotes as [|[agora quote] rest IH]; intros s Hj; [exact Hj|].
  simpl map. simpl aoTicks.
  assert (Hm : forall prices, Tick quote <> History prices) by (intros p E; discriminate E).
  assert (Hlt : length (janela s) < 20) by (rewrite Hj; simpl; lia).
  pose proof (@aoTick_janela_curta agora uf (Tick quote) s Hm Hlt) as Hc. cbv zeta in Hc.
  destruct Hc as (_ & Hj1 & _).
  destruct (aoTick Math_log calculateNextStake agora uf (Tick quote) s) as [s1 c1].
  cbn [fst] in Hj1. specialize (IH s1 ltac:(rewrite Hj1; exact Hj)).
  destruct (aoTicks Math_log calculateNextStake uf
              (map (fun q => (fst q, Tick (snd q))) rest) s1) as [s2 c2].
  exact IH.
Qed.

(** A stake check that fails during the ticks leaves the window empty. *)
Lemma aoTicks_ticks_alerta uf (quotes : list (Z * option float)) :
  forall s,
    let r := aoTicks Math_log calculateNextStake uf
               (map (fun q => (fst q, Tick (snd q))) quotes) s in
    (exists saldo, In (AlertaCritico saldo) (snd r)) -> janela (fst r) = [].
Proof.
  induction quotes as [|[agora quote] rest IH]; intros s; cbv zeta.
  - intros (saldo & Hin). destruct Hin.
  - simpl map. simpl aoTicks.
    pose proof (aoTick_casos agora uf (Tick quote) s) as Hc. cbv zeta in Hc.
    destruct (aoTick Math_log calculateNextStake agora uf (Tick quote) s) as [s1 c1].
    cbn [fst snd] in Hc.
    specialize (IH s1). cbv zeta in IH.
    pose proof (@aoTicks_janela_vazia uf rest s1) as Hv.
    destruct (aoTicks Math_log calculateNextStake uf
                (map (fun q => (fst q, Tick (snd q))) rest) s1) as [s2 c2].
    cbn [fst snd] in *. intros (saldo & Hin).
    destruct Hc as (_ & [(Hno & _)|(_ & Hj1 & _)]).
    + apply IH. exists saldo. apply in_app_or in Hin. destruct Hin as [Hin|Hin].
      * exfalso. exact (Hno saldo Hin).
      * exact Hin.
    + apply Hv. exact Hj1.
Qed.

(** X17. While the bot runs, after a history of at least 50 prices and any
    number of ticks, handled by the whole subscriber, the window holds the
    most recent prices of the history followed by the quotes of the ticks
    (a missing or zero quote counting as 0), as many as the history had:
    every tick pushed the oldest price out.  This holds as long as no stake
    check fails on the way; if one fails, which is when the critical alert
    is sent, the window is left empty. *)
Theorem window_holds_most_recent_prices uf agora (prices : list float)
    (quotes : list (Z * option float)) s :
  botRunning s = true ->
  50 <= length prices ->
  let r := aoTicks Math_log calculateNextStake uf
             ((agora, History (Some prices))
              :: map (fun q => (fst q, Tick (snd q))) quotes) s in
  ((forall saldo, ~ In (AlertaCritico saldo) (snd r)) ->
   janela (fst r)
   = slice_last (length prices) (prices ++ map (fun q => ouZeroSeFalso (snd q)) quotes))
  /\ ((exists saldo, In (AlertaCritico saldo) (snd r)) -> janela (fst r) = []).
Proof.
  intros Hb Hlen. cbv zeta. simpl aoTicks.
  pose proof (aoTick_casos agora uf (History (Some prices)) s) as Hc. cbv zeta in Hc.
  assert (Hs1 : janela (aoReceberTicks agora (History (Some prices)) s) = prices).
  { rewrite (@aoReceberTicks_rodando agora (History (Some prices)) s Hb). reflexivity. }
  rewrite Hs1 in Hc.
  destruct (aoTick Math_log calculateNextStake agora uf (History (Some prices)) s)
    as [s1 c1].
  cbn [fst snd] in Hc.
  pose proof (@aoTicks_ticks uf quotes s1) as Ht. cbv zeta in Ht.
  pose proof (@aoTicks_ticks_alerta uf quotes s1) as Ha. cbv zeta in Ha.
  pose proof (@aoTicks_janela_vazia uf quotes s1) as Hv.
  destruct (aoTicks Math_log calculateNextStake uf
              (map (fun q => (fst q, Tick (snd q))) quotes) s1) as [s2 c2].
  cbn [fst snd] in *. split.
  - intros Hno.
    destruct Hc as (Hb1 & [(_ & Hj1 & _)|((saldo & C1) & _)]).
    + rewrite Ht; [|rewrite Hb1; exact Hb|rewrite Hj1; exact Hlen|].
      * rewrite Hj1. unfold slice_last. f_equal.
        rewrite length_app, length_map. lia.
      * intros saldo Hin. apply (Hno saldo). apply in_or_app. right. exact Hin.
    + exfalso. apply (Hno saldo). rewrite C1. left. reflexivity.
  - intros (saldo & Hin).
    destruct Hc as (_ & [(Hno & _)|(_ & Hj1 & _)]).
    + apply Ha. exists saldo. apply in_app_or in Hin. destruct Hin as [Hin|Hin].
      * exfalso. exact (Hno saldo Hin).
      * exact Hin.
    + apply Hv. exact Hj1.
Qed.

Lemma ticksMap_handleTradeResult agora p k st s :
  ticksMap (handleTradeResult agora p k st s) = ticksMap s.
Proof.
  destruct (ContractStatus_eqb st st_open) eqn:Eo.
  - destruct st; try discriminate Eo. reflexivity.
  - assert (Hne : st <> st_open) by (intro Hx; rewrite Hx in Eo; discriminate Eo).
    destruct (@handleTradeResult_settled _ _ agora p k st s Hne)
      as (_ & _ & _ & _ & _ & _ & _ & _ & Hm & _).
    exact Hm.
Qed.

Lemma ticksMap_authorize env s : ticksMap (authorize env s) = ticksMap s.
Proof. unfold authorize. cbv zeta. destruct (respostaAuthorize env _); reflexivity. Qed.

Lemma ticksMap_getLastTradeResult_ate fuel env agora cid :
  forall s, ticksMap (getLastTradeResult_ate fuel env agora cid s) = ticksMap s.
Proof.
  induction fuel as [|fuel IH]; intros s; [reflexivity|].
  cbn [getLastTradeResult_ate]. destruct cid as [id|]; [|reflexivity].
  destruct (negb (idPresente (Some id))); [reflexivity|].
  destruct (Nat.leb 2 (retryToGetLastTradeCount s)); [reflexivity|].
  destruct (respostaContrato env (quantos eApiOpenContract s)) as [contract| |].
  - match goal with |- context [handleTradeResult ?a ?p ?k ?st ?x] =>
      transitivity (ticksMap (handleTradeResult a p k st x)); [reflexivity|];
      rewrite ticksMap_handleTradeResult end.
    reflexivity.
  - rewrite IH, ticksMap_authorize. reflexivity.
  - reflexivity.
Qed.

(** Every handler but the tick subscriber leaves the window as it is or
    empties it. *)
Lemma janela_passo env (ev : Evento) s :
  (forall a uf msg, ev <> EvTicks a uf msg) ->
  janela (passo Math_log calculateNextStake env ev s) = janela s
  \/ janela (passo Math_log calculateNextStake env ev s) = [].
Proof.
  intros Hev. destruct ev as [agora uf msg|agora contract|agora|cid|agora]; simpl.
  - exfalso. exact (Hev agora uf msg eq_refl).
  - left. unfold janela, aoAtualizarContrato, updateActivityTimestamp. cbv zeta.
    destruct (negb (botRunning (set_lastActivityTimestamp agora s))); [reflexivity|].
    rewrite ticksMap_handleTradeResult. reflexivity.
  - left. unfold janela, aoDispararWatchdog.
    destruct (lastContractIntervalId s); [|reflexivity].
    destruct (idPresente (lastContractId s)); [|reflexivity].
    unfold getLastTradeResult. rewrite ticksMap_getLastTradeResult_ate. reflexivity.
  - left. unfold janela, registrarCompra, createTradeTimeout. cbv zeta.
    destruct (clearTradeTimeout_frame (set_lastContractId cid s))
      as (_ & _ & _ & _ & _ & _ & _ & Hm & _).
    transitivity (match ticksMap (clearTradeTimeout (set_lastContractId cid s)) with
                  | Some p => p | None => [] end); [reflexivity|].
    rewrite Hm. reflexivity.
  - right. destruct (stopBot_campos agora s) as ((_ & _ & _ & P4 & _) & _).
    unfold janela. rewrite P4. reflexivity.
Qed.

(** The window that the first part of the tick subscriber leaves. *)
Lemma aoReceberTicks_janela agora msg s :
  janela (aoReceberTicks agora msg s)
  = if botRunning s then
      match msg with
      | History prices => match prices with Some p => p | None => [] end
      | Tick quote =>
          if Nat.leb 50 (length (janela s))
          then tl (janela s) ++ [ouZeroSeFalso quote] else janela s
      | OutraMensagem => janela s
      end
    else janela s.
Proof.
  unfold aoReceberTicks.
  change (botRunning (updateActivityTimestamp agora s)) with (botRunning s).
  destruct (botRunning s); cbn [negb]; [|reflexivity].
  destruct msg as [prices|quote|]; [reflexivity| |reflexivity].
  unfold atualizarTicksMap. cbv zeta.
  change (match ticksMap (updateActivityTimestamp agora s) with
          | Some p => p | None => [] end) with (janela s).
  destruct (Nat.leb 50 (length (janela s))); reflexivity.
Qed.

(** C9 (amended).  What one message of the tick stream does to the window,
    the whole subscriber being run on it.  While the bot runs, a history
    message replaces the window by the prices it carries; a tick received
    when the window holds at least 50 prices drops the oldest price and
    appends the new one, so the length stays the same; a tick received when
    the window holds fewer than 50 prices leaves the window as it is.  All
    this unless the stake check of the same invocation fails: the critical
    alert is then sent and the window is left empty.  When the bot is not
    running the window is not touched.  Over any run of events (tick
    messages, pushes, watchdog firings, buy answers and stops) the window
    never holds more than 50 prices, as long as it did not before and no
    history message carries more than 50. *)
Theorem tick_window_bounded :
  (forall agora uf msg (s : Estado MM),
      let r := aoTick Math_log calculateNextStake agora uf msg s in
      (botRunning s = true ->
       (forall saldo, ~ In (AlertaCritico saldo) (snd r)) ->
       janela (fst r)
       = match msg with
         | History prices => match prices with Some p => p | None => [] end
         | Tick quote =>
             if Nat.leb 50 (length (janela s))
             then tl (janela s) ++ [ouZeroSeFalso quote] else janela s
         | OutraMensagem => janela s
         end)
      /\ (forall saldo, In (AlertaCritico saldo) (snd r) -> janela (fst r) = [])
      /\ (botRunning s = false -> janela (fst r) = janela s))
  /\ (forall quote (s : Estado MM),
         50 <= length (janela s) ->
         length (tl (janela s) ++ [ouZeroSeFalso quote]) = length (janela s))
  /\ (forall env evs (s : Estado MM),
         length (janela s) <= 50 ->
         (forall a uf p, In (EvTicks a uf (History (Some p))) evs -> length p <= 50) ->
         length (janela (executar Math_log calculateNextStake env evs s)) <= 50).
Proof.
  split; [|split].
  - intros agora uf msg s. cbv zeta.
    pose proof (aoTick_casos agora uf msg s) as Hc. cbv zeta in Hc.
    rewrite (aoReceberTicks_janela agora msg s) in Hc.
    destruct Hc as (_ & [(C1 & C2 & _)|((saldo & C1) & C2 & C3)]).
    + split; [intros Hb _; rewrite C2, Hb; reflexivity|].
      split; [intros saldo Hin; exfalso; exact (C1 saldo Hin)|].
      intros Hb. rewrite C2, Hb. reflexivity.
    + split; [intros _ Hno; exfalso; apply (Hno saldo); rewrite C1; left; reflexivity|].
      split; [intros _ _; exact C2|].
      intros Hb. rewrite Hb in C3. discriminate C3.
  - intros quote s Hlen. rewrite length_app. simpl.
    destruct (janela s) as [|x w]; simpl in *; lia.
  - intros env evs. unfold executar.
    induction evs as [|ev rest IH]; intros s Hs Hm; [exact Hs|].
    simpl fold_left. apply IH.
    + destruct ev as [agora uf msg|agora contract|agora|cid|agora].
      * cbn [passo].
        pose proof (aoTick_casos agora uf msg s) as Hc. cbv zeta in Hc.
        destruct Hc as (_ & [(_ & C2 & _)|(_ & C2 & _)]).
        -- rewrite C2. apply aoReceberTicks_bound; [exact Hs|].
           intros p Hp. apply (Hm agora uf p). left. rewrite Hp. reflexivity.
        -- rewrite C2. simpl. lia.
      * destruct (@janela_passo env (EvContrato agora contract) s) as [E|E];
          [intros a uf msg Hx; discriminate Hx | rewrite E; exact Hs | rewrite E; simpl; lia].
      * destruct (@janela_passo env (EvWatchdog agora) s) as [E|E];
          [intros a uf msg Hx; discriminate Hx | rewrite E; exact Hs | rewrite E; simpl; lia].
      * destruct (@janela_passo env (EvCompra cid) s) as [E|E];
          [intros a uf msg Hx; discriminate Hx | rewrite E; exact Hs | rewrite E; simpl; lia].
      * destruct (@janela_passo env (EvStop agora) s) as [E|E];
          [intros a uf msg Hx; discriminate Hx | rewrite E; exact Hs | rewrite E; simpl; lia].
    + intros a uf p Hin. apply (Hm a uf p). right. exact Hin.
Qed.

End TradingPhase.

(* ================================================================== *)
(** * The retry counter of the status poll over any run of events      *)
(* ================================================================== *)

Section RetryBudget.

Import JS Bot.

Context {MM : Type} `{MoneyManager MM}.

Implicit Types s : Estado MM.

Variable Math_log : float -> float.
Variable calculateNextStake : MM -> float * MM.

Lemma quantos_app (p : Efeito -> bool) s s' (l : list Efeito) :
  efeitos s' = efeitos s ++ l -> quantos p s' = quantos p s + length (filter p l).
Proof.
  intros E. unfold quantos. rewrite E, filter_app, length_app. reflexivity.
Qed.

Lemma quantos_clearTradeTimeout (p : Efeito -> bool) s :
  (forall id, p (ClearInterval id) = false) ->
  quantos p (clearTradeTimeout s) = quantos p s.
Proof.
  intros Hp. unfold clearTradeTimeout.
  destruct (lastContractIntervalId s) as [id|]; [|reflexivity].
  transitivity (quantos p (efeito (ClearInterval id) s)); [reflexivity|].
  rewrite quantos_efeito, Hp. lia.
Qed.

Lemma quantos_mesmo (p : Efeito -> bool) s s' :
  efeitos s' = efeitos s -> quantos p s' = quantos p s.
Proof. intros E. unfold quantos. rewrite E. reflexivity. Qed.

Lemma parado_handleTradeResult agora p k st s :
  quantos eBotParado (handleTradeResult agora p k st s) = quantos eBotParado s.
Proof.
  unfold handleTradeResult.
  destruct (ContractStatus_eqb st st_open); [reflexivity|].
  cbv zeta. rewrite quantos_clearTradeTimeout by reflexivity.
  rewrite !quantos_efeito.
  match goal with
  | |- context [quantos eBotParado ?x] =>
      rewrite (@quantos_mesmo eBotParado s x eq_refl)
  end.
  destruct (ContractStatus_eqb st st_won); simpl; lia.
Qed.

Lemma parado_authorize env s :
  quantos eBotParado (authorize env s) = quantos eBotParado s.
Proof.
  unfold authorize. cbv zeta.
  destruct (respostaAuthorize env _).
  - transitivity (quantos eBotParado
                    (efeito (SendMessage MsgAutorizado) (efeito ApiAuthorize s)));
      [reflexivity|].
    rewrite !quantos_efeito. simpl. lia.
  - transitivity (quantos eBotParado
                    (efeito (SendMessage MsgErroAoAutorizar) (efeito ApiAuthorize s)));
      [reflexivity|].
    rewrite !quantos_efeito. simpl. lia.
Qed.

(** A poll that the broker never answers: the retry counter grows by the
    number of authorizations requested, and nothing else changes among the
    pending contract, the stops and the counter. *)
Lemma getLastTradeResult_ate_sem_resposta env agora cid :
  (forall n c, respostaContrato env n <> Resposta c) ->
  forall fuel s,
    retryToGetLastTradeCount s <= 2 ->
    let s' := getLastTradeResult_ate fuel env agora cid s in
    retryToGetLastTradeCount s' <= 2
    /\ retryToGetLastTradeCount s <= retryToGetLastTradeCount s'
    /\ quantos eApiAuthorize s' + retryToGetLastTradeCount s
       = quantos eApiAuthorize s + retryToGetLastTradeCount s'
    /\ quantos eBotParado s' = quantos eBotParado s.
Proof.
  intros Hnr. induction fuel as [|fuel IH]; intros s Hs; cbn [getLastTradeResult_ate].
  - repeat split; lia.
  - destruct cid as [id|]; [|repeat split; lia].
    destruct (negb (idPresente (Some id))); [repeat split; lia|].
    destruct (Nat.leb 2 (retryToGetLastTradeCount s)) eqn:E; [repeat split; lia|].
    apply Nat.leb_gt in E.
    destruct (respostaContrato env (quantos eApiOpenContract s)) as [contract| |] eqn:Er.
    + exfalso. exact (Hnr _ _ Er).
    + match goal with |- context [authorize env ?x] => set (t := x) end.
      destruct (authorize_frame env t) as (Hr & _ & _ & _ & _ & _ & Ha & _).
      pose proof (parado_authorize env t) as Hp.
      assert (Hrt : retryToGetLastTradeCount t = S (retryToGetLastTradeCount s))
        by reflexivity.
      assert (Hat : quantos eApiAuthorize t = quantos eApiAuthorize s).
      { transitivity (quantos eApiAuthorize (efeito (ApiOpenContract id) s));
          [reflexivity|]. rewrite quantos_efeito. simpl. lia. }
      assert (Hpt : quantos eBotParado t = quantos eBotParado s).
      { transitivity (quantos eBotParado (efeito (ApiOpenContract id) s));
          [reflexivity|]. rewrite quantos_efeito. simpl. lia. }
      remember (authorize env t) as u eqn:Eu. clear Eu.
      assert (Hu : retryToGetLastTradeCount u <= 2) by lia.
      destruct (IH u Hu) as (I1 & I2 & I3 & I4).
      remember (getLastTradeResult_ate fuel env agora (Some id) u) as v eqn:Ev. clear Ev.
      split; [exact I1|]. split; [lia|]. split; [lia | lia].
    + split; [exact Hs|]. split; [apply le_n|].
      split.
      * transitivity (quantos eApiAuthorize s + retryToGetLastTradeCount s); [|reflexivity].
        f_equal. rewrite quantos_efeito. simpl. lia.
      * rewrite quantos_efeito. simpl. lia.
Qed.

Lemma parado_unsubscribe (p : Efeito -> bool) (subs : list Subscricao) s :
  (forall sub, p (Unsubscribe sub) = false) ->
  quantos p (fold_left (fun s sub => efeito (Unsubscribe sub) s) subs s) = quantos p s.
Proof.
  intros Hp. revert s. induction subs as [|x r IH]; intros s; [reflexivity|].
  simpl. rewrite IH, quantos_efeito, Hp. lia.
Qed.

(** A stop sends the stopped message once, requests no authorization and
    resets the retry counter. *)
Lemma stopBot_tentativas agora s :
  quantos eBotParado (stopBot agora s) = S (quantos eBotParado s)
  /\ quantos eApiAuthorize (stopBot agora s) = quantos eApiAuthorize s
  /\ retryToGetLastTradeCount (stopBot agora s) = 0.
Proof.
  destruct (stopBot_campos agora s) as ((_ & _ & _ & _ & P5 & P6) & _).
  assert (Hq : forall p : Efeito -> bool,
             (forall sub, p (Unsubscribe sub) = false) ->
             quantos p (stopBot agora s)
             = quantos p s + (if p (SendMessage MsgBotParado) then 1 else 0)).
  { intros p Hp. rewrite (@quantos_app p s (stopBot agora s) _ P6).
    rewrite filter_app, length_app.
    replace (filter p (map Unsubscribe (activeSubscriptions s))) with (@nil Efeito).
    - simpl. destruct (p (SendMessage MsgBotParado)); reflexivity.
    - clear P6. induction (activeSubscriptions s) as [|x r IH]; [reflexivity|].
      simpl. rewrite Hp. exact IH. }
  split; [rewrite Hq by reflexivity; simpl; lia|].
  split; [rewrite Hq by reflexivity; simpl; lia | exact P5].
Qed.

(** One event, the broker answering no status request. *)
Lemma passo_tentativas env (ev : Evento) s :
  (forall n c, respostaContrato env n <> Resposta c) ->
  retryToGetLastTradeCount s <= 2 ->
  let s' := passo Math_log calculateNextStake env ev s in
  retryToGetLastTradeCount s' <= 2
  /\ quantos eBotParado s <= quantos eBotParado s'
  /\ (quantos eBotParado s' = quantos eBotParado s ->
      retryToGetLastTradeCount s <= retryToGetLastTradeCount s'
      /\ quantos eApiAuthorize s' + retryToGetLastTradeCount s
         = quantos eApiAuthorize s + retryToGetLastTradeCount s').
Proof.
  intros Hnr Hs. cbv zeta.
  destruct ev as [agora uf msg|agora contract|agora|cid|agora]; cbn [passo].
  - unfold aoTick.
    pose proof (aoReceberTicks_efeitos agora msg s) as He.
    assert (Fr : retryToGetLastTradeCount (aoReceberTicks agora msg s)
                 = retryToGetLastTradeCount s).
    { unfold aoReceberTicks, updateActivityTimestamp. cbv zeta.
      destruct (negb (botRunning (set_lastActivityTimestamp agora s))); [reflexivity|].
      unfold atualizarTicksMap. destruct msg as [prices|quote|]; [reflexivity| |reflexivity].
      cbv zeta. destruct (Nat.leb 50 _); reflexivity. }
    assert (Hq : forall p : Efeito -> bool,
               (forall sub, p (Unsubscribe sub) = false) ->
               quantos p (aoReceberTicks agora msg s) = quantos p s).
    { intros p Hp. rewrite (@quantos_app p s _ _ He).
      destruct (botRunning s); simpl; rewrite ?Hp; simpl; lia. }
    pose proof (Hq eBotParado (fun _ => eq_refl)) as Hq1.
    pose proof (Hq eApiAuthorize (fun _ => eq_refl)) as Hq2.
    remember (aoReceberTicks agora msg s) as s1 eqn:Es1. clear Es1 He Hq.
    pose proof (faseDeTrade_casos Math_log calculateNextStake agora uf s1) as Hc.
    cbv zeta in Hc.
    destruct Hc as [(_ & _ & C3 & _ & C5)|(mm & _ & C2 & _)].
    + remember (fst (faseDeTrade Math_log calculateNextStake agora uf s1)) as s2 eqn:Es2.
      clear Es2.
      assert (Hp2 : quantos eBotParado s2 = quantos eBotParado s)
        by (unfold quantos in *; rewrite C3; exact Hq1).
      assert (Ha2 : quantos eApiAuthorize s2 = quantos eApiAuthorize s)
        by (unfold quantos in *; rewrite C3; exact Hq2).
      rewrite C5, Fr, Hp2, Ha2. split; [exact Hs|]. split; [apply le_n|].
      intros _. split; [apply le_n | reflexivity].
    + rewrite C2.
      destruct (stopBot_tentativas agora (stopBot agora (set_moneyManager mm s1)))
        as (P1 & _ & P3).
      destruct (stopBot_tentativas agora (set_moneyManager mm s1)) as (Q1 & _ & _).
      assert (Hm : quantos eBotParado (set_moneyManager mm s1) = quantos eBotParado s)
        by exact Hq1.
      rewrite P1, P3, Q1, Hm. split; [lia|]. split; [lia|]. intros Hx. lia.
  - unfold aoAtualizarContrato, updateActivityTimestamp. cbv zeta.
    change (botRunning (set_lastActivityTimestamp agora s)) with (botRunning s).
    destruct (botRunning s); cbn [negb].
    + match goal with |- context [handleTradeResult ?a ?p ?k ?st ?x] =>
        destruct (handleTradeResult_contadores a p k st x) as (Hr & Ha & _);
        pose proof (parado_handleTradeResult a p k st x) as Hp;
        remember (handleTradeResult a p k st x) as s1 eqn:Es1; clear Es1 end.
      assert (Hr' : retryToGetLastTradeCount s1 = retryToGetLastTradeCount s) by exact Hr.
      assert (Ha' : quantos eApiAuthorize s1 = quantos eApiAuthorize s) by exact Ha.
      assert (Hp' : quantos eBotParado s1 = quantos eBotParado s) by exact Hp.
      rewrite Hr', Ha', Hp'. split; [exact Hs|]. split; [apply le_n|].
      intros _. split; [apply le_n | reflexivity].
    + match goal with
      | |- retryToGetLastTradeCount ?x <= 2 /\ _ => remember x as s1 eqn:Es1
      end.
      assert (He : efeitos s1 = efeitos s ++ [Unsubscribe SubContracts])
        by (rewrite Es1; reflexivity).
      assert (Hr' : retryToGetLastTradeCount s1 = retryToGetLastTradeCount s)
        by (rewrite Es1; reflexivity).
      clear Es1.
      rewrite (@quantos_app eBotParado s s1 _ He), (@quantos_app eApiAuthorize s s1 _ He), Hr'.
      simpl. split; [exact Hs|]. split; [lia|].
      intros _. split; [apply le_n | lia].
  - unfold aoDispararWatchdog.
    destruct (lastContractIntervalId s);
      [|split; [exact Hs|]; split; [apply le_n|]; intros _; split; [apply le_n | reflexivity]].
    destruct (idPresente (lastContractId s));
      [|split; [exact Hs|]; split; [apply le_n|]; intros _; split; [apply le_n | reflexivity]].
    unfold getLastTradeResult.
    destruct (@getLastTradeResult_ate_sem_resposta env agora (lastContractId s) Hnr 3 s Hs)
      as (I1 & I2 & I3 & I4).
    split; [exact I1|]. split; [rewrite I4; apply le_n|].
    intros _. split; [exact I2 | exact I3].
  - unfold registrarCompra, createTradeTimeout. cbv zeta.
    destruct (clearTradeTimeout_frame (set_lastContractId cid s))
      as (_ & _ & _ & _ & _ & Hr & _ & _ & _ & _ & _ & Ha & _).
    pose proof (@quantos_clearTradeTimeout eBotParado (set_lastContractId cid s)
                  (fun _ => eq_refl)) as Hp.
    remember (clearTradeTimeout (set_lastContractId cid s)) as s1 eqn:Es1. clear Es1.
    assert (Hq : forall p : Efeito -> bool, (forall i, p (SetInterval i) = false) ->
               quantos p (set_isTrading true
                            (set_lastContractIntervalId (Some (quantos eSetInterval s1))
                               (efeito (SetInterval (quantos eSetInterval s1)) s1)))
               = quantos p s1).
    { intros p Hp'.
      transitivity (quantos p (efeito (SetInterval (quantos eSetInterval s1)) s1));
        [reflexivity|].
      rewrite quantos_efeito, Hp'. lia. }
    rewrite (Hq eBotParado (fun _ => eq_refl)), (Hq eApiAuthorize (fun _ => eq_refl)).
    assert (Hr' : retryToGetLastTradeCount
                    (set_isTrading true
                       (set_lastContractIntervalId (Some (quantos eSetInterval s1))
                          (efeito (SetInterval (quantos eSetInterval s1)) s1)))
                  = retryToGetLastTradeCount s) by exact Hr.
    assert (Ha' : quantos eApiAuthorize s1 = quantos eApiAuthorize s) by exact Ha.
    assert (Hp' : quantos eBotParado s1 = quantos eBotParado s) by exact Hp.
    rewrite Hr', Ha', Hp'. split; [exact Hs|]. split; [apply le_n|].
    intros _. split; [apply le_n | reflexivity].
  - destruct (stopBot_tentativas agora s) as (P1 & _ & P3).
    rewrite P1, P3. split; [lia|]. split; [lia|]. intros Hx. lia.
Qed.

Lemma executar_tentativas env (evs : list Evento) :
  (forall n c, respostaContrato env n <> Resposta c) ->
  forall s,
    retryToGetLastTradeCount s <= 2 ->
    let s' := executar Math_log calculateNextStake env evs s in
    retryToGetLastTradeCount s' <= 2
    /\ quantos eBotParado s <= quantos eBotParado s'
    /\ (quantos eBotParado s' = quantos eBotParado s ->
        retryToGetLastTradeCount s <= retryToGetLastTradeCount s'
        /\ quantos eApiAuthorize s' + retryToGetLastTradeCount s
           = quantos eApiAuthorize s + retryToGetLastTradeCount s').
Proof.
  intros Hnr. unfold executar.
  induction evs as [|ev rest IH]; intros s Hs; cbv zeta.
  - simpl. split; [exact Hs|]. split; [apply le_n|].
    intros _. split; [apply le_n | reflexivity].
  - simpl fold_left.
    pose proof (@passo_tentativas env ev s Hnr Hs) as Hp. cbv zeta in Hp.
    destruct Hp as (P1 & P2 & P3).
    remember (passo Math_log calculateNextStake env ev s) as s1 eqn:Es1. clear Es1.
    pose proof (IH s1 P1) as Hi. cbv zeta in Hi. destruct Hi as (I1 & I2 & I3).
    remember (fold_left (fun s0 ev0 => passo Math_log calculateNextStake env ev0 s0)
                rest s1) as s2 eqn:Es2. clear Es2.
    split; [exact I1|]. split; [lia|].
    intros Hx.
    assert (E1 : quantos eBotParado s1 = quantos eBotParado s) by lia.
    assert (E2 : quantos eBotParado s2 = quantos eBotParado s1) by lia.
    destruct (P3 E1) as (A1 & A2). destruct (I3 E2) as (B1 & B2).
    split; lia.
Qed.

(** C3 (amended).  During a status poll of a pending contract, a failure
    for want of authorization ([AuthorizationRequired]) is followed by
    exactly one authorization request and then by the same poll again;
    over any number of watchdog firings in a row at most 2 such retries are
    made; and once the retry counter has reached 2 a poll is abandoned at
    once, leaving the whole state, calls included, as it was.  The counter
    is one counter for the bot, not one per contract: over any run of
    events in which the broker answers no status request and the stopped
    message is not sent, the authorizations requested are exactly the
    increase of the counter, so at most 2; but [stopBot] sets the counter
    back to 0 and leaves the pending contract and the watchdog as they are,
    so every stop allows 2 more retries for the same contract. *)
Theorem auth_failure_retry_bounded env agora id :
  id <> 0%Z ->
  (forall s,
      retryToGetLastTradeCount s < 2 ->
      respostaContrato env (quantos eApiOpenContract s) = AuthorizationRequired ->
      let s1 :=
        authorize env
          (set_retryToGetLastTradeCount (S (retryToGetLastTradeCount s))
             (efeito (ApiOpenContract id) s)) in
      getLastTradeResult env agora (Some id) s = getLastTradeResult env agora (Some id) s1
      /\ quantos eApiAuthorize s1 = S (quantos eApiAuthorize s)
      /\ retryToGetLastTradeCount s1 = S (retryToGetLastTradeCount s))
  /\ (forall n s,
         retryToGetLastTradeCount s <= 2 ->
         quantos eApiAuthorize (vigiar env agora n s) + retryToGetLastTradeCount s
         <= quantos eApiAuthorize s + 2
         /\ retryToGetLastTradeCount (vigiar env agora n s) <= 2)
  /\ (forall cid s,
         2 <= retryToGetLastTradeCount s ->
         getLastTradeResult env agora cid s = s)
  /\ (forall evs s,
         (forall n c, respostaContrato env n <> Resposta c) ->
         retryToGetLastTradeCount s <= 2 ->
         let s' := executar Math_log calculateNextStake env evs s in
         retryToGetLastTradeCount s' <= 2
         /\ (quantos eBotParado s' = quantos eBotParado s ->
             quantos eApiAuthorize s' + retryToGetLastTradeCount s
             = quantos eApiAuthorize s + retryToGetLastTradeCount s'
             /\ quantos eApiAuthorize s' <= quantos eApiAuthorize s + 2))
  /\ (forall agora' s,
         retryToGetLastTradeCount (stopBot agora' s) = 0
         /\ lastContractId (stopBot agora' s) = lastContractId s
         /\ lastContractIntervalId (stopBot agora' s) = lastContractIntervalId s
         /\ quantos eBotParado (stopBot agora' s) = S (quantos eBotParado s)).
Proof.
  intros Hid. split; [|split; [|split; [|split]]].
  - intros s Hr Hresp s1.
    assert (Hp : idPresente (Some id) = true).
    { unfold idPresente. destruct (Z.eqb_spec id 0); [contradiction|reflexivity]. }
    destruct (authorize_frame env
                (set_retryToGetLastTradeCount (S (retryToGetLastTradeCount s))
                   (efeito (ApiOpenContract id) s))) as (Hr1 & _ & _ & _ & _ & _ & Ha1 & _).
    fold s1 in Hr1, Ha1.
    assert (Hr1' : retryToGetLastTradeCount s1 = S (retryToGetLastTradeCount s))
      by (rewrite Hr1; reflexivity).
    assert (Ha1' : quantos eApiAuthorize s1 = S (quantos eApiAuthorize s)).
    { rewrite Ha1.
      change (S (quantos eApiAuthorize (efeito (ApiOpenContract id) s))
              = S (quantos eApiAuthorize s)).
      rewrite quantos_efeito. simpl. lia. }
    split; [|split; assumption].
    unfold getLastTradeResult.
    rewrite (@getLastTradeResult_ate_auth _ _ 2 env agora id s Hp Hr Hresp). fold s1.
    apply getLastTradeResult_combustivel; rewrite ?Hr1'; lia.
  - intros n s Hs. destruct (@vigiar_bound _ _ env agora n s Hs) as (Hle & Hcases).
    split; [|exact Hle]. destruct Hcases as [(Ha & Hb)|(_ & Hb)]; lia.
  - intros cid s Hs. unfold getLastTradeResult.
    generalize 2 at 1. intro fuel. cbn [getLastTradeResult_ate].
    destruct cid as [c|]; [|reflexivity].
    destruct (negb (idPresente (Some c))); [reflexivity|].
    apply Nat.leb_le in Hs. rewrite Hs. reflexivity.
  - intros evs s Hnr Hs. cbv zeta.
    pose proof (@executar_tentativas env evs Hnr s Hs) as He. cbv zeta in He.
    destruct He as (E1 & _ & E3).
    split; [exact E1|]. intros Hx. destruct (E3 Hx) as (A1 & A2).
    split; [exact A2 | lia].
  - intros agora' s.
    destruct (stopBot_tentativas agora' s) as (P1 & _ & P3).
    destruct (stopBot_campos agora' s) as (_ & (P7 & P8 & _)).
    split; [exact P3|]. split; [exact P7|]. split; [exact P8 | exact P1].
Qed.

End RetryBudget.

(* ================================================================== *)
(** * Magnitudes: which operations cannot overflow                     *)
(* ================================================================== *)

(** A finite number [m * 2^e] whose mantissa has [d] binary digits is
    below [2^(d+e)] in magnitude.  Rounding to nearest raises [d + e] by
    at most one, which bounds the result of an addition, a product and a
    quotient by the bounds of the operands, and shows that none of them
    overflows as long as the bound stays below [2^1024]. *)

Module FloatMagnitude.

Import JS Predicados FloatFacts.
Local Open Scope Z_scope.

Lemma digits2_pos_lt p k : Zpos p < 2 ^ k -> Zpos (digits2_pos p) <= k.
Proof.
  intros Hp. pose proof (digits2_pos_bounds p) as (Hlo & _).
  destruct (Z_lt_le_dec k (Zpos (digits2_pos p))) as [Hk|Hk]; [|exact Hk].
  exfalso.
  destruct (Z_lt_le_dec k 0) as [Hn|Hn].
  - rewrite (Z.pow_neg_r 2 k Hn) in Hp. lia.
  - assert (2 ^ k <= 2 ^ (Zpos (digits2_pos p) - 1)) by (apply Z.pow_le_mono_r; lia).
    lia.
Qed.

Lemma digits2_pos_pow p k : Zpos (digits2_pos p) <= k -> Zpos p < 2 ^ k.
Proof.
  intros Hk. pose proof (digits2_pos_bounds p) as (_ & Hhi).
  assert (2 ^ Zpos (digits2_pos p) <= 2 ^ k) by (apply Z.pow_le_mono_r; lia).
  lia.
Qed.

(** The rounding shift either leaves the mantissa as it is or divides it
    by a power of two and raises the exponent to the canonical one. *)
Lemma shr_fexp_value m e l :
  0 <= m ->
  (shr_fexp prec emax m e l = (shr_record_of_loc m l, e)
   /\ fexp prec emax (Zdigits2 m + e) <= e)
  \/ (e < snd (shr_fexp prec emax m e l)
      /\ snd (shr_fexp prec emax m e l) = fexp prec emax (Zdigits2 m + e)
      /\ shr_m (fst (shr_fexp prec emax m e l))
         = m / 2 ^ (snd (shr_fexp prec emax m e l) - e)).
Proof.
  intros Hm. unfold shr_fexp, shr.
  destruct (fexp prec emax (Zdigits2 m + e) - e) as [|q|q] eqn:En; cbn [fst snd].
  - left. split; [reflexivity|lia].
  - right. split; [lia|]. split; [lia|].
    assert (H0 : shr_m (shr_record_of_loc m l) = m)
      by (destruct l as [|[| |]]; reflexivity).
    rewrite iter_shr_1_value by (rewrite H0; exact Hm). rewrite H0.
    f_equal. f_equal. lia.
  - left. split; [reflexivity|lia].
Qed.

Lemma shr_m_of_loc m l : shr_m (shr_record_of_loc m l) = m.
Proof. destruct l as [|[| |]]; reflexivity. Qed.

Lemma round_nearest_even_bounds m l :
  m <= round_nearest_even m l <= m + 1.
Proof.
  unfold round_nearest_even. destruct l as [|[| |]]; try lia.
  destruct (Z.even m); lia.
Qed.

(** A quotient by a power of two stays below the bound divided by it. *)
Lemma div_pow_lt m k e e' :
  0 <= m -> m < 2 ^ (k - e) -> e <= e' -> e' <= k -> m / 2 ^ (e' - e) < 2 ^ (k - e').
Proof.
  intros Hm Hlt He Hk.
  assert (Hp : 0 < 2 ^ (e' - e)) by (apply Z.pow_pos_nonneg; lia).
  apply Z.div_lt_upper_bound; [exact Hp|].
  rewrite <- Z.pow_add_r by lia. replace (e' - e + (k - e')) with (k - e) by lia.
  exact Hlt.
Qed.

Lemma div_pow_zero m k e e' :
  0 <= m -> m < 2 ^ (k - e) -> e <= e' -> k < e' -> m / 2 ^ (e' - e) = 0.
Proof.
  intros Hm Hlt He Hk.
  apply Z.div_small. split; [exact Hm|].
  destruct (Z_lt_le_dec (k - e) 0) as [Hn|Hn].
  - rewrite (Z.pow_neg_r 2 _ Hn) in Hlt. lia.
  - assert (2 ^ (k - e) <= 2 ^ (e' - e)) by (apply Z.pow_le_mono_r; lia). lia.
Qed.

(** One rounding shift keeps a mantissa below its bound. *)
Lemma shr_fexp_lim m e l k :
  0 <= m -> m < 2 ^ (k - e) ->
  let r := shr_fexp prec emax m e l in
  0 <= shr_m (fst r)
  /\ (shr_m (fst r) = 0 \/ shr_m (fst r) < 2 ^ (k - snd r))
  /\ (snd r = e \/ snd r = fexp prec emax (Zdigits2 m + e))
  /\ (shr_m (fst r) = 0 \/ snd r <= k).
Proof.
  intros Hm Hlt r. subst r.
  destruct (shr_fexp_value e l Hm) as [(E & _)|(H1 & H2 & H3)].
  - rewrite E. cbn [fst snd]. rewrite shr_m_of_loc.
    split; [exact Hm|]. split; [right; exact Hlt|]. split; [left; reflexivity|].
    destruct (Z.eq_dec m 0) as [E0|E0]; [left; exact E0|right].
    destruct (Z_lt_le_dec k e) as [Hn|Hn]; [|exact Hn].
    rewrite (Z.pow_neg_r 2 (k - e)) in Hlt by lia. lia.
  - set (e' := snd (shr_fexp prec emax m e l)) in *.
    assert (Hp : 0 < 2 ^ (e' - e)) by (apply Z.pow_pos_nonneg; lia).
    split; [rewrite H3; apply Z.div_pos; lia|].
    destruct (Z_lt_le_dec k e') as [Hk|Hk].
    + assert (shr_m (fst (shr_fexp prec emax m e l)) = 0)
        by (rewrite H3; apply (@div_pow_zero m k e e'); lia).
      split; [left; assumption|]. split; [right; exact H2|]. left; assumption.
    + split; [right; rewrite H3; apply div_pow_lt; lia|].
      split; [right; exact H2|]. right; exact Hk.
Qed.

(** Rounding a mantissa below [2^(k-e)] gives a number below [2^(k+1)],
    and does not overflow as long as [k] is below 1024: rounding raises the
    sum of the digits and the exponent by at most one. *)
Lemma binary_round_aux_lim sx m e l k :
  0 <= m -> m < 2 ^ (k - e) -> e <= 971 -> -1074 <= k -> k <= 1023 ->
  sf_lim (k + 1) (binary_round_aux prec emax sx m e l).
Proof.
  intros Hm Hlt He Hk1 Hk2. unfold binary_round_aux.
  assert (Hek : e <= k).
  { destruct (Z_lt_le_dec k e) as [Hn|Hn]; [|exact Hn].
    rewrite (Z.pow_neg_r 2 (k - e)) in Hlt by lia. lia. }
  assert (Hdig : Zdigits2 m + e <= k).
  { destruct m as [|p|p]; cbn [Zdigits2]; [lia| |lia].
    pose proof (@digits2_pos_lt p _ Hlt). lia. }
  pose proof (@shr_fexp_lim m e l k Hm Hlt) as H1. cbv zeta in H1.
  destruct H1 as (A1 & A2 & A3 & A4).
  destruct (shr_fexp prec emax m e l) as [mrs' e'] eqn:E1. cbn [fst snd] in *.
  assert (He' : e' <= 971 /\ e' <= k).
  { destruct A3 as [A3|A3]; subst e'; [lia|].
    unfold fexp, SpecFloat.emin, prec, emax. lia. }
  pose proof (round_nearest_even_bounds (shr_m mrs') (loc_of_shr_record mrs')) as Hr.
  set (m2 := round_nearest_even (shr_m mrs') (loc_of_shr_record mrs')) in *.
  assert (Hm2 : 0 <= m2 < 2 ^ (k + 1 - e')).
  { split; [lia|].
    replace (k + 1 - e') with (1 + (k - e')) by lia.
    rewrite Z.pow_add_r by lia. change (2 ^ 1) with 2.
    assert (0 < 2 ^ (k - e')) by (apply Z.pow_pos_nonneg; lia).
    destruct A2 as [A2|A2]; lia. }
  pose proof (@shr_fexp_lim m2 e' loc_Exact (k + 1) ltac:(lia) ltac:(lia)) as H2.
  cbv zeta in H2. destruct H2 as (B1 & B2 & B3 & B4).
  destruct (shr_fexp prec emax m2 e' loc_Exact) as [mrs'' e''] eqn:E2. cbn [fst snd] in *.
  destruct (shr_m mrs'') as [|p3|p3] eqn:E3; [exact I| |lia].
  assert (He'' : e'' <= 971).
  { destruct B3 as [B3|B3]; subst e''; [lia|].
    destruct m2 as [|p2|p2]; [| |lia].
    - unfold fexp, SpecFloat.emin, prec, emax. cbn [Zdigits2]. lia.
    - assert (Zpos (digits2_pos p2) <= k + 1 - e') by (apply digits2_pos_lt; lia).
      unfold fexp, SpecFloat.emin, prec, emax. cbn [Zdigits2]. lia. }
  replace (e'' <=? emax - prec) with true
    by (symmetry; apply Z.leb_le; unfold emax, prec; lia).
  cbn [sf_lim].
  destruct B2 as [B2|B2]; [discriminate B2|].
  pose proof (@digits2_pos_lt p3 _ B2). lia.
Qed.

Lemma binary_round_lim sx p e k :
  Zpos (digits2_pos p) + e <= k -> -1074 <= k -> k <= 1023 ->
  sf_lim (k + 1) (binary_round prec emax sx p e).
Proof.
  intros Hd Hk1 Hk2. unfold binary_round, shl_align.
  destruct (fexp prec emax (Zpos (digits2_pos p) + e) - e) as [|d|d] eqn:Ed;
    unfold fexp, SpecFloat.emin, prec, emax in Ed.
  - apply binary_round_aux_lim; try lia. apply digits2_pos_pow. lia.
  - apply binary_round_aux_lim; try lia. apply digits2_pos_pow. lia.
  - apply binary_round_aux_lim; try lia; [|unfold fexp, SpecFloat.emin, prec, emax; lia].
    apply digits2_pos_pow. rewrite digits2_pos_iter_xO.
    unfold fexp, SpecFloat.emin, prec, emax. lia.
Qed.

Lemma binary_normalize_lim z e k sz :
  Z.abs z < 2 ^ (k - e) -> -1074 <= k -> k <= 1023 ->
  sf_lim (k + 1) (binary_normalize prec emax z e sz).
Proof.
  intros Hz Hk1 Hk2. unfold binary_normalize.
  destruct z as [|p|p]; [exact I| |]; apply binary_round_lim; try lia.
  - pose proof (@digits2_pos_lt p (k - e)). lia.
  - pose proof (@digits2_pos_lt p (k - e)). lia.
Qed.

Lemma sf_lim_mono j k x : j <= k -> sf_lim j x -> sf_lim k x.
Proof. destruct x; cbn; auto. lia. Qed.

Lemma sf_lim_fin k x : sf_lim k x -> sf_fin x.
Proof. destruct x; cbn; auto. Qed.

(** The aligned mantissa of a number below [2^k]. *)
Lemma aligned_lim m e ez k :
  ez <= e -> Zpos (digits2_pos m) + e <= k ->
  Zpos (fst (shl_align m e ez)) < 2 ^ (k - ez).
Proof.
  intros He Hd. rewrite shl_align_value by exact He.
  assert (Hm : Zpos m < 2 ^ (k - e)) by (apply digits2_pos_pow; lia).
  replace (k - ez) with ((k - e) + (e - ez)) by lia.
  rewrite Z.pow_add_r by lia.
  assert (0 < 2 ^ (e - ez)) by (apply Z.pow_pos_nonneg; lia). nia.
Qed.

Lemma pow2_succ k : 0 <= k -> 2 ^ (k + 1) = 2 * 2 ^ k.
Proof. intros Hk. rewrite Z.pow_add_r by lia. change (2 ^ 1) with 2. lia. Qed.

(** A sum of two numbers below [2^k] is below [2^(k+2)]. *)
Lemma SFadd_lim k x y :
  sf_lim k x -> sf_lim k y -> -1074 <= k -> k <= 1022 -> sf_lim (k + 2) (SF64add x y).
Proof.
  destruct x as [sx|sx| |sx mx ex], y as [sy|sy| |sy my ey];
    cbn [sf_lim]; intros Hx Hy Hk1 Hk2; try contradiction.
  - destruct sx, sy; exact I.
  - change (sf_lim (k + 2) (S754_finite sy my ey)). cbn [sf_lim]. lia.
  - change (sf_lim (k + 2) (S754_finite sx mx ex)). cbn [sf_lim]. lia.
  - unfold SF64add, SFadd.
    pose proof (@aligned_lim mx ex (Z.min ex ey) k ltac:(lia) Hx) as Ax.
    pose proof (@aligned_lim my ey (Z.min ex ey) k ltac:(lia) Hy) as Ay.
    replace (k + 2) with (k + 1 + 1) by lia.
    apply binary_normalize_lim; try lia.
    replace (k + 1 - Z.min ex ey) with (k - Z.min ex ey + 1) by lia.
    assert (0 <= k - Z.min ex ey).
    { destruct (Z_lt_le_dec (k - Z.min ex ey) 0) as [Hn|Hn]; [|exact Hn].
      rewrite (Z.pow_neg_r 2 _ Hn) in Ax. lia. }
    rewrite pow2_succ by lia.
    change (IntDef.Z.min ex ey) with (Z.min ex ey).
    destruct sx, sy; cbn [cond_Zopp]; lia.
Qed.

Lemma SFsub_lim k x y :
  sf_lim k x -> sf_lim k y -> -1074 <= k -> k <= 1022 -> sf_lim (k + 2) (SF64sub x y).
Proof.
  destruct x as [sx|sx| |sx mx ex], y as [sy|sy| |sy my ey];
    cbn [sf_lim]; intros Hx Hy Hk1 Hk2; try contradiction.
  - destruct sx, sy; exact I.
  - change (sf_lim (k + 2) (S754_finite (negb sy) my ey)). cbn [sf_lim]. lia.
  - change (sf_lim (k + 2) (S754_finite sx mx ex)). cbn [sf_lim]. lia.
  - unfold SF64sub, SFsub.
    pose proof (@aligned_lim mx ex (Z.min ex ey) k ltac:(lia) Hx) as Ax.
    pose proof (@aligned_lim my ey (Z.min ex ey) k ltac:(lia) Hy) as Ay.
    replace (k + 2) with (k + 1 + 1) by lia.
    apply binary_normalize_lim; try lia.
    replace (k + 1 - Z.min ex ey) with (k - Z.min ex ey + 1) by lia.
    assert (0 <= k - Z.min ex ey).
    { destruct (Z_lt_le_dec (k - Z.min ex ey) 0) as [Hn|Hn]; [|exact Hn].
      rewrite (Z.pow_neg_r 2 _ Hn) in Ax. lia. }
    rewrite pow2_succ by lia.
    change (IntDef.Z.min ex ey) with (Z.min ex ey).
    destruct sx, sy; cbn [cond_Zopp]; lia.
Qed.

(** A product of a number below [2^j] and one below [2^k] is below
    [2^(j+k+1)]. *)
Lemma SFmul_lim j k x y :
  sf_lim j x -> sf_lim k y -> -1074 <= j + k -> j + k <= 900 ->
  sf_lim (j + k + 1) (SF64mul x y).
Proof.
  destruct x as [sx|sx| |sx mx ex], y as [sy|sy| |sy my ey];
    cbn [sf_lim]; intros Hx Hy Hk1 Hk2; try contradiction; try exact I.
  unfold SF64mul, SFmul.
  pose proof (digits2_pos_bounds mx) as (Lx & _).
  pose proof (digits2_pos_bounds my) as (Ly & _).
  assert (Mx : Zpos mx < 2 ^ (j - ex)) by (apply digits2_pos_pow; lia).
  assert (My : Zpos my < 2 ^ (k - ey)) by (apply digits2_pos_pow; lia).
  apply binary_round_aux_lim; try lia.
  replace (j + k - (ex + ey)) with ((j - ex) + (k - ey)) by lia.
  rewrite Z.pow_add_r by lia. rewrite Pos2Z.inj_mul. nia.
Qed.

Lemma sf_lim_opp k x : sf_lim k x -> sf_lim k (SFopp x).
Proof. destruct x; cbn; auto. Qed.

Lemma sf_lim_abs k x : sf_lim k x -> sf_lim k (SFabs x).
Proof. destruct x; cbn; auto. Qed.

Lemma sf_min_abs k x : sf_min k x -> sf_min k (SFabs x).
Proof. destruct x; cbn; auto. Qed.

(** A quotient of a number below [2^j] by one of at least [2^(k-1)] is
    below [2^(j-k+2)]. *)
Lemma SFdiv_lim j k x y :
  sf_lim j x -> sf_min k y -> 0 <= j - k -> j - k <= 1000 ->
  sf_lim (j - k + 2) (SF64div x y).
Proof.
  destruct x as [sx|sx| |sx mx ex], y as [sy|sy| |sy my ey];
    cbn [sf_lim sf_min]; intros Hx Hy Hk1 Hk2; try contradiction; try exact I.
  unfold SF64div, SFdiv, SFdiv_core_binary. cbn [Zdigits2].
  set (d1 := Zpos (digits2_pos mx)) in *. set (d2 := Zpos (digits2_pos my)) in *.
  change (IntDef.Z.min (fexp prec emax (d1 + ex - (d2 + ey))) (ex - ey))
    with (Z.min (fexp prec emax (d1 + ex - (d2 + ey))) (ex - ey)).
  set (e' := Z.min (fexp prec emax (d1 + ex - (d2 + ey))) (ex - ey)).
  assert (He' : e' <= ex - ey /\ e' <= Z.max (j - k - 53) (-1074)).
  { subst e'. unfold fexp, SpecFloat.emin, prec, emax. lia. }
  set (s := ex - ey - e') in *.
  set (m' := match s with Z0 => Zpos mx | Zpos _ => IntDef.Z.shiftl (Zpos mx) s
                     | Zneg _ => 0 end).
  assert (Hm' : m' = Zpos mx * 2 ^ s).
  { subst m'. destruct s as [|ps|ps] eqn:Es; [cbn; lia| |lia].
    change (IntDef.Z.shiftl (Zpos mx) (Zpos ps)) with (Z.shiftl (Zpos mx) (Zpos ps)).
    rewrite Z.shiftl_mul_pow2 by lia. reflexivity. }
  pose proof (Z_div_mod m' (Zpos my) eq_refl) as Hdm.
  change (IntDef.Z.div_eucl m' (Zpos my)) with (Z.div_eucl m' (Zpos my)).
  destruct (Z.div_eucl m' (Zpos my)) as [q r]. destruct Hdm as (Heq & Hr).
  pose proof (digits2_pos_bounds mx) as (_ & Bx). fold d1 in Bx.
  pose proof (digits2_pos_bounds my) as (By & _). fold d2 in By.
  assert (Hs : 0 < 2 ^ s) by (apply Z.pow_pos_nonneg; lia).
  assert (Hq0 : 0 <= q) by nia.
  replace (j - k + 2) with (j - k + 1 + 1) by lia.
  apply binary_round_aux_lim; try lia.
  set (t := d1 + s - d2 + 1).
  assert (Ht : t <= j - k + 1 - e') by (subst t s; lia).
  destruct (Z_lt_le_dec t 0) as [Hn|Hn].
  - assert (Hle : 2 ^ (d1 + s) <= 2 ^ (d2 - 1)) by (apply Z.pow_le_mono_r; subst t; lia).
    assert (Hm'' : m' < Zpos my).
    { rewrite Hm'. rewrite Z.pow_add_r in Hle by (subst d1; lia). nia. }
    assert (q = 0) by nia. subst q.
    apply Z.pow_pos_nonneg; lia.
  - assert (Hqt : q < 2 ^ t).
    { assert (Hpow : 2 ^ (d1 + s) = 2 ^ t * 2 ^ (d2 - 1)).
      { rewrite <- Z.pow_add_r by (subst d2; lia). f_equal. subst t. lia. }
      rewrite Z.pow_add_r in Hpow by (subst d1; lia).
      assert (0 < 2 ^ t) by (apply Z.pow_pos_nonneg; lia).
      assert (0 < 2 ^ (d2 - 1)) by (apply Z.pow_pos_nonneg; subst d2; lia).
      nia. }
    assert (2 ^ t <= 2 ^ (j - k + 1 - e')) by (apply Z.pow_le_mono_r; lia).
    lia.
Qed.

(** A finite number divided by a positive one is a number. *)
Lemma SFdiv_fin_pos x y :
  sf_fin x -> sf_pos y = true -> SF64div x y <> S754_nan.
Proof.
  destruct x as [sx|sx| |sx mx ex], y as [sy|sy| |sy my ey];
    cbn [sf_fin sf_pos]; intros Hx Hy; try contradiction; try discriminate.
  unfold SF64div, SFdiv.
  pose proof (SFdiv_finite_signed (xorb sx sy) mx ex my ey) as Hs.
  intros E. rewrite E in Hs. exact Hs.
Qed.

Lemma digits2_pos_mono p q : (p <= q)%positive -> Zpos (digits2_pos p) <= Zpos (digits2_pos q).
Proof.
  intros Hpq. apply digits2_pos_lt.
  pose proof (digits2_pos_bounds q) as (_ & Hq). lia.
Qed.

(** A number that is at most a positive finite constant in magnitude is
    not above the constant's power of two. *)
Lemma SFleb_lim x mc ec :
  valid_binary x = true -> bounded prec emax mc ec = true ->
  SFleb (SFabs x) (S754_finite false mc ec) = true ->
  sf_lim (Zpos (digits2_pos mc) + ec) x.
Proof.
  destruct x as [sx|sx| |sx mx ex]; cbn [SFabs sf_lim valid_binary];
    intros Hv Hc Hle; try exact I; try discriminate Hle.
  apply SFleb_posfin in Hle.
  destruct (bounded_facts _ _ Hv) as (He & Hd & Hd').
  destruct (bounded_facts _ _ Hc) as (Hec & Hdc & Hdc').
  destruct Hle as [[Hlt|(Heq & Hlt)]|(Heq & Hm)].
  - specialize (Hdc' ltac:(lia)). lia.
  - subst ec. pose proof (@digits2_pos_mono mx mc ltac:(lia)). lia.
  - subst ec mc. lia.
Qed.

(** A finite number that is not below a positive finite constant in
    magnitude is at least the constant's power of two. *)
Lemma SFltb_min x mc ec :
  valid_binary x = true -> bounded prec emax mc ec = true ->
  sf_fin x ->
  SFltb (SFabs x) (S754_finite false mc ec) = false ->
  sf_min (Zpos (digits2_pos mc) + ec) x.
Proof.
  destruct x as [sx|sx| |sx mx ex]; cbn [SFabs sf_min sf_fin valid_binary];
    intros Hv Hc Hf Hlt; try contradiction; try discriminate Hlt.
  destruct (bounded_facts _ _ Hv) as (He & Hd & Hd').
  destruct (bounded_facts _ _ Hc) as (Hec & Hdc & Hdc').
  destruct (Z_lt_le_dec ec ex) as [H1|H1].
  - specialize (Hd' ltac:(lia)). lia.
  - destruct (Z_lt_le_dec ex ec) as [H2|H2].
    + exfalso. assert (Hl : lex_lt ex mx ec mc) by (left; exact H2).
      apply SFltb_posfin in Hl. rewrite Hl in Hlt. discriminate.
    + assert (ex = ec) by lia. subst ec.
      destruct (Pos.lt_total mx mc) as [H3|[H3|H3]].
      * exfalso. assert (Hl : lex_lt ex mx ex mc) by (right; split; [reflexivity|exact H3]).
        apply SFltb_posfin in Hl. rewrite Hl in Hlt. discriminate.
      * subst mc. lia.
      * pose proof (@digits2_pos_mono mc mx ltac:(lia)). lia.
Qed.

(** Rounding a mantissa below the one of a representable number gives a
    finite number, up to the largest. *)
Lemma binary_round_aux_fin sx m e l B eb :
  0 <= m -> m < B * 2 ^ (eb - e) -> e <= eb -> 0 < B -> B < 2 ^ 53 ->
  -1074 <= eb -> eb <= 971 ->
  sf_fin (binary_round_aux prec emax sx m e l).
Proof.
  intros Hm Hlt He HB0 HB Heb1 Heb2.
  destruct (Z_lt_le_dec (53 + eb) 1024) as [Hsmall|Hbig].
  - apply (@sf_lim_fin (53 + eb + 1)).
    apply binary_round_aux_lim; try lia.
    replace (53 + eb - e) with (53 + (eb - e)) by lia.
    rewrite Z.pow_add_r by lia.
    assert (0 < 2 ^ (eb - e)) by (apply Z.pow_pos_nonneg; lia). nia.
  - assert (eb = 971) by lia. subst eb. clear Hbig Heb1 Heb2.
    unfold binary_round_aux.
    assert (Hdig : Zdigits2 m + e <= 1024).
    { destruct m as [|p|p]; cbn [Zdigits2]; [lia| |lia].
      assert (Zpos p < 2 ^ (1024 - e)).
      { replace (1024 - e) with (53 + (971 - e)) by lia.
        rewrite Z.pow_add_r by lia.
        assert (0 < 2 ^ (971 - e)) by (apply Z.pow_pos_nonneg; lia). nia. }
      pose proof (@digits2_pos_lt p (1024 - e)). lia. }
    pose proof (shr_fexp_value e l Hm) as V. revert V.
    destruct (shr_fexp prec emax m e l) as [mrs' e']. cbn [fst snd].
    intros [(E & F)|(H1 & H2 & H3)].
    + (* no shift: the exponent is already the canonical one *)
      injection E as E Ee. subst mrs' e'. rewrite shr_m_of_loc.
      unfold fexp, SpecFloat.emin, prec, emax in F.
      pose proof (round_nearest_even_bounds m
                    (loc_of_shr_record (shr_record_of_loc m l))) as Hr.
      set (m2 := round_nearest_even m _) in *.
      assert (Hm2 : 0 <= m2 < 2 ^ (1024 - e)).
      { split; [lia|].
        assert (He971 : e = 971 \/ e < 971) by lia.
        destruct He971 as [E9|E9].
        - subst e. replace (971 - 971) with 0 in Hlt by lia.
          change (2 ^ 0) with 1 in Hlt. change (2 ^ (1024 - 971)) with (2 ^ 53). lia.
        - assert (Hmd : m < 2 ^ (1023 - e)).
          { destruct m as [|p|p]; [apply Z.pow_pos_nonneg; lia| |lia].
            apply digits2_pos_pow. cbn [Zdigits2] in F. lia. }
          replace (1024 - e) with (1023 - e + 1) by lia.
          rewrite pow2_succ by lia. lia. }
      destruct (@shr_fexp_lim m2 e loc_Exact 1024 ltac:(lia) ltac:(lia))
        as (B1 & B2 & B3 & B4).
      destruct (shr_fexp prec emax m2 e loc_Exact) as [mrs'' e''] eqn:E2.
      cbn [fst snd] in *.
      destruct (shr_m mrs'') as [|p3|p3] eqn:E3; [exact I| |lia].
      assert (He'' : e'' <= 971).
      { destruct B3 as [B3|B3]; subst e''; [lia|].
        destruct m2 as [|p2|p2]; [| |lia].
        - unfold fexp, SpecFloat.emin, prec, emax. cbn [Zdigits2]. lia.
        - assert (Zpos (digits2_pos p2) <= 1024 - e) by (apply digits2_pos_lt; lia).
          unfold fexp, SpecFloat.emin, prec, emax. cbn [Zdigits2]. lia. }
      replace (e'' <=? emax - prec) with true
        by (symmetry; apply Z.leb_le; unfold emax, prec; lia).
      exact I.
    + (* a shift to the canonical exponent, which is at most 971 *)
      assert (He' : e' <= 971)
        by (rewrite H2; unfold fexp, SpecFloat.emin, prec, emax; lia).
      assert (Hp : 0 < 2 ^ (e' - e)) by (apply Z.pow_pos_nonneg; lia).
      assert (Hm1 : 0 <= shr_m mrs' < B * 2 ^ (971 - e')).
      { rewrite H3. split; [apply Z.div_pos; lia|].
        apply Z.div_lt_upper_bound; [exact Hp|].
        replace (971 - e) with ((e' - e) + (971 - e')) in Hlt by lia.
        rewrite Z.pow_add_r in Hlt by lia. lia. }
      pose proof (round_nearest_even_bounds (shr_m mrs') (loc_of_shr_record mrs')) as Hr.
      set (m2 := round_nearest_even (shr_m mrs') (loc_of_shr_record mrs')) in *.
      assert (Hm2 : 0 <= m2 < 2 ^ (1024 - e')).
      { split; [lia|].
        replace (1024 - e') with (53 + (971 - e')) by lia.
        rewrite Z.pow_add_r by lia.
        assert (0 < 2 ^ (971 - e')) by (apply Z.pow_pos_nonneg; lia). nia. }
      destruct (@shr_fexp_lim m2 e' loc_Exact 1024 ltac:(lia) ltac:(lia))
        as (B1 & B2 & B3 & B4).
      destruct (shr_fexp prec emax m2 e' loc_Exact) as [mrs'' e''] eqn:E2.
      cbn [fst snd] in *.
      destruct (shr_m mrs'') as [|p3|p3] eqn:E3; [exact I| |lia].
      assert (He'' : e'' <= 971).
      { destruct B3 as [B3|B3]; subst e''; [lia|].
        destruct m2 as [|p2|p2]; [| |lia].
        - unfold fexp, SpecFloat.emin, prec, emax. cbn [Zdigits2]. lia.
        - assert (Zpos (digits2_pos p2) <= 1024 - e') by (apply digits2_pos_lt; lia).
          unfold fexp, SpecFloat.emin, prec, emax. cbn [Zdigits2]. lia. }
      replace (e'' <=? emax - prec) with true
        by (symmetry; apply Z.leb_le; unfold emax, prec; lia).
      exact I.
Qed.

Lemma bounded_top m e : bounded prec emax m e = true -> e <= 971.
Proof.
  unfold bounded. intros H. apply andb_prop in H. destruct H as (_ & H).
  apply Z.leb_le in H. unfold emax, prec in H. lia.
Qed.

Lemma binary_round_fin sx p e B eb :
  Zpos p < B * 2 ^ (eb - e) -> e <= eb -> 0 < B -> B < 2 ^ 53 ->
  -1074 <= eb -> eb <= 971 ->
  sf_fin (binary_round prec emax sx p e).
Proof.
  intros Hlt He HB0 HB Heb1 Heb2. unfold binary_round, shl_align.
  destruct (fexp prec emax (Zpos (digits2_pos p) + e) - e) as [|d|d] eqn:Ed.
  - apply (@binary_round_aux_fin sx (Zpos p) e loc_Exact B eb); lia.
  - apply (@binary_round_aux_fin sx (Zpos p) e loc_Exact B eb); lia.
  - apply (@binary_round_aux_fin sx _ _ loc_Exact B eb); try lia.
    rewrite iter_xO_value.
    replace (eb - fexp prec emax (Zpos (digits2_pos p) + e))
      with ((eb - e) + Zpos d) by lia.
    rewrite Z.pow_add_r by lia.
    assert (0 < 2 ^ Zpos d) by (apply Z.pow_pos_nonneg; lia). nia.
Qed.

(** The difference of two finite numbers that are not negative is finite:
    it is below the larger of the two in magnitude. *)
Lemma SFsub_nonneg_fin x y :
  valid_binary x = true -> valid_binary y = true ->
  sf_fin x -> sf_fin y -> sf_nonneg x = true -> sf_nonneg y = true ->
  sf_fin (SF64sub x y).
Proof.
  destruct x as [sx|sx| |sx mx ex], y as [sy|sy| |sy my ey];
    cbn [sf_fin sf_nonneg]; intros Hvx Hvy Hx Hy Nx Ny; try contradiction.
  - destruct sx, sy; exact I.
  - exact I.
  - exact I.
  - destruct sx, sy; try discriminate. clear Nx Ny Hx Hy.
    unfold SF64sub, SFsub. cbn [cond_Zopp].
    change (IntDef.Z.min ex ey) with (Z.min ex ey).
    destruct (bounded_facts _ _ Hvx) as (Hex & Hdx & _).
    destruct (bounded_facts _ _ Hvy) as (Hey & Hdy & _).
    pose proof (bounded_top _ _ Hvx) as Tx. pose proof (bounded_top _ _ Hvy) as Ty.
    unfold SpecFloat.emin, prec, emax in Hex, Hey.
    assert (Bx : Zpos mx < 2 ^ 53) by (apply digits2_pos_pow; exact Hdx).
    assert (By : Zpos my < 2 ^ 53) by (apply digits2_pos_pow; exact Hdy).
    rewrite !shl_align_value by lia.
    set (ez := Z.min ex ey) in *.
    assert (0 < 2 ^ (ex - ez)) by (apply Z.pow_pos_nonneg; lia).
    assert (0 < 2 ^ (ey - ez)) by (apply Z.pow_pos_nonneg; lia).
    unfold binary_normalize.
    destruct (Zpos mx * 2 ^ (ex - ez) - Zpos my * 2 ^ (ey - ez)) as [|p|p] eqn:Ez.
    + exact I.
    + apply (@binary_round_fin false p ez (Zpos mx) ex); lia.
    + apply (@binary_round_fin true p ez (Zpos my) ey); lia.
Qed.

(** A difference of a finite number and a number is a number. *)
Lemma SFsub_fin_nao_nan x y :
  sf_fin x -> y <> S754_nan -> SF64sub x y <> S754_nan.
Proof.
  destruct x as [sx|sx| |sx mx ex], y as [sy|sy| |sy my ey];
    cbn [sf_fin]; intros Hx Hy; try contradiction; try discriminate.
  - destruct sx, sy; discriminate.
  - unfold SF64sub, SFsub, binary_normalize.
    match goal with |- match ?z with _ => _ end <> _ => destruct z as [|p|p] end;
      [discriminate| |].
    + pose proof (binary_round_signed false p (Z.min ex ey)) as Hs.
      intros E. change (IntDef.Z.min ex ey) with (Z.min ex ey) in E.
      rewrite E in Hs. exact Hs.
    + pose proof (binary_round_signed true p (Z.min ex ey)) as Hs.
      intros E. change (IntDef.Z.min ex ey) with (Z.min ex ey) in E.
      rewrite E in Hs. exact Hs.
Qed.

(** ** The same on the program's numbers *)

Local Open Scope float_scope.

Lemma limitado_mono j k x : (j <= k)%Z -> limitado j x -> limitado k x.
Proof. unfold limitado. apply sf_lim_mono. Qed.

Lemma limitado_finito k x : limitado k x -> finito x.
Proof. unfold limitado, finito. apply sf_lim_fin. Qed.

Lemma finito_nao_nan x : finito x -> is_nan x = false.
Proof.
  unfold finito. rewrite is_nan_spec. destruct (Prim2SF x); cbn; auto; contradiction.
Qed.

Lemma limitado_zero k : limitado k 0.
Proof. exact I. Qed.

Lemma add_limitado k x y :
  limitado k x -> limitado k y -> (-1074 <= k)%Z -> (k <= 1022)%Z ->
  limitado (k + 2) (x + y).
Proof. unfold limitado. rewrite FloatAxioms.add_spec. apply SFadd_lim. Qed.

Lemma sub_limitado k x y :
  limitado k x -> limitado k y -> (-1074 <= k)%Z -> (k <= 1022)%Z ->
  limitado (k + 2) (x - y).
Proof. unfold limitado. rewrite FloatAxioms.sub_spec. apply SFsub_lim. Qed.

Lemma mul_limitado j k x y :
  limitado j x -> limitado k y -> (-1074 <= j + k)%Z -> (j + k <= 900)%Z ->
  limitado (j + k + 1) (x * y).
Proof. unfold limitado. rewrite FloatAxioms.mul_spec. apply SFmul_lim. Qed.

Lemma div_limitado j k x y :
  limitado j x -> afastado k y -> (0 <= j - k)%Z -> (j - k <= 1000)%Z ->
  limitado (j - k + 2) (x / y).
Proof. unfold limitado, afastado. rewrite FloatAxioms.div_spec. apply SFdiv_lim. Qed.

Lemma abs_finito x : finito x -> finito (abs x).
Proof.
  unfold finito. rewrite FloatAxioms.abs_spec. destruct (Prim2SF x); cbn; auto.
Qed.

(** [|x| <= c] bounds [x] by the power of two above [c]. *)
Lemma leb_limitado x c mc ec :
  Prim2SF c = S754_finite false mc ec ->
  (abs x <=? c) = true -> limitado (Zpos (digits2_pos mc) + ec) x.
Proof.
  intros Hc. unfold limitado.
  rewrite FloatAxioms.leb_spec, FloatAxioms.abs_spec, Hc.
  apply SFleb_lim; [apply FloatAxioms.Prim2SF_valid|].
  pose proof (FloatAxioms.Prim2SF_valid c) as Hv. rewrite Hc in Hv. exact Hv.
Qed.

(** A finite [x] with [|x| < c] false is at least the power of two below
    [c] in magnitude. *)
Lemma nao_ltb_afastado x c mc ec :
  Prim2SF c = S754_finite false mc ec ->
  finito x -> (abs x <? c) = false -> afastado (Zpos (digits2_pos mc) + ec) x.
Proof.
  intros Hc. unfold finito, afastado.
  rewrite FloatAxioms.ltb_spec, FloatAxioms.abs_spec, Hc.
  apply SFltb_min; [apply FloatAxioms.Prim2SF_valid|].
  pose proof (FloatAxioms.Prim2SF_valid c) as Hv. rewrite Hc in Hv. exact Hv.
Qed.

(** A finite number divided by a positive one is a number. *)
Lemma div_finito_nao_nan x y : finito x -> (0 <? y) = true -> is_nan (x / y) = false.
Proof.
  intros Hx Hy. apply (@ltb_positivo 0) in Hy; [|reflexivity].
  rewrite is_nan_spec, FloatAxioms.div_spec.
  pose proof (@SFdiv_fin_pos (Prim2SF x) (Prim2SF y) Hx Hy) as Hn.
  destruct (SF64div (Prim2SF x) (Prim2SF y)); try reflexivity. contradiction Hn. reflexivity.
Qed.

Lemma sub_finito_nao_nan x y : finito x -> is_nan y = false -> is_nan (x - y) = false.
Proof.
  intros Hx Hy. rewrite is_nan_spec in Hy.
  rewrite is_nan_spec, FloatAxioms.sub_spec.
  assert (Hy' : Prim2SF y <> S754_nan) by (intros E; rewrite E in Hy; discriminate).
  pose proof (@SFsub_fin_nao_nan (Prim2SF x) (Prim2SF y) Hx Hy') as Hn.
  destruct (SF64sub (Prim2SF x) (Prim2SF y)); try reflexivity. contradiction Hn. reflexivity.
Qed.

Lemma is_finite_finito x : is_finite x = true -> finito x.
Proof.
  unfold is_finite, is_infinity, finito. intros H.
  apply negb_true_iff, orb_false_iff in H. destruct H as (Hn & Hi).
  rewrite is_nan_spec in Hn.
  rewrite FloatAxioms.eqb_spec, FloatAxioms.abs_spec in Hi.
  change (Prim2SF infinity) with (S754_infinity false) in Hi.
  destruct (Prim2SF x) as [s|s| |s m e]; cbn; auto; discriminate.
Qed.

Lemma precoValido_sf p :
  precoValido p -> finito p /\ sf_nonneg (Prim2SF p) = true.
Proof.
  intros (Hp & Hf). pose proof (is_finite_finito _ Hf) as Hfin. split; [exact Hfin|].
  unfold finito in Hfin. rewrite FloatAxioms.leb_spec in Hp.
  change (Prim2SF 0) with (S754_zero false) in Hp.
  destruct (Prim2SF p) as [s|s| |s m e]; cbn in *; try contradiction; auto;
    destruct s; auto; discriminate.
Qed.

(** The difference of two prices is finite. *)
Lemma sub_precos_finito a b : precoValido a -> precoValido b -> finito (a - b).
Proof.
  intros Ha Hb.
  destruct (precoValido_sf Ha) as (Fa & Na). destruct (precoValido_sf Hb) as (Fb & Nb).
  unfold finito. rewrite FloatAxioms.sub_spec.
  apply SFsub_nonneg_fin; auto; apply FloatAxioms.Prim2SF_valid.
Qed.

End FloatMagnitude.

(* ================================================================== *)
(** * The confidence of the persistent-momentum detector is a number   *)
(* ================================================================== *)

Section ConfidenceIsNumber.

Import JS Strategy Predicados FloatFacts FloatOrderFacts FloatMagnitude.
Local Open Scope float_scope.

Variable Math_log : float -> float.
Hypothesis Math_log_limitado : logLimitado Math_log.

(** ** Sums of bounded numbers *)

Lemma fold_add_limitado (f : float -> float) (k : Z) xs :
  forall acc (n : nat),
    (0 <= k)%Z -> (k + 2 * Z.of_nat (n + length xs) <= 1000)%Z ->
    Forall (fun x => limitado k (f x)) xs ->
    limitado (k + 2 * Z.of_nat n) acc ->
    limitado (k + 2 * Z.of_nat (n + length xs)) (fold_left (fun a x => a + f x) xs acc).
Proof.
  induction xs as [|x xs IH]; intros acc n Hk Hb Hall Hacc; cbn [fold_left length] in *.
  - rewrite Nat.add_0_r. exact Hacc.
  - inversion Hall as [|? ? Hx Hxs]; subst.
    replace (n + S (length xs))%nat with (S n + length xs)%nat in * by lia.
    apply IH; [exact Hk|exact Hb|exact Hxs|].
    replace (k + 2 * Z.of_nat (S n))%Z with (k + 2 * Z.of_nat n + 2)%Z by lia.
    apply add_limitado; [exact Hacc| |lia|lia].
    apply (@limitado_mono k); [lia|exact Hx].
Qed.

Lemma reduce_i_limitado (g : float -> nat -> float) (k : Z) xs :
  forall i acc (n : nat),
    (0 <= k)%Z -> (k + 2 * Z.of_nat (n + length xs) <= 1000)%Z ->
    (forall j x, nth_error xs j = Some x -> limitado k (g x (i + j)%nat)) ->
    limitado (k + 2 * Z.of_nat n) acc ->
    limitado (k + 2 * Z.of_nat (n + length xs))
      (reduce_i (fun a x i => a + g x i) xs i acc).
Proof.
  induction xs as [|x xs IH]; intros i acc n Hk Hb Hall Hacc; cbn [reduce_i length] in *.
  - rewrite Nat.add_0_r. exact Hacc.
  - replace (n + S (length xs))%nat with (S n + length xs)%nat in * by lia.
    apply IH; [exact Hk|exact Hb| |].
    + intros j y Hj. replace (S i + j)%nat with (i + S j)%nat by lia.
      apply Hall. exact Hj.
    + replace (k + 2 * Z.of_nat (S n))%Z with (k + 2 * Z.of_nat n + 2)%Z by lia.
      apply add_limitado; [exact Hacc| |lia|lia].
      apply (@limitado_mono k); [lia|].
      specialize (Hall 0%nat x eq_refl). rewrite Nat.add_0_r in Hall. exact Hall.
Qed.

Lemma at_index_Forall (P : float -> Prop) xs i :
  Forall P xs -> (i < length xs)%nat -> P (at_index xs i).
Proof.
  intros Hall Hi. unfold at_index.
  exact (proj1 (Forall_nth P xs) Hall i nan Hi).
Qed.

Lemma nth_error_Forall (P : float -> Prop) xs j x :
  Forall P xs -> nth_error xs j = Some x -> P x.
Proof.
  intros Hall Hj. apply nth_error_In in Hj.
  exact (proj1 (Forall_forall P xs) Hall x Hj).
Qed.

(** Up to 5 numbers below [2^k] sum to a number below [2^(k+10)]. *)
Lemma soma_limitado k xs :
  (0 <= k)%Z -> (k <= 900)%Z -> (length xs <= 5)%nat ->
  Forall (limitado k) xs -> limitado (k + 10) (soma xs).
Proof.
  intros Hk1 Hk2 Hlen Hall. unfold soma.
  apply (@limitado_mono (k + 2 * Z.of_nat (0 + length xs))); [lia|].
  change (fold_left add xs 0) with (fold_left (fun a x => a + (fun v => v) x) xs 0).
  apply fold_add_limitado; [lia|lia|exact Hall|exact I].
Qed.

(** A count between 2 and 5, as a number. *)
Lemma float_of_nat_pequeno n :
  (2 <= n)%nat -> (n <= 5)%nat ->
  limitado 3 (float_of_nat n) /\ afastado 2 (float_of_nat n).
Proof.
  intros H2 H5.
  destruct n as [|[|[|[|[|[|n]]]]]]; try lia;
    (split; vm_compute; intros E; discriminate E).
Qed.

(** ** The fit of the fast estimator *)

Section Ajuste.

Variables ranges scales : list float.
Hypothesis mesmo_comprimento : length ranges = length scales.
Hypothesis ao_menos_2 : (2 <= length ranges)%nat.
Hypothesis no_maximo_5 : (length ranges <= 5)%nat.
Hypothesis ranges_limitados : Forall (limitado 11) ranges.
Hypothesis scales_limitados : Forall (limitado 11) scales.

Lemma somaXY_limitado : limitado 33 (somaXY ranges scales).
Proof.
  unfold somaXY.
  apply (@limitado_mono (23 + 2 * Z.of_nat (0 + length scales))); [lia|].
  apply (@reduce_i_limitado (fun x i => x * at_index ranges i) 23 scales 0 0 0);
    [lia|lia| |exact I].
  intros j x Hj. cbn [Nat.add].
  apply (@mul_limitado 11 11); [| |lia|lia].
  - exact (@nth_error_Forall _ _ _ _ scales_limitados Hj).
  - apply at_index_Forall; [exact ranges_limitados|].
    assert (j < length scales)%nat by (apply nth_error_Some; rewrite Hj; discriminate).
    lia.
Qed.

Lemma somaX2_limitado : limitado 33 (somaX2 scales).
Proof.
  unfold somaX2.
  apply (@limitado_mono (23 + 2 * Z.of_nat (0 + length scales))); [lia|].
  apply (@fold_add_limitado (fun x => x * x) 23 scales 0 0); [lia|lia| |exact I].
  apply Forall_forall. intros x Hx.
  pose proof (proj1 (Forall_forall _ _) scales_limitados x Hx) as Lx.
  apply (@mul_limitado 11 11); [exact Lx|exact Lx|lia|lia].
Qed.

Lemma comprimento_limitado :
  limitado 3 (float_of_nat (length ranges)) /\ afastado 2 (float_of_nat (length ranges)).
Proof. apply float_of_nat_pequeno; assumption. Qed.

Lemma denominador_limitado : limitado 45 (denominador ranges scales).
Proof.
  unfold denominador.
  destruct comprimento_limitado as (Ln & _).
  pose proof (@soma_limitado 11 scales ltac:(lia) ltac:(lia) ltac:(lia) scales_limitados) as Sx.
  apply (@sub_limitado 43); [| |lia|lia].
  - apply (@limitado_mono (3 + 33 + 1)); [lia|].
    apply mul_limitado; [exact Ln|exact somaX2_limitado|lia|lia].
  - apply (@limitado_mono (21 + 21 + 1)); [lia|].
    apply mul_limitado; [exact Sx|exact Sx|lia|lia].
Qed.

Hypothesis denominador_afastado :
  (Math_abs (denominador ranges scales) <? 1e-10) = false.

Lemma inclinacao_limitado : limitado 80 (inclinacao ranges scales).
Proof.
  unfold inclinacao.
  destruct comprimento_limitado as (Ln & _).
  pose proof (@soma_limitado 11 scales ltac:(lia) ltac:(lia) ltac:(lia) scales_limitados) as Sx.
  pose proof (@soma_limitado 11 ranges ltac:(lia) ltac:(lia) ltac:(lia) ranges_limitados) as Sy.
  apply (@limitado_mono (45 - (-33) + 2)); [lia|].
  apply div_limitado; [| |lia|lia].
  - apply (@sub_limitado 43); [| |lia|lia].
    + apply (@limitado_mono (3 + 33 + 1)); [lia|].
      apply mul_limitado; [exact Ln|exact somaXY_limitado|lia|lia].
    + apply (@limitado_mono (21 + 21 + 1)); [lia|].
      apply mul_limitado; [exact Sx|exact Sy|lia|lia].
  - apply (@nao_ltb_afastado _ 1e-10 7737125245533627 (-86)); [reflexivity| |].
    + exact (@limitado_finito _ _ denominador_limitado).
    + exact denominador_afastado.
Qed.

Lemma ssRes_limitado :
  limitado 227 (ssResDe ranges scales (inclinacao ranges scales)).
Proof.
  unfold ssResDe.
  destruct comprimento_limitado as (Ln & An).
  pose proof (@soma_limitado 11 scales ltac:(lia) ltac:(lia) ltac:(lia) scales_limitados) as Sx.
  pose proof (@soma_limitado 11 ranges ltac:(lia) ltac:(lia) ltac:(lia) ranges_limitados) as Sy.
  pose proof inclinacao_limitado as Hs.
  set (slope := inclinacao ranges scales) in *.
  assert (Hi : limitado 104 ((soma ranges - slope * soma scales)
                             / float_of_nat (length ranges))).
  { apply (@limitado_mono (104 - 2 + 2)); [lia|].
    apply div_limitado; [|exact An|lia|lia].
    apply (@sub_limitado 102); [| |lia|lia].
    - apply (@limitado_mono 21); [lia|exact Sy].
    - apply (@limitado_mono (80 + 21 + 1)); [lia|].
      apply mul_limitado; [exact Hs|exact Sx|lia|lia]. }
  cbv zeta.
  set (intercept := (soma ranges - slope * soma scales) / float_of_nat (length ranges)) in *.
  apply (@limitado_mono (217 + 2 * Z.of_nat (0 + length ranges))); [lia|].
  apply (@reduce_i_limitado
           (fun y i => Math_pow2 (y - (intercept + slope * at_index scales i)))
           217 ranges 0 0 0); [lia|lia| |exact I].
  intros j y Hj. cbn [Nat.add]. unfold Math_pow2.
  assert (Hj' : (j < length scales)%nat).
  { assert (j < length ranges)%nat by (apply nth_error_Some; rewrite Hj; discriminate).
    lia. }
  assert (Hd : limitado 108 (y - (intercept + slope * at_index scales j))).
  { apply (@sub_limitado 106); [| |lia|lia].
    - apply (@limitado_mono 11); [lia|exact (@nth_error_Forall _ _ _ _ ranges_limitados Hj)].
    - apply (@add_limitado 104); [exact Hi| |lia|lia].
      apply (@limitado_mono (80 + 11 + 1)); [lia|].
      apply mul_limitado; [exact Hs| |lia|lia].
      apply at_index_Forall; [exact scales_limitados|exact Hj']. }
  apply (@mul_limitado 108 108); [exact Hd|exact Hd|lia|lia].
Qed.

End Ajuste.

(** The R2 of the fit of up to 5 bounded points is a number. *)
Lemma ajusteHurstRapido_r2_numero ranges scales :
  length ranges = length scales -> (length ranges <= 5)%nat ->
  Forall (limitado 11) ranges -> Forall (limitado 11) scales ->
  is_nan (r2_rapido (ajusteHurstRapido ranges scales)) = false.
Proof.
  intros Hlen H5 Hr Hs. unfold ajusteHurstRapido.
  destruct (Nat.ltb (length ranges) 2) eqn:E2; [reflexivity|].
  apply Nat.ltb_ge in E2.
  destruct (Math_abs (denominador ranges scales) <? 1e-10) eqn:Ed; [reflexivity|].
  cbn [r2_rapido].
  destruct (ssTotalDe ranges >? 0) eqn:Et; [|reflexivity].
  apply Math_max_nao_nan; [reflexivity|].
  apply sub_finito_nao_nan; [exact I|].
  apply div_finito_nao_nan; [|exact Et].
  apply (@limitado_finito 227).
  apply ssRes_limitado; assumption.
Qed.

(** ** The points of the fast estimator *)

Lemma Math_log_limitado_11 x :
  (0 <? x) = true -> isFinite x = true -> limitado 11 (Math_log x).
Proof.
  intros Hx Hf.
  apply (@leb_limitado _ 1024 4503599627370496 (-42)); [reflexivity|].
  apply Math_log_limitado; assumption.
Qed.

Lemma pontoEscala_limitados rsValues scale ranges scales n :
  (0 <? scale) = true -> isFinite scale = true ->
  pontosLimitados n (ranges, scales) ->
  pontosLimitados (S n) (pontoEscala Math_log rsValues scale ranges scales).
Proof.
  intros Hs Hf (H1 & H2 & H3 & H4). cbn [fst snd] in *.
  assert (Hsame : pontosLimitados (S n) (ranges, scales)).
  { split; [exact H1|]. split; [cbn [fst]; lia|]. split; assumption. }
  unfold pontoEscala.
  destruct (Nat.ltb 0 (length rsValues)); [|exact Hsame].
  match goal with |- context [if ?c then _ else _] => destruct c eqn:Ec end;
    [|exact Hsame].
  apply andb_prop in Ec. destruct Ec as (Ep & Ei).
  split; [|split; [|split]]; cbn [fst snd].
  - rewrite !length_app. cbn [length]. lia.
  - rewrite length_app. cbn [length]. lia.
  - apply Forall_app. split; [exact H3|].
    constructor; [|constructor]. apply Math_log_limitado_11; assumption.
  - apply Forall_app. split; [exact H4|].
    constructor; [|constructor]. apply Math_log_limitado_11; assumption.
Qed.

Lemma lacoEscalasRapido_limitados escalas diffs :
  Forall (fun e => (0 <? float_of_nat e) = true /\ isFinite (float_of_nat e) = true)
         escalas ->
  forall ranges scales n,
    pontosLimitados n (ranges, scales) ->
    pontosLimitados (n + length escalas)
      (lacoEscalasRapido Math_log escalas diffs ranges scales).
Proof.
  induction 1 as [|e escalas (He1 & He2) _ IH]; intros ranges scales n Hp;
    cbn [lacoEscalasRapido length].
  - rewrite Nat.add_0_r. exact Hp.
  - replace (n + S (length escalas))%nat with (S n + length escalas)%nat by lia.
    destruct (Nat.ltb (length diffs) (e * 2)).
    + apply IH. destruct Hp as (H1 & H2 & H3 & H4).
      split; [exact H1|]. split; [lia|]. split; assumption.
    + pose proof (@pontoEscala_limitados
                    (rsValores rsJanelaRapido diffs (float_of_nat e)) (float_of_nat e)
                    ranges scales n He1 He2 Hp) as Hp'.
      destruct (pontoEscala Math_log (rsValores rsJanelaRapido diffs (float_of_nat e))
                  (float_of_nat e) ranges scales) as [ranges' scales'].
      apply IH. exact Hp'.
Qed.

(** The R2 of the fast estimator is a number. *)
Lemma calcularHurstRapido_r2_numero ticks :
  is_nan (r2_rapido (calcularHurstRapido Math_log ticks)) = false.
Proof.
  unfold calcularHurstRapido.
  destruct (Nat.ltb (length (retornosLogRapido Math_log ticks)) 30); [reflexivity|].
  unfold pontosHurstRapido.
  pose proof (@lacoEscalasRapido_limitados [8; 12; 16; 24; 32]%nat
                (retornosLogRapido Math_log ticks)) as Hp.
  specialize (Hp ltac:(repeat constructor) [] [] 0%nat).
  specialize (Hp ltac:(repeat split; constructor)).
  destruct (lacoEscalasRapido Math_log [8; 12; 16; 24; 32]%nat
              (retornosLogRapido Math_log ticks) [] []) as [ranges scales].
  destruct Hp as (H1 & H2 & H3 & H4). cbn [fst snd length Nat.add] in *.
  apply ajusteHurstRapido_r2_numero; assumption.
Qed.

(** ** Force and efficiency *)

Lemma slice_last_Forall (P : float -> Prop) n xs :
  Forall P xs -> Forall P (slice_last n xs).
Proof.
  intros H. unfold slice_last.
  rewrite <- (firstn_skipn (length xs - n) xs) in H.
  apply Forall_app in H. apply H.
Qed.

(** The first and the last of the last [n] prices. *)
Lemma extremos_validos n ticks :
  Forall precoValido ticks -> (1 <= n)%nat -> (n <= length ticks)%nat ->
  precoValido (at_index (slice_last n ticks) (length (slice_last n ticks) - 1))
  /\ precoValido (at_index (slice_last n ticks) 0).
Proof.
  intros Hall H1 Hn.
  pose proof (@length_slice_last_eq _ n ticks Hn) as Hl.
  split; apply at_index_Forall; try (apply slice_last_Forall; exact Hall); lia.
Qed.

(** The net movement between two prices divided by a positive number. *)
Lemma quociente_numero a b sd :
  precoValido a -> precoValido b ->
  is_nan (if sd >? 0 then Math_abs (a - b) / sd else 0) = false.
Proof.
  intros Ha Hb. destruct (sd >? 0) eqn:E; [|reflexivity].
  apply div_finito_nao_nan; [|exact E].
  apply abs_finito, sub_precos_finito; assumption.
Qed.

(** The R2, the force and the efficiency of the persistent-momentum
    detector are numbers when the prices are finite and not negative. *)
Lemma momentumPersistent_metricas_numeros ticks h :
  Forall precoValido ticks ->
  let r := momentumPersistentStrategy Math_log ticks h in
  is_nan (mp_r2 r) = false /\ is_nan (forca r) = false /\ is_nan (eficiencia r) = false.
Proof.
  intros Hall. cbv zeta.
  unfold momentumPersistentStrategy.
  destruct (Nat.ltb (length ticks) 20) eqn:E20; [repeat split; reflexivity|].
  apply Nat.ltb_ge in E20.
  destruct (@extremos_validos 3 ticks Hall ltac:(lia) ltac:(lia)) as (A3 & B3).
  destruct (@extremos_validos 15 ticks Hall ltac:(lia) ltac:(lia)) as (A15 & B15).
  pose proof (calcularHurstRapido_r2_numero ticks) as Hr.
  split; [|split].
  - match goal with
    | |- context [if ?c then (hurst_rapido ?x, r2_rapido ?x) else ?e] => destruct c
    end; cbv zeta;
      repeat match goal with
             | |- context [if ?c then {| mp_base := _ |} else _] => destruct c
             end; first [exact Hr | reflexivity].
  - match goal with
    | |- context [let '(hurst, r2) := ?p in _] => destruct p
    end. cbv zeta.
    repeat match goal with
           | |- context [if ?c then {| mp_base := _ |} else _] => destruct c
           end; apply quociente_numero; assumption.
  - match goal with
    | |- context [let '(hurst, r2) := ?p in _] => destruct p
    end. cbv zeta.
    repeat match goal with
           | |- context [if ?c then {| mp_base := _ |} else _] => destruct c
           end; apply quociente_numero; assumption.
Qed.

(** With a logarithm that is bounded on the positive finite numbers and
    prices that are finite and not negative, the confidence of the
    persistent-momentum detector is a number of the unit interval. *)
Lemma momentumPersistent_confianca_precos ticks h :
  Forall precoValido ticks ->
  emUnidade (confianca (momentumPersistentStrategy Math_log ticks h)).
Proof.
  intros Hall.
  destruct (@momentumPersistent_metricas_numeros ticks h Hall) as (H1 & H2 & H3).
  apply (@momentumPersistent_confianca_numeros Math_log ticks h); assumption.
Qed.

End ConfidenceIsNumber.

Section DetectorConfidence.

Import JS Strategy Predicados.
Local Open Scope float_scope.

Variable Math_log : float -> float.

(** C8.  The confidence returned by the mean-reversion detector, by the
    confirmed-momentum detector and by the Hurst-regime detector lies in
    the closed interval from 0 to 1, for every list of numbers.  So does
    the confidence returned by the persistent-momentum detector, whatever
    Hurst value the caller supplies, for every list of prices, a price
    being a finite number that is not negative (what the tick stream
    delivers, and the 0 the bot stores for a missing quote), provided
    [Math.log] is at most 1024 in magnitude on the positive finite numbers,
    as the natural logarithm is.  On arbitrary numbers the
    persistent-momentum confidence is never a number outside the interval:
    it lies in the interval or is NaN. *)
Theorem confidence_in_unit_interval :
  (forall ticks, emUnidade (confianca (estrategiaMeanReversion ticks)))
  /\ (forall ticks, emUnidade (confianca (estrategiaMomentumConfirmado ticks)))
  /\ (forall ticks, emUnidade (confianca (estrategiaHurst Math_log ticks)))
  /\ (forall ticks hurstHistorico,
         logLimitado Math_log -> Forall precoValido ticks ->
         emUnidade
           (confianca (momentumPersistentStrategy Math_log ticks hurstHistorico)))
  /\ (forall ticks hurstHistorico,
         emUnidadeOuNaN
           (confianca (momentumPersistentStrategy Math_log ticks hurstHistorico))).
Proof.
  split; [exact meanReversion_confianca|].
  split; [exact momentumConfirmado_confianca|].
  split; [exact (hurst_confianca Math_log)|].
  split.
  - intros ticks h Hlog Hall.
    exact (@momentumPersistent_confianca_precos Math_log Hlog ticks h Hall).
  - exact (momentumPersistent_confianca Math_log).
Qed.

End DetectorConfidence.

(* ================================================================== *)
(** * More runs of the detectors on concrete price lists               *)
(* ================================================================== *)

Section DetectorRuns.

Import JS Strategy Predicados Exemplos.
Local Open Scope float_scope.

Lemma detectors_read_only_their_window_witness :
  estrategiaMeanReversion precosSubindo
  = estrategiaMeanReversion (slice_last 20 precosSubindo)
  /\ estrategiaMomentumConfirmado precosSubindo
     = estrategiaMomentumConfirmado (slice_last 15 precosSubindo).
Proof.
  destruct (detectors_read_only_their_window precosSubindo) as [H1 H2].
  split; [apply H1 | apply H2]; vm_compute; lia.
Defined.

(** Four rises in a row give PUT, four falls in a row CALL, both by the
    alternative rule. *)
Lemma momentum_confirmado_signals_after_a_run_witness :
  let r := estrategiaMomentumConfirmado precosSubindo in
  let q := estrategiaMomentumConfirmado precosDescendo in
  (sinal r = PUT /\ razao r = SequenciaLongaDeAltas /\ sinal q = CALL)
  /\ (3 <= consecutivas r /\ direcao r = ALTA
      /\ Forall (fun d => (d >? 0) = true)
           (firstn (consecutivas r) (rev (diferencas (slice_last 5 precosSubindo)))))
  /\ (3 <= consecutivas q /\ direcao q = BAIXA
      /\ Forall (fun d => (d <? 0) = true)
           (firstn (consecutivas q) (rev (diferencas (slice_last 5 precosDescendo)))))
  /\ (consecutivas r = 4%nat /\ confianca r = 0.45).
Proof.
  cbv zeta.
  assert (H1 : sinal (estrategiaMomentumConfirmado precosSubindo) = PUT)
    by (vm_compute; reflexivity).
  assert (H2 : razao (estrategiaMomentumConfirmado precosSubindo) = SequenciaLongaDeAltas)
    by (vm_compute; reflexivity).
  assert (H3 : sinal (estrategiaMomentumConfirmado precosDescendo) = CALL)
    by (vm_compute; reflexivity).
  pose proof (momentum_confirmado_signals_after_a_run precosSubindo) as A.
  pose proof (momentum_confirmado_signals_after_a_run precosDescendo) as B.
  cbv zeta in A, B.
  destruct A as (_ & A1 & _ & A3). destruct B as (_ & _ & B2 & _).
  split; [split; [exact H1 | split; [exact H2 | exact H3]]|].
  split; [exact (A1 H1)|]. split; [exact (B2 H3)|]. exact (A3 (or_introl H2)).
Defined.

(** 30 rising prices with the Hurst value 0.7 supplied give CALL by the
    main rule, 30 falling prices PUT. *)
Lemma persistent_momentum_follows_majority_witness :
  let r := momentumPersistentStrategy log_approx precosSubindo (Some 0.7) in
  let q := momentumPersistentStrategy log_approx precosDescendo (Some 0.7) in
  (sinal r = CALL /\ razao r = TendenciaAlta /\ sinal q = PUT /\ razao q = TendenciaBaixa)
  /\ ((hurst r >? 0.58) = true
      /\ 2 <= contar ALTA [direcaoCurta r; direcaoMedia r; direcaoLonga r])
  /\ ((hurst q >? 0.58) = true
      /\ 2 <= contar BAIXA [direcaoCurta q; direcaoMedia q; direcaoLonga q])
  /\ [direcaoCurta r; direcaoMedia r; direcaoLonga r] = [ALTA; ALTA; ALTA]
  /\ [direcaoCurta q; direcaoMedia q; direcaoLonga q] = [BAIXA; BAIXA; BAIXA].
Proof.
  cbv zeta.
  assert (H1 : sinal (momentumPersistentStrategy log_approx precosSubindo (Some 0.7)) = CALL)
    by (vm_compute; reflexivity).
  assert (H2 : razao (momentumPersistentStrategy log_approx precosSubindo (Some 0.7))
               = TendenciaAlta) by (vm_compute; reflexivity).
  assert (H3 : sinal (momentumPersistentStrategy log_approx precosDescendo (Some 0.7)) = PUT)
    by (vm_compute; reflexivity).
  assert (H4 : razao (momentumPersistentStrategy log_approx precosDescendo (Some 0.7))
               = TendenciaBaixa) by (vm_compute; reflexivity).
  pose proof (persistent_momentum_follows_majority log_approx precosSubindo (Some 0.7)) as A.
  pose proof (persistent_momentum_follows_majority log_approx precosDescendo (Some 0.7)) as B.
  cbv zeta in A, B.
  destruct A as (A1 & _ & A3 & _). destruct B as (_ & B2 & _ & B4).
  split; [split; [exact H1 | split; [exact H2 | split; [exact H3 | exact H4]]]|].
  split; [exact (A1 H1)|]. split; [exact (B2 H3)|].
  split; [exact (proj2 (A3 H2)) | exact (proj2 (B4 H4))].
Defined.

(** 50 rising prices are persistent and going up (CALL), 50 falling prices
    persistent and going down (PUT); prices that are flat but for the last
    four are classified as random (HOLD). *)
Lemma hurst_regime_signal_is_consistent_witness :
  let r := estrategiaHurst log_approx janelaSubindo in
  let q := estrategiaHurst log_approx janelaDescendo in
  let n := estrategiaHurst log_approx precosFinalAgitado in
  (sinal r = CALL /\ sinal q = PUT /\ comportamento n = ALEATORIO)
  /\ ((he_r2 r >? 0.5) = true
      /\ ((comportamento r = PERSISTENTE /\ direcaoAtual r = ALTA)
          \/ (comportamento r = ANTIPERSISTENTE /\ direcaoAtual r = BAIXA)))
  /\ ((he_r2 q >? 0.5) = true
      /\ ((comportamento q = PERSISTENTE /\ direcaoAtual q = BAIXA)
          \/ (comportamento q = ANTIPERSISTENTE /\ direcaoAtual q = ALTA)))
  /\ sinal n = HOLD.
Proof.
  cbv zeta.
  assert (H1 : sinal (estrategiaHurst log_approx janelaSubindo) = CALL)
    by (vm_compute; reflexivity).
  assert (H2 : sinal (estrategiaHurst log_approx janelaDescendo) = PUT)
    by (vm_compute; reflexivity).
  assert (H3 : comportamento (estrategiaHurst log_approx precosFinalAgitado) = ALEATORIO)
    by (vm_compute; reflexivity).
  pose proof (hurst_regime_signal_is_consistent log_approx janelaSubindo) as A.
  pose proof (hurst_regime_signal_is_consistent log_approx janelaDescendo) as B.
  pose proof (hurst_regime_signal_is_consistent log_approx precosFinalAgitado) as C.
  cbv zeta in A, B, C.
  destruct A as (A1 & _ & _). destruct B as (_ & B2 & _). destruct C as (_ & _ & C3).
  split; [split; [exact H1 | split; [exact H2 | exact H3]]|].
  split; [exact (A1 H1)|]. split; [exact (B2 H2)|]. exact (C3 (or_introl H3)).
Defined.

(** On 30 prices the supplied value 0.7 is used; on 50 prices with no
    value supplied the fast estimator is. *)
Lemma persistent_momentum_hurst_source_witness :
  let r := momentumPersistentStrategy log_approx precosSubindo (Some 0.7) in
  let q := momentumPersistentStrategy log_approx janelaSubindo None in
  (20 <= length precosSubindo /\ length precosSubindo < 50 /\ truthy 0.7 = true
   /\ 50 <= length janelaSubindo)
  /\ (hurst r = 0.7 /\ mp_r2 r = 0.8)
  /\ (hurst q = hurst_rapido (calcularHurstRapido log_approx janelaSubindo)
      /\ mp_r2 q = r2_rapido (calcularHurstRapido log_approx janelaSubindo)).
Proof.
  cbv zeta.
  assert (H1 : 20 <= length precosSubindo) by (vm_compute; lia).
  assert (H2 : length precosSubindo < 50) by (vm_compute; lia).
  assert (H3 : truthy 0.7 = true) by (vm_compute; reflexivity).
  assert (H4 : 50 <= length janelaSubindo) by (vm_compute; lia).
  assert (H5 : 20 <= length janelaSubindo) by (vm_compute; lia).
  pose proof (@persistent_momentum_hurst_source log_approx precosSubindo (Some 0.7) H1) as A.
  pose proof (@persistent_momentum_hurst_source log_approx janelaSubindo None H5) as B.
  cbv zeta in A, B.
  destruct A as (A1 & _ & _). destruct B as (_ & _ & B3).
  split; [split; [exact H1 | split; [exact H2 | split; [exact H3 | exact H4]]]|].
  split; [exact (A1 0.7 eq_refl H3)|]. exact (B3 H4 eq_refl).
Defined.


Lemma log_limitado_ok : logLimitado log_limitado.
Proof.
  intros x _ _. unfold log_limitado.
  destruct (Math_abs (log_approx x) <=? 1024) eqn:E; [exact E|reflexivity].
Qed.

(** The bot's call, a full window of 50 prices and no Hurst value, which
    gets the signal CALL; and the zigzag with the Hurst value 0.7. *)
Lemma confidence_in_unit_interval_witness :
  (Forall precoValido janelaSubindo /\ Forall precoValido precosZigueZague)
  /\ (sinal (momentumPersistentStrategy log_limitado janelaSubindo None) = CALL
      /\ emUnidade (confianca (momentumPersistentStrategy log_limitado janelaSubindo None)))
  /\ emUnidade
       (confianca (momentumPersistentStrategy log_limitado precosZigueZague (Some 0.7))).
Proof.
  assert (H1 : Forall precoValido janelaSubindo) by (vm_compute; repeat constructor).
  assert (H2 : Forall precoValido precosZigueZague) by (vm_compute; repeat constructor).
  destruct (confidence_in_unit_interval log_limitado) as (_ & _ & _ & H4 & _).
  split; [split; assumption|].
  split; [split; [vm_compute; reflexivity|]|].
  - apply H4; [exact log_limitado_ok|exact H1].
  - apply H4; [exact log_limitado_ok|exact H2].
Defined.

(** The prices must not be negative for the confidence to be a number.  On
    these 20 numbers, one of them [-1e308], with the Hurst value 0.7
    supplied by the caller, the three directions are up and the detector
    returns the signal CALL; the total movement of the last 15 numbers and
    their net movement both overflow to [Infinity], the efficiency is their
    quotient NaN, and so is the confidence. *)
Lemma persistent_momentum_confidence_nan :
  length precosExtremos = 20%nat
  /\ (0 <=? at_index precosExtremos 5) = false
  /\ sinal (momentumPersistentStrategy log_approx precosExtremos (Some 0.7)) = CALL
  /\ is_nan (eficiencia (momentumPersistentStrategy log_approx precosExtremos (Some 0.7)))
     = true
  /\ is_nan (confianca (momentumPersistentStrategy log_approx precosExtremos (Some 0.7)))
     = true.
Proof. repeat split; vm_compute; reflexivity. Qed.

End DetectorRuns.

(* ================================================================== *)
(** * More runs of the handlers on concrete states                     *)
(* ================================================================== *)

Section HandlerRuns.

Import JS Bot Exemplos.
Local Open Scope float_scope.

(** A run that buys three times and polls once: the intervals 0 and 1 are
    cleared, the interval 2 is the only one left. *)
Lemma watchdog_interval_is_unique_witness :
  let evs := [EvTicks 1 false (History (Some janelaSubindo)); EvCompra (Some 42%Z);
              EvWatchdog 3; EvCompra (Some 43%Z); EvCompra (Some 44%Z); EvStop 9] in
  let s' := executar log_approx stakeFixo corretoraPerdido evs estadoInicial in
  umSoIntervalo estadoInicial
  /\ umSoIntervalo s' /\ (length (intervalosAtivos s') <= 1)%nat.
Proof.
  cbv zeta.
  assert (H0 : umSoIntervalo estadoInicial) by reflexivity.
  split; [exact H0|].
  exact (@watchdog_interval_is_unique _ _ log_approx stakeFixo corretoraPerdido
           [EvTicks 1 false (History (Some janelaSubindo)); EvCompra (Some 42%Z);
            EvWatchdog 3; EvCompra (Some 43%Z); EvCompra (Some 44%Z); EvStop 9]
           estadoInicial H0).
Defined.

(** The contract 42 is pending; the broker answers the poll with its lost
    status, or with an error. *)
Lemma poll_settled_is_applied_once_witness :
  let s := estadoComContrato in
  let s' := aoDispararWatchdog corretoraPerdido 5 s in
  (lastContractIntervalId s = Some 0%nat /\ lastContractId s = Some 42%Z
   /\ (retryToGetLastTradeCount s < 2)%nat)
  /\ (tradesSalvos s'
      = tradesSalvos s
        ++ [{| isWin := false; stake := 0.35; tr_profit := - 0.35;
               balanceAfter := getCurrentBalance (moneyManager s) - 0.35 |}]
      /\ moneyManager s' = updateLastTrade (moneyManager s) false
      /\ consecutiveWins s' = O
      /\ lastContractId s' = None /\ lastContractIntervalId s' = None
      /\ isTrading s' = false /\ tickCount s' = O /\ retryToGetLastTradeCount s' = O
      /\ intervalosAtivos s' = remove Nat.eq_dec 0%nat (intervalosAtivos s)
      /\ vigiar corretoraPerdido 6 3 s' = s')
  /\ aoDispararWatchdog corretoraComErro 5 s = efeito (ApiOpenContract 42) s.
Proof.
  cbv zeta.
  assert (H1 : lastContractIntervalId estadoComContrato = Some 0%nat) by reflexivity.
  assert (H2 : lastContractId estadoComContrato = Some 42%Z) by reflexivity.
  assert (H3 : 42%Z <> 0%Z) by (intros E; inversion E).
  assert (H4 : (retryToGetLastTradeCount estadoComContrato < 2)%nat) by (vm_compute; lia).
  split; [split; [exact H1 | split; [exact H2 | exact H4]]|].
  pose proof (@poll_settled_is_applied_once _ _ corretoraPerdido 5%Z 42%Z 0%nat
                estadoComContrato H1 H2 H3 H4) as A.
  pose proof (@poll_settled_is_applied_once _ _ corretoraComErro 5%Z 42%Z 0%nat
                estadoComContrato H1 H2 H3 H4) as B.
  destruct A as [A _]. destruct B as [_ B].
  pose proof (A contratoPerdido st_lost eq_refl eq_refl eq_refl) as A'. cbv zeta in A'.
  destruct A' as (T1 & T2 & T3 & T4 & T5 & T6 & T7 & T8 & T9 & T10).
  split.
  - split; [exact T1|]. split; [exact T2|]. split; [exact T3|]. split; [exact T4|].
    split; [exact T5|]. split; [exact T6|]. split; [exact T7|]. split; [exact T8|].
    split; [exact T9 | exact (T10 corretoraPerdido 6%Z 3%nat)].
  - exact (B eq_refl).
Defined.

(** The bot is stopped while the contract 42 is pending; the next poll
    still records the loss. *)
Lemma stop_keeps_pending_contract_watched_witness :
  let s := estadoComContrato in
  let s' := aoDispararWatchdog corretoraPerdido 5 (stopBot 4 s) in
  (lastContractIntervalId s = Some 0%nat /\ lastContractId s = Some 42%Z)
  /\ tradesSalvos s'
     = tradesSalvos s
       ++ [{| isWin := false; stake := 0.35; tr_profit := - 0.35;
              balanceAfter := getCurrentBalance (moneyManager s) - 0.35 |}]
  /\ moneyManager s' = updateLastTrade (moneyManager s) false
  /\ lastContractId s' = None /\ lastContractIntervalId s' = None
  /\ intervalosAtivos s' = remove Nat.eq_dec 0%nat (intervalosAtivos s).
Proof.
  cbv zeta.
  assert (H1 : lastContractIntervalId estadoComContrato = Some 0%nat) by reflexivity.
  assert (H2 : lastContractId estadoComContrato = Some 42%Z) by reflexivity.
  assert (H3 : 42%Z <> 0%Z) by (intros E; inversion E).
  split; [split; [exact H1 | exact H2]|].
  exact (@stop_keeps_pending_contract_watched _ _ corretoraPerdido 4%Z 5%Z 42%Z 0%nat
           contratoPerdido st_lost estadoComContrato H1 H2 H3 eq_refl eq_refl eq_refl).
Defined.

(** A history of 50 prices rising by 0.1 arrives with the filters on: the
    detector says CALL and the stake 0.35 is requested. *)
Lemma buy_request_is_guarded_witness :
  let s := estadoInicial in
  let s1 := aoReceberTicks 1 (History (Some janelaSuave)) s in
  let r := aoTick log_approx stakeFixo 1 true (History (Some janelaSuave)) s in
  In (ApiBuy 0.35 Strategy.CALL) (snd r)
  /\ (isAuthorized s = true /\ botRunning s = true /\ isTrading s = false)
  /\ (Strategy.CALL
      = Strategy.sinal (Strategy.mp_base
          (Strategy.momentumPersistentStrategy log_approx (janela s1) None))
      /\ Strategy.CALL <> Strategy.HOLD /\ (20 <= length (janela s1))%nat
      /\ filtrosBloqueiam (janela s1) = false)
  /\ (stakeFixo (moneyManager s) = (0.35, moneyManager (fst r))
      /\ (0.35 <? 0.35) = false
      /\ (getCurrentBalance (moneyManager (fst r)) <? 0.35) = false)
  /\ snd r = [SinalIdentificado 0.35; ApiBuy 0.35 Strategy.CALL]
  /\ (isTrading (fst r) = false /\ lastContractId (fst r) = lastContractId s
      /\ lastContractIntervalId (fst r) = lastContractIntervalId s
      /\ efeitos (fst r) = efeitos s).
Proof.
  cbv zeta.
  assert (H0 : In (ApiBuy 0.35 Strategy.CALL)
                 (snd (aoTick log_approx stakeFixo 1 true (History (Some janelaSuave))
                         estadoInicial)))
    by (vm_compute; right; left; reflexivity).
  split; [exact H0|].
  pose proof (@buy_request_is_guarded _ _ log_approx stakeFixo 1%Z true
                (History (Some janelaSuave)) estadoInicial 0.35 Strategy.CALL H0) as A.
  cbv zeta in A.
  destruct A as (A1 & (A2 & A3 & A4 & A5) & A6 & A7 & A8).
  split; [exact A1|].
  split; [split; [exact A2 | split; [exact A3 | split; [exact A4 | exact (A5 eq_refl)]]]|].
  split; [exact A6|]. split; [exact A7 | exact A8].
Defined.

(** After the purchase of the contract 42, three ticks leave the trade in
    progress and the eleventh releases it. *)
Lemma in_trade_ticks_are_counted_witness :
  let s := estadoComContrato in
  let r3 := aoTicks log_approx stakeFixo false (ticksA100 3) s in
  let r11 := aoTicks log_approx stakeFixo false (ticksA100 11) s in
  (isAuthorized s = true /\ botRunning s = true /\ isTrading s = true
   /\ (tickCount s + length (ticksA100 3) < 11)%nat
   /\ (tickCount s + length (ticksA100 11) = 11)%nat)
  /\ (isTrading (fst r3) = true
      /\ tickCount (fst r3) = (tickCount s + length (ticksA100 3))%nat)
  /\ (isTrading (fst r11) = false /\ tickCount (fst r11) = O)
  /\ (snd r11 = [] /\ lastContractId (fst r11) = lastContractId s
      /\ lastContractIntervalId (fst r11) = lastContractIntervalId s
      /\ efeitos (fst r11) = efeitos s /\ moneyManager (fst r11) = moneyManager s).
Proof.
  cbv zeta.
  assert (H1 : isAuthorized estadoComContrato = true) by reflexivity.
  assert (H2 : botRunning estadoComContrato = true) by reflexivity.
  assert (H3 : isTrading estadoComContrato = true) by reflexivity.
  assert (H4 : (tickCount estadoComContrato + length (ticksA100 3) < 11)%nat)
    by (vm_compute; lia).
  assert (H5 : (tickCount estadoComContrato + length (ticksA100 11) = 11)%nat)
    by (vm_compute; reflexivity).
  assert (H6 : ticksA100 11 <> []) by (intros E; inversion E).
  assert (H7 : (tickCount estadoComContrato + length (ticksA100 11) <= 11)%nat)
    by (rewrite H5; apply le_n).
  split; [split; [exact H1 | split; [exact H2 | split; [exact H3 | split;
            [exact H4 | exact H5]]]]|].
  pose proof (@in_trade_ticks_are_counted _ _ log_approx stakeFixo false (ticksA100 3)
                estadoComContrato H1 H2 H3) as A.
  pose proof (@in_trade_ticks_are_counted _ _ log_approx stakeFixo false (ticksA100 11)
                estadoComContrato H1 H2 H3) as B.
  cbv zeta in A, B.
  destruct A as (A1 & _ & _). destruct B as (_ & B2 & B3).
  split; [exact (A1 H4)|]. split; [exact (B2 H6 H5) | exact (B3 H7)].
Defined.

(** A history of 19 prices followed by 30 ticks: nothing is requested
    and no call is made. *)
Lemma short_window_never_trades_witness :
  let r := aoTicks log_approx stakeFixo false (ticksA100 30) estadoJanela19 in
  ((length (janela estadoJanela19) < 20)%nat /\ botRunning estadoJanela19 = true)
  /\ snd r = [] /\ janela (fst r) = janela estadoJanela19
  /\ botRunning (fst r) = true
  /\ efeitos (fst r) = efeitos estadoJanela19.
Proof.
  cbv zeta.
  assert (H1 : (length (janela estadoJanela19) < 20)%nat) by (vm_compute; lia).
  assert (H2 : Forall (fun m : Z * MensagemTicks => forall prices, snd m <> History prices)
                 (ticksA100 30)).
  { unfold ticksA100. apply Forall_forall. intros m Hm.
    apply in_map_iff in Hm. destruct Hm as (k & <- & _).
    intros prices E. inversion E. }
  split; [split; [exact H1 | reflexivity]|].
  pose proof (@short_window_never_trades _ _ log_approx stakeFixo false (ticksA100 30)
                estadoJanela19 H1 H2) as A.
  cbv zeta in A. destruct A as (A1 & A2 & A3 & A4).
  split; [exact A1|]. split; [exact A2|]. split; [exact A3|].
  rewrite A4. apply app_nil_r.
Defined.

(** The detector says CALL on the window, but the balance is 0.20. *)
Lemma low_stake_stops_without_buying_witness :
  let s := estadoSaldoBaixo in
  let mm := moneyManager s in
  let r := faseDeTrade log_approx stakeFixo 1 false s in
  (isAuthorized s = true /\ botRunning s = true /\ isTrading s = false
   /\ stakeFixo (moneyManager s) = (0.35, mm)
   /\ (getCurrentBalance mm <? 0.35) = true)
  /\ snd r = [AlertaCritico (getCurrentBalance mm)]
  /\ efeitos (fst r)
     = efeitos s ++ map Unsubscribe (activeSubscriptions s)
       ++ [SendMessage MsgBotParado; SendMessage MsgBotParado]
  /\ (activeSubscriptions (fst r) = [] /\ isAuthorized (fst r) = false
      /\ isTrading (fst r) = false /\ janela (fst r) = [])
  /\ (botRunning (fst r) = true /\ moneyManager (fst r) = mm
      /\ lastContractId (fst r) = lastContractId s
      /\ lastContractIntervalId (fst r) = lastContractIntervalId s
      /\ intervalosAtivos (fst r) = intervalosAtivos s).
Proof.
  cbv zeta.
  assert (H1 : isAuthorized estadoSaldoBaixo = true) by reflexivity.
  assert (H2 : botRunning estadoSaldoBaixo = true) by reflexivity.
  assert (H3 : isTrading estadoSaldoBaixo = false) by reflexivity.
  assert (H4 : Strategy.sinal (Strategy.mp_base
                 (Strategy.momentumPersistentStrategy log_approx (janela estadoSaldoBaixo)
                    None)) <> Strategy.HOLD)
    by (vm_compute; intros E; inversion E).
  assert (H5 : false && filtrosBloqueiam (janela estadoSaldoBaixo) = false) by reflexivity.
  assert (H6 : stakeFixo (moneyManager estadoSaldoBaixo)
               = (0.35, moneyManager estadoSaldoBaixo)) by reflexivity.
  assert (H7 : (getCurrentBalance (moneyManager estadoSaldoBaixo) <? 0.35) = true)
    by (vm_compute; reflexivity).
  split; [split; [exact H1 | split; [exact H2 | split; [exact H3 | split;
            [exact H6 | exact H7]]]]|].
  exact (@low_stake_stops_without_buying _ _ log_approx stakeFixo 1%Z false estadoSaldoBaixo
           0.35 (moneyManager estadoSaldoBaixo) H1 H2 H3 H4 H5 H6 (or_intror H7)).
Defined.

(** The bot is marked as stopped with the contract 42 pending: the push of
    its won status and a tick only remove the two subscriptions. *)
Lemma stopped_bot_drops_stream_events_witness :
  let evs := [EvContrato 1 (Some contratoGanho); EvTicks 2 false (Tick (Some 100))] in
  let s' := executar log_approx stakeFixo corretoraAberto evs estadoParado in
  botRunning estadoParado = false
  /\ efeitos s'
     = efeitos estadoParado ++ [Unsubscribe SubContracts; Unsubscribe SubTicks]
  /\ tradesSalvos s' = tradesSalvos estadoParado
  /\ moneyManager s' = moneyManager estadoParado
  /\ consecutiveWins s' = consecutiveWins estadoParado
  /\ lastContractId s' = lastContractId estadoParado
  /\ lastContractIntervalId s' = lastContractIntervalId estadoParado
  /\ ticksMap s' = ticksMap estadoParado /\ botRunning s' = false.
Proof.
  cbv zeta.
  assert (H1 : botRunning estadoParado = false) by reflexivity.
  split; [exact H1|].
  refine (@stopped_bot_drops_stream_events _ _ log_approx stakeFixo corretoraAberto
            [EvContrato 1 (Some contratoGanho); EvTicks 2 false (Tick (Some 100))]
            estadoParado H1 _).
  constructor; [exact I|]. constructor; [exact I|]. constructor.
Defined.

(** A history of 50 prices and three ticks, one without a quote and one
    quoted at 0: no stake check fails, and the window holds the last 47
    prices of the history and 200, 0, 0.  With a balance of 0.20 the stake
    check fails on the history, and the window is empty after the ticks. *)
Lemma window_holds_most_recent_prices_witness :
  let quotes := [(1%Z, Some 200); (2%Z, None); (3%Z, Some 0)] in
  let msgs := (0%Z, History (Some janelaSubindo))
              :: map (fun q => (fst q, Tick (snd q))) quotes in
  let r := aoTicks log_approx stakeFixo false msgs estadoInicial in
  let q := aoTicks log_approx stakeFixo false msgs estadoSaldoBaixo in
  (50 <= length janelaSubindo)%nat
  /\ janela (fst r)
     = slice_last (length janelaSubindo)
         (janelaSubindo ++ map (fun q => ouZeroSeFalso (snd q)) quotes)
  /\ (In (AlertaCritico 0.2) (snd q) /\ janela (fst q) = []).
Proof.
  cbv zeta.
  assert (H1 : botRunning estadoInicial = true) by reflexivity.
  assert (H1' : botRunning estadoSaldoBaixo = true) by reflexivity.
  assert (H2 : (50 <= length janelaSubindo)%nat) by (vm_compute; lia).
  split; [exact H2|]. split.
  - refine (proj1 (@window_holds_most_recent_prices _ _ log_approx stakeFixo false 0%Z
                     janelaSubindo [(1%Z, Some 200); (2%Z, None); (3%Z, Some 0)]
                     estadoInicial H1 H2) _).
    clear. intros saldo Hin. vm_compute in Hin.
    repeat (destruct Hin as [Hin|Hin]; [inversion Hin|]). exact Hin.
  - assert (Hin : In (AlertaCritico 0.2)
                    (snd (aoTicks log_approx stakeFixo false
                            ((0%Z, History (Some janelaSubindo))
                             :: map (fun q => (fst q, Tick (snd q)))
                                  [(1%Z, Some 200); (2%Z, None); (3%Z, Some 0)])
                            estadoSaldoBaixo)))
      by (vm_compute; left; reflexivity).
    split; [exact Hin|].
    refine (proj2 (@window_holds_most_recent_prices _ _ log_approx stakeFixo false 0%Z
                     janelaSubindo [(1%Z, Some 200); (2%Z, None); (3%Z, Some 0)]
                     estadoSaldoBaixo H1' H2) _).
    exists 0.2. exact Hin.
Defined.

(** The contract 42 is pending and the broker refuses every status
    request: over a run of watchdog firings, ticks, a push and a new
    purchase, with no stop, two authorizations are requested in all. *)
Lemma auth_failure_retry_bounded_witness :
  let env := corretoraSemAutorizacao in
  let s := estadoComContrato in
  let s1 :=
    authorize env
      (set_retryToGetLastTradeCount (S (retryToGetLastTradeCount s))
         (efeito (ApiOpenContract 42) s)) in
  let evs := [EvWatchdog 1; EvTicks 2 false (Tick (Some 100)); EvWatchdog 3;
              EvContrato 4 (Some contratoGanho); EvCompra (Some 43%Z); EvWatchdog 5] in
  let s' := executar log_approx stakeFixo env evs s in
  ((retryToGetLastTradeCount s < 2)%nat
   /\ respostaContrato env (quantos eApiOpenContract s) = AuthorizationRequired
   /\ quantos eBotParado s' = quantos eBotParado s)
  /\ (getLastTradeResult env 5 (Some 42%Z) s = getLastTradeResult env 5 (Some 42%Z) s1
      /\ quantos eApiAuthorize s1 = S (quantos eApiAuthorize s)
      /\ retryToGetLastTradeCount s1 = S (retryToGetLastTradeCount s))
  /\ ((quantos eApiAuthorize (vigiar env 5 7 s) + retryToGetLastTradeCount s
       <= quantos eApiAuthorize s + 2)%nat
      /\ (retryToGetLastTradeCount (vigiar env 5 7 s) <= 2)%nat)
  /\ getLastTradeResult env 5 (Some 42%Z) (vigiar env 5 7 s) = vigiar env 5 7 s
  /\ ((retryToGetLastTradeCount s' <= 2)%nat
      /\ (quantos eApiAuthorize s' + retryToGetLastTradeCount s
          = quantos eApiAuthorize s + retryToGetLastTradeCount s')%nat
      /\ (quantos eApiAuthorize s' <= quantos eApiAuthorize s + 2)%nat)
  /\ (retryToGetLastTradeCount (stopBot 6 s') = O
      /\ lastContractId (stopBot 6 s') = lastContractId s'
      /\ lastContractIntervalId (stopBot 6 s') = lastContractIntervalId s'
      /\ quantos eBotParado (stopBot 6 s') = S (quantos eBotParado s')).
Proof.
  intros env s s1 evs s'.
  assert (H0 : 42%Z <> 0%Z) by (intros E; inversion E).
  assert (H1 : (retryToGetLastTradeCount s < 2)%nat) by (vm_compute; lia).
  assert (H2 : respostaContrato env (quantos eApiOpenContract s) = AuthorizationRequired)
    by reflexivity.
  assert (H3 : (retryToGetLastTradeCount s <= 2)%nat) by (vm_compute; lia).
  assert (H4 : (2 <= retryToGetLastTradeCount (vigiar env 5 7 s))%nat) by (vm_compute; lia).
  assert (H5 : forall n c, respostaContrato env n <> Resposta c)
    by (intros n c E; inversion E).
  assert (H6 : quantos eBotParado s' = quantos eBotParado s) by (vm_compute; reflexivity).
  destruct (@auth_failure_retry_bounded _ _ log_approx stakeFixo env 5%Z 42%Z H0)
    as (T1 & T2 & T3 & T4 & T5).
  split; [split; [exact H1 | split; [exact H2 | exact H6]]|].
  split; [exact (T1 s H1 H2)|].
  split; [exact (T2 7%nat s H3)|].
  split; [exact (T3 (Some 42%Z) (vigiar env 5 7 s) H4)|].
  pose proof (T4 evs s H5 H3) as A. cbv zeta in A. destruct A as (A1 & A2).
  destruct (A2 H6) as (A3 & A4).
  split; [split; [exact A1 | split; [exact A3 | exact A4]]|].
  exact (T5 6%Z s').
Defined.

(** C3, as stated, fails: with the contract 42 pending and a broker that
    refuses every status request, each stop sets the retry counter back to
    0, and three watchdog firings separated by two stops request 6
    authorizations for the same contract, which is still pending. *)
Lemma stop_renews_retry_budget :
  let evs := [EvWatchdog 1; EvStop 2; EvWatchdog 3; EvStop 4; EvWatchdog 5] in
  let s' := executar log_approx stakeFixo corretoraSemAutorizacao evs estadoComContrato in
  (lastContractId estadoComContrato = Some 42%Z
   /\ quantos eApiAuthorize estadoComContrato = 0%nat)
  /\ quantos eApiAuthorize s' = 6%nat
  /\ quantos eApiOpenContract s' = 6%nat
  /\ lastContractId s' = Some 42%Z.
Proof. vm_compute. repeat split. Qed.

(** A history of 50 prices, a tick on the full window, a tick on a window
    of 49 prices; a tick that meets a balance of 0.20 with a signal on the
    window; a tick while the bot is not running; and a run of events. *)
Lemma tick_window_bounded_witness :
  let h := aoTick log_approx stakeFixo 0 false (History (Some (repeat 100 50))) estadoInicial in
  let t50 := aoTick log_approx stakeFixo 1 false (Tick (Some 101)) estadoJanela50 in
  let t49 := aoTick log_approx stakeFixo 1 false (Tick (Some 101)) estadoJanela49 in
  let tb := aoTick log_approx stakeFixo 1 false (Tick (Some 150)) estadoSaldoBaixo in
  let tp := aoTick log_approx stakeFixo 1 false (Tick (Some 150)) estadoParado in
  let evs := [EvTicks 0 false (History (Some (repeat 100 50)));
              EvTicks 1 false (Tick (Some 101)); EvCompra (Some 42%Z);
              EvTicks 2 true (Tick (Some 102)); EvStop 3] in
  (botRunning estadoInicial = true /\ botRunning estadoJanela50 = true
   /\ botRunning estadoJanela49 = true /\ botRunning estadoParado = false
   /\ (50 <= length (janela estadoJanela50))%nat
   /\ In (AlertaCritico 0.2) (snd tb))
  /\ janela (fst h) = repeat 100 50
  /\ janela (fst t50) = tl (janela estadoJanela50) ++ [101]
  /\ length (tl (janela estadoJanela50) ++ [101]) = length (janela estadoJanela50)
  /\ janela (fst t49) = janela estadoJanela49
  /\ janela (fst tb) = []
  /\ janela (fst tp) = janela estadoParado
  /\ (length (janela (executar log_approx stakeFixo corretoraAberto evs estadoInicial))
      <= 50)%nat.
Proof.
  cbv zeta.
  assert (H1 : botRunning estadoInicial = true) by reflexivity.
  assert (H2 : botRunning estadoJanela50 = true) by reflexivity.
  assert (H3 : (50 <= length (janela estadoJanela50))%nat) by (vm_compute; lia).
  assert (H4 : (length (janela estadoInicial) <= 50)%nat) by (vm_compute; lia).
  assert (H5 : botRunning estadoJanela49 = true) by reflexivity.
  assert (H6 : botRunning estadoParado = false) by reflexivity.
  assert (H7 : In (AlertaCritico 0.2)
                 (snd (aoTick log_approx stakeFixo 1 false (Tick (Some 150)) estadoSaldoBaixo)))
    by (vm_compute; left; reflexivity).
  assert (N1 : forall saldo,
             ~ In (AlertaCritico saldo)
                 (snd (aoTick log_approx stakeFixo 0 false (History (Some (repeat 100 50)))
                         estadoInicial)))
    by (clear; intros saldo Hin; vm_compute in Hin; exact Hin).
  assert (N2 : forall saldo,
             ~ In (AlertaCritico saldo)
                 (snd (aoTick log_approx stakeFixo 1 false (Tick (Some 101)) estadoJanela50)))
    by (clear; intros saldo Hin; vm_compute in Hin; exact Hin).
  assert (N3 : forall saldo,
             ~ In (AlertaCritico saldo)
                 (snd (aoTick log_approx stakeFixo 1 false (Tick (Some 101)) estadoJanela49)))
    by (clear; intros saldo Hin; vm_compute in Hin; exact Hin).
  destruct (@tick_window_bounded _ _ log_approx stakeFixo) as (T1 & T2 & T3).
  split; [split; [exact H1 | split; [exact H2 | split; [exact H5 | split; [exact H6 |
            split; [exact H3 | exact H7]]]]]|].
  split; [exact (proj1 (T1 0%Z false (History (Some (repeat 100 50))) estadoInicial) H1 N1)|].
  split.
  { pose proof (proj1 (T1 1%Z false (Tick (Some 101)) estadoJanela50) H2 N2) as A.
    rewrite A. apply Nat.leb_le in H3. rewrite H3. reflexivity. }
  split; [exact (T2 (Some 101) estadoJanela50 H3)|].
  split.
  { pose proof (proj1 (T1 1%Z false (Tick (Some 101)) estadoJanela49) H5 N3) as A.
    rewrite A. reflexivity. }
  split; [exact (proj1 (proj2 (T1 1%Z false (Tick (Some 150)) estadoSaldoBaixo)) 0.2 H7)|].
  split; [exact (proj2 (proj2 (T1 1%Z false (Tick (Some 150)) estadoParado)) H6)|].
  apply (T3 corretoraAberto _ estadoInicial H4).
  intros a uf p [E|[E|[E|[E|[E|[]]]]]]; inversion E. vm_compute. lia.
Defined.

(** C9, as stated, fails: a tick that arrives while the window holds 49
    prices is not appended, the window is left as it was; a history message
    replaces the window by whatever it carries, 51 prices here; and a tick
    that arrives on a full window when the balance has fallen below the
    stake leaves the window empty, the bot having stopped its streams. *)
Lemma short_window_drops_tick :
  (length (janela estadoJanela49) = 49%nat
   /\ janela (aoReceberTicks 1 (Tick (Some 101)) estadoJanela49) = janela estadoJanela49)
  /\ length (janela (aoReceberTicks 0 (History (Some (repeat 100 51))) estadoInicial))
     = 51%nat
  /\ (janela (fst (aoTick log_approx stakeFixo 1 false (Tick (Some 101)) estadoJanela49))
      = janela estadoJanela49
      /\ length (janela (fst (aoTick log_approx stakeFixo 0 false
                                (History (Some (repeat 100 51))) estadoInicial)))
         = 51%nat)
  /\ (length (janela estadoSaldoBaixo) = 50%nat
      /\ botRunning estadoSaldoBaixo = true
      /\ janela (fst (aoTick log_approx stakeFixo 1 false (Tick (Some 150)) estadoSaldoBaixo))
         = []).
Proof. vm_compute. repeat split. Qed.

End HandlerRuns.
